(* ===== verification/_CoqProject ===== *)
-Q . S2P
Prelude.v
Interfaces.v
Config.v
ArgParse.v
Evaluate.v
EvalData.v
Sampler.v
Controller.v
ControllerSpec.v
Termination.v
Scenarios.v
Logging.v
PrintFormat.v
Program.v
DataIndex.v
Process.v
