(* ===== verification/Prelude.v ===== *)
(** * A verification library for the sequential-recommendation trainer

    Program: [src/AutoInt/sequentialRec/neural/train.py], the training
    driver of a sequential recommender (TensorFlow).  It parses its
    configuration (lines 18-50), builds a sampler of training batches
    ([Sampler], sampler.py), the validation batches ([prepare_eval_test],
    utils.py) and the model ([NeuralSeqRecommender], model.py), and runs
    [main()] (lines 94-152): an endless loop that fetches a batch, takes an
    optimiser step, logs the mean loss every [log_interval] steps and,
    every [eval_interval] steps, evaluates on the validation batches
    ([evaluate], lines 77-92), halves the learning rate (floor 1e-6) when
    the validation hit did not improve on the previous one, writes a
    checkpoint when it did, and stops after three non-improving
    evaluations in a row.  Any [Exception] in the loop is printed, the
    sampler closed and the process exits with status 1.

    ** Files (in dependency order)
    - [Prelude.v] (this file): the semantics of the Python the driver
      uses.  [exn] lists the exceptions it can observe ([is_Exception]
      separates [Exception] from [KeyboardInterrupt] and [SystemExit];
      the [OSError]s of [os.mkdir] and the [ImportError] of a relative
      import are among them); [res] is a value or a raised exception;
      [PyM S A] is the state and exception monad in which a raised
      exception keeps the mutations made before it, with [try_except]
      for [try/except Exception].  [py_mod], [py_truediv], [py_max] and
      [nth_last] are [%], float [/], [max] and [l[-k]] with their
      [ZeroDivisionError]/[IndexError].  [pyfloat] is a float that can be
      [nan] or [inf], with [pf_le] (IEEE [<=], false on [nan]) and
      [np_div] (numpy's division: [0/0] is [nan], [a/0] an infinity).
      The reasoning layer: [res_rel], [qpair_eq], [pf_eq] and
      [pfpair_eq] (results up to [Qeq], with [Equivalence] and [Proper]
      instances), [qsum] lemmas, [preserves]/[keeps] (a computation keeps
      a preorder or an invariant on every path) with the [pym_preserve]
      tactic and the [pym] hint base, and [qlra] ([lra] after rewriting
      halvings).
    - [Interfaces.v]: the data the driver exchanges ([Batch], [EvalBatch])
      and the interfaces it is proved against: [RecModel] (the two
      [sess.run] calls), [RowMetrics] (the metric graph sums per-row
      contributions bounded by the row's targets) and [BatchSource]
      ([train_sampler.next_batch()] / [close()]).
    - [Config.v]: [Args.t] and [default_args] (the argparse namespace and
      its defaults), [checkpoint_dir] (line 67, parametrised by the printing
      of floats), with the split/join round trip and a collision of two
      datasets on one directory (lemmas).
    - [ArgParse.v]: [parser.parse_args()] (lines 18-50) on CPython 3.11's
      argparse: the option table ([parser_actions],
      [option_string_actions]), [int()]/[float()] on strings ([py_int]
      with the 4300-digit limit, [py_float]), the classification of the
      tokens ([parse_optional]: exact options, [--opt=value],
      abbreviations, negative numbers, [--]), the consumption loop
      ([consume_optional] with the [-hh] chaining of [explicit_loop],
      [take_action], extras) and [parse_args]; [to_args] reads the
      namespace as [Args.t]; theorems C28-C31.
    - [Evaluate.v]: [evaluate] (lines 77-92) as a fold over the batches
      ([evaluate_batch], [evaluate_loop]) whose sums become numpy scalars
      after the first batch, and the final divisions ([acc_div]);
      theorems C4-C7; a concrete ranker ([ToyRanker]) for the witnesses.
    - [EvalData.v]: [prepare_eval_test] (utils.py, modelled from spec
      §4.3): windows padded or truncated to [max_test_len], rows cut into
      chunks of the batch size by well-founded recursion (Equations);
      theorems C16-C18.
    - [Sampler.v]: the sampler pool (sampler.py, modelled from spec §4.2,
      §5, §7): rejection sampling of negatives with bounded retries
      ([sample_neg]), samples and batches ([sample_one], [make_batch]),
      the pool state [Pool] with its step relation [pool_step] (a worker
      pushes when the queue has room, the consumer pops, [close()]) and
      the executable dispatcher [pool_next_batch], an instance of
      [BatchSource]; theorems C19, C20, C22.
    - [Controller.v]: [main] (lines 94-152).  [TrainState] holds the
      global [lr], the locals of [main], the session parameters, the
      sampler and the output ([event]: prints, checkpoint writes, sampler
      close).  One definition per block of the loop body: [fetch_batch]
      (109), [train_step] (110-116), [log_block] (117-124),
      [decide_block] (135-141), [eval_block] (126-146), composed as
      [iteration]; [main_loop] is [while True] with fuel; [main_body] and
      [main] add the [try/except] and both exit paths; theorems C11 (no
      validation target: the loop never stops), C13 (the
      [--log_interval 0] configuration error), C14 (the loop reads only
      [dropout], [log_interval] and [eval_interval]) and C21 (the printed
      mean loss lies in the range of the step losses).
    - [ControllerSpec.v]: the abstract description of spec §4.5 as
      functions of the validation history ([nonimp_flags],
      [count_nonimp], [trailing_nonimp], the closed form [lr_closed] of
      the learning rate), the invariant [ctrl_inv], the step relation
      [ctrl_step] on [phase] (RUNNING / STOPPED_CONVERGED / STOPPED_ERROR)
      with [reachable]; where [main] writes its checkpoints
      ([saves_into]); theorems C1-C3, C8-C10.
    - [Termination.v]: how much fuel is enough: [main_loop] abstracted to
      what the decision reads ([abs_of], one pass = one [abs_step]) and
      the abstract passes counted; theorems C23 and C27.
    - [Scenarios.v]: a scripted model and sampler under which [main]
      computes; the witnesses of the controller theorems, the checkpoint
      that is not the best model (a lemma) and C12 (an alternating
      validation score never stops the loop).
    - [Logging.v]: the clock of [main]: [Clock] ([start_time], the
      number of [time.time()] calls, the ms/batch values printed), the
      timed blocks [log_block_t] (lines 117-124), [eval_block_t]
      (126-146), [iteration_t], [main_loop_t], [main_body_t] (105-152)
      and [main_t], which run the untimed blocks of Controller.v on the
      first component of [TrainState * Clock]; the wall clock is a
      parameter [now st k]; theorems C35 and C36.
    - [PrintFormat.v]: the text of the prints: the fields [{:10d}]
      ([format_d]) and [{:w.pf}]/[{:0w.pf}] ([format_f] over
      [fixed_digits], rounding half to even as CPython does, [format_pf]
      for [nan] and [inf]), the lines of 106, 120-121, 129-132, 143 and
      152 ([train_line], [eval_lines], [event_lines]) and the
      [transcript] of a run, each training line with its ms/batch value
      from the [Clock]; its round trips are lemmas.
    - [Program.v]: the module body (lines 50-76: [module_setup], over the
      interfaces [DataLoader] for [data_generator] and [ModelInit] for the
      model) and the [__main__] block (lines 153-157: [run_module], the
      checkpoint directory then [main()]), over a file system [fsys] of
      directories (with a write permission) and files, [os_mkdir] raising
      the [OSError]s of [os.mkdir]; an importer calling [main()]
      ([import_and_main]); [main] run with the pool of Sampler.v;
      theorems C15, C24, C25, C26.
    - [DataIndex.v]: [data_generator] (utils.py, modelled from spec §3,
      §4.1) on the parsed source: [DataError] for a malformed source or a
      user of fewer than three interactions, the leave-one-out split
      ([train_part], [val_instance], [test_instance]), [n_items] and
      [n_users]; [index_loader] is its [DataLoader] instance; theorems
      C33, C34.
    - [Process.v]: the whole process: [run_script] is [python train.py
      argv] ([AsFile]: the relative import fails) or [python -m
      <package>.train argv] ([AsModule]: [parse_args], [to_args], the
      module body over the index and the [__main__] block), with
      [exit_status] the status of the process (C32); the witness of C14
      (two values of [--epochs], same run).

    ** How the parts interact
    [parse_args] (ArgParse.v) gives the namespace that [to_args] reads as
    the [Args.t] every other part takes.  [module_setup] loads the data
    through [DataLoader] (the index of DataIndex.v) and builds the pool
    ([init_pool]), the validation batches ([prepare_eval_test]) and the
    checkpoint directory name; run as a script, the [__main__] block
    creates that directory and calls [main], which takes them through
    [init_state] ([main_of_globals]); each pass of its loop calls [next_batch]
    of the [BatchSource] instance (the pool's [pool_next_batch]) and the
    [RecModel] graph, [evaluate] on the validation batches, and [close]
    ([close_pool]) on its exits.  The controller theorems are proved
    against the interfaces, so they hold for the pool and for the
    scripted sampler of Scenarios.v alike.

    ** What the theorems show
    - Controller (C1-C3, C8-C10, C13, C23, C27): every reachable state
      agrees with the abstract description (learning rate
      [max(lr0/2^k, 1e-6)] after [k] non-improving evaluations, counter =
      trailing run of non-improvements, one checkpoint per improvement,
      sampler open); the learning rate stays in [[1e-6, lr0]]; the
      controller converges exactly at three non-improvements in a row;
      [main_loop] implements the step relation (both directions); the
      spec §8 decay scenario; every exit path of [main] (status 0 after
      closing once, status 1 after closing once, or a [BaseException]
      leaving the sampler open); [--log_interval 0] exits with status 1 at
      the first step; once the validation hit stalls the loop breaks
      within [(3 - k) * eval_interval] passes, at an exactly known pass
      (C23), and from the start with a constant score after exactly
      [4 * eval_interval] passes (C27).
    - What the code does that the spec does not expect (C11, C12, C15):
      a validation set without targets makes every score [nan], which
      never compares, so the loop never stops and writes a checkpoint at
      every evaluation; an alternating score never stops it either; a
      [--data] holding a ['/'] makes [os.mkdir] fail before training.
    - Evaluation (C4-C7, C16-C18): [evaluate] is the micro-average over
      all targets, [nan] when the batches hold none, [ZeroDivisionError]
      when there is no batch; it is invariant under regrouping and
      reordering of the rows into (non-empty) lists of batches; both
      metrics are in [0, 1] when there is a target; its exceptions come
      from the metric graph or the empty source.  [prepare_eval_test]
      keeps every row in order, makes [ceil(n / batch_size)] batches of
      padded windows, and the metrics do not depend on its batch size.
    - Sampler (C19, C20, C22): under any interleaving the queue stays
      within its capacity and holds only well-formed batches (windows of
      [max_len], [neg_size] negatives in range and different from the
      positive at their position); [close()] is idempotent and joins each
      worker once; the dispatcher returns a well-formed batch or fails
      only by exhausted rejection sampling (its refinement of the step
      relation and the spec §8 scenario of 1000 batches are lemmas).
    - Program (C24-C26): run as a script, train.py creates the
      checkpoint directory (idempotently, a lemma) and then trains, every
      checkpoint going into that directory, or raises the [OSError] of
      [os.mkdir] when the parent is missing, a file or read-only;
      imported, it creates no directory though [main] writes every
      checkpoint into it; with the pool, both orderly exits of [main]
      join every worker exactly once.
    - Logging (C21, C35, C36): every printed mean loss lies in the range
      of the step losses; for a clock where a training step takes [c]
      seconds, every printed ms/batch lies in
      [[1000 c / log_interval, 1000 c]], and is [1000 c] exactly when
      [eval_interval] is a multiple of [log_interval], because the reset
      of [start_time] after an evaluation (line 146) keeps the evaluation
      out of the window (and shortens the window otherwise).
    - Command line (C28-C31): [parse_args] returns or exits with status 2
      or 0, nothing else; every option holds its default, a value of its
      type, or the [[]] of [--opt=--]; [--<int option> str(z)] stores [z]
      up to 4300 digits and exits with status 2 beyond; an unambiguous
      abbreviation is the full option; [-h] exits 0 after stray tokens
      and no arguments give [Config.default_args] (lemmas).
    - Dataset index (C33, C34): with the index as [data_generator], the
      module body partitions every sequence in source order between the
      pool, the validation rows and the test instances; every id lies in
      [[0, n_users)] and [[1, n_items]] for the sizes the pool and the
      model are built with; it fails exactly on malformed or short
      sources, with [DataError], before building anything (a lemma).
    - Options read (C14, Controller.v) and the process (C32, Process.v):
      two configurations that agree on [dropout], [log_interval] and
      [eval_interval] give the same run of [main], so [--epochs] is never
      read; [python train.py] exits with status 1 at the relative import;
      run as a module, train.py ends with status 2 (usage) or 0 ([-h])
      before anything runs, 1 on a [DataError] with the file system
      untouched, 1 on an [OSError] of [os.mkdir], or as [main()] ends,
      after creating the checkpoint directory.

    ** Modelling choices, bounds and fuel
    - Python floats are exact rationals [Q]: the driver's arithmetic on
      them is sums, one division by a count, halving (exact in binary
      floating point) and comparisons; rounding of the sums is not
      modelled (spec §8 allows a tolerance for the metrics).  The results
      of [evaluate] are [pyfloat]s, because numpy's division of its
      scalars by a zero count gives [nan] or [inf], and the comparison
      of line 135 is IEEE's.  Python ints are [Z] (unbounded, as in
      Python); the early-stop counter is [nat].
    - [while True] runs with a fuel bound ([main_loop]); results about
      termination are stated for all fuel or through the step relation,
      whose reachability does not depend on fuel (C8); C23 and C27 give
      the exact fuel after which the loop has broken, and show it runs
      out of fuel with less.  Rejection sampling is bounded by
      [max_retries] draws per negative, as spec §7 asks; the chunking of
      [prepare_eval_test] is well-founded recursion, total.
    - argparse is modelled from CPython 3.11's [argparse.py] and checked
      against it on 835 generated command lines; strings are ASCII; the
      help and usage texts are not modelled, only the exit statuses.
    - Collaborators outside [src/] (sampler.py, utils.py, model.py) are
      modelled from the spec (the pool, [prepare_eval_test]) or enter
      through classes ([RecModel], [RowMetrics], [DataLoader],
      [ModelInit]) whose laws are taken from the spec.  The sampler's
      random generator is a parameter (numpy's is not modelled; a linear
      congruential generator drives the concrete runs).
      [tf.set_random_seed] is not modelled.  The prints are kept as events
      with their values, the ms/batch values in the [Clock] of Logging.v,
      and rendered as text by PrintFormat.v; [str(e)] of line 148 is a
      parameter (the messages of the exceptions are not modelled) and the
      module-level prints of lines 69-71 stay events ([print(args)] is
      the [repr] of an argparse namespace).
    - [time.time()] is a parameter [now st k] (the [k]-th read in state
      [st]): the refinement lemma [main_timed_refines] holds for every
      clock; C35 and C36 assume a clock that advances by [c] per training
      step and by [ce] per evaluation (the length of [all_val_hit] counts
      them), the clock under which ms/batch has a right answer.
    - The file system is a list of paths, each a directory with a write
      permission flag or a file; ["."] is the working directory.  Paths
      are not normalised ([a//b], [..]) and permissions are the one flag.

    ** Not modelled
    - the neural model itself (model.py) beyond its [sess.run] interface
      and the per-row metric law, which spec §1 puts out of scope; the
      session creation and variable initialisation of [main] (lines
      96-100) are assumed to succeed;
    - [model.saver.save] of line 141 is an event that always succeeds:
      the error TensorFlow raises when the checkpoint's directory is
      missing (an importer that calls [main()], C25), which the [except]
      of line 147 would turn into status 1, is not modelled;
    - reading and parsing the dataset files (I/O): [DataIndex.load]
      starts from the parsed per-user sequences;
    - the processes of the sampler beyond their interleaving: the pool
      relation allows any order of pushes, pops and [close()], which is
      what spec §5 promises; where [next_batch()] on a closed, drained
      pool would block for ever, [pool_next_batch] raises [SamplerError]
      (the controller never calls it after [close()]);
    - the imports (lines 7-16) other than the failure of the relative
      one under [python train.py], and the values the namespace can hold
      that [Args.t] does not represent (an infinite or NaN float, the
      [[]] of [--opt=--]): [to_args] returns [None] and [run_script]
      [Unrepresented] for them;
    - Python floats as binary64: they are rationals throughout, with
      [nan] and [inf] only where numpy's division produces them.
*)

From Stdlib Require Import List ZArith QArith Qminmax Lqa Lia String Morphisms
  RelationClasses Setoid.
Import ListNotations.

(** ** Python exceptions and the exception/result type *)

(** The exceptions the driver can observe.  [KeyboardInterrupt] and
    [SystemExit] (raised by [exit(code)]) are [BaseException]s that are not
    [Exception]s: the driver's [except Exception] clause does not catch
    them. *)
Inductive exn : Type :=
| ZeroDivisionError
| IndexError
| ValueError
| DataError (msg : string)
| TFError (msg : string)
| SamplerError (msg : string)
| FileNotFoundError
| NotADirectoryError
| PermissionError
| FileExistsError
| ImportError
| KeyboardInterrupt
| SystemExit (code : Z).

Definition is_Exception (e : exn) : bool :=
  match e with
  | KeyboardInterrupt | SystemExit _ => false
  | _ => true
  end.

(** The outcome of a Python expression: a value, or a raised exception. *)
Inductive res (A : Type) : Type :=
| Ok (a : A)
| Raise (e : exn).
Arguments Ok {A} a.
Arguments Raise {A} e.

(** ** A monad class, with the error monad and the state-and-exception monad *)

Class Monad (M : Type -> Type) : Type := {
  ret : forall {A}, A -> M A;
  bind : forall {A B}, M A -> (A -> M B) -> M B
}.

Declare Scope py_scope.
Delimit Scope py_scope with py.

Notation "x <- c ;; k" := (bind c (fun x => k))
  (at level 61, c at next level, right associativity) : py_scope.
Notation "' p <- c ;; k" := (bind c (fun x => match x with p => k end))
  (at level 61, p pattern, c at next level, right associativity) : py_scope.
Notation "c ;; k" := (bind c (fun _ => k))
  (at level 61, right associativity) : py_scope.

Open Scope py_scope.

#[export] Instance Monad_res : Monad res := {
  ret _ a := Ok a;
  bind _ _ c k := match c with Ok a => k a | Raise e => Raise e end
}.

(** [PyM S A]: a computation over the mutable state [S] of a Python
    program.  As in Python, the mutations made before an exception is
    raised survive it: the state is returned on both outcomes. *)
Definition PyM (S A : Type) : Type := S -> res A * S.

#[export] Instance Monad_PyM (S : Type) : Monad (PyM S) := {
  ret _ a := fun s => (Ok a, s);
  bind _ _ c k := fun s =>
    match c s with
    | (Ok a, s') => k a s'
    | (Raise e, s') => (Raise e, s')
    end
}.

Section PyMOps.
Context {S : Type}.

Definition get : PyM S S := fun s => (Ok s, s).
Definition put (s : S) : PyM S unit := fun _ => (Ok tt, s).
Definition modify (f : S -> S) : PyM S unit := fun s => (Ok tt, f s).
Definition raise {A} (e : exn) : PyM S A := fun s => (Raise e, s).

(** Evaluate a side-effect-free Python expression inside a statement. *)
Definition lift {A} (r : res A) : PyM S A := fun s => (r, s).

(** [try: c  except Exception as e: h e]: the handler runs on the
    state the failed block left; a [BaseException] that is not an
    [Exception] propagates. *)
Definition try_except {A} (c : PyM S A) (h : exn -> PyM S A) : PyM S A :=
  fun s =>
    match c s with
    | (Raise e, s') => if is_Exception e then h e s' else (Raise e, s')
    | r => r
    end.
End PyMOps.

(** ** Python arithmetic on the driver's numbers

    Python floats are modelled by exact rationals [Q] (see the header);
    Python ints by [Z]. *)

(** [a % b] on ints: floor modulo, which is [Z.modulo]; [ZeroDivisionError]
    when [b = 0]. *)
Definition py_mod (a b : Z) : res Z :=
  if (b =? 0)%Z then Raise ZeroDivisionError else Ok (a mod b)%Z.

(** [a / b] on floats: [ZeroDivisionError] when [b == 0.0]. *)
Definition py_truediv (a b : Q) : res Q :=
  if Qeq_bool b 0 then Raise ZeroDivisionError else Ok (a / b).

(** [max(a, b)]: the first argument unless the second is strictly larger. *)
Definition py_max (a b : Q) : Q :=
  if Qle_bool b a then a else b.

(** [l[-k]] for [k >= 1]; [IndexError] when [len(l) < k]. *)
Definition nth_last {A} (l : list A) (k : nat) : res A :=
  match nth_error (rev l) (k - 1) with
  | Some x => Ok x
  | None => Raise IndexError
  end.

(** ** Floats that may be [nan] or infinite

    A [pyfloat] is a float value as numpy computes it: finite (an exact
    rational), [nan], or [inf] ([Inf false]) / [-inf] ([Inf true]).  The
    accumulators of [evaluate] become numpy scalars after the first batch
    (line 85 adds what [sess.run] returns), and numpy's [/] by zero gives
    [nan] or an infinity, with a RuntimeWarning, where Python's raises. *)
Inductive pyfloat : Type :=
| Fin (q : Q)
| NaN
| Inf (neg : bool).

(** IEEE [a <= b]: [False] as soon as one side is [nan]. *)
Definition pf_le (a b : pyfloat) : bool :=
  match a, b with
  | NaN, _ | _, NaN => false
  | Inf true, _ => true
  | _, Inf false => true
  | Inf false, _ => false
  | _, Inf true => false
  | Fin x, Fin y => Qle_bool x y
  end.

(** numpy's [a / b] on float64: [nan] for [0/0], an infinity of the sign
    of [a] for [a/0] (the counts divided by are sums of non-negative
    target counts, so a zero divisor is [+0.0]). *)
Definition np_div (a b : Q) : pyfloat :=
  if Qeq_bool b 0 then
    if Qeq_bool a 0 then NaN else Inf (Qle_bool a 0)
  else Fin (a / b).

(** Float values compared as floats: finite ones by [Qeq], [nan] with
    [nan] (as the same value, not by [==]), infinities by sign. *)
Definition pf_eq (x y : pyfloat) : Prop :=
  match x, y with
  | Fin a, Fin b => a == b
  | NaN, NaN => True
  | Inf s, Inf t => s = t
  | _, _ => False
  end.

(** [sum(l)] on floats, accumulated from the left as a Python loop does. *)
Definition qsum (l : list Q) : Q := fold_left Qplus l 0.

(** ** Results up to an equivalence on values

    Rationals are compared by [Qeq]; two results agree when both are
    values related by [R] or both raise the same exception. *)
Definition res_rel {A} (R : A -> A -> Prop) (r1 r2 : res A) : Prop :=
  match r1, r2 with
  | Ok a, Ok b => R a b
  | Raise e1, Raise e2 => e1 = e2
  | _, _ => False
  end.

#[export] Instance res_rel_Equivalence {A} (R : A -> A -> Prop) `{Equivalence A R} :
  Equivalence (res_rel R).
Proof.
  split.
  - intros [a|e]; simpl; reflexivity.
  - intros [a|e] [b|f]; simpl; intros; try contradiction; now symmetry.
  - intros [a|e] [b|f] [c|g]; simpl; intros; try contradiction; etransitivity; eauto.
Qed.

(** Pairs of floats compared componentwise. *)
Definition qpair_eq (x y : Q * Q) : Prop := fst x == fst y /\ snd x == snd y.

#[export] Instance qpair_eq_Equivalence : Equivalence qpair_eq.
Proof.
  unfold qpair_eq. split.
  - intros [a b]; simpl; split; reflexivity.
  - intros [a b] [c d]; simpl; intros [H1 H2]; split; now symmetry.
  - intros [a b] [c d] [e f]; simpl; intros [H1 H2] [H3 H4]; split; etransitivity; eauto.
Qed.

#[export] Instance pf_eq_Equivalence : Equivalence pf_eq.
Proof.
  split.
  - intros [a| |s]; simpl; reflexivity || exact I.
  - intros [a| |s] [b| |t]; simpl; intros; try contradiction; auto. now symmetry.
  - intros [a| |s] [b| |t] [c| |u]; simpl; intros; try contradiction; auto.
    + etransitivity; eauto.
    + congruence.
Qed.

(** Pairs of float values compared componentwise. *)
Definition pfpair_eq (x y : pyfloat * pyfloat) : Prop := pf_eq (fst x) (fst y) /\ pf_eq (snd x) (snd y).

#[export] Instance pfpair_eq_Equivalence : Equivalence pfpair_eq.
Proof.
  unfold pfpair_eq. split.
  - intros [a b]; simpl; split; reflexivity.
  - intros [a b] [c d]; simpl; intros [H1 H2]; split; now symmetry.
  - intros [a b] [c d] [e f]; simpl; intros [H1 H2] [H3 H4]; split; etransitivity; eauto.
Qed.

#[export] Instance np_div_Proper : Proper (Qeq ==> Qeq ==> pf_eq) np_div.
Proof.
  intros a a' Ha b b' Hb. unfold np_div. rewrite Hb, Ha.
  destruct (Qeq_bool b' 0); [destruct (Qeq_bool a' 0)|]; simpl; [exact I| |now rewrite Ha, Hb].
  destruct (Qle_bool a 0) eqn:E1, (Qle_bool a' 0) eqn:E2; try reflexivity; exfalso.
  - apply Qle_bool_iff in E1. rewrite Ha in E1. apply Qle_bool_iff in E1. congruence.
  - apply Qle_bool_iff in E2. rewrite <- Ha in E2. apply Qle_bool_iff in E2. congruence.
Qed.

#[export] Instance py_truediv_Proper : Proper (Qeq ==> Qeq ==> res_rel Qeq) py_truediv.
Proof.
  intros a a' Ha b b' Hb. unfold py_truediv. rewrite Hb.
  destruct (Qeq_bool b' 0); simpl; [reflexivity | now rewrite Ha, Hb].
Qed.

(** ** Shared lemmas *)

Lemma bind_res_Ok {A B} (a : A) (k : A -> res B) : (x <- Ok a ;; k x) = k a.
Proof. reflexivity. Qed.

Lemma bind_res_Raise {A B} (e : exn) (k : A -> res B) :
  (x <- Raise e ;; k x) = Raise e.
Proof. reflexivity. Qed.

(** Whether a result is a value, and the value (or a default). *)
Definition is_ok {A} (r : res A) : bool := match r with Ok _ => true | Raise _ => false end.
Definition res_get {A} (d : A) (r : res A) : A := match r with Ok a => a | Raise _ => d end.

(** A computation known to return by evaluating [is_ok] returns
    [res_get]: the way to name the result of a concrete run whose value
    holds closures that [vm_compute] should not normalise. *)
Lemma res_get_ok {A} (d : A) (r : res A) : is_ok r = true -> r = Ok (res_get d r).
Proof. destruct r; [reflexivity|discriminate]. Qed.

Lemma py_mod_ok a b : b <> 0%Z -> py_mod a b = Ok (a mod b)%Z.
Proof. intros H. unfold py_mod. destruct (Z.eqb_spec b 0); [contradiction | reflexivity]. Qed.

Lemma py_mod_zero a : py_mod a 0 = Raise ZeroDivisionError.
Proof. reflexivity. Qed.

Lemma py_truediv_ok a b : ~ b == 0 -> py_truediv a b = Ok (a / b).
Proof.
  intros H. unfold py_truediv.
  destruct (Qeq_bool b 0) eqn:E; [apply Qeq_bool_eq in E; contradiction | reflexivity].
Qed.

Lemma py_truediv_zero a b : b == 0 -> py_truediv a b = Raise ZeroDivisionError.
Proof. intros H. unfold py_truediv. now rewrite (Qeq_eq_bool _ _ H). Qed.

Lemma py_max_spec a b : py_max a b == Qmax a b.
Proof.
  unfold py_max. destruct (Qle_bool b a) eqn:E.
  - apply Qle_bool_iff in E. now rewrite Q.max_l.
  - assert (a <= b) by (apply Qnot_lt_le; intro H; apply Qlt_le_weak in H;
                         apply Qle_bool_iff in H; congruence).
    now rewrite Q.max_r.
Qed.

Lemma py_max_ge_r a b : b <= py_max a b.
Proof. rewrite py_max_spec. apply Q.le_max_r. Qed.

Lemma py_max_ge_l a b : a <= py_max a b.
Proof. rewrite py_max_spec. apply Q.le_max_l. Qed.

Lemma nth_last_snoc_1 {A} (l : list A) (x : A) : nth_last (l ++ [x]) 1 = Ok x.
Proof. unfold nth_last. now rewrite rev_app_distr. Qed.

Lemma nth_last_snoc_2 {A} (l : list A) (x : A) :
  nth_last (l ++ [x]) 2 = nth_last l 1.
Proof. unfold nth_last. now rewrite rev_app_distr. Qed.

Lemma nth_last_1_nil {A} : @nth_last A [] 1 = Raise IndexError.
Proof. reflexivity. Qed.

Lemma fold_left_Qplus_acc (l : list Q) (a : Q) :
  fold_left Qplus l a == a + qsum l.
Proof.
  unfold qsum. revert a. induction l as [|x l IH]; intros a; simpl.
  - lra.
  - rewrite IH, (IH (0 + x)). lra.
Qed.

Lemma qsum_nil : qsum [] == 0.
Proof. reflexivity. Qed.

Lemma qsum_cons x l : qsum (x :: l) == x + qsum l.
Proof. unfold qsum at 1. simpl. rewrite fold_left_Qplus_acc. lra. Qed.

Lemma qsum_app l1 l2 : qsum (l1 ++ l2) == qsum l1 + qsum l2.
Proof.
  unfold qsum at 1. rewrite fold_left_app.
  rewrite fold_left_Qplus_acc. reflexivity.
Qed.

Create Rewrite HintDb pyres.
#[export] Hint Rewrite @bind_res_Ok @bind_res_Raise @nth_last_snoc_1
  @nth_last_snoc_2 : pyres.

From Stdlib Require Import Permutation.

Lemma qsum_perm (l1 l2 : list Q) : Permutation l1 l2 -> qsum l1 == qsum l2.
Proof.
  induction 1 as [| x l1 l2 _ IH | x y l | l1 l2 l3 _ IH1 _ IH2].
  - reflexivity.
  - rewrite !qsum_cons, IH. reflexivity.
  - rewrite !qsum_cons. lra.
  - now rewrite IH1.
Qed.

Lemma qsum_map_le {A} (f g : A -> Q) (l : list A) :
  (forall x, In x l -> f x <= g x) -> qsum (map f l) <= qsum (map g l).
Proof.
  induction l as [|x l IH]; intros Hle; simpl map.
  - apply Qle_refl.
  - rewrite !qsum_cons.
    apply Qplus_le_compat; [apply Hle; now left | apply IH; intros; apply Hle; now right].
Qed.

Lemma qsum_map_nonneg {A} (f : A -> Q) (l : list A) :
  (forall x, In x l -> 0 <= f x) -> 0 <= qsum (map f l).
Proof.
  induction l as [|x l IH]; intros H; simpl map.
  - apply Qle_refl.
  - rewrite qsum_cons.
    assert (0 <= f x) by (apply H; now left).
    assert (0 <= qsum (map f l)) by (apply IH; intros; apply H; now right).
    lra.
Qed.

(** Normalise sums over mapped and appended lists, then let [lra] close
    the arithmetic. *)
Ltac qsum_norm :=
  repeat (simpl map; rewrite ?map_app, ?qsum_app, ?qsum_nil, ?qsum_cons).

(** ** Reasoning about [PyM] computations

    [preserves R c]: whatever [c] does, including raising, the state it
    leaves is related to the state it started from.  With [R] a preorder
    this composes through [bind]. *)
Definition preserves {S A} (R : S -> S -> Prop) (c : PyM S A) : Prop :=
  forall s, R s (snd (c s)).

Section Preserves.
Context {S : Type} (R : S -> S -> Prop) `{PreOrder S R}.

Lemma preserves_bind {A B} (c : PyM S A) (k : A -> PyM S B) :
  preserves R c -> (forall a, preserves R (k a)) -> preserves R (bind c k).
Proof.
  intros Hc Hk s. simpl. specialize (Hc s).
  destruct (c s) as [[a|e] s'] eqn:E; simpl in *; [|exact Hc].
  etransitivity; [exact Hc | apply Hk].
Qed.

Lemma preserves_ret {A} (a : A) : preserves R (ret a).
Proof. intros s. simpl. reflexivity. Qed.

Lemma preserves_get : preserves R get.
Proof. intros s. reflexivity. Qed.

Lemma preserves_lift {A} (r : res A) : preserves R (lift r).
Proof. intros s. reflexivity. Qed.

Lemma preserves_raise {A} (e : exn) : preserves R (@raise S A e).
Proof. intros s. reflexivity. Qed.

Lemma preserves_modify (f : S -> S) : (forall s, R s (f s)) -> preserves R (modify f).
Proof. intros Hf s. apply Hf. Qed.

Lemma preserves_try_except {A} (c : PyM S A) (h : exn -> PyM S A) :
  preserves R c -> (forall e, preserves R (h e)) -> preserves R (try_except c h).
Proof.
  intros Hc Hh s. unfold try_except. specialize (Hc s).
  destruct (c s) as [[a|e] s'] eqn:E; simpl in *; [exact Hc|].
  destruct (is_Exception e); simpl; [|exact Hc]. etransitivity; [exact Hc|apply Hh].
Qed.
End Preserves.

Create HintDb pym.
#[export] Hint Resolve preserves_ret preserves_get preserves_lift preserves_raise : pym.

(** Decompose a [preserves] goal along the program text. *)
Ltac pym_preserve :=
  repeat match goal with
  | |- preserves _ (bind _ _) => apply preserves_bind; [typeclasses eauto | | intros ?]
  | |- preserves _ (try_except _ _) => apply preserves_try_except; [typeclasses eauto | | intros ?]
  | |- preserves _ (match ?x with pair _ _ => _ end) => destruct x
  | |- preserves _ (if ?b then _ else _) => destruct b
  | |- preserves _ (modify _) => apply preserves_modify; intros ?
  | |- preserves _ (ret _) => apply preserves_ret; typeclasses eauto
  | |- preserves _ get => apply preserves_get; typeclasses eauto
  | |- preserves _ (lift _) => apply preserves_lift; typeclasses eauto
  | |- preserves _ (raise _) => apply preserves_raise; typeclasses eauto
  | |- preserves _ _ => solve [eauto with pym]
  end.

(** [lra] reads [x * (1#2)] but not [x / 2]: rewrite halvings first. *)
Ltac half_norm :=
  repeat match goal with
  | |- context [?x / 2] => change (x / 2) with (x * (1 # 2))
  | H : context [?x / 2] |- _ => change (x / 2) with (x * (1 # 2)) in H
  end.

Ltac qlra := half_norm; lra.

#[export] Instance py_max_Proper : Proper (Qeq ==> Qeq ==> Qeq) py_max.
Proof. intros a a' Ha b b' Hb. rewrite !py_max_spec, Ha, Hb. reflexivity. Qed.

(** [keeps I c]: from a state satisfying [I], [c] leaves a state
    satisfying [I], whether it returns or raises. *)
Definition keeps {S A} (I : S -> Prop) (c : PyM S A) : Prop :=
  forall s, I s -> I (snd (c s)).

Lemma keeps_bind {S A B} (I : S -> Prop) (c : PyM S A) (k : A -> PyM S B) :
  keeps I c -> (forall a, keeps I (k a)) -> keeps I (bind c k).
Proof.
  intros Hc Hk s Hs. simpl. specialize (Hc s Hs).
  destruct (c s) as [[a|e] s']; simpl in *; [apply Hk|]; exact Hc.
Qed.

Lemma keeps_try_except {S A} (I : S -> Prop) (c : PyM S A) (h : exn -> PyM S A) :
  keeps I c -> (forall e, keeps I (h e)) -> keeps I (try_except c h).
Proof.
  intros Hc Hh s Hs. unfold try_except. specialize (Hc s Hs).
  destruct (c s) as [[a|e] s']; simpl in *; [exact Hc|].
  destruct (is_Exception e); [apply Hh|]; exact Hc.
Qed.

Lemma keeps_preserves {S A} (R : S -> S -> Prop) (I : S -> Prop) (c : PyM S A) :
  (forall s s', R s s' -> I s -> I s') -> preserves R c -> keeps I c.
Proof. intros HR Hc s Hs. exact (HR _ _ (Hc s) Hs). Qed.

Lemma bind_PyM_Ok_inv {S A B} (c : PyM S A) (k : A -> PyM S B) (s s' : S) (b : B) :
  bind c k s = (Ok b, s') -> exists a s1, c s = (Ok a, s1) /\ k a s1 = (Ok b, s').
Proof.
  simpl. destruct (c s) as [[a|e] s1]; [|discriminate]. intros Hk. eauto.
Qed.

Lemma bind_PyM_step {S A B} (c : PyM S A) (k : A -> PyM S B) (s s1 : S) (a : A) :
  c s = (Ok a, s1) -> bind c k s = k a s1.
Proof. intros Hc. simpl. now rewrite Hc. Qed.

Lemma preserves_run {S A} (R : S -> S -> Prop) (c : PyM S A) (s s' : S) (r : res A) :
  preserves R c -> c s = (r, s') -> R s s'.
Proof. intros Hc Hs. specialize (Hc s). rewrite Hs in Hc. exact Hc. Qed.
