(* ===== verification/Interfaces.v ===== *)
(** * The data the driver exchanges with its collaborators, and their interfaces

    [train.py] imports [Sampler] (sampler.py), [data_generator] and
    [prepare_eval_test] (utils.py) and [NeuralSeqRecommender] (model.py).
    This file fixes the shape of what flows between them and the driver:
    a training mini-batch ([cur_batch] of [train.py], a 4-tuple indexed
    1..3 there), an evaluation batch (indexed 1..2 in [evaluate]), and two
    interfaces as type classes:
    - [RecModel P]: the two [sess.run] calls the driver makes on the
      TensorFlow graph, over an abstract parameter state [P];
    - [BatchSource S]: [train_sampler.next_batch()] and [train_sampler.close()]
      over an abstract sampler state [S].
    The client theorems (Evaluate.v, Controller.v) are proved against
    these classes; concrete instances discharge them. *)

From Stdlib Require Import List ZArith QArith.
From S2P Require Import Prelude.
Import ListNotations.

(** A training mini-batch: [(user_ids, input_windows, positive_targets,
    negative_targets)], column-stacked; negatives are [neg_size] items per
    position of each window. *)
Record Batch : Type := mkBatch {
  batch_users : list Z;
  batch_inp : list (list Z);
  batch_pos : list (list Z);
  batch_neg : list (list (list Z))
}.

(** An evaluation batch: [(user_ids, input_windows, targets)]. *)
Record EvalBatch : Type := mkEvalBatch {
  eval_users : list Z;
  eval_inp : list (list Z);
  eval_pos : list Z
}.

(** The rows of an evaluation batch: one input window with its target. *)
Definition eval_rows (b : EvalBatch) : list (list Z * Z) :=
  combine (eval_inp b) (eval_pos b).

(** The graph of [NeuralSeqRecommender] as the driver runs it.
    - [train_run p batch lr dropout] is
      [sess.run([model.train_op, model.loss], feed_dict)] with the feed of
      lines 110-113: one optimiser update, returning the new parameters
      and the batch loss; TensorFlow may raise.
    - [eval_run p batch] is
      [sess.run([model.hit_at_k, model.ndcg_at_k, model.num_target])] with
      dropout 0: the hit count, the NDCG sum and the number of scored
      targets of the batch. *)
Class RecModel (P : Type) : Type := {
  train_run : P -> Batch -> Q -> Q -> res (P * Q);
  eval_run : P -> EvalBatch -> res (Q * Q * Q)
}.

(** The metric graph is a sum over the rows of the batch: each row
    contributes a hit count and an NDCG sum bounded by the number of its
    scored targets (padding rows score none). *)
Class RowMetrics (P : Type) `{RecModel P} : Type := {
  row_metric : P -> list Z -> Z -> Q * Q * Q;
  eval_run_rows : forall p b,
    eval_run p b =
      Ok (qsum (map (fun r => fst (fst (row_metric p (fst r) (snd r)))) (eval_rows b)),
          qsum (map (fun r => snd (fst (row_metric p (fst r) (snd r)))) (eval_rows b)),
          qsum (map (fun r => snd (row_metric p (fst r) (snd r))) (eval_rows b)));
  row_metric_bounds : forall p inp pos,
    let '(h, g, n) := row_metric p inp pos in 0 <= h <= n /\ 0 <= g <= n
}.

(** The sampler handle: [next_batch()] blocks until a batch is ready and
    returns it (or raises); [close()] stops the workers. *)
Class BatchSource (S : Type) : Type := {
  next_batch : S -> res (Batch * S);
  close : S -> S
}.
