(* ===== verification/Config.v ===== *)
(** * Configuration of the driver: the argparse surface of train.py (lines 18-50)

    [Args.t] is the namespace [parser.parse_args()] returns, one field per
    [add_argument]; [default_args] is the namespace when no flag is
    given.  Python ints are [Z], floats are [Q], strings are [string].
    ([--log_interval] and [--eval_interval] are declared [type=int] with
    the float defaults [1e2] and [1e3]; argparse does not convert
    defaults, so they are the floats [100.0] and [1000.0].  The driver
    only uses them in [step_count % x == 0] and [train_loss_l / x], where
    an integral float behaves as the int; they are kept as [Z].) *)

From Stdlib Require Import String ZArith QArith.
From S2P Require Import Prelude.

Module Args.
Record t : Type := mk {
  model : string;
  batch_size : Z;
  seq_len : Z;
  dropout : Q;
  l2_reg : Q;
  clip : Q;
  epochs : Z;
  lr : Q;
  emsize : Z;
  neg_size : Z;
  worker : Z;
  nhid : Z;
  levels : Z;
  seed : Z;
  loss : string;
  data : string;
  log_interval : Z;
  eval_interval : Z;
  ksize : Z;
  num_blocks : Z;
  num_heads : Z;
  pos_fixed : Z
}.
End Args.

(** The defaults of the [add_argument] calls, in their order. *)
Definition default_args : Args.t := {|
  Args.model := "tcn";
  Args.batch_size := 128;
  Args.seq_len := 20;
  Args.dropout := 2 # 10;
  Args.l2_reg := 0;
  Args.clip := 1;
  Args.epochs := 20;
  Args.lr := 1 # 1000;
  Args.emsize := 100;
  Args.neg_size := 1;
  Args.worker := 10;
  Args.nhid := 100;
  Args.levels := 3;
  Args.seed := 1111;
  Args.loss := "ns";
  Args.data := "gowalla";
  Args.log_interval := 100;
  Args.eval_interval := 1000;
  Args.ksize := 3;
  Args.num_blocks := 3;
  Args.num_heads := 2;
  Args.pos_fixed := 0
|}%string%Z.

(** ** The checkpoint directory name (line 67) *)

From Stdlib Require Import List Ascii DecimalString Lia.
Import ListNotations.

(** [str(n)] for a Python int: its decimal digits, with a leading [-]
    when negative. *)
Definition py_str_int (z : Z) : string := NilZero.string_of_int (Z.to_int z).

(** Does [s] contain the character [c]? *)
Fixpoint has_char (c : ascii) (s : string) : bool :=
  match s with
  | EmptyString => false
  | String a s' => Ascii.eqb a c || has_char c s'
  end.

(** [s.split(c)] for a one-character separator. *)
Fixpoint py_split (c : ascii) (s : string) : list string :=
  match s with
  | EmptyString => [EmptyString]
  | String a s' =>
      let r := py_split c s' in
      if Ascii.eqb a c then EmptyString :: r
      else match r with
           | [] => [String a EmptyString]
           | w :: ws => String a w :: ws
           end
  end.

Definition underscore : ascii := "_"%char.

Section CheckpointDir.
(** [str(x)] for a Python float, the shortest decimal that reads back as
    [x] (its [repr]). *)
Variable py_str_float : Q -> string.

(** [checkpoint_dir = '_'.join(['save', args.data, args.model,
    str(args.lr), str(args.l2_reg), str(args.emsize), str(args.dropout)])]. *)
Definition checkpoint_parts (args : Args.t) : list string :=
  ["save"; Args.data args; Args.model args; py_str_float (Args.lr args);
   py_str_float (Args.l2_reg args); py_str_int (Args.emsize args);
   py_str_float (Args.dropout args)]%string.

Definition checkpoint_dir (args : Args.t) : string :=
  String.concat (String underscore EmptyString) (checkpoint_parts args).
End CheckpointDir.

(** ** Lemmas on splitting *)

Lemma py_split_no_char (c : ascii) (w : string) :
  has_char c w = false -> py_split c w = [w].
Proof.
  induction w as [|a w IH]; [reflexivity|]. simpl. intros Hw.
  apply orb_false_iff in Hw as [Ha Hw]. rewrite Ha, IH by exact Hw. reflexivity.
Qed.

Lemma py_split_app_sep (c : ascii) (w rest : string) :
  has_char c w = false ->
  py_split c (w ++ String c rest) = w :: py_split c rest.
Proof.
  induction w as [|a w IH]; simpl; intros Hw.
  - now rewrite Ascii.eqb_refl.
  - apply orb_false_iff in Hw as [Ha Hw]. rewrite Ha, IH by exact Hw. reflexivity.
Qed.

Lemma uint_no_underscore (d : Decimal.uint) :
  has_char underscore (NilEmpty.string_of_uint d) = false.
Proof. induction d; simpl; auto. Qed.

Lemma py_str_int_no_underscore (z : Z) : has_char underscore (py_str_int z) = false.
Proof.
  unfold py_str_int, NilZero.string_of_int, NilZero.string_of_uint.
  destruct (Z.to_int z) as [d|d]; destruct d; simpl; first [reflexivity | apply uint_no_underscore].
Qed.

Lemma py_split_concat (c : ascii) (l : list string) :
  l <> [] -> Forall (fun w => has_char c w = false) l ->
  py_split c (String.concat (String c EmptyString) l) = l.
Proof.
  induction l as [|x l IH]; intros Hne Hf; [contradiction|].
  inversion Hf as [|x' l' Hx Hl]; subst.
  destruct l as [|y l].
  - apply py_split_no_char, Hx.
  - change (String.concat (String c EmptyString) (x :: y :: l))
      with (x ++ String c (String.concat (String c EmptyString) (y :: l)))%string.
    rewrite py_split_app_sep by exact Hx. rewrite IH by (discriminate || exact Hl). reflexivity.
Qed.

(** Round trip of line 67: when the dataset name, the model name and the
    printed floats contain no underscore, splitting [checkpoint_dir] on
    ['_'] gives back the seven parts it was joined from (the printed
    [emsize] never contains one), so such configurations get distinct
    directories. *)
Theorem checkpoint_dir_split (py_str_float : Q -> string) (args : Args.t) :
  has_char underscore (Args.data args) = false ->
  has_char underscore (Args.model args) = false ->
  has_char underscore (py_str_float (Args.lr args)) = false ->
  has_char underscore (py_str_float (Args.l2_reg args)) = false ->
  has_char underscore (py_str_float (Args.dropout args)) = false ->
  py_split underscore (checkpoint_dir py_str_float args) = checkpoint_parts py_str_float args.
Proof.
  intros Hd Hm Hlr Hl2 Hdr. apply py_split_concat; [discriminate|].
  repeat constructor; auto using py_str_int_no_underscore.
Qed.

(** Two runs on different datasets can share a checkpoint directory, so
    one run overwrites the other's checkpoint: the dataset ["ml_1m"] with
    the model ["tcn"] and the dataset ["ml"] with the model ["1m_tcn"]
    both give ["save_ml_1m_tcn_..."], whatever the floats print as. *)
Lemma checkpoint_dir_collision (py_str_float : Q -> string) :
  exists a1 a2 : Args.t,
    Args.data a1 <> Args.data a2 /\
    checkpoint_dir py_str_float a1 = checkpoint_dir py_str_float a2.
Proof.
  exists {| Args.model := "tcn"; Args.batch_size := 128; Args.seq_len := 20;
            Args.dropout := 2 # 10; Args.l2_reg := 0; Args.clip := 1; Args.epochs := 20;
            Args.lr := 1 # 1000; Args.emsize := 100; Args.neg_size := 1; Args.worker := 10;
            Args.nhid := 100; Args.levels := 3; Args.seed := 1111; Args.loss := "ns";
            Args.data := "ml_1m"; Args.log_interval := 100; Args.eval_interval := 1000;
            Args.ksize := 3; Args.num_blocks := 3; Args.num_heads := 2; Args.pos_fixed := 0 |}%string%Z.
  exists {| Args.model := "1m_tcn"; Args.batch_size := 128; Args.seq_len := 20;
            Args.dropout := 2 # 10; Args.l2_reg := 0; Args.clip := 1; Args.epochs := 20;
            Args.lr := 1 # 1000; Args.emsize := 100; Args.neg_size := 1; Args.worker := 10;
            Args.nhid := 100; Args.levels := 3; Args.seed := 1111; Args.loss := "ns";
            Args.data := "ml"; Args.log_interval := 100; Args.eval_interval := 1000;
            Args.ksize := 3; Args.num_blocks := 3; Args.num_heads := 2; Args.pos_fixed := 0 |}%string%Z.
  split; [discriminate | reflexivity].
Qed.

(** The default configuration with floats printed as Python does. *)
Definition default_float_str (q : Q) : string :=
  if Qeq_bool q (1 # 1000) then "0.001"
  else if Qeq_bool q (2 # 10) then "0.2"
  else if Qeq_bool q 0 then "0.0" else "?".

Lemma checkpoint_dir_split_witness :
  py_split underscore (checkpoint_dir default_float_str default_args) =
  checkpoint_parts default_float_str default_args.
Proof. apply checkpoint_dir_split; reflexivity. Defined.
