(* ===== verification/ArgParse.v ===== *)
(** * The command line: [parser.parse_args()] of train.py (lines 18-50)

    train.py declares 22 options with [parser.add_argument('--name',
    type=..., default=...)] and reads them with [parser.parse_args()]
    (line 50).  This file models what that call does with [sys.argv[1:]]
    (argparse of CPython 3.11, the version the findings were checked
    against):
    - every token is first classified ([classify]): a long option
      ([--name], [--name=value], or an unambiguous prefix of a name,
      argparse's [allow_abbrev]), the help flag ([-h], [--help]), an
      unknown option, a positional token (negative numbers included), or
      the separator [--]; an ambiguous prefix is an error at once;
    - the tokens are then consumed left to right ([consume]): an option
      takes the value after [=] or the next positional token and converts
      it with its [type] ([str], [int()] or [float()] on strings, with
      Python's whitespace stripping, signs and digit underscores); [-h]
      prints the help and exits 0; a missing or unconvertible value exits
      2; unknown and positional tokens are collected and exit 2 at the
      end;
    - options never given keep their [default], which argparse does not
      convert: [--log_interval] and [--eval_interval] ([type=int],
      [default=1e2], [1e3]) hold the floats 100.0 and 1000.0.
    Python values keep their dynamic type ([pyval]); [to_args] turns a
    namespace into the typed [Args.t] the rest of the development uses.
    Errors are [SystemExit 2] (usage error) and [SystemExit 0] (help), as
    [ArgumentParser.exit] raises them.  Python floats are exact
    rationals; [inf] and [nan] are kept as non-finite values, and a
    decimal overflows to [inf] from [float_overflow] on, as [float()]
    rounds it.  Strings are ASCII.

    The theorems (C28-C31, and lemmas on the defaults, on [-h] and on [str] options): [parse_args] only exits with status 2 or 0;
    every option ends up with its default, a value of its type or [[]];
    [--<int option> str(z)] stores [z] for every integer [z] whose
    decimal string has at most 4300 digits, and exits with status 2 for
    longer ones (CPython's [int()] limit, [sys.get_int_max_str_digits]);
    an unambiguous abbreviation parses as the full option; [-h] exits 0
    after any positional or unknown tokens; the empty command line gives
    [Config.default_args]; a [str] option stores any string.  They rest on
    a postcondition calculus for [res] ([res_spec]), one induction
    principle for the consumption loop ([consume_spec]) and lemmas on
    decimal digits ([py_int_py_str_int]). *)

From Stdlib Require Import List String Ascii ZArith QArith DecimalString DecimalZ Lia Bool Wf_nat.
From S2P Require Import Prelude Config.
Import ListNotations.
Local Set Warnings "-register-all".

(** ** Python values and the declared options *)

(** The [type=] of an option. *)
Inductive pytype : Type := TStr | TInt | TFloat.

(** A Python value as argparse stores it. *)
Inductive pyval : Type :=
| VStr (s : string)
| VInt (z : Z)
| VFloat (q : Q)
| VNonFinite (s : string)
| VList (l : list pyval).

(** [isinstance(v, t)] for the declared type. *)
Definition has_type (t : pytype) (v : pyval) : bool :=
  match t, v with
  | TStr, VStr _ | TInt, VInt _ | TFloat, VFloat _ | TFloat, VNonFinite _ => true
  | _, _ => false
  end.

(** One [add_argument('--dest', type=ty, default=default)]. *)
Record Action : Type := mkAction {
  dest : string;
  ty : pytype;
  default : pyval
}.

(** Lines 19-47, in order. *)
Definition parser_actions : list Action := [
  mkAction "model" TStr (VStr "tcn");
  mkAction "batch_size" TInt (VInt 128);
  mkAction "seq_len" TInt (VInt 20);
  mkAction "dropout" TFloat (VFloat (2 # 10));
  mkAction "l2_reg" TFloat (VFloat 0);
  mkAction "clip" TFloat (VFloat 1);
  mkAction "epochs" TInt (VInt 20);
  mkAction "lr" TFloat (VFloat (1 # 1000));
  mkAction "emsize" TInt (VInt 100);
  mkAction "neg_size" TInt (VInt 1);
  mkAction "worker" TInt (VInt 10);
  mkAction "nhid" TInt (VInt 100);
  mkAction "levels" TInt (VInt 3);
  mkAction "seed" TInt (VInt 1111);
  mkAction "loss" TStr (VStr "ns");
  mkAction "data" TStr (VStr "gowalla");
  mkAction "log_interval" TInt (VFloat 100);
  mkAction "eval_interval" TInt (VFloat 1000);
  mkAction "ksize" TInt (VInt 3);
  mkAction "num_blocks" TInt (VInt 3);
  mkAction "num_heads" TInt (VInt 2);
  mkAction "pos_fixed" TInt (VInt 0)
]%string%Z.

(** ** [int()] and [float()] on strings *)

Local Open Scope char_scope.

Definition is_digit (c : ascii) : bool :=
  let n := nat_of_ascii c in (48 <=? n)%nat && (n <=? 57)%nat.

(** The characters [int()] and [float()] strip at both ends (ASCII
    [\t \n \v \f \r] and space). *)
Definition is_space (c : ascii) : bool :=
  let n := nat_of_ascii c in ((9 <=? n)%nat && (n <=? 13)%nat) || (n =? 32)%nat.

Fixpoint lstrip (l : list ascii) : list ascii :=
  match l with
  | c :: r => if is_space c then lstrip r else l
  | [] => []
  end.

Definition strip (l : list ascii) : list ascii := rev (lstrip (rev (lstrip l))).

(** A run of digits with single underscores between digits; the digits. *)
Fixpoint digit_run_aux (l : list ascii) (after_digit : bool) : option (list ascii) :=
  match l with
  | [] => if after_digit then Some [] else None
  | c :: r =>
      if is_digit c then option_map (cons c) (digit_run_aux r true)
      else if Ascii.eqb c "_" && after_digit then digit_run_aux r false
      else None
  end.

Definition digit_run (l : list ascii) : option (list ascii) := digit_run_aux l false.

(** The value of a string of decimal digits. *)
Definition digits_Z (ds : list ascii) : Z :=
  match NilEmpty.uint_of_string (string_of_list_ascii ds) with
  | Some d => Z.of_uint d
  | None => 0%Z
  end.

(** An optional sign. *)
Definition split_sign (l : list ascii) : bool * list ascii :=
  match l with
  | "-" :: r => (true, r)
  | "+" :: r => (false, r)
  | _ => (false, l)
  end.

(** CPython 3.11's limit on the digits [int()] converts from a decimal
    string ([sys.get_int_max_str_digits()], default 4300). *)
Definition int_max_str_digits : nat := 4300.

(** [int(s)]: surrounding whitespace, a sign, digits with underscores;
    [ValueError] for more than [int_max_str_digits] digits (underscores
    not counted, leading zeros counted). *)
Definition py_int (s : string) : option Z :=
  let '(neg, body) := split_sign (strip (list_ascii_of_string s)) in
  match digit_run body with
  | Some ds =>
      if (int_max_str_digits <? List.length ds)%nat then None
      else Some (if neg then (- digits_Z ds)%Z else digits_Z ds)
  | None => None
  end.

Definition lower (c : ascii) : ascii :=
  let n := nat_of_ascii c in
  if (65 <=? n)%nat && (n <=? 90)%nat then ascii_of_nat (n + 32) else c.

Fixpoint split_at (p : ascii -> bool) (l : list ascii) : list ascii * option (list ascii) :=
  match l with
  | [] => ([], None)
  | c :: r =>
      if p c then ([], Some r)
      else let '(a, b) := split_at p r in (c :: a, b)
  end.

(** A digit run that may be empty. *)
Definition opt_run (l : list ascii) : option (list ascii) :=
  match l with [] => Some [] | _ => digit_run l end.

(** The exponent after [e]/[E]. *)
Definition exponent (e : option (list ascii)) : option Z :=
  match e with
  | None => Some 0%Z
  | Some l =>
      let '(neg, body) := split_sign l in
      option_map (fun ds => if neg then (- digits_Z ds)%Z else digits_Z ds) (digit_run body)
  end.

(** A finite decimal: [digits [. digits] [e exponent]], at least one
    mantissa digit; its exact value. *)
Definition decimal_value (l : list ascii) : option Q :=
  let '(mant, e) := split_at (fun c => Ascii.eqb c "e" || Ascii.eqb c "E") l in
  let '(ip, fp) := split_at (fun c => Ascii.eqb c ".") mant in
  match opt_run ip, opt_run (match fp with Some f => f | None => [] end), exponent e with
  | Some i, Some f, Some x =>
      if (List.length i + List.length f =? 0)%nat then None
      else Some (inject_Z (digits_Z (i ++ f)) * Qpower 10 (x - Z.of_nat (List.length f)))
  | _, _, _ => None
  end.

(** The least magnitude [float()] rounds to infinity: halfway between the
    largest double [(2 - 2^-52) * 2^1023] and [2^1024]. *)
Definition float_overflow : Q := inject_Z (2 ^ 1024 - 2 ^ 970).

(** [float(s)]: whitespace, sign, [inf]/[infinity]/[nan] in any case, or
    a decimal, which overflows to an infinity from [float_overflow] on. *)
Definition py_float (s : string) : option pyval :=
  let '(neg, body) := split_sign (strip (list_ascii_of_string s)) in
  let w := string_of_list_ascii (map lower body) in
  if String.eqb w "inf" || String.eqb w "infinity" then
    Some (VNonFinite (if neg then "-inf" else "inf"))
  else if String.eqb w "nan" then Some (VNonFinite "nan")
  else option_map (fun q =>
         if Qle_bool float_overflow q then VNonFinite (if neg then "-inf" else "inf")
         else VFloat (if neg then - q else q)) (decimal_value body).

Local Close Scope char_scope.
Local Open Scope string_scope.

(** [type(value)] for an option, or the usage error. *)
Definition convert (a : Action) (v : string) : res pyval :=
  match ty a with
  | TStr => Ok (VStr v)
  | TInt => match py_int v with Some z => Ok (VInt z) | None => Raise (SystemExit 2) end
  | TFloat => match py_float v with Some x => Ok x | None => Raise (SystemExit 2) end
  end.

(** ** Classifying the command line: [_parse_optional] *)

(** The action an option string names. *)
Inductive OptRef : Type :=
| Help
| Opt (a : Action).

(** [parser._option_string_actions], in insertion order: the help action
    [ArgumentParser] adds, then one long option per [add_argument]. *)
Definition option_string_actions : list (string * OptRef) :=
  ("-h", Help) :: ("--help", Help) :: map (fun a => ("--" ++ dest a, Opt a)) parser_actions.

Fixpoint assoc_str {A : Type} (k : string) (l : list (string * A)) : option A :=
  match l with
  | [] => None
  | (k', v) :: r => if String.eqb k k' then Some v else assoc_str k r
  end.

Definition lookup_option (o : string) : option OptRef := assoc_str o option_string_actions.

(** [s.split('=', 1)] when [s] has an ['=']. *)
Fixpoint split_eq (s : string) : option (string * string) :=
  match s with
  | EmptyString => None
  | String c r =>
      if Ascii.eqb c "=" then Some (EmptyString, r)
      else option_map (fun '(a, b) => (String c a, b)) (split_eq r)
  end.

(** The prefix character ([prefix_chars='-']). *)
Definition is_prefix_char (c : ascii) : bool := Ascii.eqb c "-".

(** An option tuple [(action, option_string, explicit_arg)]. *)
Definition option_tuple : Type := OptRef * string * option string.

(** [_get_option_tuples]: the options an abbreviation may name. *)
Definition get_option_tuples (s : string) : list option_tuple :=
  match s with
  | String c0 (String c1 rest) =>
      if is_prefix_char c1 then
        let '(prefix, explicit) :=
          match split_eq s with Some (p, e) => (p, Some e) | None => (s, None) end in
        flat_map (fun '(o, a) => if String.prefix prefix o then [(a, o, explicit)] else [])
          option_string_actions
      else
        flat_map (fun '(o, a) =>
            if String.eqb o (String c0 (String c1 EmptyString)) then [(a, o, Some rest)]
            else if String.prefix s o then [(a, o, None)] else [])
          option_string_actions
  | _ => []
  end.

(** [_negative_number_matcher]: [^-\d+$|^-\d*\.\d+$] ([$] also matches
    before a final newline). *)
Definition negative_number (s : string) : bool :=
  let l := list_ascii_of_string s in
  let l := if (0 <? List.length l)%nat && Ascii.eqb (last l "a"%char) "010"%char
           then removelast l else l in
  match l with
  | "-"%char :: r =>
      (forallb is_digit r && negb (List.length r =? 0)%nat) ||
      match split_at (fun c => Ascii.eqb c ".") r with
      | (a, Some b) => forallb is_digit a && forallb is_digit b && negb (List.length b =? 0)%nat
      | _ => false
      end
  | _ => false
  end.

Definition has_space (s : string) : bool := existsb (fun c => Ascii.eqb c " ") (list_ascii_of_string s).

(** [_parse_optional]: [None] for a positional token, [(None, s, None)]
    for an unknown option, an option tuple otherwise; an ambiguous
    abbreviation is [parser.error], exit status 2. *)
Definition parse_optional (s : string) : res (option (option OptRef * string * option string)) :=
  match s with
  | EmptyString => Ok None
  | String c0 _ =>
      if negb (is_prefix_char c0) then Ok None else
      match lookup_option s with
      | Some a => Ok (Some (Some a, s, None))
      | None =>
          if (String.length s =? 1)%nat then Ok None else
          match match split_eq s with
                | Some (o, e) => option_map (fun a => (a, o, e)) (lookup_option o)
                | None => None
                end with
          | Some (a, o, e) => Ok (Some (Some a, o, Some e))
          | None =>
              match get_option_tuples s with
              | _ :: _ :: _ => Raise (SystemExit 2)
              | [(a, o, e)] => Ok (Some (Some a, o, e))
              | [] => if negative_number s || has_space s then Ok None
                      else Ok (Some (None, s, None))
              end
          end
      end
  end.

(** A classified token: ['A'] (positional), ['-'] (the first [--]) or ['O']. *)
Inductive tok : Type :=
| TArg (s : string)
| TSep
| TOpt (a : option OptRef) (o : string) (e : option string).

(** The classification loop of [_parse_known_args]: every token after the
    first [--] is positional. *)
Fixpoint classify (l : list string) : res (list tok) :=
  match l with
  | [] => Ok []
  | s :: r =>
      if String.eqb s "--" then Ok (TSep :: map TArg r)
      else
        t <- parse_optional s ;;
        ts <- classify r ;;
        Ok (match t with None => TArg s | Some (a, o, e) => TOpt a o e end :: ts)
  end.

(** ** Consuming the tokens: [consume_optional] and [take_action] *)

(** The [Namespace]: its attributes in the order they were first set. *)
Definition Namespace : Type := list (string * pyval).

(** [parse_known_args] first sets every action's default (the help
    action's [dest] is [SUPPRESS]). *)
Definition default_namespace : Namespace := map (fun a => (dest a, default a)) parser_actions.

(** [setattr(namespace, dest, value)]. *)
Fixpoint ns_set (ns : Namespace) (k : string) (v : pyval) : Namespace :=
  match ns with
  | [] => [(k, v)]
  | (k', v') :: r => if String.eqb k k' then (k, v) :: r else (k', v') :: ns_set r k v
  end.

Definition ns_get (ns : Namespace) (k : string) : option pyval := assoc_str k ns.

(** Arguments an action takes: [0] for help, [nargs=None] (one) for the
    store actions. *)
Definition nargs (a : OptRef) : nat := match a with Help => 0 | Opt _ => 1 end.

(** [arg_strings.remove('--')]. *)
Fixpoint remove_first (x : string) (l : list string) : list string :=
  match l with
  | [] => []
  | y :: r => if String.eqb x y then r else y :: remove_first x r
  end.

Fixpoint map_res {A B : Type} (f : A -> res B) (l : list A) : res (list B) :=
  match l with
  | [] => Ok []
  | x :: r => y <- f x ;; ys <- map_res f r ;; Ok (y :: ys)
  end.

(** [_get_values] for [nargs=None]: without its first [--], a single
    string is converted; otherwise the list of converted strings. *)
Definition get_values (a : Action) (args : list string) : res pyval :=
  match remove_first "--" args with
  | [s] => convert a s
  | l => vs <- map_res (convert a) l ;; Ok (VList vs)
  end.

(** [take_action]: help prints the usage and exits with status 0; a store
    action sets its [dest]. *)
Definition take_action (ns : Namespace) (t : OptRef * list string) : res Namespace :=
  match t with
  | (Help, _) => Raise (SystemExit 0)
  | (Opt a, args) => v <- get_values a args ;; Ok (ns_set ns (dest a) v)
  end.

Fixpoint take_actions (ns : Namespace) (ts : list (OptRef * list string)) : res Namespace :=
  match ts with
  | [] => Ok ns
  | t :: r => ns' <- take_action ns t ;; take_actions ns' r
  end.

(** [consume_optional] without an explicit argument: [_match_argument]
    takes the next token if the action needs one and it is positional
    (['A']); otherwise "expected one argument".  The boolean says whether
    the next token was consumed. *)
Definition take_next (a : OptRef) (rest : list tok) : res (list (OptRef * list string) * bool) :=
  match nargs a with
  | O => Ok ([(a, [])], false)
  | _ => match rest with
         | TArg s :: _ => Ok ([(a, [s])], true)
         | _ => Raise (SystemExit 2)
         end
  end.

Definition second_is_prefix (o : string) : bool :=
  match o with String _ (String c _) => is_prefix_char c | _ => false end.

(** [consume_optional] with an explicit argument, its [while] loop: a
    single-dash flag without arguments followed by more characters
    ([-hh]) is that flag and then the option ['-' + explicit_arg[0]] with
    the rest; an action that takes one argument takes the explicit one;
    anything else is "ignored explicit argument". *)
Fixpoint explicit_loop (a : OptRef) (o e : string) (rest : list tok) {struct e}
    : res (list (OptRef * list string) * bool) :=
  if (nargs a =? 0)%nat && negb (second_is_prefix o) && negb (String.eqb e "") then
    match e with
    | String c t =>
        let o' := String "-" (String c EmptyString) in
        match lookup_option o' with
        | Some a' =>
            r <- match t with
                 | EmptyString => take_next a' rest
                 | _ => explicit_loop a' o' t rest
                 end ;;
            Ok ((a, []) :: fst r, snd r)
        | None => Raise (SystemExit 2)
        end
    | EmptyString => Raise (SystemExit 2)
    end
  else if (nargs a =? 1)%nat then Ok ([(a, [e])], false)
  else Raise (SystemExit 2).

Definition consume_optional (a : OptRef) (o : string) (x : option string) (rest : list tok)
    : res (list (OptRef * list string) * bool) :=
  match x with
  | None => take_next a rest
  | Some e => explicit_loop a o e rest
  end.

(** The consumption loop of [_parse_known_args] (the parser has no
    positionals): unknown options, positional tokens and [--] go to the
    extras; an option's actions are taken as soon as it is consumed. *)
Fixpoint consume (ts : list tok) (ns : Namespace) (extras : list string) {struct ts}
    : res (Namespace * list string) :=
  match ts with
  | [] => Ok (ns, extras)
  | TArg s :: r => consume r ns (extras ++ [s])
  | TSep :: r => consume r ns (extras ++ ["--"])
  | TOpt None s _ :: r => consume r ns (extras ++ [s])
  | TOpt (Some a) o x :: r =>
      match consume_optional a o x r with
      | Raise err => Raise err
      | Ok (acts, used) =>
          ns' <- take_actions ns acts ;;
          consume (if used then match r with [] => r | _ :: r' => r' end else r) ns' extras
      end
  end.

(** [parse_known_args]: defaults, classification, consumption. *)
Definition parse_known_args (argv : list string) : res (Namespace * list string) :=
  ts <- classify argv ;; consume ts default_namespace [].

(** [parse_args] (line 50): leftover tokens are "unrecognized
    arguments", exit status 2. *)
Definition parse_args (argv : list string) : res Namespace :=
  r <- parse_known_args argv ;;
  match snd r with [] => Ok (fst r) | _ :: _ => Raise (SystemExit 2) end.

(** ** From the namespace to [Args.t] *)

(** The driver reads [args.<dest>] where it needs an int, a float or a
    string; [to_args] is the namespace as the typed record of Config.v,
    or [None] when a value is not of the type the record gives it (an
    infinite or NaN float, an [--opt=--] list).  [log_interval] and
    [eval_interval] may hold an integral float (their defaults), which the
    driver uses as the int ([step_count % x], [x / y]). *)
Definition get_str (ns : Namespace) (k : string) : option string :=
  match ns_get ns k with Some (VStr s) => Some s | _ => None end.

Definition get_int (ns : Namespace) (k : string) : option Z :=
  match ns_get ns k with Some (VInt z) => Some z | _ => None end.

Definition get_float (ns : Namespace) (k : string) : option Q :=
  match ns_get ns k with Some (VFloat q) => Some q | _ => None end.

Definition get_interval (ns : Namespace) (k : string) : option Z :=
  match ns_get ns k with
  | Some (VInt z) => Some z
  | Some (VFloat q) => let q' := Qred q in if (Qden q' =? 1)%positive then Some (Qnum q') else None
  | _ => None
  end.

Definition to_args (ns : Namespace) : option Args.t :=
  match get_str ns "model", get_int ns "batch_size", get_int ns "seq_len",
        get_float ns "dropout", get_float ns "l2_reg", get_float ns "clip",
        get_int ns "epochs", get_float ns "lr", get_int ns "emsize",
        get_int ns "neg_size", get_int ns "worker" with
  | Some model, Some batch_size, Some seq_len, Some dropout, Some l2_reg, Some clip,
    Some epochs, Some lr, Some emsize, Some neg_size, Some worker =>
      match get_int ns "nhid", get_int ns "levels", get_int ns "seed",
            get_str ns "loss", get_str ns "data", get_interval ns "log_interval",
            get_interval ns "eval_interval", get_int ns "ksize", get_int ns "num_blocks",
            get_int ns "num_heads", get_int ns "pos_fixed" with
      | Some nhid, Some levels, Some seed, Some loss, Some data, Some log_interval,
        Some eval_interval, Some ksize, Some num_blocks, Some num_heads, Some pos_fixed =>
          Some (Args.mk model batch_size seq_len dropout l2_reg clip epochs lr emsize
                  neg_size worker nhid levels seed loss data log_interval eval_interval
                  ksize num_blocks num_heads pos_fixed)
      | _, _, _, _, _, _, _, _, _, _, _ => None
      end
  | _, _, _, _, _, _, _, _, _, _, _ => None
  end.

(** ** Lemmas *)

(** *** A postcondition for [res]: [Q] of the result or [E] of the exception *)

Definition res_spec {A : Type} (E : exn -> Prop) (Q : A -> Prop) (r : res A) : Prop :=
  match r with Ok a => Q a | Raise e => E e end.

Lemma res_spec_bind {A B : Type} (E : exn -> Prop) (Q1 : A -> Prop) (Q : B -> Prop)
    (c : res A) (k : A -> res B) :
  res_spec E Q1 c -> (forall a, Q1 a -> res_spec E Q (k a)) -> res_spec E Q (x <- c ;; k x).
Proof. destruct c; simpl; auto. Qed.

Lemma res_spec_Ok {A : Type} (E : exn -> Prop) (Q : A -> Prop) (a : A) :
  Q a -> res_spec E Q (Ok a).
Proof. exact id. Qed.

Lemma res_spec_Raise {A : Type} (E : exn -> Prop) (Q : A -> Prop) (e : exn) :
  E e -> res_spec E Q (Raise e).
Proof. exact id. Qed.

Lemma res_spec_weaken {A : Type} (E : exn -> Prop) (Q Q' : A -> Prop) (r : res A) :
  (forall a, Q a -> Q' a) -> res_spec E Q r -> res_spec E Q' r.
Proof. destruct r; simpl; auto. Qed.

(** The two statuses [ArgumentParser] exits with. *)
Definition usage_exit (e : exn) : Prop := e = SystemExit 2 \/ e = SystemExit 0.

Lemma usage_exit_2 : usage_exit (SystemExit 2).
Proof. now left. Qed.

Lemma usage_exit_0 : usage_exit (SystemExit 0).
Proof. now right. Qed.

Create HintDb argparse.
#[export] Hint Resolve res_spec_Ok res_spec_Raise usage_exit_2 usage_exit_0 I : argparse.

(** Split a goal [res_spec E (fun _ => True) c] at the binds, matches and
    conditionals of [c]. *)
Ltac res_spec_split :=
  repeat match goal with
  | |- res_spec _ _ (bind _ _) => apply (res_spec_bind _ (fun _ => True)); [|intros ? ?]
  | |- res_spec _ _ (if ?b then _ else _) => destruct b
  | |- res_spec _ _ (match ?x with _ => _ end) => destruct x
  end; try exact I; eauto with argparse.

Lemma map_res_spec {A B : Type} (E : exn -> Prop) (f : A -> res B) (l : list A) :
  (forall x, res_spec E (fun _ => True) (f x)) -> res_spec E (fun _ => True) (map_res f l).
Proof.
  intros Hf. induction l as [|x l IH]; simpl; [exact I|].
  eapply res_spec_bind; [apply Hf|]. intros y _. eapply res_spec_bind; [exact IH|]. intros; exact I.
Qed.

Lemma convert_exits (a : Action) (s : string) : res_spec usage_exit (fun _ => True) (convert a s).
Proof. unfold convert. res_spec_split. Qed.

Lemma get_values_exits (a : Action) (args : list string) :
  res_spec usage_exit (fun _ => True) (get_values a args).
Proof.
  unfold get_values. destruct (remove_first "--" args) as [|s [|s' l]];
    try apply convert_exits; eapply res_spec_bind;
    solve [apply map_res_spec, convert_exits | intros; exact I].
Qed.

Lemma take_actions_exits (ns : Namespace) (ts : list (OptRef * list string)) :
  res_spec usage_exit (fun _ => True) (take_actions ns ts).
Proof.
  revert ns. induction ts as [|[[|a] args] ts IH]; intros ns; cbn [take_actions take_action].
  - exact I.
  - apply usage_exit_0.
  - eapply (res_spec_bind _ (fun _ => True)); [|intros ns' _; apply IH].
    eapply res_spec_bind; [apply get_values_exits|]. intros; exact I.
Qed.

Lemma explicit_loop_exits (a : OptRef) (o e : string) (r : list tok) :
  res_spec usage_exit (fun _ => True) (explicit_loop a o e r).
Proof.
  revert a o. induction e as [|c t IH]; intros a o; cbn [explicit_loop];
    unfold take_next; res_spec_split.
Qed.

Lemma consume_optional_exits (a : OptRef) (o : string) (x : option string) (r : list tok) :
  res_spec usage_exit (fun _ => True) (consume_optional a o x r).
Proof. destruct x; cbn [consume_optional]; [apply explicit_loop_exits|]. unfold take_next. res_spec_split. Qed.

Lemma parse_optional_exits (s : string) :
  res_spec usage_exit (fun _ => True) (parse_optional s).
Proof. unfold parse_optional. res_spec_split. Qed.

Lemma classify_exits (l : list string) : res_spec usage_exit (fun _ => True) (classify l).
Proof.
  induction l as [|s l IH]; cbn [classify]; [exact I|].
  destruct (String.eqb s "--"); [exact I|].
  apply (res_spec_bind _ (fun _ => True)); [apply parse_optional_exits|]. intros t _.
  apply (res_spec_bind _ (fun _ => True)); [exact IH|]. intros; exact I.
Qed.

(** *** The consumption loop, by induction on the tokens left *)

(** If every option's [consume_optional] and [take_actions] keep [I] (or
    raise an exception in [E]), so does the whole loop. *)
Lemma consume_spec (I : Namespace -> Prop) (E : exn -> Prop) (T : tok -> Prop) :
  (forall a o x r, T (TOpt (Some a) o x) ->
     res_spec E (fun p => forall ns, I ns -> res_spec E I (take_actions ns (fst p)))
       (consume_optional a o x r)) ->
  forall ts ns ex, Forall T ts -> I ns -> res_spec E (fun p => I (fst p)) (consume ts ns ex).
Proof.
  intros Hopt ts.
  induction ts as [ts IH] using (well_founded_induction (well_founded_ltof _ (@List.length tok))).
  unfold ltof in IH.
  intros ns ex HT Hns.
  destruct ts as [|[s| |[a|] o x] r]; cbn [consume]; [exact Hns|..];
    inversion HT as [|t' r' Ht Hr]; subst;
    try (apply IH; [cbn; lia|exact Hr|exact Hns]).
  specialize (Hopt a o x r Ht).
  destruct (consume_optional a o x r) as [[acts used]|e]; [|exact Hopt].
  apply (res_spec_bind _ I); [exact (Hopt ns Hns)|]. intros ns' Hns'.
  apply IH; [|destruct used; [destruct r; [constructor|inversion Hr; assumption]|exact Hr]|exact Hns'].
  destruct used, r; cbn; lia.
Qed.

(** Every token of the command line, every value: [parse_args] only ever
    exits with the statuses of [ArgumentParser]. *)
Lemma parse_args_spec_exits (argv : list string) :
  res_spec usage_exit (fun _ => True) (parse_args argv).
Proof.
  unfold parse_args, parse_known_args.
  apply (res_spec_bind _ (fun _ => True)); [|intros r _; destruct (snd r); cbn; auto with argparse].
  apply (res_spec_bind _ (fun _ => True)); [apply classify_exits|]. intros ts _.
  change (res_spec usage_exit (fun p : Namespace * list string => (fun _ => True) (fst p))
            (consume ts default_namespace [])).
  apply (consume_spec (fun _ => True) usage_exit (fun _ => True)); [|apply Forall_forall; auto|exact I].
  intros a o x r _. eapply res_spec_weaken; [|apply consume_optional_exits].
  intros p _ ns _. apply take_actions_exits.
Qed.

(** *** Options come from the parser's table *)

Definition known (b : OptRef) : Prop :=
  match b with Help => True | Opt a => In a parser_actions end.

Definition tok_known (t : tok) : Prop :=
  match t with TOpt (Some b) _ _ => known b | _ => True end.

Lemma option_string_actions_known : Forall (fun p => known (snd p)) option_string_actions.
Proof.
  unfold option_string_actions. do 2 (constructor; [exact I|]).
  apply Forall_map, Forall_forall. intros a Ha. exact Ha.
Qed.

Lemma assoc_str_In {A : Type} (k : string) (l : list (string * A)) (v : A) :
  assoc_str k l = Some v -> In (k, v) l.
Proof.
  induction l as [|[k' v'] l IH]; cbn; [discriminate|].
  destruct (String.eqb_spec k k') as [<-|_]; [injection 1 as <-; now left|now right; apply IH].
Qed.

Lemma lookup_option_known (o : string) (b : OptRef) : lookup_option o = Some b -> known b.
Proof.
  intros H. apply assoc_str_In in H.
  exact (proj1 (Forall_forall _ _) option_string_actions_known _ H).
Qed.

Lemma flat_map_Forall {A B : Type} (P : B -> Prop) (f : A -> list B) (l : list A) :
  Forall (fun x => Forall P (f x)) l -> Forall P (flat_map f l).
Proof. induction 1; cbn; [constructor|]. now apply Forall_app. Qed.

Lemma get_option_tuples_known (s : string) :
  Forall (fun t : option_tuple => known (fst (fst t))) (get_option_tuples s).
Proof.
  unfold get_option_tuples. destruct s as [|c0 [|c1 rest]]; try constructor.
  destruct (is_prefix_char c1); [destruct (split_eq _) as [[p e]|]|];
    apply flat_map_Forall; refine (Forall_impl _ _ option_string_actions_known);
    intros [o b] Hb; cbn in Hb |- *;
    repeat (destruct (String.prefix _ _) || destruct (String.eqb _ _)); auto.
Qed.

Lemma parse_optional_known (s : string) :
  res_spec (fun _ => True) (fun t => match t with Some (Some b, _, _) => known b | _ => True end)
    (parse_optional s).
Proof.
  unfold parse_optional. destruct s as [|c0 r]; [exact I|].
  destruct (negb (is_prefix_char c0)); [exact I|].
  destruct (lookup_option _) as [b|] eqn:Hl; [exact (lookup_option_known _ _ Hl)|].
  destruct (_ =? 1)%nat; [exact I|].
  pose proof (get_option_tuples_known (String c0 r)) as Hk.
  destruct (split_eq _) as [[o e]|];
    [destruct (lookup_option o) as [b|] eqn:Hb; [exact (lookup_option_known _ _ Hb)|]|];
    cbn -[get_option_tuples negative_number has_space];
    destruct (get_option_tuples _) as [|[[b o'] e'] [|t' l]];
    solve [exact I | destruct (_ || _); exact I | now inversion Hk].
Qed.

Lemma classify_known (l : list string) :
  res_spec (fun _ => True) (Forall tok_known) (classify l).
Proof.
  induction l as [|s l IH]; cbn [classify]; [constructor|].
  destruct (String.eqb s "--").
  - constructor; [exact I|]. apply Forall_map, Forall_forall. intros; exact I.
  - eapply res_spec_bind; [apply parse_optional_known|]. intros t Ht.
    eapply res_spec_bind; [exact IH|]. intros ts Hts. constructor; [|exact Hts].
    destruct t as [[[[b|] o] e]|]; exact Ht || exact I.
Qed.

(** The action tuples of [consume_optional] name options of the table and
    carry at most one argument string. *)
Definition tuple_ok (t : OptRef * list string) : Prop :=
  known (fst t) /\ (List.length (snd t) <= 1)%nat.

Lemma take_next_ok (a : OptRef) (r : list tok) :
  known a -> res_spec (fun _ => True) (fun p => Forall tuple_ok (fst p)) (take_next a r).
Proof.
  intros Ha. unfold take_next.
  destruct (nargs a); [|destruct r as [|[]]]; repeat constructor; cbn; auto.
Qed.

Lemma explicit_loop_ok (a : OptRef) (o e : string) (r : list tok) :
  known a -> res_spec (fun _ => True) (fun p => Forall tuple_ok (fst p)) (explicit_loop a o e r).
Proof.
  revert a o. induction e as [|c t IH]; intros a o Ha; cbn [explicit_loop].
  - destruct (_ && _ && _); [exact I|].
    destruct (nargs a =? 1)%nat; [repeat constructor; cbn; auto|exact I].
  - destruct (_ && _ && _); [|destruct (nargs a =? 1)%nat; [repeat constructor; cbn; auto|exact I]].
    destruct (lookup_option _) as [a'|] eqn:Hl; [|exact I].
    apply lookup_option_known in Hl.
    eapply res_spec_bind; [destruct t; [apply take_next_ok | apply IH]; exact Hl|].
    intros p Hp. constructor; [split; cbn; auto|exact Hp].
Qed.

Lemma consume_optional_ok (a : OptRef) (o : string) (x : option string) (r : list tok) :
  known a -> res_spec (fun _ => True) (fun p => Forall tuple_ok (fst p)) (consume_optional a o x r).
Proof. destruct x; [apply explicit_loop_ok|apply take_next_ok]. Qed.

(** *** The namespace *)

Lemma ns_get_set (ns : Namespace) (k k' : string) (v : pyval) :
  ns_get (ns_set ns k v) k' = if String.eqb k' k then Some v else ns_get ns k'.
Proof.
  unfold ns_get. induction ns as [|[k1 v1] ns IH]; cbn.
  - now destruct (String.eqb k' k).
  - destruct (String.eqb_spec k k1) as [<-|Hk]; cbn.
    + now destruct (String.eqb k' k).
    + rewrite IH. destruct (String.eqb_spec k' k1) as [->|]; [|reflexivity].
      apply not_eq_sym, String.eqb_neq in Hk. now rewrite Hk.
Qed.

Lemma parser_dests_nodup : NoDup (map dest parser_actions).
Proof. cbn. repeat (constructor; [cbn; intuition discriminate|]). constructor. Qed.

Lemma NoDup_map_inj {A B : Type} (f : A -> B) (l : list A) (x y : A) :
  NoDup (map f l) -> In x l -> In y l -> f x = f y -> x = y.
Proof.
  induction l as [|z l IH]; cbn; [contradiction|]. intros Hn Hx Hy Hf.
  inversion Hn as [|? ? Hz Hn']; subst.
  destruct Hx as [<-|Hx], Hy as [<-|Hy]; auto;
    exfalso; apply Hz; [rewrite Hf|rewrite <- Hf]; now apply in_map.
Qed.

Lemma dest_inj (a b : Action) :
  In a parser_actions -> In b parser_actions -> dest a = dest b -> a = b.
Proof. apply NoDup_map_inj, parser_dests_nodup. Qed.

(** What [--<dest>] may hold after parsing: its default, a value of its
    [type], or the empty list [--<dest>=--] stores. *)
Definition value_ok (a : Action) (v : pyval) : Prop :=
  v = default a \/ has_type (ty a) v = true \/ v = VList [].

Definition wt_ns (ns : Namespace) : Prop :=
  forall a, In a parser_actions -> exists v, ns_get ns (dest a) = Some v /\ value_ok a v.

Lemma default_namespace_wt : wt_ns default_namespace.
Proof.
  intros a Ha. exists (default a). split; [|now left].
  repeat (destruct Ha as [<-|Ha]; [reflexivity|]). destruct Ha.
Qed.

Lemma wt_ns_set (ns : Namespace) (a : Action) (v : pyval) :
  wt_ns ns -> In a parser_actions -> value_ok a v -> wt_ns (ns_set ns (dest a) v).
Proof.
  intros Hns Ha Hv b Hb. rewrite ns_get_set.
  destruct (String.eqb_spec (dest b) (dest a)) as [Hd|_]; [|exact (Hns b Hb)].
  rewrite (dest_inj b a Hb Ha Hd). now exists v.
Qed.

Lemma py_float_type (s : string) (v : pyval) : py_float s = Some v -> has_type TFloat v = true.
Proof.
  unfold py_float. destruct (split_sign _) as [neg body].
  destruct (_ || _); [injection 1 as <-; reflexivity|].
  destruct (String.eqb _ _); [injection 1 as <-; reflexivity|].
  destruct (decimal_value body); cbn; [|discriminate].
  injection 1 as <-. now destruct (Qle_bool _ _).
Qed.

Lemma convert_type (a : Action) (s : string) :
  res_spec (fun _ => True) (fun v => has_type (ty a) v = true) (convert a s).
Proof.
  unfold convert. destruct (ty a); cbn; [reflexivity| |].
  - destruct (py_int s); exact I || reflexivity.
  - destruct (py_float s) as [v|] eqn:Hf; [exact (py_float_type s v Hf)|exact I].
Qed.

Lemma remove_first_length (x : string) (l : list string) :
  (List.length (remove_first x l) <= List.length l)%nat.
Proof. induction l as [|y l IH]; cbn; [lia|]. destruct (String.eqb x y); cbn; lia. Qed.

Lemma get_values_ok (a : Action) (args : list string) :
  (List.length args <= 1)%nat -> res_spec (fun _ => True) (value_ok a) (get_values a args).
Proof.
  intros Hl. pose proof (remove_first_length "--" args) as Hr. unfold get_values.
  destruct (remove_first "--" args) as [|s [|s' l]]; cbn in Hr; [|..|lia].
  - right; right; reflexivity.
  - eapply res_spec_weaken; [|apply convert_type]. intros v Hv. now right; left.
Qed.

Lemma take_actions_wt (ns : Namespace) (acts : list (OptRef * list string)) :
  Forall tuple_ok acts -> wt_ns ns -> res_spec (fun _ => True) wt_ns (take_actions ns acts).
Proof.
  intros Hacts. revert ns. induction Hacts as [|[[|a] args] acts [Ha Hl] _ IH]; intros ns Hns;
    cbn [take_actions take_action]; [exact Hns|exact I|].
  eapply res_spec_bind; [eapply res_spec_bind; [exact (get_values_ok a args Hl)|]|].
  - intros v Hv. exact (wt_ns_set ns a v Hns Ha Hv).
  - exact IH.
Qed.

Lemma parse_args_wt (argv : list string) : res_spec (fun _ => True) wt_ns (parse_args argv).
Proof.
  unfold parse_args, parse_known_args.
  eapply (res_spec_bind _ (fun p => wt_ns (fst p)));
    [|intros r Hr; destruct (snd r); [exact Hr|exact I]].
  eapply res_spec_bind; [apply classify_known|]. intros ts Hts.
  apply (consume_spec wt_ns (fun _ => True) tok_known); [|exact Hts|exact default_namespace_wt].
  intros a o x r Ha. eapply res_spec_weaken; [|exact (consume_optional_ok a o x r Ha)].
  intros p Hp ns Hns. exact (take_actions_wt ns (fst p) Hp Hns).
Qed.

(** ** What [parse_args] returns *)

(** C28: [parse_args] either returns a namespace or exits through
    [ArgumentParser.exit]: with status 2 for a usage error (ambiguous or
    missing option argument, unconvertible value, explicit argument to a
    flag, unrecognized arguments) and 0 after printing the help; no other
    exception escapes, whatever the command line. *)
Theorem parse_args_exit_status (argv : list string) (e : exn) :
  parse_args argv = Raise e -> e = SystemExit 2 \/ e = SystemExit 0.
Proof. intros H. pose proof (parse_args_spec_exits argv) as Hs. now rewrite H in Hs. Qed.

(** C29: After a successful [parse_args], every declared option has an
    attribute in the namespace that is its default, a value of its
    declared [type] (a [str], an [int], or a finite or non-finite
    [float]), or the empty list that [--opt=--] stores. *)
Theorem parse_args_value_types (argv : list string) (ns : Namespace) :
  parse_args argv = Ok ns -> forall a, In a parser_actions ->
  exists v, ns_get ns (dest a) = Some v /\
            (v = default a \/ has_type (ty a) v = true \/ v = VList []).
Proof. intros H. pose proof (parse_args_wt argv) as Hs. now rewrite H in Hs. Qed.

(** *** Decimal digits *)

Definition digit_chars : list ascii := ["0"; "1"; "2"; "3"; "4"; "5"; "6"; "7"; "8"; "9"]%char.

Lemma digit_cases (c : ascii) : is_digit c = true -> In c digit_chars.
Proof.
  unfold is_digit. intros H. apply andb_prop in H as [H1 H2]. apply Nat.leb_le in H1, H2.
  rewrite <- (ascii_nat_embedding c). change digit_chars with (map ascii_of_nat (seq 48 10)).
  apply in_map, in_seq. lia.
Qed.

(** Prove a goal about a digit [c] by evaluating it at the ten digits. *)
Ltac by_digit H :=
  apply digit_cases in H; repeat (destruct H as [<-|H]; [reflexivity|]); destruct H.

Lemma forallb_digits_no_space (l : list ascii) :
  forallb is_digit l = true -> Forall (fun c => is_space c = false) l.
Proof.
  intros H. apply Forall_forall. intros c Hc.
  pose proof (proj1 (forallb_forall _ _) H c Hc) as Hd. by_digit Hd.
Qed.

Lemma lstrip_id (l : list ascii) : Forall (fun c => is_space c = false) l -> lstrip l = l.
Proof. destruct 1 as [|c l Hc _]; cbn; [reflexivity|]. now rewrite Hc. Qed.

Lemma strip_id (l : list ascii) : Forall (fun c => is_space c = false) l -> strip l = l.
Proof.
  intros H. unfold strip. rewrite (lstrip_id l H), lstrip_id, rev_involutive; [reflexivity|].
  now apply Forall_rev.
Qed.

Lemma digit_run_aux_all (l : list ascii) (b : bool) :
  forallb is_digit l = true -> (l <> [] \/ b = true) -> digit_run_aux l b = Some l.
Proof.
  revert b. induction l as [|c l IH]; intros b Hl Hb; cbn in *.
  - destruct Hb as [Hb | ->]; [contradiction|reflexivity].
  - apply andb_prop in Hl as [Hc Hl]. rewrite Hc, (IH true Hl (or_intror eq_refl)). reflexivity.
Qed.

Lemma uint_chars_digits (d : Decimal.uint) :
  forallb is_digit (list_ascii_of_string (NilEmpty.string_of_uint d)) = true.
Proof. induction d; cbn; auto. Qed.

(** [NilZero.string_of_uint d]: a digit, then digits. *)
Lemma uint_string_shape (d : Decimal.uint) :
  exists c r, NilZero.string_of_uint d = String c r /\ is_digit c = true /\
              forallb is_digit (list_ascii_of_string r) = true.
Proof. destruct d; cbn; eexists _, _; (split; [reflexivity|split; [reflexivity|]]); auto using uint_chars_digits. Qed.

Lemma uint_string_value (d : Decimal.uint) :
  digits_Z (list_ascii_of_string (NilZero.string_of_uint d)) = Z.of_uint d.
Proof.
  unfold digits_Z. rewrite string_of_list_ascii_of_string.
  destruct d; [reflexivity|..]; cbn [NilZero.string_of_uint]; now rewrite NilEmpty.usu.
Qed.

Lemma length_list_ascii (s : string) : List.length (list_ascii_of_string s) = String.length s.
Proof. induction s as [|c s IH]; cbn; [reflexivity|now rewrite IH]. Qed.

(** [int()] of a numeral, with or without a minus sign: its value when it
    has at most [int_max_str_digits] digits. *)
Lemma py_int_uint (d : Decimal.uint) (neg : bool) :
  py_int ((if neg then "-" else "") ++ NilZero.string_of_uint d)%string =
  if (String.length (NilZero.string_of_uint d) <=? int_max_str_digits)%nat
  then Some (if neg then (- Z.of_uint d)%Z else Z.of_uint d) else None.
Proof.
  destruct (uint_string_shape d) as (c & r & Hd & Hc & Hr).
  rewrite <- (uint_string_value d), Hd.
  assert (Hl : forallb is_digit (c :: list_ascii_of_string r) = true) by (cbn; now rewrite Hc).
  unfold py_int. destruct neg; cbn [String.append list_ascii_of_string].
  - rewrite strip_id by (constructor; [reflexivity|now apply forallb_digits_no_space]).
    cbn [split_sign]. unfold digit_run.
    rewrite digit_run_aux_all by (exact Hl || (left; discriminate)).
    rewrite Nat.ltb_antisym, <- length_list_ascii. now destruct (_ <=? _)%nat.
  - rewrite strip_id by (now apply forallb_digits_no_space).
    assert (Hs : forall l, split_sign (c :: l) = (false, c :: l)) by (by_digit Hc).
    rewrite Hs. unfold digit_run.
    rewrite digit_run_aux_all by (exact Hl || (left; discriminate)).
    rewrite Nat.ltb_antisym, <- length_list_ascii. now destruct (_ <=? _)%nat.
Qed.

(** [int(str(z)) == z] when [str(abs(z))] has at most 4300 digits;
    [int()] raises otherwise. *)
Lemma py_int_py_str_int (z : Z) :
  py_int (py_str_int z) =
  if (String.length (py_str_int (Z.abs z)) <=? int_max_str_digits)%nat then Some z else None.
Proof.
  destruct z as [|p|p]; unfold py_str_int; cbn [Z.abs Z.to_int NilZero.string_of_int].
  - exact (py_int_uint Decimal.zero false).
  - pose proof (py_int_uint (Pos.to_uint p) false) as Hp. cbn [String.append] in Hp.
    rewrite Hp. change (Z.of_uint (Pos.to_uint p)) with (Z.of_int (Z.to_int (Z.pos p))).
    now rewrite DecimalZ.of_to.
  - pose proof (py_int_uint (Pos.to_uint p) true) as Hp. cbn [String.append] in Hp.
    rewrite Hp. change (Z.of_uint (Pos.to_uint p)) with (Z.of_int (Z.to_int (Z.pos p))).
    now rewrite DecimalZ.of_to.
Qed.

Lemma split_eq_none (s : string) :
  forallb (fun c => negb (Ascii.eqb c "=")) (list_ascii_of_string s) = true -> split_eq s = None.
Proof.
  induction s as [|c s IH]; cbn; [reflexivity|]. intros H. apply andb_prop in H as [Hc H].
  destruct (Ascii.eqb c "="); [discriminate|]. now rewrite IH.
Qed.

Lemma last_digit (c : ascii) (l : list ascii) (d : ascii) :
  forallb is_digit (c :: l) = true -> is_digit (last (c :: l) d) = true.
Proof.
  revert c. induction l as [|c' l IH]; intros c H; [now apply andb_prop in H as [H _]|].
  apply andb_prop in H as [_ H]. exact (IH c' H).
Qed.

Lemma negative_number_digits (c : ascii) (r : string) :
  is_digit c = true -> forallb is_digit (list_ascii_of_string r) = true ->
  negative_number (String "-" (String c r)) = true.
Proof.
  intros Hc Hr. assert (Hl : forallb is_digit (c :: list_ascii_of_string r) = true)
    by (cbn; now rewrite Hc).
  unfold negative_number. cbn [list_ascii_of_string].
  assert (Hx : Ascii.eqb (last ("-"%char :: c :: list_ascii_of_string r) "a"%char) "010"%char = false).
  { change (last _ _) with (last (c :: list_ascii_of_string r) "a"%char).
    pose proof (last_digit c (list_ascii_of_string r) "a"%char Hl) as Hd. revert Hd.
    generalize (last (c :: list_ascii_of_string r) "a"%char). intros x Hd. by_digit Hd. }
  rewrite Hx, andb_false_r. cbv beta iota. now rewrite Hl.
Qed.

(** A numeral [str(z)] is a positional token: not [--], not an option. *)
Lemma py_str_int_positional (z : Z) :
  parse_optional (py_str_int z) = Ok None /\ String.eqb (py_str_int z) "--" = false /\
  String.eqb "--" (py_str_int z) = false.
Proof.
  unfold py_str_int, NilZero.string_of_int.
  destruct (Z.to_int z) as [d|d]; destruct (uint_string_shape d) as (c & r & Hd & Hc & Hr);
    rewrite Hd.
  - repeat split; by_digit Hc.
  - assert (Hn : forallb (fun c => negb (Ascii.eqb c "=")) (list_ascii_of_string (String "-" (String c r))) = true).
    { apply forallb_forall. intros x Hx. cbn [list_ascii_of_string In] in Hx.
      destruct Hx as [<-|[<-|Hx]]; [reflexivity|by_digit Hc|].
      pose proof (proj1 (forallb_forall _ _) Hr x Hx) as Hdx. by_digit Hdx. }
    unfold parse_optional. rewrite (split_eq_none _ Hn), (negative_number_digits c r Hc Hr).
    repeat split; by_digit Hc.
Qed.

(** [--<dest>] names its action. *)
Lemma parse_optional_dest (a : Action) :
  In a parser_actions ->
  parse_optional ("--" ++ dest a) = Ok (Some (Some (Opt a), "--" ++ dest a, None)) /\
  String.eqb ("--" ++ dest a) "--" = false.
Proof. intros Ha. repeat (destruct Ha as [<-|Ha]; [split; reflexivity|]). destruct Ha. Qed.

(** C30: Giving an [int] option the decimal numeral of an integer, as
    [str()] prints it (negative numbers included, which argparse takes
    for positional values, not options), stores exactly that integer:
    [--<dest> str(z)] parses to the defaults with [<dest>] set to [z],
    as long as the numeral has at most 4300 digits; a longer one makes
    [int()] raise [ValueError], which argparse reports as a usage error
    (status 2). *)
Theorem parse_int_option_roundtrip (a : Action) (z : Z) :
  In a parser_actions -> ty a = TInt ->
  parse_args ["--" ++ dest a; py_str_int z] =
    if (String.length (py_str_int (Z.abs z)) <=? int_max_str_digits)%nat
    then Ok (ns_set default_namespace (dest a) (VInt z)) else Raise (SystemExit 2).
Proof.
  intros Ha Hty. destruct (parse_optional_dest a Ha) as [Ho Hoe].
  destruct (py_str_int_positional z) as (Hs & Hse & Hse').
  unfold parse_args, parse_known_args. cbn [classify]. rewrite Hoe, Hse, Ho, Hs.
  cbn [bind Monad_res ret consume consume_optional take_next nargs take_actions take_action
       get_values remove_first fst snd].
  unfold get_values. cbn [remove_first]. rewrite Hse'. unfold convert. rewrite Hty, py_int_py_str_int.
  now destruct (_ <=? _)%nat.
Qed.

(** *** Abbreviations *)

(** [p] abbreviates the option string [o]: it starts with [--], is not
    [--] itself, and [o] is the one option string it is a prefix of. *)
Definition abbreviates (p o : string) : bool :=
  String.prefix "--" p && negb (String.eqb p "--") &&
  forallb (fun e => Bool.eqb (String.prefix p (fst e)) (String.eqb (fst e) o)) option_string_actions.

Definition no_eq (s : string) : bool :=
  forallb (fun c => negb (Ascii.eqb c "=")) (list_ascii_of_string s).

(** The option strings start with [-] and have no [=]. *)
Lemma option_strings_shape :
  Forall (fun e => (exists r, fst e = String "-" r) /\ no_eq (fst e) = true) option_string_actions.
Proof. repeat (constructor; [split; [eexists; reflexivity|reflexivity]|]). constructor. Qed.

Lemma option_strings_nodup : NoDup (map fst option_string_actions).
Proof. cbn. repeat (constructor; [cbn; intuition discriminate|]). constructor. Qed.

Lemma prefix_no_eq (p o : string) : String.prefix p o = true -> no_eq o = true -> no_eq p = true.
Proof.
  revert o. induction p as [|c p IH]; intros [|c' o]; cbn; try easy.
  destruct (ascii_dec c c') as [<-|]; [|discriminate]. intros Hp Ho.
  apply andb_prop in Ho as [Hc Ho]. rewrite Hc. exact (IH o Hp Ho).
Qed.

Lemma flat_map_unique_key {A : Type} (l : list (string * A)) (o : string) (a : A) :
  NoDup (map fst l) -> assoc_str o l = Some a ->
  flat_map (fun e => if String.eqb (fst e) o then [(snd e, fst e, @None string)] else []) l =
  [(a, o, None)].
Proof.
  induction l as [|[k v] l IH]; cbn; [discriminate|]. intros Hn Ha.
  inversion Hn as [|? ? Hk Hn']; subst.
  destruct (String.eqb_spec o k) as [<-|Hne].
  - injection Ha as <-. rewrite String.eqb_refl. cbn. f_equal. clear IH Hn Hn'.
    induction l as [|[k' v'] l IH']; cbn; [reflexivity|].
    destruct (String.eqb_spec k' o) as [->|]; [exfalso; apply Hk; now left|].
    apply IH'. intros H. apply Hk. now right.
  - rewrite (proj2 (String.eqb_neq k o) (not_eq_sym Hne)). exact (IH Hn' Ha).
Qed.

Lemma prefix_refl (s : string) : String.prefix s s = true.
Proof. induction s as [|c s IH]; cbn; [reflexivity|]. now destruct (ascii_dec c c). Qed.

Lemma flat_map_ext_In {A B : Type} (f g : A -> list B) (l : list A) :
  (forall x, In x l -> f x = g x) -> flat_map f l = flat_map g l.
Proof.
  induction l as [|x l IH]; cbn; intros H; [reflexivity|].
  rewrite (H x (or_introl eq_refl)), IH; [reflexivity|]. intros y Hy. apply H. now right.
Qed.

(** An option string, given exactly, names its action. *)
Lemma parse_optional_exact (o : string) (b : OptRef) :
  lookup_option o = Some b -> parse_optional o = Ok (Some (Some b, o, None)).
Proof.
  intros Hl. pose proof (assoc_str_In _ _ _ Hl) as Hin.
  destruct (proj1 (Forall_forall _ _) option_strings_shape _ Hin) as [[r Hr] _].
  cbn [fst] in Hr. subst o. unfold parse_optional. cbv beta iota.
  change (negb (is_prefix_char "-")) with false. cbv beta iota. now rewrite Hl.
Qed.

Lemma parse_optional_abbrev (p o : string) (b : OptRef) :
  lookup_option o = Some b -> abbreviates p o = true -> parse_optional p = Ok (Some (Some b, o, None)).
Proof.
  intros Hl Hab. unfold abbreviates in Hab.
  apply andb_prop in Hab as [Hab Hu]. apply andb_prop in Hab as [Hpre Hne].
  rewrite forallb_forall in Hu. pose proof (assoc_str_In _ _ _ Hl) as Hin.
  assert (Hpo : String.prefix p o = true).
  { specialize (Hu _ Hin). cbn [fst] in Hu. rewrite String.eqb_refl in Hu. now apply Bool.eqb_prop in Hu. }
  destruct (String.eqb_spec p o) as [->|Hpo']; [now apply parse_optional_exact|].
  assert (Hlp : lookup_option p = None).
  { destruct (lookup_option p) eqn:E; [|reflexivity]. exfalso. apply Hpo'.
    apply assoc_str_In in E. specialize (Hu _ E). cbn [fst] in Hu. rewrite prefix_refl in Hu.
    apply Bool.eqb_prop in Hu. symmetry in Hu. now apply String.eqb_eq. }
  assert (Hnq : no_eq p = true).
  { apply (prefix_no_eq p o Hpo). exact (proj2 (proj1 (Forall_forall _ _) option_strings_shape _ Hin)). }
  destruct p as [|c0 p1]; [discriminate Hpre|]. revert Hpre. cbn [String.prefix].
  destruct (ascii_dec "-" c0) as [<-|]; [|discriminate]. intros Hpre.
  destruct p1 as [|c1 p']; [discriminate Hpre|]. revert Hpre. cbn [String.prefix].
  destruct (ascii_dec "-" c1) as [<-|]; [|discriminate]. intros _.
  unfold parse_optional. cbv beta iota. change (negb (is_prefix_char "-")) with false.
  cbv beta iota. rewrite Hlp. cbn [String.length Nat.eqb]. rewrite (split_eq_none _ Hnq).
  unfold get_option_tuples. change (is_prefix_char "-") with true. cbv beta iota.
  rewrite (split_eq_none _ Hnq).
  rewrite (flat_map_ext_In _ (fun e => if String.eqb (fst e) o then [(snd e, fst e, @None string)] else []));
    [|intros [o' a'] Ho'; cbn; specialize (Hu _ Ho'); cbn [fst] in Hu; apply Bool.eqb_prop in Hu; now rewrite Hu].
  now rewrite (flat_map_unique_key _ o b option_strings_nodup Hl).
Qed.

(** C31: An unambiguous abbreviation of a long option ([--log] for
    [--log_interval]) is parsed exactly as the full option, whatever
    follows it on the command line (argparse's [allow_abbrev]). *)
Theorem abbreviation_equiv (p o : string) (b : OptRef) (rest : list string) :
  lookup_option o = Some b -> abbreviates p o = true ->
  parse_args (p :: rest) = parse_args (o :: rest).
Proof.
  intros Hl Hab. unfold parse_args, parse_known_args. cbn [classify].
  rewrite (parse_optional_abbrev p o b Hl Hab), (parse_optional_exact o b Hl).
  assert (Hp : String.eqb p "--" = false).
  { unfold abbreviates in Hab. apply andb_prop in Hab as [Hab _]. apply andb_prop in Hab as [_ H].
    now apply negb_true_iff in H. }
  assert (Ho : String.eqb o "--" = false).
  { destruct (String.eqb_spec o "--") as [->|]; [discriminate Hl|reflexivity]. }
  now rewrite Hp, Ho.
Qed.

(** *** Help *)

(** Tokens that only go to the extras: positional ones and unknown
    options. *)
Definition is_extra (t : tok) : bool :=
  match t with TArg _ | TOpt None _ _ => true | _ => false end.

Lemma classify_app (pre l : list string) (ps : list tok) :
  classify pre = Ok ps -> forallb is_extra ps = true ->
  classify (pre ++ l)%list = (ts <- classify l ;; Ok (ps ++ ts)%list).
Proof.
  revert ps. induction pre as [|s pre IH]; intros ps Hc He; cbn [classify app] in *.
  - injection Hc as <-. now destruct (classify l).
  - destruct (String.eqb s "--"); [now injection Hc as <-|].
    destruct (parse_optional s) as [t|e]; [|discriminate]. cbn in Hc |- *.
    destruct (classify pre) as [ps'|e]; [|discriminate]. injection Hc as <-.
    cbn in He. apply andb_prop in He as [_ He]. rewrite (IH ps' eq_refl He).
    now destruct (classify l).
Qed.

Lemma consume_extras_help (ps ts : list tok) (ns : Namespace) (ex : list string) :
  forallb is_extra ps = true ->
  consume (ps ++ TOpt (Some Help) "-h" None :: ts)%list ns ex = Raise (SystemExit 0).
Proof.
  revert ex. induction ps as [|[s| |[b|] o x] ps IH]; intros ex He; cbn in He;
    try discriminate; [reflexivity|..]; cbn [app consume]; apply IH, He.
Qed.

(** [-h] prints the help and exits with status 0 even after
    positional tokens and unknown options, and whatever follows it
    (missing or unconvertible values, more unknown tokens), as long as no
    token is an ambiguous abbreviation, which argparse reports before
    consuming anything. *)
Theorem help_exits_zero (pre rest : list string) (ps ts : list tok) :
  classify pre = Ok ps -> forallb is_extra ps = true -> classify rest = Ok ts ->
  parse_args (pre ++ "-h" :: rest)%list = Raise (SystemExit 0).
Proof.
  intros Hp He Hr. unfold parse_args, parse_known_args.
  rewrite (classify_app pre _ ps Hp He). cbn [classify]. rewrite Hr. cbn -[consume].
  now rewrite consume_extras_help.
Qed.

(** With no command-line argument [parse_args] returns the
    defaults of lines 19-47, which [to_args] reads as the configuration
    [Config.default_args] the rest of the development runs with; the only
    defaults that are not of their option's declared [type] are those of
    [--log_interval] and [--eval_interval], the floats [1e2] and [1e3]. *)
Theorem parse_args_defaults :
  parse_args [] = Ok default_namespace /\ to_args default_namespace = Some default_args /\
  filter (fun a => negb (has_type (ty a) (default a))) parser_actions =
    [mkAction "log_interval" TInt (VFloat 100); mkAction "eval_interval" TInt (VFloat 1000)].
Proof. split; [reflexivity|split; vm_compute; reflexivity]. Qed.


(** A store action takes its explicit argument. *)
Lemma explicit_loop_store (a : Action) (o e : string) (r : list tok) :
  explicit_loop (Opt a) o e r = Ok ([(Opt a, [e])], false).
Proof. destruct e; reflexivity. Qed.

(** A [str] option given as [--<dest>=<s>] stores [s] unchanged,
    whatever [s] is ([--model=foo] is accepted: the parser declares no
    [choices]), except [--<dest>=--], which stores the empty list
    because [_get_values] drops the first [--] of the argument strings. *)
Theorem str_option_explicit (a : Action) (s : string) :
  In a parser_actions -> ty a = TStr ->
  parse_args ["--" ++ dest a ++ "=" ++ s] =
    Ok (ns_set default_namespace (dest a) (if String.eqb s "--" then VList [] else VStr s)).
Proof.
  intros Ha Hty. unfold parse_args, parse_known_args.
  repeat (destruct Ha as [<-|Ha];
    [try discriminate Hty; cbn; rewrite explicit_loop_store; cbn; unfold get_values;
     cbn [remove_first]; rewrite (String.eqb_sym "--" s); now destruct (String.eqb s "--")|]).
  destruct Ha.
Qed.

(** ** Witnesses *)

(** [--lr x]: [float('x')] fails, a usage error. *)
Lemma parse_args_exit_status_witness :
  parse_args ["--lr"; "x"] = Raise (SystemExit 2) /\
  (SystemExit 2 = SystemExit 2 \/ SystemExit 2 = SystemExit 0).
Proof.
  assert (H : parse_args ["--lr"; "x"] = Raise (SystemExit 2)) by (vm_compute; reflexivity).
  split; [exact H|exact (parse_args_exit_status _ _ H)].
Defined.

(** An overflowing float, the [--opt=--] list and an abbreviated option
    with a negative value. *)
Lemma parse_args_value_types_witness :
  parse_args ["--lr=1e400"; "--model=--"; "--ep"; "-3"] =
    Ok (res_get [] (parse_args ["--lr=1e400"; "--model=--"; "--ep"; "-3"])) /\
  forall a, In a parser_actions ->
  exists v, ns_get (res_get [] (parse_args ["--lr=1e400"; "--model=--"; "--ep"; "-3"])) (dest a) = Some v /\
            (v = default a \/ has_type (ty a) v = true \/ v = VList []).
Proof.
  assert (H : parse_args ["--lr=1e400"; "--model=--"; "--ep"; "-3"] =
                Ok (res_get [] (parse_args ["--lr=1e400"; "--model=--"; "--ep"; "-3"])))
    by (vm_compute; reflexivity).
  split; [exact H|exact (parse_args_value_types _ _ H)].
Defined.

(** [--batch_size -7]. *)
Lemma parse_int_option_roundtrip_witness :
  In (mkAction "batch_size" TInt (VInt 128)) parser_actions /\
  ty (mkAction "batch_size" TInt (VInt 128)) = TInt /\
  parse_args ["--batch_size"; py_str_int (-7)] =
    Ok (ns_set default_namespace "batch_size" (VInt (-7))) /\
  parse_args ["--batch_size"; py_str_int (10 ^ 4300)] = Raise (SystemExit 2).
Proof.
  assert (Ha : In (mkAction "batch_size" TInt (VInt 128)) parser_actions) by (right; left; reflexivity).
  split; [exact Ha|split; [reflexivity|]].
  split; [exact (parse_int_option_roundtrip _ (-7) Ha eq_refl)|].
  pose proof (parse_int_option_roundtrip _ (10 ^ 4300) Ha eq_refl) as H.
  assert (Hc : (String.length (py_str_int (Z.abs (10 ^ 4300))) <=? int_max_str_digits)%nat = false)
    by (vm_compute; reflexivity).
  rewrite Hc in H. exact H.
Defined.

(** [--log 5] is [--log_interval 5]. *)
Lemma abbreviation_equiv_witness :
  lookup_option "--log_interval" = Some (Opt (mkAction "log_interval" TInt (VFloat 100))) /\
  abbreviates "--log" "--log_interval" = true /\
  parse_args ["--log"; "5"] = parse_args ["--log_interval"; "5"].
Proof.
  assert (Hl : lookup_option "--log_interval" = Some (Opt (mkAction "log_interval" TInt (VFloat 100))))
    by reflexivity.
  assert (Hab : abbreviates "--log" "--log_interval" = true) by (vm_compute; reflexivity).
  split; [exact Hl|split; [exact Hab|exact (abbreviation_equiv _ _ _ ["5"] Hl Hab)]].
Defined.

(** [--bogus x -h --lr oops]: the help wins over the unknown option, the
    stray token and the bad value after it. *)
Lemma help_exits_zero_witness :
  classify ["--bogus"; "x"] = Ok (res_get [] (classify ["--bogus"; "x"])) /\
  forallb is_extra (res_get [] (classify ["--bogus"; "x"])) = true /\
  classify ["--lr"; "oops"] = Ok (res_get [] (classify ["--lr"; "oops"])) /\
  parse_args (["--bogus"; "x"] ++ "-h" :: ["--lr"; "oops"])%list = Raise (SystemExit 0).
Proof.
  assert (Hp : classify ["--bogus"; "x"] = Ok (res_get [] (classify ["--bogus"; "x"])))
    by (vm_compute; reflexivity).
  assert (He : forallb is_extra (res_get [] (classify ["--bogus"; "x"])) = true)
    by (vm_compute; reflexivity).
  assert (Hr : classify ["--lr"; "oops"] = Ok (res_get [] (classify ["--lr"; "oops"])))
    by (vm_compute; reflexivity).
  split; [exact Hp|split; [exact He|split; [exact Hr|]]].
  exact (help_exits_zero _ _ _ _ Hp He Hr).
Defined.

(** [--model=foo]: not one of the model kinds the spec lists, accepted. *)
Lemma str_option_explicit_witness :
  In (mkAction "model" TStr (VStr "tcn")) parser_actions /\ ty (mkAction "model" TStr (VStr "tcn")) = TStr /\
  parse_args ["--model=foo"] = Ok (ns_set default_namespace "model" (VStr "foo")).
Proof.
  assert (Ha : In (mkAction "model" TStr (VStr "tcn")) parser_actions) by (left; reflexivity).
  split; [exact Ha|split; [reflexivity|]].
  exact (str_option_explicit _ "foo" Ha eq_refl).
Defined.
