(* ===== verification/Evaluate.v ===== *)
(** * Evaluation harness: [evaluate(source, sess)] of train.py (lines 77-92)

    The harness runs the metric graph over every evaluation batch,
    accumulates the hit count, the NDCG sum and the number of scored
    targets, and divides the two sums by the count.  After the first
    batch the sums are numpy scalars ([np_scalars]): dividing them by a
    zero count gives numpy's [nan] (or [inf]) with a warning, not an
    exception; only an empty [source] leaves them Python ints, whose
    division raises [ZeroDivisionError].  The results are [pyfloat]s.
    The theorems show what it computes (the micro-average over all
    targets, [nan] when there is no target, [ZeroDivisionError] when
    there is no batch), that the result does
    not depend on how the targets are grouped into batches, that the
    metrics lie in [0, 1], and where its exceptions come from. *)

From Stdlib Require Import List ZArith QArith Lqa Lia Permutation Morphisms Setoid.
From S2P Require Import Prelude Interfaces.
Import ListNotations.

(** The three float accumulators of [evaluate], and whether they are
    still the Python floats [0.0] of lines 78-80 or have become numpy
    scalars by adding what [sess.run] returned (lines 85-87). *)
Record EvalAcc : Type := mkEvalAcc {
  total_hit_k : Q;
  total_ndcg_k : Q;
  count : Q;
  np_scalars : bool
}.

Section Evaluate.
Context {P : Type} `{RecModel P}.

(** One iteration of [for batch in source]: run the metric graph on the
    batch (dropout 0) and add its three results to the accumulators,
    which are numpy scalars from then on. *)
Definition evaluate_batch (sess : P) (acc : EvalAcc) (batch : EvalBatch) : res EvalAcc :=
  '(hit, ndcg, n_target) <- eval_run sess batch ;;
  ret (mkEvalAcc (total_hit_k acc + hit) (total_ndcg_k acc + ndcg) (count acc + n_target) true).

Fixpoint evaluate_loop (sess : P) (source : list EvalBatch) (acc : EvalAcc) : res EvalAcc :=
  match source with
  | [] => Ok acc
  | batch :: rest =>
      acc' <- evaluate_batch sess acc batch ;;
      evaluate_loop sess rest acc'
  end.

(** The [/] of lines 89-90 on the accumulators: numpy's division when
    they are numpy scalars, Python's float division (which raises
    [ZeroDivisionError]) when they are still [0.0]. *)
Definition acc_div (np : bool) (a b : Q) : res pyfloat :=
  if np then Ok (np_div a b) else (x <- py_truediv a b ;; ret (Fin x)).

(** [evaluate(source, sess)]: the loop from the accumulators [0.0], then
    [total_hit_k / count] and [total_ndcg_k / count]. *)
Definition evaluate (source : list EvalBatch) (sess : P) : res (pyfloat * pyfloat) :=
  acc <- evaluate_loop sess source (mkEvalAcc 0 0 0 false) ;;
  val_hit <- acc_div (np_scalars acc) (total_hit_k acc) (count acc) ;;
  val_ndcg <- acc_div (np_scalars acc) (total_ndcg_k acc) (count acc) ;;
  ret (val_hit, val_ndcg).

End Evaluate.

(** ** What [evaluate] computes

    The specification of spec §4.4: the hit and NDCG sums over every
    scored target, divided by the number of targets (a micro-average over
    targets, not a mean over batches).  Where there is no target the code
    gives what Python and numpy give: [ZeroDivisionError] for an empty
    source, [nan] for batches without a scored target. *)

Section EvaluateSpec.
Context {P : Type} `{RowMetrics P}.

Definition all_rows (source : list EvalBatch) : list (list Z * Z) :=
  flat_map eval_rows source.

Definition hit_of (p : P) (r : list Z * Z) : Q := fst (fst (row_metric p (fst r) (snd r))).
Definition ndcg_of (p : P) (r : list Z * Z) : Q := snd (fst (row_metric p (fst r) (snd r))).
Definition targets_of (p : P) (r : list Z * Z) : Q := snd (row_metric p (fst r) (snd r)).

(** The micro-average of the rows of [source]: [ZeroDivisionError] when
    there is no batch, [(nan, nan)] when no row has a scored target. *)
Definition micro_average (p : P) (source : list EvalBatch) : res (pyfloat * pyfloat) :=
  let rows := all_rows source in
  let n := qsum (map (targets_of p) rows) in
  match source with
  | [] => Raise ZeroDivisionError
  | _ :: _ =>
      if Qeq_bool n 0 then Ok (NaN, NaN)
      else Ok (Fin (qsum (map (hit_of p) rows) / n), Fin (qsum (map (ndcg_of p) rows) / n))
  end.

Lemma evaluate_loop_sums (p : P) (source : list EvalBatch) (acc : EvalAcc) :
  exists acc', evaluate_loop p source acc = Ok acc' /\
    total_hit_k acc' == total_hit_k acc + qsum (map (hit_of p) (all_rows source)) /\
    total_ndcg_k acc' == total_ndcg_k acc + qsum (map (ndcg_of p) (all_rows source)) /\
    count acc' == count acc + qsum (map (targets_of p) (all_rows source)) /\
    np_scalars acc' = match source with [] => np_scalars acc | _ => true end.
Proof.
  revert acc. induction source as [|b rest IH]; intros acc; simpl.
  - exists acc. split; [reflexivity|]. unfold all_rows; simpl; qsum_norm. repeat split; lra.
  - unfold evaluate_batch. rewrite eval_run_rows. simpl.
    match goal with |- context [evaluate_loop p rest ?a] =>
      destruct (IH a) as (acc' & Hl & H1 & H2 & H3 & H4) end.
    exists acc'. split; [exact Hl|]. simpl in H1, H2, H3, H4.
    change (fun r : list Z * Z => fst (fst (row_metric p (fst r) (snd r)))) with (hit_of p) in *.
    change (fun r : list Z * Z => snd (fst (row_metric p (fst r) (snd r)))) with (ndcg_of p) in *.
    change (fun r : list Z * Z => snd (row_metric p (fst r) (snd r))) with (targets_of p) in *.
    unfold all_rows in *. simpl flat_map. qsum_norm.
    split; [lra|]. split; [lra|]. split; [lra|]. destruct rest; exact H4.
Qed.

Lemma row_bounds (p : P) (r : list Z * Z) :
  0 <= hit_of p r <= targets_of p r /\ 0 <= ndcg_of p r <= targets_of p r.
Proof.
  unfold hit_of, ndcg_of, targets_of.
  pose proof (row_metric_bounds p (fst r) (snd r)) as Hb.
  destruct (row_metric p (fst r) (snd r)) as [[h g] n]. exact Hb.
Qed.

(** The sums over the rows lie between [0] and the number of targets. *)
Lemma row_sums_bounds (p : P) (rows : list (list Z * Z)) :
  0 <= qsum (map (hit_of p) rows) <= qsum (map (targets_of p) rows) /\
  0 <= qsum (map (ndcg_of p) rows) <= qsum (map (targets_of p) rows).
Proof.
  split; split;
    try (apply qsum_map_nonneg; intros r _; apply row_bounds);
    apply qsum_map_le; intros r _; apply row_bounds.
Qed.

(** A sum between [0] and a zero count is zero: numpy's [0/0]. *)
Lemma np_div_no_target (a n : Q) : 0 <= a <= n -> n == 0 -> np_div a n = NaN.
Proof.
  intros Ha Hn. unfold np_div. rewrite (Qeq_eq_bool _ _ Hn).
  assert (Ha0 : a == 0) by (rewrite Hn in Ha; lra). now rewrite (Qeq_eq_bool _ _ Ha0).
Qed.

Lemma evaluate_spec (p : P) (source : list EvalBatch) :
  res_rel pfpair_eq (evaluate source p) (micro_average p source).
Proof.
  destruct (evaluate_loop_sums p source (mkEvalAcc 0 0 0 false)) as (acc & Hl & H1 & H2 & H3 & H4).
  simpl in H1, H2, H3. unfold evaluate, micro_average. rewrite Hl. cbn [bind Monad_res].
  rewrite Qplus_0_l in H1, H2, H3.
  destruct (row_sums_bounds p (all_rows source)) as [Hh Hg].
  destruct source as [|b rest]; rewrite H4.
  - unfold all_rows in H3. simpl in H3. unfold acc_div. rewrite py_truediv_zero by exact H3.
    reflexivity.
  - set (rows := all_rows (b :: rest)) in *. unfold acc_div. cbn [bind Monad_res ret].
    destruct (Qeq_bool (qsum (map (targets_of p) rows)) 0) eqn:E.
    + apply Qeq_bool_iff in E. assert (Hc : count acc == 0) by (rewrite H3; exact E).
      rewrite !np_div_no_target by (first [exact Hc | lra]). split; exact I.
    + assert (Hn : ~ count acc == 0).
      { rewrite H3. intro Hc. apply Qeq_bool_iff in Hc. congruence. }
      unfold np_div. destruct (Qeq_bool (count acc) 0) eqn:Ec;
        [apply Qeq_bool_iff in Ec; contradiction|].
      split; simpl; rewrite ?H1, ?H2, ?H3; reflexivity.
Qed.

(** C4: The harness returns the micro-average of hit and NDCG over all the
    targets of all the batches.  Where there is no scored target it
    returns what the code computes: [ZeroDivisionError] only when the
    source has no batch (the accumulators are still the Python floats
    [0.0]); [(nan, nan)] when there are batches but none of their rows
    scores a target (numpy's [0/0], line 89). *)
Theorem evaluate_micro_average (p : P) (source : list EvalBatch) :
  res_rel pfpair_eq (evaluate source p) (micro_average p source).
Proof. apply evaluate_spec. Qed.

Lemma micro_average_perm (p : P) (s1 s2 : list EvalBatch) :
  Permutation (all_rows s1) (all_rows s2) -> (s1 = [] <-> s2 = []) ->
  res_rel pfpair_eq (micro_average p s1) (micro_average p s2).
Proof.
  intros Hp He. unfold micro_average. cbv zeta.
  pose proof (qsum_perm _ _ (Permutation_map (targets_of p) Hp)) as Hn.
  pose proof (qsum_perm _ _ (Permutation_map (hit_of p) Hp)) as Hh.
  pose proof (qsum_perm _ _ (Permutation_map (ndcg_of p) Hp)) as Hg.
  assert (E : Qeq_bool (qsum (map (targets_of p) (all_rows s1))) 0
            = Qeq_bool (qsum (map (targets_of p) (all_rows s2))) 0) by now rewrite Hn.
  destruct s1 as [|b1 r1], s2 as [|b2 r2]; try reflexivity;
    [pose proof (proj1 He eq_refl)|pose proof (proj2 He eq_refl)|]; try discriminate.
  rewrite E. destruct (Qeq_bool (qsum (map (targets_of p) (all_rows (b2 :: r2)))) 0);
    [split; exact I|].
  split; simpl; rewrite ?Hn, ?Hh, ?Hg; reflexivity.
Qed.

(** C5: The metrics do not depend on how the targets are grouped into
    batches: two evaluation sources holding the same rows, in any
    order and any batch sizes, give the same Hit@K and NDCG@K (both
    having a batch, or neither: [ZeroDivisionError] needs an empty
    source). *)
Theorem evaluate_regroup (p : P) (s1 s2 : list EvalBatch) :
  Permutation (all_rows s1) (all_rows s2) -> (s1 = [] <-> s2 = []) ->
  res_rel pfpair_eq (evaluate s1 p) (evaluate s2 p).
Proof.
  intros Hp He. rewrite (evaluate_spec p s1), (evaluate_spec p s2).
  now apply micro_average_perm.
Qed.

Lemma ratio_unit (a n : Q) : 0 <= a <= n -> ~ n == 0 -> 0 <= a / n <= 1.
Proof.
  intros [Ha Han] Hn. assert (Hpos : 0 < n) by (apply Qle_lteq in Ha; lra).
  split.
  - apply Qle_shift_div_l; [exact Hpos | lra].
  - apply Qle_shift_div_r; [exact Hpos | lra].
Qed.

(** C6: Whenever the harness returns, Hit@K and NDCG@K are both finite and
    lie in [0, 1] when the batches hold a scored target, and are both
    [nan] when they hold none: the range of spec §8 fails exactly there. *)
Theorem evaluate_bounds (p : P) (source : list EvalBatch) (hit ndcg : pyfloat) :
  evaluate source p = Ok (hit, ndcg) ->
  if Qeq_bool (qsum (map (targets_of p) (all_rows source))) 0 then hit = NaN /\ ndcg = NaN
  else exists h g, hit = Fin h /\ ndcg = Fin g /\ 0 <= h <= 1 /\ 0 <= g <= 1.
Proof.
  intros He. pose proof (evaluate_spec p source) as Hm. rewrite He in Hm.
  unfold micro_average in Hm.
  destruct (row_sums_bounds p (all_rows source)) as [Hh Hg].
  destruct source as [|b rest]; [contradiction|].
  set (rows := all_rows (b :: rest)) in *.
  destruct (Qeq_bool (qsum (map (targets_of p) rows)) 0) eqn:E; cbn [res_rel] in Hm;
    destruct Hm as [H1 H2]; cbn [pf_eq fst snd] in H1, H2.
  - split; [destruct hit|destruct ndcg]; easy.
  - destruct hit as [h| |]; try contradiction. destruct ndcg as [g| |]; try contradiction.
    change (h == qsum (map (hit_of p) rows) / qsum (map (targets_of p) rows)) in H1.
    change (g == qsum (map (ndcg_of p) rows) / qsum (map (targets_of p) rows)) in H2.
    exists h, g. split; [reflexivity|]. split; [reflexivity|].
    assert (Hn : ~ qsum (map (targets_of p) rows) == 0)
      by (intro Hc; apply Qeq_bool_iff in Hc; congruence).
    split; [rewrite H1 | rewrite H2]; apply ratio_unit; assumption.
Qed.

End EvaluateSpec.

Section EvaluateErrors.
Context {P : Type} `{RecModel P}.

Lemma evaluate_loop_raise (p : P) (source : list EvalBatch) (acc : EvalAcc) (e : exn) :
  evaluate_loop p source acc = Raise e ->
  exists b, In b source /\ eval_run p b = Raise e.
Proof.
  revert acc. induction source as [|b rest IH]; intros acc; simpl; [discriminate|].
  unfold evaluate_batch.
  destruct (eval_run p b) as [[[h g] n]|e'] eqn:Er; simpl.
  - intros Hl. destruct (IH _ Hl) as (b' & Hin & Hb'). eauto.
  - intros Heq. inversion Heq; subst. eauto.
Qed.

(** After a batch the accumulators are numpy scalars. *)
Lemma evaluate_loop_np (p : P) (source : list EvalBatch) (acc acc' : EvalAcc) :
  evaluate_loop p source acc = Ok acc' ->
  np_scalars acc' = match source with [] => np_scalars acc | _ => true end.
Proof.
  revert acc. induction source as [|b rest IH]; intros acc; simpl; [congruence|].
  unfold evaluate_batch. destruct (eval_run p b) as [[[h g] n]|e']; simpl; [|discriminate].
  intros Hl. rewrite (IH _ Hl). now destruct rest.
Qed.

(** C7: The harness raises only what the metric graph raised on one of the
    batches, or [ZeroDivisionError] from the final divisions, and that
    only when the source has no batch. *)
Theorem evaluate_raise (p : P) (source : list EvalBatch) (e : exn) :
  evaluate source p = Raise e ->
  (e = ZeroDivisionError /\ source = []) \/ exists b, In b source /\ eval_run p b = Raise e.
Proof.
  unfold evaluate. destruct (evaluate_loop p source _) as [acc|e'] eqn:El; simpl.
  - pose proof (evaluate_loop_np p source _ acc El) as Hn. unfold acc_div.
    destruct (np_scalars acc); [discriminate|]. unfold py_truediv.
    destruct (Qeq_bool (count acc) 0); simpl; [|discriminate].
    intros Heq. inversion Heq; subst. left. split; [reflexivity|]. now destruct source.
  - intros Heq. inversion Heq; subst. right. eapply evaluate_loop_raise; eauto.
Qed.
End EvaluateErrors.

(** ** A concrete metric graph, for the witnesses

    The parameters are a ranked item list; a row scores a hit when its
    target is among the first two items, with NDCG [1/(rank+1)]; the
    padding target [0] is not scored. *)
Module ToyRanker.
Definition top_k : nat := 2.

Fixpoint rank_of (x : Z) (l : list Z) : option nat :=
  match l with
  | [] => None
  | y :: l' => if (x =? y)%Z then Some 0%nat else option_map S (rank_of x l')
  end.

Definition toy_row (p : list Z) (inp : list Z) (pos : Z) : Q * Q * Q :=
  if (pos =? 0)%Z then (0, 0, 0)
  else match rank_of pos (firstn top_k p) with
       | Some r => (1, 1 / inject_Z (Z.of_nat r + 1), 1)
       | None => (0, 0, 1)
       end.

#[export] Instance toy_model : RecModel (list Z) := {
  train_run p b lr dropout := Ok (p, 1);
  eval_run p b :=
    Ok (qsum (map (fun r => fst (fst (toy_row p (fst r) (snd r)))) (eval_rows b)),
        qsum (map (fun r => snd (fst (toy_row p (fst r) (snd r)))) (eval_rows b)),
        qsum (map (fun r => snd (toy_row p (fst r) (snd r))) (eval_rows b)))
}.

#[export] Program Instance toy_metrics : RowMetrics (list Z) := {
  row_metric := toy_row
}.
Next Obligation.
  unfold toy_row. destruct (pos =? 0)%Z; [lra|].
  destruct (rank_of pos (firstn top_k p)) as [r|]; [|lra].
  split; [lra|]. split.
  - apply Qle_shift_div_l; [|lra].
    change 0 with (inject_Z 0). rewrite <- Zlt_Qlt. lia.
  - apply Qle_shift_div_r; [|].
    + change 0 with (inject_Z 0). rewrite <- Zlt_Qlt. lia.
    + change 1 with (inject_Z 1). rewrite <- inject_Z_mult, <- Zle_Qle. lia.
Qed.

Definition toy_p : list Z := [5; 9; 3]%Z.
Definition batch_a : EvalBatch := mkEvalBatch [1; 2]%Z [[1]; [2]]%Z [5; 7]%Z.
Definition batch_b : EvalBatch := mkEvalBatch [3]%Z [[0]]%Z [9]%Z.
Definition batch_ab : EvalBatch := mkEvalBatch [1; 2; 3]%Z [[1]; [2]; [0]]%Z [5; 7; 9]%Z.
End ToyRanker.

Import ToyRanker.

Definition batch_rev : EvalBatch := mkEvalBatch [3; 2; 1]%Z [[0]; [2]; [1]]%Z [9; 7; 5]%Z.

(** A batch whose only row is padding (target [0]): no scored target. *)
Definition batch_pad : EvalBatch := mkEvalBatch [4]%Z [[1]]%Z [0]%Z.

(** The ranker scores two hits out of three targets, one at rank 0 and
    one at rank 1: Hit@2 = 2/3 and NDCG = (1 + 1/2)/3.  On a batch of
    padding only, both metrics are [nan]. *)
Lemma evaluate_bounds_witness :
  evaluate [batch_a; batch_b] toy_p = Ok (Fin (2 # 3), Fin (3 # 6)) /\
  evaluate [batch_pad] toy_p = Ok (NaN, NaN) /\
  (exists h g, Fin (2 # 3) = Fin h /\ Fin (3 # 6) = Fin g /\ 0 <= h <= 1 /\ 0 <= g <= 1) /\
  (NaN = NaN /\ NaN = NaN).
Proof.
  assert (H1 : evaluate [batch_a; batch_b] toy_p = Ok (Fin (2 # 3), Fin (3 # 6)))
    by (vm_compute; reflexivity).
  assert (H2 : evaluate [batch_pad] toy_p = Ok (NaN, NaN)) by (vm_compute; reflexivity).
  split; [exact H1|]. split; [exact H2|].
  split; [exact (evaluate_bounds toy_p _ _ _ H1) | exact (evaluate_bounds toy_p _ _ _ H2)].
Defined.

(** Two batches, or one batch with the rows in reverse order, give the
    same metrics. *)
Lemma evaluate_regroup_witness :
  Permutation (all_rows [batch_a; batch_b]) (all_rows [batch_rev]) /\
  res_rel pfpair_eq (evaluate [batch_a; batch_b] toy_p) (evaluate [batch_rev] toy_p).
Proof.
  assert (Hp : Permutation (all_rows [batch_a; batch_b]) (all_rows [batch_rev])).
  { vm_compute. apply (Permutation_rev (([1]%Z, 5%Z) :: ([2]%Z, 7%Z) :: ([0]%Z, 9%Z) :: nil)). }
  split; [exact Hp|]. apply (evaluate_regroup toy_p _ _ Hp). split; discriminate.
Defined.

(** An empty evaluation source raises [ZeroDivisionError]. *)
Lemma evaluate_raise_witness :
  evaluate [] toy_p = Raise ZeroDivisionError /\
  ((ZeroDivisionError = ZeroDivisionError /\ @nil EvalBatch = []) \/
   exists b, In b [] /\ eval_run toy_p b = Raise ZeroDivisionError).
Proof.
  assert (He : evaluate [] toy_p = Raise ZeroDivisionError) by reflexivity.
  split; [exact He|]. apply (evaluate_raise toy_p [] ZeroDivisionError He).
Defined.
