(* ===== verification/EvalData.v ===== *)
(** * Evaluation batches: [prepare_eval_test] (utils.py, spec §4.3)

    train.py line 65 turns the validation split into evaluation batches
    with [prepare_eval_test(val_data, batch_size=100, max_test_len=20)].
    utils.py is not part of the sources, so the routine is modelled from
    spec §4.3: each evaluation instance (a user, the items before the
    held-out one, the held-out item) becomes a row whose input window is
    padded on the left with the "no item" sentinel or truncated to its
    last [max_test_len] items, and the rows are cut into consecutive
    chunks of [batch_size].  A batch size of 0 raises [ValueError], as
    Python's [range(0, n, 0)] does.

    The chunking is well-founded recursion on the length of the list
    (Equations).  The theorems: the batches hold exactly the rows of the
    split, in order; every batch has between 1 and [batch_size] rows and
    every window [max_test_len] items; and, with the harness of
    Evaluate.v, the metrics do not depend on the batch size (spec §8). *)

From Stdlib Require Import List ZArith QArith Lia.
From Equations Require Import Equations.
From S2P Require Import Prelude Interfaces Evaluate.
Import ListNotations.

(** One evaluation instance of a split. *)
Record EvalInstance : Type := mkEvalInstance {
  inst_user : Z;
  inst_hist : list Z;
  inst_target : Z
}.

(** The "no item" sentinel of the padding. *)
Definition pad_item : Z := 0.

(** Pad on the left or keep the last [L] items. *)
Definition pad_window (L : nat) (h : list Z) : list Z :=
  repeat pad_item (L - List.length h) ++ skipn (List.length h - L) h.

(** Consecutive chunks of [S k] elements, the last one possibly shorter. *)
Equations chunk {A : Type} (k : nat) (l : list A) : list (list A) by wf (List.length l) lt :=
  chunk k [] := [];
  chunk k (x :: l') := firstn (S k) (x :: l') :: chunk k (skipn (S k) (x :: l')).
Next Obligation. rewrite length_skipn. simpl. lia. Qed.

(** The row an instance contributes to an evaluation batch. *)
Definition inst_row (L : nat) (i : EvalInstance) : list Z * Z :=
  (pad_window L (inst_hist i), inst_target i).

Definition to_eval_batch (L : nat) (c : list EvalInstance) : EvalBatch :=
  mkEvalBatch (map inst_user c) (map (fun i => pad_window L (inst_hist i)) c)
    (map inst_target c).

Definition prepare_eval_test (d : list EvalInstance) (batch_size max_test_len : nat)
    : res (list EvalBatch) :=
  match batch_size with
  | O => Raise ValueError
  | S k => Ok (map (to_eval_batch max_test_len) (chunk k d))
  end.

(** ** Lemmas *)

Local Open Scope nat_scope.

Lemma pad_window_length (L : nat) (h : list Z) : List.length (pad_window L h) = L.
Proof. unfold pad_window. rewrite length_app, repeat_length, length_skipn. lia. Qed.

Lemma pad_window_keep (L : nat) (h : list Z) :
  List.length h <= L -> pad_window L h = repeat pad_item (L - List.length h) ++ h.
Proof. intros Hl. unfold pad_window. now replace (List.length h - L) with 0 by lia. Qed.

Lemma chunk_concat {A} (k : nat) (l : list A) : concat (chunk k l) = l.
Proof.
  funelim (chunk k l); [reflexivity|].
  cbn [concat]. rewrite H. apply firstn_skipn.
Qed.

Lemma chunk_sizes {A} (k : nat) (l : list A) :
  Forall (fun c => 0 < List.length c <= S k) (chunk k l).
Proof.
  funelim (chunk k l); constructor; [|exact H].
  rewrite length_firstn. simpl. lia.
Qed.

Lemma chunk_count {A} (k : nat) (l : list A) :
  List.length (chunk k l) = (List.length l + k) / S k.
Proof.
  funelim (chunk k l); [cbn [List.length Nat.add]; symmetry; apply Nat.div_small; lia|].
  cbn [List.length]. rewrite H, length_skipn. cbn [List.length].
  destruct (Nat.le_gt_cases (S k) (S (List.length l'))) as [Hle|Hgt].
  - replace (S (List.length l') + k) with (S (List.length l') - S k + k + 1 * S k) by lia.
    rewrite Nat.div_add by lia. lia.
  - replace (S (List.length l') - S k) with 0 by lia.
    rewrite (Nat.div_small (0 + k)) by lia.
    apply (Nat.div_unique _ _ _ (S (List.length l') + k - S k)); lia.
Qed.

Lemma chunk_nil {A} (k : nat) (l : list A) : chunk k l = [] <-> l = [].
Proof. funelim (chunk k l); split; intros; (reflexivity || discriminate). Qed.

Lemma combine_map_same {A B C} (f : A -> B) (g : A -> C) (l : list A) :
  combine (map f l) (map g l) = map (fun x => (f x, g x)) l.
Proof. induction l as [|x l IH]; simpl; [reflexivity|]. now rewrite IH. Qed.

Lemma eval_rows_to_eval_batch (L : nat) (c : list EvalInstance) :
  eval_rows (to_eval_batch L c) = map (inst_row L) c.
Proof. apply combine_map_same. Qed.

Lemma all_rows_chunks (L k : nat) (d : list EvalInstance) :
  all_rows (map (to_eval_batch L) (chunk k d)) = map (inst_row L) d.
Proof.
  unfold all_rows. rewrite flat_map_concat_map, map_map.
  rewrite (map_ext _ _ (eval_rows_to_eval_batch L)), <- concat_map, chunk_concat.
  reflexivity.
Qed.

Lemma forall_to_eval_batch (L bs : nat) (cs : list (list EvalInstance)) :
  Forall (fun c => 0 < List.length c <= bs) cs ->
  Forall (fun b => 0 < List.length (eval_users b) <= bs /\
                   List.length (eval_inp b) = List.length (eval_users b) /\
                   List.length (eval_pos b) = List.length (eval_users b) /\
                   Forall (fun w => List.length w = L) (eval_inp b))
    (map (to_eval_batch L) cs).
Proof.
  intros Hc. apply Forall_map. refine (Forall_impl _ _ Hc). intros c Hn.
  cbn [to_eval_batch eval_users eval_inp eval_pos]. rewrite !length_map.
  repeat split; try lia. apply Forall_map, Forall_forall. intros i _. apply pad_window_length.
Qed.

(** ** What [prepare_eval_test] returns *)

(** C16: [prepare_eval_test] raises [ValueError] for a batch size of 0;
    for any other batch size it returns batches whose rows, read in
    order, are exactly the rows of the split (each window padded or
    truncated to [max_test_len]): no instance is lost, duplicated or
    reordered. *)
Theorem prepare_eval_test_rows (d : list EvalInstance) (bs L : nat) :
  match bs with
  | O => prepare_eval_test d bs L = Raise ValueError
  | S _ => exists src, prepare_eval_test d bs L = Ok src /\ all_rows src = map (inst_row L) d
  end.
Proof.
  destruct bs as [|k]; [reflexivity|].
  eexists. split; [reflexivity|]. apply all_rows_chunks.
Qed.

(** C17: The batches [prepare_eval_test] returns number
    [ceil(len(d) / batch_size)]; each holds between 1 and [batch_size]
    rows, as many users, windows and targets, and every window has
    exactly [max_test_len] items. *)
Theorem prepare_eval_test_shape (d : list EvalInstance) (bs L : nat) (src : list EvalBatch) :
  prepare_eval_test d bs L = Ok src ->
  List.length src = (List.length d + bs - 1) / bs /\
  Forall (fun b => 0 < List.length (eval_users b) <= bs /\
                   List.length (eval_inp b) = List.length (eval_users b) /\
                   List.length (eval_pos b) = List.length (eval_users b) /\
                   Forall (fun w => List.length w = L) (eval_inp b)) src.
Proof.
  destruct bs as [|k]; [discriminate|]. intros Hp. injection Hp as <-.
  split.
  - rewrite length_map, chunk_count. f_equal. lia.
  - apply forall_to_eval_batch, chunk_sizes.
Qed.

Section BatchSize.
Context {P : Type} `{RowMetrics P}.

(** C18: Evaluating a split prepared with one batch size or another gives
    the same Hit@K and NDCG@K (or the same exception): the metrics do not
    depend on the grouping of the targets into batches (spec §8). *)
Theorem evaluate_batch_size_invariant (p : P) (d : list EvalInstance) (bs1 bs2 L : nat) :
  0 < bs1 -> 0 < bs2 ->
  res_rel pfpair_eq (src <- prepare_eval_test d bs1 L ;; evaluate src p)
                    (src <- prepare_eval_test d bs2 L ;; evaluate src p).
Proof.
  destruct bs1 as [|k1], bs2 as [|k2]; intros H1 H2; try lia. simpl.
  rewrite (evaluate_spec p (map _ (chunk k1 d))), (evaluate_spec p (map _ (chunk k2 d))).
  apply micro_average_perm; [now rewrite !all_rows_chunks|].
  split; intros Hn; apply map_eq_nil, chunk_nil in Hn; subst d; reflexivity.
Qed.
End BatchSize.

(** ** Witnesses *)

Import ToyRanker.

Definition inst3 : list EvalInstance :=
  [mkEvalInstance 1 [4; 1] 5; mkEvalInstance 2 [2] 7; mkEvalInstance 3 [8; 6; 0] 9]%Z.

Definition src3 : list EvalBatch :=
  match prepare_eval_test inst3 2 2 with Ok s => s | Raise _ => [] end.

(** Three instances in batches of two: two batches, of two and one rows. *)
Lemma prepare_eval_test_shape_witness :
  prepare_eval_test inst3 2 2 = Ok src3 /\
  List.length src3 = 2 /\
  Forall (fun b => 0 < List.length (eval_users b) <= 2 /\
                   List.length (eval_inp b) = List.length (eval_users b) /\
                   List.length (eval_pos b) = List.length (eval_users b) /\
                   Forall (fun w => List.length w = 2) (eval_inp b)) src3.
Proof.
  assert (Hp : prepare_eval_test inst3 2 2 = Ok src3) by (vm_compute; reflexivity).
  destruct (prepare_eval_test_shape inst3 2 2 src3 Hp) as [Hl Hf].
  split; [exact Hp|]. split; [exact Hl|exact Hf].
Defined.

(** Batches of one and of two rows score the same with the toy ranker. *)
Lemma evaluate_batch_size_invariant_witness :
  0 < 1 /\ 0 < 2 /\
  res_rel pfpair_eq (src <- prepare_eval_test inst3 1 2 ;; evaluate src toy_p)
                    (src <- prepare_eval_test inst3 2 2 ;; evaluate src toy_p).
Proof.
  split; [lia|]. split; [lia|].
  apply (evaluate_batch_size_invariant toy_p inst3 1 2 2); lia.
Defined.
