(* ===== verification/Sampler.v ===== *)
(** * Negative sampler pool and batch dispatcher: [Sampler] (sampler.py, spec §4.2)

    train.py lines 55-63 build [Sampler(data=train_data, n_items, n_users,
    batch_size, max_len=seq_len, neg_size, n_workers=worker,
    neg_method='rand')] and the controller calls its [next_batch()] and
    [close()].  sampler.py is not part of the sources, so the pool is
    modelled from spec §4.2, §5 and §7:
    - a worker draws [batch_size] users uniformly with replacement, for
      each a cut point and the window of up to [max_len] items before it
      (left-padded with the "no item" sentinel), the positives one step
      ahead, and [neg_size] negatives per position by rejection sampling
      against the user's items, at most [max_retries] draws per negative
      ([SamplerError] after that);
    - workers push onto a queue of [queue_capacity] batches and block when
      it is full; [next_batch()] pops and blocks when it is empty;
      [close()] stops and joins the workers and is idempotent.
    The random generator of each worker is a state [Z] advanced by a
    function [rng_next] (numpy's generator is not modelled: the theorems
    hold for every generator).  The pool is a step relation ([pool_step]:
    produce, consume, close) and an executable dispatcher
    ([pool_next_batch]: pop, or let the next worker in turn produce);
    [Pool] is an instance of the [BatchSource] interface. *)

From Stdlib Require Import List String ZArith Lia Relation_Operators Bool.
From S2P Require Import Prelude Interfaces EvalData.
Import ListNotations.

(** The constructor arguments of [Sampler] with the bounds of spec §4.2. *)
Record SamplerConfig : Type := mkSamplerConfig {
  n_items : Z;
  batch_size : nat;
  max_len : nat;
  neg_size : nat;
  n_workers : nat;
  queue_capacity : nat;
  max_retries : nat
}.

(** [train_data]: each user's id with the user's item sequence. *)
Definition UserSeqs : Type := list (Z * list Z).

(** [np.random.randint(lo, hi)]: advance the generator and reduce the new
    state into [[lo, hi)]. *)
Definition randint (rng_next : Z -> Z) (lo hi : Z) (g : Z) : Z * Z :=
  let g' := rng_next g in ((lo + g' mod (hi - lo))%Z, g').

Definition mem (x : Z) (l : list Z) : bool := existsb (Z.eqb x) l.

(** [n] draws in sequence, threading the generator state. *)
Fixpoint replicateM {A : Type} (n : nat) (f : Z -> res (A * Z)) (g : Z) : res (list A * Z) :=
  match n with
  | O => Ok ([], g)
  | S n' =>
      '(x, g1) <- f g ;;
      '(xs, g2) <- replicateM n' f g1 ;;
      ret (x :: xs, g2)
  end.

Section Sampling.
Variable rng_next : Z -> Z.
Variable cfg : SamplerConfig.

(** One negative for a user whose items are [seq]: draw in [[1, n_items]]
    until the item is not one of the user's, at most [fuel] draws. *)
Fixpoint sample_neg (seq : list Z) (fuel : nat) (g : Z) : res (Z * Z) :=
  match fuel with
  | O => Raise (SamplerError "no negative found"%string)
  | S fuel' =>
      let '(x, g') := randint rng_next 1 (n_items cfg + 1) g in
      if mem x seq then sample_neg seq fuel' g' else Ok (x, g')
  end.

(** One training sample of the user drawn: the window before a cut point
    drawn in [[1, len(seq))], the positives one step ahead, and [neg_size]
    negatives at each of the [max_len] positions. *)
Definition sample_one (data : UserSeqs) (g : Z) :
    res ((Z * list Z * list Z * list (list Z)) * Z) :=
  let '(ui, g1) := randint rng_next 0 (Z.of_nat (List.length data)) g in
  match nth_error data (Z.to_nat ui) with
  | None => Raise ValueError
  | Some (u, seq) =>
      let '(c, g2) := randint rng_next 1 (Z.of_nat (Nat.max 2 (List.length seq))) g1 in
      let inp := pad_window (max_len cfg) (firstn (Z.to_nat c) seq) in
      let pos := pad_window (max_len cfg) (firstn (Z.to_nat c) (tl seq)) in
      '(negs, g3) <- replicateM (max_len cfg)
                       (replicateM (neg_size cfg) (sample_neg seq (max_retries cfg))) g2 ;;
      ret ((u, inp, pos, negs), g3)
  end.

(** A mini-batch: [batch_size] samples, column-stacked. *)
Definition make_batch (data : UserSeqs) (g : Z) : res (Batch * Z) :=
  '(smps, g') <- replicateM (batch_size cfg) (sample_one data) g ;;
  ret (mkBatch (map (fun s => fst (fst (fst s))) smps)
               (map (fun s => snd (fst (fst s))) smps)
               (map (fun s => snd (fst s)) smps)
               (map snd smps), g').

End Sampling.

(** The well-formedness of a mini-batch (spec §3 and §8): [batch_size]
    rows; windows and positives of [max_len] items; [neg_size] negatives
    in [[1, n_items]] at every position, none equal to the positive at
    that position. *)
Definition wf_batch (cfg : SamplerConfig) (b : Batch) : bool :=
  (List.length (batch_users b) =? batch_size cfg) &&
  (List.length (batch_inp b) =? batch_size cfg) &&
  (List.length (batch_pos b) =? batch_size cfg) &&
  (List.length (batch_neg b) =? batch_size cfg) &&
  forallb (fun w => List.length w =? max_len cfg) (batch_inp b) &&
  forallb (fun w => List.length w =? max_len cfg) (batch_pos b) &&
  forallb (fun rows => (List.length rows =? max_len cfg) &&
             forallb (fun ns => (List.length ns =? neg_size cfg) &&
                        forallb (fun x => (1 <=? x)%Z && (x <=? n_items cfg)%Z) ns) rows)
    (batch_neg b) &&
  forallb (fun pr => forallb (fun '(p, ns) => negb (mem p ns)) (combine (fst pr) (snd pr)))
    (combine (batch_pos b) (batch_neg b)).

(** The conditions of [wf_batch] on one sample. *)
Definition wf_sample (cfg : SamplerConfig) (s : Z * list Z * list Z * list (list Z)) : bool :=
  let '(_, inp, pos, negs) := s in
  (List.length inp =? max_len cfg) && (List.length pos =? max_len cfg) &&
  forallb (fun ns => (List.length ns =? neg_size cfg) &&
             forallb (fun x => (1 <=? x)%Z && (x <=? n_items cfg)%Z) ns) negs &&
  (List.length negs =? max_len cfg) &&
  forallb (fun '(p, ns) => negb (mem p ns)) (combine pos negs).

(** ** The samples a worker draws are well formed *)

Lemma replicateM_Forall {A : Type} (Q : A -> Prop) (f : Z -> res (A * Z)) (n : nat)
    (g g' : Z) (xs : list A) :
  (forall g0 x g1, f g0 = Ok (x, g1) -> Q x) ->
  replicateM n f g = Ok (xs, g') -> List.length xs = n /\ Forall Q xs.
Proof.
  intros Hf. revert g xs. induction n as [|n IH]; intros g xs; simpl.
  - intros Heq. inversion Heq; subst. auto.
  - destruct (f g) as [[x g1]|e] eqn:Ef; simpl; [|discriminate].
    destruct (replicateM n f g1) as [[ys g2]|e] eqn:Er; simpl; [|discriminate].
    intros Heq. inversion Heq; subst. destruct (IH _ _ Er) as [Hl Hq].
    simpl. split; [lia|]. constructor; [exact (Hf _ _ _ Ef)|exact Hq].
Qed.

Lemma randint_range (rng_next : Z -> Z) (lo hi g : Z) :
  (lo < hi)%Z -> (lo <= fst (randint rng_next lo hi g) < hi)%Z.
Proof. intros H. simpl. pose proof (Z.mod_pos_bound (rng_next g) (hi - lo)). lia. Qed.

Lemma mem_In (x : Z) (l : list Z) : mem x l = true <-> In x l.
Proof.
  unfold mem. rewrite existsb_exists. split.
  - intros (y & Hy & E). apply Z.eqb_eq in E. now subst.
  - intros Hx. exists x. split; [exact Hx|apply Z.eqb_refl].
Qed.

Lemma In_skipn_l {A} (n : nat) (l : list A) (x : A) : In x (skipn n l) -> In x l.
Proof. intros H. rewrite <- (firstn_skipn n l). apply in_app_iff. now right. Qed.

Lemma In_firstn_l {A} (n : nat) (l : list A) (x : A) : In x (firstn n l) -> In x l.
Proof. intros H. rewrite <- (firstn_skipn n l). apply in_app_iff. now left. Qed.

Section SampleWf.
Variable rng_next : Z -> Z.
Variable cfg : SamplerConfig.
Hypothesis n_items_pos : (1 <= n_items cfg)%Z.

Lemma sample_neg_ok (seq : list Z) (fuel : nat) (g x g' : Z) :
  sample_neg rng_next cfg seq fuel g = Ok (x, g') ->
  (1 <= x <= n_items cfg)%Z /\ ~ In x seq.
Proof.
  revert g. induction fuel as [|fuel IH]; intros g; cbn [sample_neg]; [discriminate|].
  pose proof (randint_range rng_next 1 (n_items cfg + 1) g ltac:(lia)) as Hr.
  destruct (randint rng_next 1 (n_items cfg + 1) g) as [y g1]. simpl in Hr.
  destruct (mem y seq) eqn:Em; [apply IH|].
  intros Heq. inversion Heq; subst. split; [lia|].
  intros Hin. apply mem_In in Hin. congruence.
Qed.

Lemma pad_window_In (L : nat) (h : list Z) (x : Z) :
  In x (pad_window L h) -> x = pad_item \/ In x h.
Proof.
  unfold pad_window. rewrite in_app_iff. intros [Hx|Hx].
  - left. now apply repeat_spec in Hx.
  - right. now apply In_skipn_l in Hx.
Qed.

Lemma combine_no_mem (seq : list Z) (pos : list Z) (negs : list (list Z)) :
  (forall p, In p pos -> p = pad_item \/ In p seq) ->
  (forall ns x, In ns negs -> In x ns -> (1 <= x)%Z /\ ~ In x seq) ->
  forallb (fun '(p, ns) => negb (mem p ns)) (combine pos negs) = true.
Proof.
  intros Hp Hn. apply forallb_forall. intros [p ns] Hin.
  pose proof (in_combine_l _ _ _ _ Hin) as Hpi. pose proof (in_combine_r _ _ _ _ Hin) as Hni.
  apply negb_true_iff. destruct (mem p ns) eqn:Em; [|reflexivity].
  apply mem_In in Em. destruct (Hn _ _ Hni Em) as [H1 H2].
  destruct (Hp _ Hpi) as [->|Hs]; [unfold pad_item in H1; lia|contradiction].
Qed.

Lemma sample_one_wf (data : UserSeqs) (g : Z) s g' :
  sample_one rng_next cfg data g = Ok (s, g') -> wf_sample cfg s = true.
Proof.
  unfold sample_one. destruct (randint rng_next 0 _ g) as [ui g1].
  destruct (nth_error data (Z.to_nat ui)) as [[u seq]|]; [|discriminate].
  destruct (randint rng_next 1 _ g1) as [c g2].
  destruct (replicateM _ _ g2) as [[negs g3]|e] eqn:Er; simpl; [|discriminate].
  intros Heq. inversion Heq; subst.
  destruct (replicateM_Forall
              (fun ns => List.length ns = neg_size cfg /\
                         Forall (fun x => (1 <= x <= n_items cfg)%Z /\ ~ In x seq) ns)
              _ _ _ _ _
              (fun g0 ns g4 Hns => replicateM_Forall _ _ _ _ _ _ (sample_neg_ok seq _) Hns)
              Er) as [Hl Hf].
  unfold wf_sample. rewrite !pad_window_length, Hl, !Nat.eqb_refl. simpl.
  rewrite Forall_forall in Hf.
  rewrite combine_no_mem with (seq := seq), andb_true_r.
  - rewrite ?andb_true_r. apply forallb_forall. intros ns Hns. destruct (Hf _ Hns) as [Hln Hx].
    rewrite Hln, Nat.eqb_refl. apply forallb_forall. intros x Hxi.
    rewrite Forall_forall in Hx. destruct (Hx _ Hxi) as [Hr _].
    apply andb_true_iff. split; apply Z.leb_le; lia.
  - intros p Hp. destruct (pad_window_In _ _ _ Hp) as [->|Hs]; [now left|right].
    apply In_firstn_l in Hs. destruct seq; [contradiction|]. simpl. now right.
  - intros ns x Hns Hxi. destruct (Hf _ Hns) as [_ Hx]. rewrite Forall_forall in Hx.
    destruct (Hx _ Hxi) as [Hr Hni]. split; [lia|exact Hni].
Qed.
End SampleWf.

Lemma wf_sample_parts (cfg : SamplerConfig) u inp pos negs :
  wf_sample cfg (u, inp, pos, negs) = true ->
  (List.length inp =? max_len cfg) = true /\ (List.length pos =? max_len cfg) = true /\
  ((List.length negs =? max_len cfg) &&
   forallb (fun ns => (List.length ns =? neg_size cfg) &&
              forallb (fun x => (1 <=? x)%Z && (x <=? n_items cfg)%Z) ns) negs) = true /\
  forallb (fun '(p, ns) => negb (mem p ns)) (combine pos negs) = true.
Proof.
  unfold wf_sample. rewrite !andb_true_iff. intros [[[[H1 H2] H3] H4] H5].
  rewrite H3, H4. auto.
Qed.

(** [batch_size] well-formed samples stack into a well-formed batch. *)
Lemma wf_batch_stack (cfg : SamplerConfig) (smps : list (Z * list Z * list Z * list (list Z))) :
  List.length smps = batch_size cfg -> Forall (fun s => wf_sample cfg s = true) smps ->
  wf_batch cfg (mkBatch (map (fun s => fst (fst (fst s))) smps)
                        (map (fun s => snd (fst (fst s))) smps)
                        (map (fun s => snd (fst s)) smps)
                        (map snd smps)) = true.
Proof.
  intros Hl Hf. rewrite Forall_forall in Hf. unfold wf_batch. cbn [batch_users batch_inp batch_pos batch_neg].
  rewrite !length_map, Hl, Nat.eqb_refl, combine_map_same. cbn.
  repeat (apply andb_true_iff; split);
    apply forallb_forall; intros w Hw; apply in_map_iff in Hw as (s & <- & Hs);
    pose proof (Hf _ Hs) as Hw; destruct s as [[[u inp] pos] negs];
    apply wf_sample_parts in Hw as (H1 & H2 & H3 & H4);
    auto.
Qed.

(** ** A batch a worker assembles is well formed *)

(** Every mini-batch a worker assembles is well formed: rejection
    sampling either finds valid negatives or raises. *)
Lemma make_batch_wf (rng_next : Z -> Z) (cfg : SamplerConfig) (data : UserSeqs)
    (g g' : Z) (b : Batch) :
  (1 <= n_items cfg)%Z ->
  make_batch rng_next cfg data g = Ok (b, g') -> wf_batch cfg b = true.
Proof.
  intros Hn. unfold make_batch.
  destruct (replicateM _ _ g) as [[smps g1]|e] eqn:Er; simpl; [|discriminate].
  intros Heq. inversion Heq; subst.
  destruct (replicateM_Forall (fun s => wf_sample cfg s = true) _ _ _ _ _
              (fun g0 s g2 Hs => sample_one_wf rng_next cfg Hn data g0 s g2 Hs) Er) as [Hl Hf].
  now apply wf_batch_stack.
Qed.

(** ** The pool: workers, the bounded queue, and [close()] *)

(** The [Sampler] object: its construction arguments, the queue, the
    generator state of each live worker, the worker whose batch the
    consumer waits for, whether [close()] was called and how many workers
    have been joined. *)
Record Pool : Type := mkPool {
  p_cfg : SamplerConfig;
  p_data : UserSeqs;
  p_rng : Z -> Z;
  queue : list Batch;
  rngs : list Z;
  turn : nat;
  closed : bool;
  released : nat
}.

(** [Queue(maxsize=queue_capacity)]: a capacity of 0 is unbounded, as in
    Python. *)
Definition has_room (cap : nat) (q : list Batch) : bool :=
  (cap =? 0) || (List.length q <? cap).

Fixpoint list_set {A : Type} (l : list A) (i : nat) (x : A) : list A :=
  match l, i with
  | [], _ => []
  | _ :: l', O => x :: l'
  | y :: l', S i' => y :: list_set l' i' x
  end.

(** [Sampler(...)]: one worker per seed, all started. *)
Definition init_pool (cfg : SamplerConfig) (data : UserSeqs) (rng : Z -> Z)
    (seeds : list Z) : Pool :=
  mkPool cfg data rng [] seeds 0 false 0.

(** Worker [w] pushes batch [b] and moves to generator state [g']; the
    next worker in turn is [w + 1]. *)
Definition push (w : nat) (g' : Z) (b : Batch) (s : Pool) : Pool :=
  mkPool (p_cfg s) (p_data s) (p_rng s) (queue s ++ [b]) (list_set (rngs s) w g')
    (S w mod List.length (rngs s)) (closed s) (released s).

Definition pop (q : list Batch) (s : Pool) : Pool :=
  mkPool (p_cfg s) (p_data s) (p_rng s) q (rngs s) (turn s) (closed s) (released s).

(** [close()]: signal and join every live worker; nothing on a closed
    pool. *)
Definition close_pool (s : Pool) : Pool :=
  if closed s then s
  else mkPool (p_cfg s) (p_data s) (p_rng s) (queue s) [] (turn s) true
         (released s + List.length (rngs s)).

(** Any interleaving of the workers and the consumer (spec §5). *)
Inductive pool_step : Pool -> Pool -> Prop :=
| step_produce s w g b g' :
    closed s = false -> has_room (queue_capacity (p_cfg s)) (queue s) = true ->
    nth_error (rngs s) w = Some g ->
    make_batch (p_rng s) (p_cfg s) (p_data s) g = Ok (b, g') ->
    pool_step s (push w g' b s)
| step_consume s b q :
    queue s = b :: q -> pool_step s (pop q s)
| step_close s : pool_step s (close_pool s).

Definition pool_reachable (s0 s : Pool) : Prop := clos_refl_trans_1n Pool pool_step s0 s.

(** [next_batch()] with the worker in turn scheduled when the queue is
    empty: it produces one batch, which the consumer pops at once.  On a
    closed pool whose queue is drained the Python call would block for
    ever; the model raises [SamplerError] there instead. *)
Definition pool_next_batch (s : Pool) : res (Batch * Pool) :=
  match queue s with
  | b :: q => Ok (b, pop q s)
  | [] =>
      if closed s then Raise (SamplerError "sampler closed"%string)
      else match nth_error (rngs s) (turn s) with
           | None => Raise (SamplerError "no worker"%string)
           | Some g =>
               '(b, g') <- make_batch (p_rng s) (p_cfg s) (p_data s) g ;;
               ret (b, pop [] (push (turn s) g' b s))
           end
  end.

#[export] Instance pool_source : BatchSource Pool := {
  next_batch := pool_next_batch;
  close := close_pool
}.

(** ** Lemmas on the pool *)

Lemma length_list_set {A} (l : list A) (i : nat) (x : A) :
  List.length (list_set l i x) = List.length l.
Proof. revert i. induction l as [|y l IH]; intros [|i]; simpl; auto. Qed.

Lemma has_room_bound (cap : nat) (q : list Batch) :
  has_room cap q = true -> cap <> 0 -> S (List.length q) <= cap.
Proof.
  unfold has_room. intros H Hc. apply orb_true_iff in H as [H|H].
  - apply Nat.eqb_eq in H. contradiction.
  - apply Nat.ltb_lt in H. lia.
Qed.

Lemma has_room_nil (cap : nat) : has_room cap [] = true.
Proof. unfold has_room. destruct cap; reflexivity. Qed.

Lemma pool_step_cfg (s s' : Pool) : pool_step s s' -> p_cfg s' = p_cfg s.
Proof. intros []; simpl; try reflexivity. unfold close_pool. now destruct (closed s0). Qed.

Section PoolInvariant.
Variable cfg : SamplerConfig.
Hypothesis n_items_pos : (1 <= n_items cfg)%Z.

(** The invariant of a pool built with [cfg]: the queue within its
    capacity and made of well-formed batches; an open pool has all its
    workers live, none joined, and the worker in turn among them; a closed
    pool has joined every worker once. *)
Definition pool_inv (s : Pool) : Prop :=
  p_cfg s = cfg /\
  (queue_capacity cfg <> 0 -> List.length (queue s) <= queue_capacity cfg) /\
  Forall (fun b => wf_batch cfg b = true) (queue s) /\
  if closed s then rngs s = [] /\ released s = n_workers cfg
  else List.length (rngs s) = n_workers cfg /\ released s = 0 /\
       (0 < n_workers cfg -> turn s < n_workers cfg).

Lemma pool_step_inv (s s' : Pool) : pool_inv s -> pool_step s s' -> pool_inv s'.
Proof.
  intros (Hc & Hq & Hw & Hr) Hs. destruct Hs as [s w g b g' Hcl Hroom Hg Hb|s b q Hq'|s].
  - rewrite Hc in Hb, Hroom. pose proof (make_batch_wf _ _ _ _ _ _ n_items_pos Hb) as Hwf.
    rewrite Hcl in Hr. destruct Hr as (Hl & Hrel & Ht).
    unfold pool_inv, push; cbn [p_cfg queue rngs closed released turn]. rewrite Hcl.
    repeat split; auto.
    + intros Hcap. rewrite length_app. simpl. pose proof (has_room_bound _ _ Hroom Hcap). lia.
    + apply Forall_app. auto.
    + now rewrite length_list_set.
    + intros Hn. rewrite Hl. apply Nat.mod_upper_bound. lia.
  - unfold pool_inv, pop; cbn [p_cfg queue rngs closed released turn]. rewrite Hq' in Hq, Hw.
    inversion Hw; subst. repeat split; auto. intros Hcap. specialize (Hq Hcap). simpl in Hq. lia.
  - unfold close_pool. destruct (closed s) eqn:Ecl; [repeat split; rewrite ?Ecl; auto|].
    unfold pool_inv; cbn [p_cfg queue rngs closed released turn].
    destruct Hr as (Hl & Hrel & _). repeat split; auto. lia.
Qed.

Lemma pool_reachable_inv_gen (s s' : Pool) : pool_inv s -> pool_reachable s s' -> pool_inv s'.
Proof. intros Hi Hr. induction Hr as [|s1 s2 s3 H12 _ IH]; auto. apply IH. eapply pool_step_inv; eauto. Qed.

Lemma init_pool_inv (data : UserSeqs) (rng : Z -> Z) (seeds : list Z) :
  List.length seeds = n_workers cfg -> pool_inv (init_pool cfg data rng seeds).
Proof.
  intros Hl. unfold pool_inv, init_pool; cbn [p_cfg queue rngs closed released turn].
  repeat split; auto; simpl; lia.
Qed.
End PoolInvariant.

Lemma replicateM_raise {A : Type} (f : Z -> res (A * Z)) (n : nat) (g : Z) (e : exn) :
  replicateM n f g = Raise e -> exists g0, f g0 = Raise e.
Proof.
  revert g. induction n as [|n IH]; intros g; simpl; [discriminate|].
  destruct (f g) as [[x g1]|e'] eqn:Ef; simpl.
  - destruct (replicateM n f g1) as [[xs g2]|e'] eqn:Er; simpl; [discriminate|].
    intros Heq. inversion Heq; subst. eauto.
  - intros Heq. inversion Heq; subst. eauto.
Qed.

Lemma sample_neg_raise (rng : Z -> Z) (cfg : SamplerConfig) (seq : list Z) (fuel : nat)
    (g : Z) (e : exn) :
  sample_neg rng cfg seq fuel g = Raise e -> e = SamplerError "no negative found"%string.
Proof.
  revert g. induction fuel as [|fuel IH]; intros g; cbn [sample_neg].
  - intros Heq. now inversion Heq.
  - destruct (randint rng 1 (n_items cfg + 1) g) as [x g']. destruct (mem x seq); [apply IH|discriminate].
Qed.

(** A worker fails only when rejection sampling runs out of draws. *)
Lemma make_batch_raise (rng : Z -> Z) (cfg : SamplerConfig) (data : UserSeqs) (g : Z) (e : exn) :
  data <> [] -> make_batch rng cfg data g = Raise e -> e = SamplerError "no negative found"%string.
Proof.
  intros Hd. unfold make_batch.
  destruct (replicateM _ _ g) as [[smps g1]|e'] eqn:Er; simpl; [discriminate|].
  intros Heq. inversion Heq; subst. apply replicateM_raise in Er as (g0 & Hs). revert Hs.
  unfold sample_one.
  pose proof (randint_range rng 0 (Z.of_nat (List.length data)) g0) as Hr.
  destruct (randint rng 0 _ g0) as [ui g2]. simpl in Hr.
  destruct (nth_error data (Z.to_nat ui)) as [[u seq]|] eqn:En.
  - destruct (randint rng 1 _ g2) as [c g3].
    destruct (replicateM _ _ g3) as [[negs g4]|e''] eqn:Er2; simpl; [discriminate|].
    intros Heq2. inversion Heq2; subst.
    apply replicateM_raise in Er2 as (g5 & Er3). apply replicateM_raise in Er3 as (g6 & Er4).
    exact (sample_neg_raise _ _ _ _ _ _ Er4).
  - apply nth_error_None in En. destruct data; [contradiction|]. simpl in *. lia.
Qed.

(** The dispatcher's result is reachable by the step relation: pops of
    the queue, after a push of the worker in turn when it was empty. *)
Lemma pool_next_batch_reach (s s' : Pool) (b : Batch) :
  pool_next_batch s = Ok (b, s') ->
  exists s1, pool_reachable s s1 /\ queue s1 = b :: queue s' /\ s' = pop (queue s') s1.
Proof.
  unfold pool_next_batch. destruct (queue s) as [|b0 q] eqn:Eq.
  - destruct (closed s) eqn:Ec; [discriminate|].
    destruct (nth_error (rngs s) (turn s)) as [g|] eqn:Eg; [|discriminate].
    destruct (make_batch _ _ _ g) as [[b1 g']|e] eqn:Eb; simpl; [|discriminate].
    intros Heq. inversion Heq; subst. exists (push (turn s) g' b s). split.
    + apply rt1n_trans with (y := push (turn s) g' b s); [|apply rt1n_refl].
      apply step_produce with (g := g); auto. rewrite Eq. apply has_room_nil.
    + split; [unfold push; simpl; now rewrite Eq|reflexivity].
  - intros Heq. inversion Heq; subst. exists s. split; [apply rt1n_refl|].
    split; [exact Eq|reflexivity].
Qed.

Lemma pool_reachable_trans (s1 s2 s3 : Pool) :
  pool_reachable s1 s2 -> pool_reachable s2 s3 -> pool_reachable s1 s3.
Proof.
  intros H12 H23. induction H12 as [|x y z Hxy _ IH]; [exact H23|].
  apply rt1n_trans with (y := y); [exact Hxy|exact (IH H23)].
Qed.

Lemma pool_reachable_data (s s' : Pool) : pool_reachable s s' -> p_data s' = p_data s.
Proof.
  intros Hr. induction Hr as [|x y z Hxy _ IH]; [reflexivity|]. rewrite IH.
  destruct Hxy; simpl; try reflexivity. unfold close_pool. now destruct (closed s).
Qed.

(** [next_batch()] moves the pool along the step relation. *)
Lemma pool_next_batch_reachable (s s' : Pool) (b : Batch) :
  pool_next_batch s = Ok (b, s') -> pool_reachable s s'.
Proof.
  intros Hn. destruct (pool_next_batch_reach s s' b Hn) as (s1 & Hr & Hq & Hs).
  apply (pool_reachable_trans _ _ _ Hr). rewrite Hs.
  apply rt1n_trans with (y := pop (queue s') s1); [|apply rt1n_refl].
  now apply step_consume with (b := b).
Qed.

(** ** What the pool guarantees *)

(** C19: In every state the pool reaches from [Sampler(...)], under any
    interleaving of worker pushes, consumer pops and [close()], the queue
    holds at most [queue_capacity] batches (backpressure), every queued
    batch is well formed, an open pool has all [n_workers] workers live
    and none joined, and a closed pool has joined each worker once. *)
Theorem pool_reachable_inv (cfg : SamplerConfig) (data : UserSeqs) (rng : Z -> Z)
    (seeds : list Z) (s : Pool) :
  (1 <= n_items cfg)%Z -> List.length seeds = n_workers cfg ->
  pool_reachable (init_pool cfg data rng seeds) s -> pool_inv cfg s.
Proof.
  intros Hn Hl. apply pool_reachable_inv_gen; [exact Hn|]. now apply init_pool_inv.
Qed.

(** [close()] on a pool satisfying the invariant. *)
Lemma close_pool_inv (cfg : SamplerConfig) (s : Pool) :
  pool_inv cfg s ->
  close_pool (close_pool s) = close_pool s /\ closed (close_pool s) = true /\
  rngs (close_pool s) = [] /\ released (close_pool s) = n_workers cfg /\
  queue (close_pool s) = queue s.
Proof.
  intros (_ & _ & _ & Hi).
  unfold close_pool. destruct (closed s) eqn:Ec; [rewrite Ec; tauto|].
  cbn [closed rngs released queue]. destruct Hi as (Hlen & Hrel & _). repeat split; lia.
Qed.

(** C20: [close()] is idempotent and releases every worker exactly once:
    closing a reachable pool twice is closing it once; afterwards no
    worker is live, [n_workers] have been joined in total, and the
    batches already queued are kept (spec §4.2, §8). *)
Theorem close_pool_idempotent (cfg : SamplerConfig) (data : UserSeqs) (rng : Z -> Z)
    (seeds : list Z) (s : Pool) :
  (1 <= n_items cfg)%Z -> List.length seeds = n_workers cfg ->
  pool_reachable (init_pool cfg data rng seeds) s ->
  close_pool (close_pool s) = close_pool s /\ closed (close_pool s) = true /\
  rngs (close_pool s) = [] /\ released (close_pool s) = n_workers cfg /\
  queue (close_pool s) = queue s.
Proof.
  intros Hn Hl Hr. apply close_pool_inv.
  exact (pool_reachable_inv_gen cfg Hn _ _ (init_pool_inv cfg data rng seeds Hl) Hr).
Qed.

(** The dispatcher implements the pool: when [next_batch()] returns a
    batch, some interleaving of worker steps leads to a state whose queue
    starts with that batch, and the returned state is that state after the
    consumer's pop of it. *)
Lemma pool_next_batch_refines (s s' : Pool) (b : Batch) :
  pool_next_batch s = Ok (b, s') ->
  exists s1, pool_reachable s s1 /\ queue s1 = b :: queue s' /\ pool_step s1 s' /\
             s' = pop (queue s') s1.
Proof.
  intros Hn. destruct (pool_next_batch_reach s s' b Hn) as (s1 & Hr & Hq & Hs).
  exists s1. repeat split; auto. rewrite Hs at 1. now apply step_consume with (b := b).
Qed.

(** C22: [next_batch()] on an open pool reached from [Sampler(...)] with
    at least one worker and a non-empty training set never blocks for
    ever: it returns a well-formed batch and a state the pool can reach,
    or raises [SamplerError] because rejection sampling ran out of draws
    (spec §7) -- never another exception. *)
Theorem pool_next_batch_progress (cfg : SamplerConfig) (data : UserSeqs) (rng : Z -> Z)
    (seeds : list Z) (s : Pool) :
  (1 <= n_items cfg)%Z -> List.length seeds = n_workers cfg -> 0 < n_workers cfg ->
  data <> [] -> pool_reachable (init_pool cfg data rng seeds) s -> closed s = false ->
  match pool_next_batch s with
  | Ok (b, s') => wf_batch cfg b = true /\ pool_reachable (init_pool cfg data rng seeds) s'
  | Raise e => e = SamplerError "no negative found"%string
  end.
Proof.
  intros Hn Hl Hw Hd Hr Hc.
  pose proof (init_pool_inv cfg data rng seeds Hl) as Hi0.
  destruct (pool_next_batch s) as [[b s']|e] eqn:En.
  - destruct (pool_next_batch_reach s s' b En) as (s1 & Hr1 & Hq & Hs).
    pose proof (pool_reachable_trans _ _ _ Hr Hr1) as Hr01.
    destruct (pool_reachable_inv_gen cfg Hn _ _ Hi0 Hr01) as (_ & _ & Hf & _).
    rewrite Hq in Hf. inversion Hf; subst. split; [assumption|].
    exact (pool_reachable_trans _ _ _ Hr (pool_next_batch_reachable _ _ _ En)).
  - destruct (pool_reachable_inv_gen cfg Hn _ _ Hi0 Hr) as (Hcfg & _ & _ & Hi).
    rewrite Hc in Hi. destruct Hi as (Hlen & _ & Ht).
    pose proof (pool_reachable_data _ _ Hr) as Hdat. simpl in Hdat.
    revert En. unfold pool_next_batch. rewrite Hc.
    destruct (queue s); [|discriminate].
    destruct (nth_error (rngs s) (turn s)) as [g|] eqn:Eg.
    + destruct (make_batch _ _ _ g) as [[b g']|e'] eqn:Eb; simpl; [discriminate|].
      intros Heq. inversion Heq; subst. exact (make_batch_raise _ _ _ _ _ Hd Eb).
    + apply nth_error_None in Eg. specialize (Ht Hw). lia.
Qed.

(** ** The scenario of spec §8, and witnesses *)

(** A linear congruential generator standing in for numpy's. *)
Definition lcg (g : Z) : Z := ((1103515245 * g + 12345) mod 2147483648)%Z.

(** 50 users, each with 25 distinct items of their own. *)
Definition spec_data : UserSeqs :=
  map (fun u => (Z.of_nat u, map (fun i => Z.of_nat (25 * (u - 1) + i)) (seq 1 25))) (seq 1 50).

(** [batch_size=8, max_len=5, neg_size=2, n_workers=2], a queue of 10
    batches and 10 draws per negative. *)
Definition cfg_spec : SamplerConfig := mkSamplerConfig 1250 8 5 2 2 10 10.

Definition pool_spec : Pool := init_pool cfg_spec spec_data lcg [1; 2]%Z.

(** [n] consecutive calls of [next_batch()]. *)
Fixpoint drain (n : nat) (s : Pool) : res (list Batch * Pool) :=
  match n with
  | O => Ok ([], s)
  | S n' =>
      '(b, s1) <- pool_next_batch s ;;
      '(bs, s2) <- drain n' s1 ;;
      ret (b :: bs, s2)
  end.

(** The end-to-end scenario of spec §8: on the synthetic data set of
    50 users with 25 distinct items each, with [batch_size=8, max_len=5,
    neg_size=2, n_workers=2], 1000 consecutive calls of [next_batch()]
    all return, with 1000 well-formed mini-batches. *)
Example spec_stream_1000 :
  match drain 1000 pool_spec with
  | Ok (bs, _) => List.length bs = 1000 /\ forallb (wf_batch cfg_spec) bs = true
  | Raise _ => False
  end.
Proof. vm_compute. split; reflexivity. Qed.

Lemma pool_reachable_inv_witness :
  (1 <= n_items cfg_spec)%Z /\ List.length [1; 2]%Z = n_workers cfg_spec /\ pool_inv cfg_spec pool_spec.
Proof.
  assert (Hn : (1 <= n_items cfg_spec)%Z) by (vm_compute; discriminate).
  assert (Hl : List.length [1; 2]%Z = n_workers cfg_spec) by reflexivity.
  split; [exact Hn|]. split; [exact Hl|].
  exact (pool_reachable_inv cfg_spec spec_data lcg [1; 2]%Z pool_spec Hn Hl (rt1n_refl _ _ _)).
Defined.

Lemma close_pool_idempotent_witness :
  close_pool (close_pool pool_spec) = close_pool pool_spec /\
  closed (close_pool pool_spec) = true /\ rngs (close_pool pool_spec) = [] /\
  released (close_pool pool_spec) = n_workers cfg_spec /\
  queue (close_pool pool_spec) = queue pool_spec.
Proof.
  assert (Hn : (1 <= n_items cfg_spec)%Z) by (vm_compute; discriminate).
  exact (close_pool_idempotent cfg_spec spec_data lcg [1; 2]%Z pool_spec Hn eq_refl
           (rt1n_refl _ _ _)).
Defined.

Lemma pool_next_batch_progress_witness :
  (1 <= n_items cfg_spec)%Z /\ 0 < n_workers cfg_spec /\ spec_data <> [] /\
  closed pool_spec = false /\
  match pool_next_batch pool_spec with
  | Ok (b, s') => wf_batch cfg_spec b = true /\ pool_reachable pool_spec s'
  | Raise e => e = SamplerError "no negative found"%string
  end.
Proof.
  assert (Hn : (1 <= n_items cfg_spec)%Z) by (vm_compute; discriminate).
  assert (Hw : 0 < n_workers cfg_spec) by (vm_compute; lia).
  assert (Hd : spec_data <> []) by (vm_compute; discriminate).
  split; [exact Hn|]. split; [exact Hw|]. split; [exact Hd|]. split; [reflexivity|].
  exact (pool_next_batch_progress cfg_spec spec_data lcg [1; 2]%Z pool_spec Hn eq_refl Hw Hd
           (rt1n_refl _ _ _) eq_refl).
Defined.
