(* ===== verification/Controller.v ===== *)
(** * Training controller: [main()] of train.py (lines 94-152)

    The state of [main] (its locals, the global [lr], the session
    parameters, the sampler handle and what the program has printed or
    written) is the record [TrainState]; each statement of the loop body
    is a [PyM] computation over it, so that an exception leaves the
    mutations made before it, as in Python.  [iteration] is one pass of
    [while True]; [main_loop] runs it with a fuel bound; [main] wraps it in
    the [try/except Exception] and the two exit paths.  Theorems: a
    validation set without targets makes every evaluation [nan], which
    never compares, so the loop never stops (C11); every mean loss the
    loop prints lies in the range of the losses of the optimiser steps
    (C21); the [--log_interval 0] configuration error (C13) and the three
    options of the configuration the loop reads (C14). *)

From Stdlib Require Import List String ZArith QArith Lqa Lia.
From S2P Require Import Prelude Interfaces Config Evaluate.
Import ListNotations.

(** What the driver prints or writes, in order. *)
Inductive event (P : Type) : Type :=
| StartMsg
| LogTrain (step : Z) (lr : Q) (cur_loss : Q)
| LogEval (step : Z) (val_hit val_ndcg : pyfloat)
| Saved (path : string) (params : P)
| StopMsg
| ErrorMsg (e : exn)
| SamplerClosed
| DoneMsg.
Arguments StartMsg {P}.
Arguments LogTrain {P} step lr cur_loss.
Arguments LogEval {P} step val_hit val_ndcg.
Arguments Saved {P} path params.
Arguments StopMsg {P}.
Arguments ErrorMsg {P} e.
Arguments SamplerClosed {P}.
Arguments DoneMsg {P}.

(** The state [main] mutates: the global [lr] (line 75, [global lr]),
    the locals of lines 101-104, the TensorFlow session's variables, the
    global [train_sampler], and the output. *)
Record TrainState (P S : Type) : Type := mkTrainState {
  lr : Q;
  all_val_hit : list pyfloat;
  early_stop_cn : nat;
  step_count : Z;
  train_loss_l : Q;
  sess : P;
  train_sampler : S;
  out : list (event P)
}.
Arguments mkTrainState {P S}.
Arguments lr {P S}.
Arguments all_val_hit {P S}.
Arguments early_stop_cn {P S}.
Arguments step_count {P S}.
Arguments train_loss_l {P S}.
Arguments sess {P S}.
Arguments train_sampler {P S}.
Arguments out {P S}.

(** The learning-rate floor of line 137. *)
Definition min_lr : Q := 1 # 1000000.

Inductive loop_exit : Type := Broke | OutOfFuel.

(** How [main] ends: [exit(1)] / normal return (status 0), or the fuel
    bound reached while the loop is still running. *)
Inductive outcome : Type := Exited (code : Z) | StillTraining.

(** The content of [checkpoint_dir + '/model.ckpt'] after the writes of
    an output: each [saver.save] overwrites the file. *)
Definition checkpoint_file {P} (l : list (event P)) : option (string * P) :=
  fold_left (fun acc e => match e with Saved path p => Some (path, p) | _ => acc end) l None.

Section Controller.
Context {P Smp : Type} `{RecModel P} `{BatchSource Smp}.

Abbreviation TS := (TrainState P Smp).

(** Assignments to single fields of the state. *)
Definition set_lr (x : Q) (st : TS) : TS :=
  mkTrainState x (all_val_hit st) (early_stop_cn st) (step_count st) (train_loss_l st)
    (sess st) (train_sampler st) (out st).
Definition set_all_val_hit (x : list pyfloat) (st : TS) : TS :=
  mkTrainState (lr st) x (early_stop_cn st) (step_count st) (train_loss_l st)
    (sess st) (train_sampler st) (out st).
Definition set_early_stop_cn (x : nat) (st : TS) : TS :=
  mkTrainState (lr st) (all_val_hit st) x (step_count st) (train_loss_l st)
    (sess st) (train_sampler st) (out st).
Definition set_step_count (x : Z) (st : TS) : TS :=
  mkTrainState (lr st) (all_val_hit st) (early_stop_cn st) x (train_loss_l st)
    (sess st) (train_sampler st) (out st).
Definition set_train_loss_l (x : Q) (st : TS) : TS :=
  mkTrainState (lr st) (all_val_hit st) (early_stop_cn st) (step_count st) x
    (sess st) (train_sampler st) (out st).
Definition set_sess (x : P) (st : TS) : TS :=
  mkTrainState (lr st) (all_val_hit st) (early_stop_cn st) (step_count st) (train_loss_l st)
    x (train_sampler st) (out st).
Definition set_train_sampler (x : Smp) (st : TS) : TS :=
  mkTrainState (lr st) (all_val_hit st) (early_stop_cn st) (step_count st) (train_loss_l st)
    (sess st) x (out st).

(** [print(...)], [model.saver.save(...)], [train_sampler.close()]:
    append to the output. *)
Definition emit (e : event P) : PyM TS unit :=
  fun st => (Ok tt, mkTrainState (lr st) (all_val_hit st) (early_stop_cn st) (step_count st)
                      (train_loss_l st) (sess st) (train_sampler st) (out st ++ [e])).

(** Line 109: [cur_batch = train_sampler.next_batch()]. *)
Definition fetch_batch : PyM TS Batch :=
  fun st =>
    match next_batch (train_sampler st) with
    | Ok (b, s') => (Ok b, set_train_sampler s' st)
    | Raise e => (Raise e, st)
    end.

(** Lines 110-116: one optimiser step on the batch with the current
    [lr] and the configured dropout, then [train_loss_l += train_loss]
    and [step_count += 1]. *)
Definition train_step (args : Args.t) (cur_batch : Batch) : PyM TS unit :=
  st <- get ;;
  '(sess', train_loss) <- lift (train_run (sess st) cur_batch (lr st) (Args.dropout args)) ;;
  modify (set_sess sess') ;;
  modify (fun st => set_train_loss_l (train_loss_l st + train_loss) st) ;;
  modify (fun st => set_step_count (step_count st + 1)%Z st).

(** Lines 117-124: every [log_interval] steps, print the mean loss and
    reset the accumulator. *)
Definition log_block (args : Args.t) : PyM TS unit :=
  st <- get ;;
  m <- lift (py_mod (step_count st) (Args.log_interval args)) ;;
  if (m =? 0)%Z then
    cur_loss <- lift (py_truediv (train_loss_l st) (inject_Z (Args.log_interval args))) ;;
    emit (LogTrain (step_count st) (lr st) cur_loss) ;;
    modify (set_train_loss_l 0)
  else ret tt.

(** Lines 135-141: the decision on the two last validation hits. *)
Definition decide_block (checkpoint_dir : string) : PyM TS unit :=
  st <- get ;;
  last1 <- lift (nth_last (all_val_hit st) 1) ;;
  last2 <- lift (nth_last (all_val_hit st) 2) ;;
  if pf_le last1 last2 then
    modify (fun st => set_lr (lr st / 2) st) ;;
    modify (fun st => set_lr (py_max (lr st) min_lr) st) ;;
    modify (fun st => set_early_stop_cn (S (early_stop_cn st)) st)
  else
    modify (set_early_stop_cn 0) ;;
    st <- get ;;
    emit (Saved (checkpoint_dir ++ "/model.ckpt") (sess st)).

(** Lines 126-146: every [eval_interval] steps, evaluate on the
    validation batches, record the hit, decide, and break after three
    non-improving evaluations.  Returns whether the loop breaks. *)
Definition eval_block (args : Args.t) (val_data : list EvalBatch)
    (checkpoint_dir : string) : PyM TS bool :=
  st <- get ;;
  m <- lift (py_mod (step_count st) (Args.eval_interval args)) ;;
  if (m =? 0)%Z then
    '(val_hit, val_ndcg) <- lift (evaluate val_data (sess st)) ;;
    modify (fun st => set_all_val_hit (all_val_hit st ++ [val_hit]) st) ;;
    emit (LogEval (step_count st) val_hit val_ndcg) ;;
    decide_block checkpoint_dir ;;
    st <- get ;;
    if Nat.eqb (early_stop_cn st) 3 then emit StopMsg ;; ret true
    else ret false
  else ret false.

(** One pass of the body of [while True] (lines 109-146). *)
Definition iteration (args : Args.t) (val_data : list EvalBatch)
    (checkpoint_dir : string) : PyM TS bool :=
  cur_batch <- fetch_batch ;;
  train_step args cur_batch ;;
  log_block args ;;
  eval_block args val_data checkpoint_dir.

(** [while True]: at most [fuel] passes. *)
Fixpoint main_loop (args : Args.t) (val_data : list EvalBatch)
    (checkpoint_dir : string) (fuel : nat) : PyM TS loop_exit :=
  match fuel with
  | O => ret OutOfFuel
  | S fuel' =>
      brk <- iteration args val_data checkpoint_dir ;;
      if brk then ret Broke else main_loop args val_data checkpoint_dir fuel'
  end.

(** [train_sampler.close()]. *)
Definition close_sampler : PyM TS unit :=
  fun st => (Ok tt, mkTrainState (lr st) (all_val_hit st) (early_stop_cn st) (step_count st)
                      (train_loss_l st) (sess st) (close (train_sampler st))
                      (out st ++ [SamplerClosed])).

(** Lines 106-152 after the session is initialised: the loop inside
    [try/except Exception]; on an exception print it, close the sampler
    and [exit(1)]; after [break] close the sampler, print ['Done'] and
    return.  The result is the exit status, or [StillTraining] when the
    fuel runs out with the loop still running. *)
Definition main_body (args : Args.t) (val_data : list EvalBatch)
    (checkpoint_dir : string) (fuel : nat) : PyM TS outcome :=
  emit StartMsg ;;
  x <- try_except (main_loop args val_data checkpoint_dir fuel)
         (fun e => emit (ErrorMsg e) ;; close_sampler ;; raise (SystemExit 1)) ;;
  match x with
  | Broke => close_sampler ;; emit DoneMsg ;; ret (Exited 0)
  | OutOfFuel => ret StillTraining
  end.

(** [main()] run as the program: [SystemExit(code)] ends it with that
    status. *)
Definition main (args : Args.t) (val_data : list EvalBatch)
    (checkpoint_dir : string) (fuel : nat) : PyM TS outcome :=
  fun st =>
    match main_body args val_data checkpoint_dir fuel st with
    | (Raise (SystemExit code), st') => (Ok (Exited code), st')
    | r => r
    end.

(** Lines 99-104: the session after [global_variables_initializer],
    the validation history [[-1]], the counters and [lr = args.lr]. *)
Definition init_state (args : Args.t) (p0 : P) (s0 : Smp) : TS :=
  mkTrainState (Args.lr args) [Fin (-1)] 0 0%Z 0 p0 s0 [].

End Controller.

(** ** A configuration error *)

Section ConfigErrors.
Context {P Smp : Type} `{RecModel P} `{BatchSource Smp}.

(** C13: With [--log_interval 0], [step_count % args.log_interval] raises
    [ZeroDivisionError] at the first step: [main] prints it, closes the
    sampler and exits with status 1, the last two outputs being the
    error message and the close. *)
Theorem zero_log_interval_exit (args : Args.t) (vd : list EvalBatch) (cd : string) (fuel : nat)
    (st : TrainState P Smp) (b : Batch) (s1 : Smp) (p1 : P) (l : Q) :
  Args.log_interval args = 0%Z ->
  next_batch (train_sampler st) = Ok (b, s1) ->
  train_run (sess st) b (lr st) (Args.dropout args) = Ok (p1, l) ->
  fst (main args vd cd (S fuel) st) = Ok (Exited 1) /\
  exists pre, out (snd (main args vd cd (S fuel) st)) = pre ++ [ErrorMsg ZeroDivisionError; SamplerClosed].
Proof.
  intros Hl Hn Ht. unfold main, main_body, try_except. cbn -[iteration].
  unfold iteration, fetch_batch. cbn -[train_step log_block eval_block]. rewrite Hn. cbn -[log_block eval_block].
  rewrite Ht. cbn -[eval_block]. rewrite Hl. cbn.
  split; [reflexivity|]. eexists. rewrite <- app_assoc. reflexivity.
Qed.
End ConfigErrors.

(** ** The options the training loop reads *)

Section MainArgs.
Context {P Smp : Type} `{RecModel P} `{BatchSource Smp}.
Variables args args' : Args.t.
Hypothesis same_dropout : Args.dropout args = Args.dropout args'.
Hypothesis same_log : Args.log_interval args = Args.log_interval args'.
Hypothesis same_eval : Args.eval_interval args = Args.eval_interval args'.

Lemma train_step_args : (train_step args : Batch -> PyM (TrainState P Smp) unit) = train_step args'.
Proof. unfold train_step. now rewrite same_dropout. Qed.

Lemma log_block_args : (log_block args : PyM (TrainState P Smp) unit) = log_block args'.
Proof. unfold log_block. now rewrite same_log. Qed.

Lemma eval_block_args (vd : list EvalBatch) (cd : string) :
  (eval_block args vd cd : PyM (TrainState P Smp) bool) = eval_block args' vd cd.
Proof. unfold eval_block. now rewrite same_eval. Qed.

Lemma main_loop_args (vd : list EvalBatch) (cd : string) (fuel : nat) :
  (main_loop args vd cd fuel : PyM (TrainState P Smp) loop_exit) = main_loop args' vd cd fuel.
Proof.
  induction fuel as [|fuel IH]; [reflexivity|]. cbn [main_loop]. unfold iteration.
  now rewrite train_step_args, log_block_args, eval_block_args, IH.
Qed.

Lemma main_args (vd : list EvalBatch) (cd : string) (fuel : nat) :
  (main args vd cd fuel : PyM (TrainState P Smp) outcome) = main args' vd cd fuel.
Proof. unfold main, main_body. now rewrite main_loop_args. Qed.
End MainArgs.

(** C14: The training loop reads the configuration only through
    [args.dropout], [args.log_interval] and [args.eval_interval]: two
    configurations that agree on these three options give the same run of
    [main] (result, final state and output) from the same state, for any
    number of passes.  [--epochs], the "upper epoch limit", is never read:
    only the early stop ends the loop. *)
Theorem main_reads_three_options {P Smp : Type} `{RecModel P} `{BatchSource Smp}
    (args args' : Args.t) (vd : list EvalBatch) (cd : string) (fuel : nat) (st : TrainState P Smp) :
  Args.dropout args = Args.dropout args' ->
  Args.log_interval args = Args.log_interval args' ->
  Args.eval_interval args = Args.eval_interval args' ->
  main args vd cd fuel st = main args' vd cd fuel st.
Proof. intros Hd Hl He. now rewrite (main_args args args' Hd Hl He). Qed.

(** ** Validation batches without a scored target *)

Section NoTarget.
Context {P Smp : Type} `{RowMetrics P} `{BatchSource Smp}.
Variables (args : Args.t) (vd : list EvalBatch) (cd : string).
Hypothesis Hvd : vd <> [].
Hypothesis Hnone : forall p, qsum (map (targets_of p) (all_rows vd)) == 0.

(** [evaluate] gives [nan] for both metrics on every session. *)
Lemma evaluate_no_target (p : P) : evaluate vd p = Ok (NaN, NaN).
Proof.
  pose proof (evaluate_spec p vd) as Hs. unfold micro_average in Hs.
  destruct vd as [|b r]; [contradiction|]. rewrite (Qeq_eq_bool _ _ (Hnone p)) in Hs.
  destruct (evaluate (b :: r) p) as [[x y]|e]; [|contradiction].
  destruct Hs as [Hx Hy]. destruct x, y; cbn in Hx, Hy; try contradiction. reflexivity.
Qed.

(** [nan <= x] is [False]: every evaluation takes the [else] branch of
    line 139, so the block never asks for [break]. *)
Lemma eval_block_no_target_false (st st' : TrainState P Smp) (b : bool) :
  eval_block args vd cd st = (Ok b, st') -> b = false.
Proof.
  unfold eval_block. cbn -[evaluate decide_block].
  destruct (py_mod _ _) as [m|e]; cbn -[evaluate decide_block]; [|discriminate].
  destruct (m =? 0)%Z; cbn -[evaluate decide_block]; [|intros Heq; congruence].
  rewrite evaluate_no_target. unfold decide_block. cbn -[nth_last].
  rewrite nth_last_snoc_1, nth_last_snoc_2. destruct (nth_last (all_val_hit st) 1); cbn; intros Heq; congruence.
Qed.

Lemma eval_block_no_target_step (st : TrainState P Smp) :
  Args.eval_interval args <> 0%Z -> (step_count st mod Args.eval_interval args = 0)%Z ->
  all_val_hit st <> [] ->
  exists st', eval_block args vd cd st = (Ok false, st') /\ early_stop_cn st' = 0%nat /\
    all_val_hit st' = all_val_hit st ++ [NaN] /\
    out st' = out st ++ [LogEval (step_count st) NaN NaN; Saved (cd ++ "/model.ckpt")%string (sess st)].
Proof.
  intros HE Hm Hh. unfold eval_block. cbn -[evaluate decide_block py_mod].
  rewrite py_mod_ok by exact HE. rewrite Hm. cbn -[evaluate decide_block].
  rewrite evaluate_no_target. unfold decide_block. cbn -[nth_last].
  destruct (exists_last Hh) as (h & x & ->).
  rewrite nth_last_snoc_1, nth_last_snoc_2, nth_last_snoc_1. cbn.
  eexists. repeat split. cbn [out]. now rewrite <- app_assoc.
Qed.

Lemma iteration_no_target (st st' : TrainState P Smp) (b : bool) :
  iteration args vd cd st = (Ok b, st') -> b = false.
Proof.
  unfold iteration. intros Hi.
  apply bind_PyM_Ok_inv in Hi as (b0 & s1 & _ & Hi).
  apply bind_PyM_Ok_inv in Hi as (u1 & s2 & _ & Hi).
  apply bind_PyM_Ok_inv in Hi as (u2 & s3 & _ & Hi).
  exact (eval_block_no_target_false s3 st' b Hi).
Qed.

Lemma main_loop_no_target (fuel : nat) (st : TrainState P Smp) :
  fst (main_loop args vd cd fuel st) <> Ok Broke.
Proof.
  revert st. induction fuel as [|f IH]; intros st; cbn [main_loop]; [discriminate|].
  destruct (iteration args vd cd st) as [[b|e] s1] eqn:Ei.
  - rewrite (bind_PyM_step _ _ _ _ _ Ei). rewrite (iteration_no_target _ _ _ Ei). apply IH.
  - cbn [bind Monad_PyM]. rewrite Ei. discriminate.
Qed.
End NoTarget.

(** C11: Validation batches in which no row scores a target make the
    loop run for ever, writing a checkpoint at every evaluation.  Lines
    89-90 divide numpy zeros and give [nan]; [nan <= x] is [False] at line
    135, so every evaluation takes the [else] branch: the early-stop
    counter goes back to 0 and [model.saver.save] runs.  The break of
    line 145 is never reached, for any fuel and from any state (spec §8
    expects the metrics in [0, 1] and §4.5 a stop after three
    non-improving evaluations). *)
Theorem no_target_never_stops {P Smp : Type} `{RowMetrics P} `{BatchSource Smp}
    (args : Args.t) (vd : list EvalBatch) (cd : string) :
  vd <> [] -> (forall p, qsum (map (targets_of p) (all_rows vd)) == 0) ->
  (forall st : TrainState P Smp,
     Args.eval_interval args <> 0%Z -> (step_count st mod Args.eval_interval args = 0)%Z ->
     all_val_hit st <> [] ->
     exists st', eval_block args vd cd st = (Ok false, st') /\ early_stop_cn st' = 0%nat /\
       all_val_hit st' = all_val_hit st ++ [NaN] /\
       out st' = out st ++ [LogEval (step_count st) NaN NaN;
                            Saved (cd ++ "/model.ckpt")%string (sess st)]) /\
  (forall (fuel : nat) (st : TrainState P Smp), fst (main_loop args vd cd fuel st) <> Ok Broke).
Proof.
  intros Hvd Hn. split.
  - intros st. apply eval_block_no_target_step; assumption.
  - intros fuel st. apply main_loop_no_target; assumption.
Qed.


(** The steps since the last multiple of [L] strictly before [n]. *)
Lemma mod_pred_succ (n L : Z) :
  (0 < L)%Z -> ((n - 1) mod L + 1 = if (n mod L =? 0) then L else n mod L)%Z.
Proof.
  intros HL. pose proof (Z.div_mod n L ltac:(lia)) as Hd. pose proof (Z.mod_pos_bound n L HL) as Hb.
  destruct (Z.eqb_spec (n mod L) 0) as [H0|H0].
  - rewrite <- (Z.mod_unique (n - 1) L (n / L - 1) (L - 1)); lia.
  - rewrite <- (Z.mod_unique (n - 1) L (n / L) (n mod L - 1)); lia.
Qed.

(** ** The printed loss *)

Section LossLog.
Context {P Smp : Type} `{RecModel P} `{BatchSource Smp}.
Variables (args : Args.t) (vd : list EvalBatch) (cd : string) (lo hi : Q).
Hypothesis Hloss : forall p b r d p' l, train_run p b r d = Ok (p', l) -> lo <= l <= hi.
Hypothesis HL : (0 < Args.log_interval args)%Z.
Abbreviation L := (Args.log_interval args).
Abbreviation TS := (TrainState P Smp).

(** A training line prints a loss between [lo] and [hi]. *)
Definition loss_ok (e : event P) : Prop :=
  match e with LogTrain _ _ l => lo <= l <= hi | _ => True end.

(** The accumulator holds [k] losses, each in [[lo, hi]]. *)
Definition acc_in (st : TS) (k : Z) : Prop :=
  lo * inject_Z k <= train_loss_l st <= hi * inject_Z k.

(** At the head of the loop the accumulator holds the losses of the
    [step_count mod log_interval] steps since the last log, and every
    loss printed so far is in [[lo, hi]]. *)
Definition loss_inv (st : TS) : Prop :=
  acc_in st (step_count st mod L) /\ (0 <= step_count st)%Z /\ Forall loss_ok (out st).

(** What the statements that neither train nor log keep: the step, the
    accumulator, and the printed losses. *)
Definition loss_frame (st st' : TS) : Prop :=
  step_count st' = step_count st /\ train_loss_l st' = train_loss_l st /\
  exists ext, out st' = out st ++ ext /\ Forall loss_ok ext.

#[local] Instance loss_frame_PreOrder : PreOrder loss_frame.
Proof.
  split.
  - intros st. repeat split. exists []. now rewrite app_nil_r.
  - intros s1 s2 s3 (H1 & H2 & e1 & E1 & F1) (H3 & H4 & e2 & E2 & F2).
    repeat split; try congruence. exists (e1 ++ e2).
    rewrite E2, E1, app_assoc. split; [reflexivity|]. now apply Forall_app.
Qed.

Lemma loss_frame_inv (st st' : TS) : loss_frame st st' -> loss_inv st -> loss_inv st'.
Proof.
  intros (Hs & Hl & ext & Ho & Hf) (Hb & Hn & Hp). unfold loss_inv, acc_in in *.
  rewrite Hs, Hl, Ho. split; [exact Hb|]. split; [exact Hn|]. now apply Forall_app.
Qed.

Lemma emit_loss (e : event P) : loss_ok e -> preserves loss_frame (emit e).
Proof. intros He st. repeat split. exists [e]. split; [reflexivity|now constructor]. Qed.

#[local] Hint Extern 1 (preserves loss_frame (emit _)) => apply emit_loss; exact I : pym.

Lemma eval_block_loss : preserves loss_frame (eval_block args vd cd).
Proof.
  unfold eval_block, decide_block. pym_preserve;
    repeat split; exists []; split; (now rewrite app_nil_r) || constructor.
Qed.

Lemma train_step_loss (b : Batch) (st : TS) :
  match train_step args b st with
  | (Ok _, st') => step_count st' = (step_count st + 1)%Z /\
                   lo <= train_loss_l st' - train_loss_l st <= hi /\ out st' = out st
  | (Raise _, st') => st' = st
  end.
Proof.
  unfold train_step. cbn. destruct (train_run _ _ _ _) as [[p l]|e] eqn:Et; cbn; [|reflexivity].
  apply Hloss in Et. split; [reflexivity|]. split; [lra|reflexivity].
Qed.

Lemma L_Q_pos : 0 < inject_Z L.
Proof. change 0 with (inject_Z 0). rewrite <- Zlt_Qlt. exact HL. Qed.

(** Lines 117-123 at step [n >= 1], the accumulator holding the losses of
    the steps since the last multiple of [log_interval] before [n]: the
    block returns, prints their mean if [n] is a multiple, and leaves the
    invariant. *)
Lemma log_block_loss (st : TS) :
  (1 <= step_count st)%Z -> acc_in st ((step_count st - 1) mod L + 1) -> Forall loss_ok (out st) ->
  fst (log_block args st) = Ok tt /\ loss_inv (snd (log_block args st)).
Proof.
  intros Hn Ha Hf. rewrite (mod_pred_succ _ _ HL) in Ha. pose proof L_Q_pos as HLq.
  unfold log_block. cbn. unfold py_mod. rewrite (proj2 (Z.eqb_neq L 0)) by lia. cbn.
  destruct (Z.eqb_spec (step_count st mod L) 0) as [Hz|Hz]; cbn; unfold acc_in in Ha.
  - unfold py_truediv. destruct (Qeq_bool (inject_Z L) 0) eqn:Eq;
      [apply Qeq_bool_eq in Eq; rewrite Eq in HLq; discriminate|]. cbn.
    split; [reflexivity|]. unfold loss_inv, acc_in; cbn. rewrite Hz.
    change (inject_Z 0) with 0. rewrite !Qmult_0_r. split; [split; apply Qle_refl|]. split; [lia|]. apply Forall_app. split; [exact Hf|].
    constructor; [|constructor]. cbn.
    split; [apply Qle_shift_div_l|apply Qle_shift_div_r]; auto; lra.
  - split; [reflexivity|]. unfold loss_inv, acc_in; cbn. split; [exact Ha|]. split; [lia|exact Hf].
Qed.

(** One pass of the loop keeps the invariant on every path. *)
Lemma iteration_loss : keeps loss_inv (iteration args vd cd).
Proof.
  intros st [Ha [Hn Hf]]. unfold iteration. cbn [bind Monad_PyM].
  unfold fetch_batch. destruct (next_batch (train_sampler st)) as [[b s1]|e]; [|split; auto].
  set (st1 := set_train_sampler s1 st).
  pose proof (train_step_loss b st1) as Ht.
  destruct (train_step args b st1) as [[[]|e] st2]; [|subst st2; split; auto].
  destruct Ht as (Hs2 & Hl2 & Ho2). subst st1. cbn in Hs2, Hl2, Ho2.
  destruct (log_block_loss st2) as [Hok Hi3].
  - lia.
  - unfold acc_in. rewrite Hs2. replace (step_count st + 1 - 1)%Z with (step_count st) by lia.
    rewrite inject_Z_plus. unfold acc_in in Ha. rewrite !Qmult_plus_distr_r, !Qmult_1_r. lra.
  - rewrite Ho2. exact Hf.
  - destruct (log_block args st2) as [r3 st3]. cbn in Hok, Hi3. subst r3.
    destruct (eval_block args vd cd st3) as [r4 st4] eqn:E4.
    pose proof (eval_block_loss st3) as Hfr. rewrite E4 in Hfr.
    destruct r4; exact (loss_frame_inv _ _ Hfr Hi3).
Qed.

Lemma close_sampler_loss : preserves loss_frame close_sampler.
Proof. intros st. repeat split. exists [SamplerClosed]. split; [reflexivity|repeat constructor]. Qed.

#[local] Hint Resolve close_sampler_loss : pym.

Lemma main_loop_loss (fuel : nat) : keeps loss_inv (main_loop args vd cd fuel).
Proof.
  induction fuel as [|fuel IH]; cbn [main_loop]; [intros st Hi; exact Hi|].
  apply keeps_bind; [apply iteration_loss|intros [|]; [intros st Hi; exact Hi|exact IH]].
Qed.

(** [main] keeps the invariant on every path. *)
Lemma main_loss (fuel : nat) (st : TS) : loss_inv st -> loss_inv (snd (main args vd cd fuel st)).
Proof.
  intros Hi. assert (Hb : loss_inv (snd (main_body args vd cd fuel st))).
  { revert st Hi. unfold main_body.
    apply keeps_bind; [apply (keeps_preserves loss_frame); [exact loss_frame_inv|pym_preserve]|intros _].
    apply keeps_bind; [apply keeps_try_except; [apply main_loop_loss|intros e]|intros x];
      apply (keeps_preserves loss_frame); try exact loss_frame_inv; destruct x || idtac; pym_preserve. }
  unfold main. destruct (main_body args vd cd fuel st) as [[o|[]] st']; exact Hb.
Qed.
End LossLog.

Lemma init_loss {P Smp : Type} `{RecModel P} `{BatchSource Smp} (args : Args.t) (lo hi : Q)
    (p0 : P) (s0 : Smp) :
  loss_inv args lo hi (init_state args p0 s0).
Proof.
  unfold loss_inv, acc_in. cbn [init_state step_count train_loss_l out]. rewrite Zmod_0_l.
  change (inject_Z 0) with 0. rewrite !Qmult_0_r.
  split; [split; apply Qle_refl|split; [lia|constructor]].
Qed.


(** C21: Whatever the model, if every optimiser step returns a loss in
    [[lo, hi]] and [log_interval] is positive, every loss [main] prints
    (line 120-121, [cur_loss]) lies in [[lo, hi]], on every path and for
    any number of passes: line 115 accumulates the [log_interval] losses
    of the window, line 118 divides by [log_interval] and line 123 resets
    the accumulator, so what is printed is their mean. *)
Theorem printed_loss_in_range {P Smp : Type} `{RecModel P} `{BatchSource Smp}
    (args : Args.t) (vd : list EvalBatch) (cd : string) (fuel : nat) (p0 : P) (s0 : Smp)
    (lo hi : Q) :
  (forall p b r d p' l, train_run p b r d = Ok (p', l) -> lo <= l <= hi) ->
  (0 < Args.log_interval args)%Z ->
  forall step r l, In (LogTrain step r l) (out (snd (main args vd cd fuel (init_state args p0 s0)))) ->
  lo <= l <= hi.
Proof.
  intros Hl HL step r l Hin.
  destruct (main_loss args vd cd lo hi Hl HL fuel _ (init_loss args lo hi p0 s0)) as (_ & _ & Hf).
  exact (proj1 (Forall_forall _ _) Hf _ Hin).
Qed.
