(* ===== verification/ControllerSpec.v ===== *)
(** * What the training controller promises, and the proofs that [main] keeps it

    Spec §4.5 describes the controller by its validation history: the
    learning rate is halved (with a floor) at every non-improving
    evaluation, the early-stop counter counts the trailing run of
    non-improving evaluations, a checkpoint is written at every improving
    one, and training stops at three in a row.  This file states that
    abstract description as functions of [all_val_hit], gives the
    controller a step relation (RUNNING, STOPPED_CONVERGED, STOPPED_ERROR)
    whose steps are the passes of [iteration], shows that [main_loop]
    implements it, and proves by induction on the steps that every
    reachable state agrees with the abstract description. *)

From Stdlib Require Import List String ZArith QArith Qminmax Lqa Lia
  Relation_Operators.
From S2P Require Import Prelude Interfaces Config Evaluate Controller.
Import ListNotations.

(** ** The abstract description, over the validation history *)

(** The comparison of line 135 on each pair of consecutive entries of the
    history: [true] when the newer hit does not improve on the older. *)
Fixpoint nonimp_flags (h : list pyfloat) : list bool :=
  match h with
  | x :: ((y :: _) as t) => pf_le y x :: nonimp_flags t
  | _ => []
  end.

Definition count_true (l : list bool) : nat := List.length (filter (fun b => b) l).

(** Length of the run of [true] at the end of the list. *)
Fixpoint lead_true (l : list bool) : nat :=
  match l with
  | true :: l' => S (lead_true l')
  | _ => 0
  end.

Definition count_nonimp (h : list pyfloat) : nat := count_true (nonimp_flags h).
Definition count_imp (h : list pyfloat) : nat := List.length (nonimp_flags h) - count_nonimp h.
Definition trailing_nonimp (h : list pyfloat) : nat := lead_true (rev (nonimp_flags h)).

(** The learning rate after [k] non-improving evaluations:
    [max(lr0 / 2^k, 1e-6)], and [lr0] itself before the first. *)
Definition lr_closed (lr0 : Q) (k : nat) : Q :=
  match k with
  | O => lr0
  | S _ => Qmax (lr0 / inject_Z (2 ^ Z.of_nat k)) min_lr
  end.

(** ** Lemmas on the abstract description *)

Lemma nonimp_flags_snoc (h : list pyfloat) (x v : pyfloat) :
  nonimp_flags ((x :: h) ++ [v]) = nonimp_flags (x :: h) ++ [pf_le v (last (x :: h) (Fin 0))].
Proof.
  revert x. induction h as [|y h IH]; intros x; [reflexivity|].
  change ((x :: y :: h) ++ [v]) with (x :: y :: (h ++ [v])).
  change (nonimp_flags (x :: y :: (h ++ [v])))
    with (pf_le y x :: nonimp_flags ((y :: h) ++ [v])).
  rewrite IH. reflexivity.
Qed.

Lemma count_true_snoc (l : list bool) (b : bool) :
  count_true (l ++ [b]) = (count_true l + if b then 1 else 0)%nat.
Proof. unfold count_true. rewrite filter_app, length_app. destruct b; simpl; lia. Qed.

Lemma lead_true_rev_snoc (l : list bool) (b : bool) :
  lead_true (rev (l ++ [b])) = if b then S (lead_true (rev l)) else 0%nat.
Proof. rewrite rev_app_distr. destruct b; reflexivity. Qed.

Lemma last_nth_last (h : list pyfloat) (x : pyfloat) :
  nth_last (x :: h) 1 = Ok (last (x :: h) (Fin 0)).
Proof.
  destruct (exists_last (l := x :: h) ltac:(discriminate)) as (h' & y & E).
  rewrite E, nth_last_snoc_1, last_last. reflexivity.
Qed.

Lemma pow2_pos (k : nat) : 0 < inject_Z (2 ^ Z.of_nat k).
Proof. change 0 with (inject_Z 0). rewrite <- Zlt_Qlt. apply Z.pow_pos_nonneg; lia. Qed.

Lemma div_pow2_succ (a : Q) (k : nat) :
  a / inject_Z (2 ^ Z.of_nat (S k)) == a / inject_Z (2 ^ Z.of_nat k) / 2.
Proof.
  rewrite Nat2Z.inj_succ, Z.pow_succ_r by lia. rewrite inject_Z_mult.
  pose proof (pow2_pos k). field. intro Hc. rewrite Hc in H. discriminate.
Qed.

(** Case on every [Qmax] of the goal, then linear arithmetic. *)
Ltac qmax_lra :=
  repeat match goal with
  | |- context [Qmax ?a ?b] =>
      let H := fresh in
      destruct (Q.max_spec_le a b) as [[? H]|[? H]]; rewrite H in *; clear H
  | _ : context [Qmax ?a ?b] |- _ =>
      let H := fresh in
      destruct (Q.max_spec_le a b) as [[? H]|[? H]]; rewrite H in *; clear H
  end; qlra.

(** Halving then flooring, as lines 136-137 do, moves the closed form one
    step. *)
Lemma lr_closed_step (lr0 : Q) (k : nat) :
  py_max (lr_closed lr0 k / 2) min_lr == lr_closed lr0 (S k).
Proof.
  rewrite py_max_spec. destruct k as [|k].
  - reflexivity.
  - unfold lr_closed. rewrite (div_pow2_succ lr0 (S k)).
    generalize (lr0 / inject_Z (2 ^ Z.of_nat (S k))). intros a. unfold min_lr. qmax_lra.
Qed.

Lemma lr_closed_bounds (lr0 : Q) (k : nat) :
  min_lr <= lr0 -> min_lr <= lr_closed lr0 k <= lr0.
Proof.
  intros Hm. destruct k as [|k]; [split; [exact Hm | apply Qle_refl]|].
  unfold lr_closed.
  assert (Hd : lr0 / inject_Z (2 ^ Z.of_nat (S k)) <= lr0).
  { pose proof (pow2_pos (S k)) as Hp.
    apply Qle_shift_div_r; [exact Hp|].
    assert (1 <= inject_Z (2 ^ Z.of_nat (S k))).
    { change 1 with (inject_Z 1). rewrite <- Zle_Qle.
      pose proof (Z.pow_pos_nonneg 2 (Z.of_nat (S k))). lia. }
    unfold min_lr in Hm. nra. }
  revert Hd. generalize (lr0 / inject_Z (2 ^ Z.of_nat (S k))). intros a Ha.
  unfold min_lr in *. qmax_lra.
Qed.

(** ** The statements that leave the decision state alone *)

Section Frame.
Context {P Smp : Type} `{RecModel P} `{BatchSource Smp}.
Abbreviation TS := (TrainState P Smp).

Definition is_saved (e : event P) : bool :=
  match e with Saved _ _ => true | _ => false end.
Definition is_closed_ev (e : event P) : bool :=
  match e with SamplerClosed => true | _ => false end.
Definition count_saved (l : list (event P)) : nat := List.length (filter is_saved l).
Definition count_closed (l : list (event P)) : nat := List.length (filter is_closed_ev l).

Definition quiet (ext : list (event P)) : Prop :=
  forallb (fun e => negb (is_saved e || is_closed_ev e)) ext = true.

(** [st'] has the learning rate, history and counter of [st], and its
    output extends that of [st] with neither a checkpoint nor a close. *)
Definition frame (st st' : TS) : Prop :=
  lr st' = lr st /\ all_val_hit st' = all_val_hit st /\
  early_stop_cn st' = early_stop_cn st /\
  exists ext, out st' = out st ++ ext /\ quiet ext.

#[export] Instance frame_PreOrder : PreOrder frame.
Proof.
  split.
  - intros st. repeat split. exists []. now rewrite app_nil_r.
  - intros s1 s2 s3 (H1 & H2 & H3 & e1 & E1 & Q1) (H4 & H5 & H6 & e2 & E2 & Q2).
    repeat split; try congruence. exists (e1 ++ e2).
    rewrite E2, E1, app_assoc. split; [reflexivity|].
    unfold quiet in *. rewrite forallb_app, Q1, Q2. reflexivity.
Qed.

Lemma count_saved_quiet (l ext : list (event P)) :
  quiet ext -> count_saved (l ++ ext) = count_saved l.
Proof.
  intros Hq. unfold count_saved. rewrite filter_app, length_app.
  enough (filter is_saved ext = []) as -> by (simpl; lia).
  induction ext as [|e ext IH]; [reflexivity|].
  unfold quiet in Hq. simpl in Hq. apply andb_prop in Hq as [He Hq].
  simpl. destruct (is_saved e); [discriminate|]. now apply IH.
Qed.

Lemma count_closed_quiet (l ext : list (event P)) :
  quiet ext -> count_closed (l ++ ext) = count_closed l.
Proof.
  intros Hq. unfold count_closed. rewrite filter_app, length_app.
  enough (filter is_closed_ev ext = []) as -> by (simpl; lia).
  induction ext as [|e ext IH]; [reflexivity|].
  unfold quiet in Hq. simpl in Hq. apply andb_prop in Hq as [He Hq].
  simpl. destruct (is_closed_ev e); [rewrite orb_true_r in He; discriminate|]. now apply IH.
Qed.

Lemma emit_frame (e : event P) :
  is_saved e = false -> is_closed_ev e = false -> preserves frame (emit e).
Proof.
  intros Hs Hc st. repeat split. exists [e]. split; [reflexivity|].
  unfold quiet. simpl. now rewrite Hs, Hc.
Qed.

Ltac frame_field := repeat split; exists []; now rewrite app_nil_r.

Lemma fetch_batch_frame : preserves frame fetch_batch.
Proof.
  intros st. unfold fetch_batch.
  destruct (next_batch (train_sampler st)) as [[b s']|e]; simpl; [frame_field | reflexivity].
Qed.

#[local] Hint Extern 1 (preserves frame (emit _)) => apply emit_frame; reflexivity : pym.

Lemma train_step_frame (args : Args.t) (b : Batch) : preserves frame (train_step args b).
Proof. unfold train_step. pym_preserve; frame_field. Qed.

Lemma log_block_frame (args : Args.t) : preserves frame (log_block args).
Proof. unfold log_block. pym_preserve; frame_field. Qed.

End Frame.

(** ** The invariant: the decision state is the abstract description *)

Section Invariant.
Context {P Smp : Type} `{RecModel P} `{BatchSource Smp}.
Abbreviation TS := (TrainState P Smp).

(** [st] agrees with the abstract description of the history [h]: the
    history starts with the sentinel [-1], the learning rate is the
    closed form, the counter is the trailing run of non-improving
    evaluations, one checkpoint was written per improving evaluation
    and the sampler is still open. *)
Definition hist_inv (lr0 : Q) (h : list pyfloat) (st : TS) : Prop :=
  (exists vs, h = Fin (-1) :: vs) /\
  lr st == lr_closed lr0 (count_nonimp h) /\
  early_stop_cn st = trailing_nonimp h /\
  count_saved (out st) = count_imp h /\
  count_closed (out st) = 0%nat.

Definition ctrl_inv (lr0 : Q) (st : TS) : Prop := hist_inv lr0 (all_val_hit st) st.

Lemma hist_inv_quiet (lr0 : Q) (h : list pyfloat) (st st' : TS) (ext : list (event P)) :
  lr st' = lr st -> early_stop_cn st' = early_stop_cn st ->
  out st' = out st ++ ext -> quiet ext -> hist_inv lr0 h st -> hist_inv lr0 h st'.
Proof.
  intros Hl Hc Ho Hq (Hs & Hlr & Hcn & Hsv & Hcl).
  repeat split; [exact Hs | rewrite Hl; exact Hlr | rewrite Hc; exact Hcn | |];
    rewrite Ho; [rewrite count_saved_quiet | rewrite count_closed_quiet]; assumption.
Qed.

Lemma hist_inv_frame (lr0 : Q) (h : list pyfloat) (st st' : TS) :
  frame st st' -> hist_inv lr0 h st -> hist_inv lr0 h st'.
Proof. intros (Hl & _ & Hc & ext & Ho & Hq). exact (hist_inv_quiet lr0 h st st' ext Hl Hc Ho Hq). Qed.

Lemma ctrl_inv_frame (lr0 : Q) (st st' : TS) :
  frame st st' -> ctrl_inv lr0 st -> ctrl_inv lr0 st'.
Proof.
  intros Hf Hi. unfold ctrl_inv.
  assert (Hh : all_val_hit st' = all_val_hit st) by apply Hf.
  rewrite Hh. exact (hist_inv_frame lr0 _ st st' Hf Hi).
Qed.

Lemma count_true_le (l : list bool) : (count_true l <= List.length l)%nat.
Proof. unfold count_true. apply filter_length_le. Qed.

Lemma count_saved_snoc (l : list (event P)) (e : event P) :
  count_saved (l ++ [e]) = (count_saved l + if is_saved e then 1 else 0)%nat.
Proof. unfold count_saved. rewrite filter_app, length_app. simpl. destruct (is_saved e); reflexivity. Qed.

Lemma count_closed_snoc (l : list (event P)) (e : event P) :
  count_closed (l ++ [e]) = (count_closed l + if is_closed_ev e then 1 else 0)%nat.
Proof. unfold count_closed. rewrite filter_app, length_app. simpl. destruct (is_closed_ev e); reflexivity. Qed.

(** Lines 135-141 move the state from the description of [h] to that of
    [h ++ [v]]. *)
Lemma decide_block_inv (lr0 : Q) (cd : string) (st : TS) (vs : list pyfloat) (v : pyfloat) :
  all_val_hit st = (Fin (-1) :: vs) ++ [v] -> hist_inv lr0 (Fin (-1) :: vs) st ->
  ctrl_inv lr0 (snd (decide_block cd st)).
Proof.
  intros Hh (_ & Hlr & Hcn & Hsv & Hcl).
  unfold decide_block. simpl. rewrite Hh, nth_last_snoc_1, nth_last_snoc_2, last_nth_last.
  cbn -[last].
  pose proof (count_true_le (nonimp_flags (Fin (-1) :: vs))).
  unfold ctrl_inv, hist_inv, count_imp, count_nonimp, trailing_nonimp in *.
  destruct (pf_le v (last (Fin (-1) :: vs) (Fin 0))) eqn:F;
    cbn -[last nonimp_flags count_saved count_closed count_true lead_true];
    rewrite ?Hh, nonimp_flags_snoc, F, count_true_snoc, lead_true_rev_snoc, length_app;
    cbn -[last nonimp_flags count_saved count_closed count_true lead_true].
  - split; [exists (vs ++ [v]); reflexivity|].
    split; [now rewrite Nat.add_1_r, <- lr_closed_step, Hlr|].
    repeat split; [rewrite Hcn; reflexivity | rewrite Hsv; lia | exact Hcl].
  - rewrite count_saved_snoc, count_closed_snoc.
    cbn -[last nonimp_flags count_saved count_closed count_true lead_true].
    split; [exists (vs ++ [v]); reflexivity|].
    repeat split; [rewrite Nat.add_0_r; exact Hlr | rewrite Hsv; lia | rewrite Hcl; reflexivity].
Qed.

End Invariant.

Section InvariantSteps.
Context {P Smp : Type} `{RecModel P} `{BatchSource Smp}.
Abbreviation TS := (TrainState P Smp).

Lemma keeps_frame {A} (lr0 : Q) (c : PyM TS A) :
  preserves frame c -> keeps (ctrl_inv lr0) c.
Proof. apply keeps_preserves. intros s s'. apply ctrl_inv_frame. Qed.

Lemma eval_block_inv (lr0 : Q) (args : Args.t) (vd : list EvalBatch) (cd : string) :
  keeps (@ctrl_inv P Smp lr0) (eval_block args vd cd).
Proof.
  intros st Hi. unfold eval_block. cbn -[decide_block evaluate].
  destruct (py_mod _ _) as [m|e]; cbn -[decide_block evaluate]; [|exact Hi].
  destruct (m =? 0)%Z; cbn -[decide_block evaluate]; [|exact Hi].
  destruct (evaluate vd (sess st)) as [[vh vn]|e]; cbn -[decide_block]; [|exact Hi].
  match goal with |- context [decide_block cd ?s1] =>
    assert (Hd : ctrl_inv lr0 (snd (decide_block cd s1)));
    [|destruct (decide_block cd s1) as [[u|e] st2]; cbn; [|exact Hd]] end.
  - destruct Hi as ((vs & Hvs) & Hrest).
    apply (decide_block_inv lr0 cd _ vs vh); cbn; [now rewrite Hvs|].
    rewrite <- Hvs. apply (hist_inv_quiet lr0 _ st _ [LogEval (step_count st) vh vn]);
      [reflexivity.. | split; [now exists vs | exact Hrest]].
  - destruct (early_stop_cn st2 =? 3)%nat; cbn; [|exact Hd].
    exact (ctrl_inv_frame lr0 st2 _ (emit_frame StopMsg eq_refl eq_refl st2) Hd).
Qed.

(** One pass of the loop body keeps the invariant, on every path. *)
Lemma iteration_inv (lr0 : Q) (args : Args.t) (vd : list EvalBatch) (cd : string) :
  keeps (@ctrl_inv P Smp lr0) (iteration args vd cd).
Proof.
  unfold iteration.
  apply keeps_bind; [apply keeps_frame, fetch_batch_frame | intros b].
  apply keeps_bind; [apply keeps_frame, train_step_frame | intros _].
  apply keeps_bind; [apply keeps_frame, log_block_frame | intros _].
  apply eval_block_inv.
Qed.

Lemma init_inv (args : Args.t) (p0 : P) (s0 : Smp) :
  ctrl_inv (Args.lr args) (init_state args p0 s0).
Proof.
  repeat split; first [exists []; reflexivity | reflexivity].
Qed.
End InvariantSteps.

(** ** The controller as a state machine (spec §4.5) *)

Inductive phase (T : Type) : Type :=
| Running (st : T)
| Converged (st : T)
| Failed (e : exn) (st : T).
Arguments Running {T} st.
Arguments Converged {T} st.
Arguments Failed {T} e st.

Definition phase_state {T} (ph : phase T) : T :=
  match ph with Running st | Converged st | Failed _ st => st end.

Definition loop_phase {T} (r : res loop_exit) (st : T) : phase T :=
  match r with
  | Ok OutOfFuel => Running st
  | Ok Broke => Converged st
  | Raise e => Failed e st
  end.

Section StepRelation.
Context {P Smp : Type} `{RecModel P} `{BatchSource Smp}.
Abbreviation TS := (TrainState P Smp).
Variables (args : Args.t) (vd : list EvalBatch) (cd : string).

(** RUNNING takes one pass of the loop body: it stays RUNNING, breaks to
    STOPPED_CONVERGED, or raises to STOPPED_ERROR. *)
Inductive ctrl_step : phase TS -> phase TS -> Prop :=
| step_continue st st' :
    iteration args vd cd st = (Ok false, st') -> ctrl_step (Running st) (Running st')
| step_converge st st' :
    iteration args vd cd st = (Ok true, st') -> ctrl_step (Running st) (Converged st')
| step_fail st e st' :
    iteration args vd cd st = (Raise e, st') -> ctrl_step (Running st) (Failed e st').

Definition steps : phase TS -> phase TS -> Prop := clos_refl_trans_1n _ ctrl_step.

Definition reachable (p0 : P) (s0 : Smp) (ph : phase TS) : Prop :=
  steps (Running (init_state args p0 s0)) ph.

Lemma ctrl_step_inv (lr0 : Q) (ph ph' : phase TS) :
  ctrl_step ph ph' -> ctrl_inv lr0 (phase_state ph) -> ctrl_inv lr0 (phase_state ph').
Proof.
  intros Hs; inversion Hs as [st st' E|st st' E|st e st' E]; subst; simpl; intros Hi;
    pose proof (iteration_inv lr0 args vd cd st Hi) as Hk; rewrite E in Hk; exact Hk.
Qed.

Lemma steps_inv (lr0 : Q) (ph ph' : phase TS) :
  steps ph ph' -> ctrl_inv lr0 (phase_state ph) -> ctrl_inv lr0 (phase_state ph').
Proof.
  induction 1 as [|x y z Hxy _ IH]; [trivial|].
  intros Hi. apply IH. exact (ctrl_step_inv lr0 x y Hxy Hi).
Qed.

Lemma main_loop_steps (fuel : nat) (st : TS) :
  steps (Running st) (loop_phase (fst (main_loop args vd cd fuel st))
                                 (snd (main_loop args vd cd fuel st))).
Proof.
  revert st. induction fuel as [|n IH]; intros st; simpl; [apply rt1n_refl|].
  destruct (iteration args vd cd st) as [[[|]|e] st'] eqn:E; simpl.
  - eapply rt1n_trans; [apply step_converge; exact E | apply rt1n_refl].
  - eapply rt1n_trans; [apply step_continue; exact E | apply IH].
  - eapply rt1n_trans; [apply step_fail; exact E | apply rt1n_refl].
Qed.

Lemma steps_main_loop (st : TS) (ph : phase TS) :
  steps (Running st) ph ->
  exists fuel, loop_phase (fst (main_loop args vd cd fuel st))
                          (snd (main_loop args vd cd fuel st)) = ph.
Proof.
  remember (Running st) as ph0 eqn:E. intros Hs. revert st E.
  induction Hs as [x|x y z Hxy Hyz IH]; intros st ->; [exists 0%nat; reflexivity|].
  inversion Hxy as [s s' Es|s s' Es|s e s' Es]; subst.
  - destruct (IH s' eq_refl) as [fuel Hf]. exists (S fuel). simpl. rewrite Es. exact Hf.
  - inversion Hyz as [|a b Hab Hbc]; [|inversion Hab]. exists 1%nat. simpl. now rewrite Es.
  - inversion Hyz as [|a b Hab Hbc]; [|inversion Hab]. exists 1%nat. simpl. now rewrite Es.
Qed.
End StepRelation.

(** ** How a pass of the loop body moves the early-stop counter *)

Section Counter.
Context {P Smp : Type} `{RecModel P} `{BatchSource Smp}.
Abbreviation TS := (TrainState P Smp).

Lemma decide_block_cn (cd : string) (st st' : TS) (u : unit) :
  decide_block cd st = (Ok u, st') ->
  early_stop_cn st' = 0%nat \/ early_stop_cn st' = S (early_stop_cn st).
Proof.
  unfold decide_block. simpl.
  destruct (nth_last (all_val_hit st) 1) as [a|e]; simpl; [|discriminate].
  destruct (nth_last (all_val_hit st) 2) as [a'|e]; simpl; [|discriminate].
  destruct (pf_le a a'); simpl; intros Heq; inversion Heq; subst; simpl; auto.
Qed.

Lemma eval_block_cn (args : Args.t) (vd : list EvalBatch) (cd : string) (st st' : TS) (b : bool) :
  eval_block args vd cd st = (Ok b, st') ->
  if b then early_stop_cn st' = 3%nat
  else early_stop_cn st' = early_stop_cn st \/
       (early_stop_cn st' <> 3 /\ early_stop_cn st' <= S (early_stop_cn st))%nat.
Proof.
  unfold eval_block. cbn -[decide_block evaluate].
  destruct (py_mod _ _) as [m|e]; cbn -[decide_block evaluate]; [|discriminate].
  destruct (m =? 0)%Z; cbn -[decide_block evaluate];
    [|intros Heq; inversion Heq; subst; now left].
  destruct (evaluate vd (sess st)) as [[vh vn]|e]; cbn -[decide_block]; [|discriminate].
  match goal with |- context [decide_block cd ?s1] =>
    destruct (decide_block cd s1) as [[u|e] st2] eqn:Ed; cbn; [|discriminate];
    apply decide_block_cn in Ed; cbn in Ed end.
  destruct (early_stop_cn st2 =? 3)%nat eqn:E3; cbn; intros Heq; inversion Heq; subst; cbn.
  - now apply Nat.eqb_eq.
  - apply Nat.eqb_neq in E3. right. split; [exact E3 | destruct Ed as [-> | ->]; lia].
Qed.

Lemma iteration_cn (args : Args.t) (vd : list EvalBatch) (cd : string) (st st' : TS) (b : bool) :
  iteration args vd cd st = (Ok b, st') ->
  if b then early_stop_cn st' = 3%nat
  else early_stop_cn st' = early_stop_cn st \/
       (early_stop_cn st' <> 3 /\ early_stop_cn st' <= S (early_stop_cn st))%nat.
Proof.
  unfold iteration. intros Hi.
  apply bind_PyM_Ok_inv in Hi as (b1 & s1 & H1 & Hi).
  apply bind_PyM_Ok_inv in Hi as (u2 & s2 & H2 & Hi).
  apply bind_PyM_Ok_inv in Hi as (u3 & s3 & H3 & Hi).
  pose proof (preserves_run _ _ _ _ _ (fetch_batch_frame) H1) as F1.
  pose proof (preserves_run _ _ _ _ _ (train_step_frame args b1) H2) as F2.
  pose proof (preserves_run _ _ _ _ _ (log_block_frame args) H3) as F3.
  assert (Ec : early_stop_cn s3 = early_stop_cn st).
  { destruct F1 as (_ & _ & C1 & _), F2 as (_ & _ & C2 & _), F3 as (_ & _ & C3 & _). congruence. }
  rewrite <- Ec. exact (eval_block_cn args vd cd s3 st' b Hi).
Qed.

(** The counter while running is below 3, and is 3 when converged. *)
Definition cn_ok (ph : phase TS) : Prop :=
  match ph with
  | Running st => (early_stop_cn st < 3)%nat
  | Converged st => early_stop_cn st = 3%nat
  | Failed _ _ => True
  end.

Lemma steps_cn_ok (args : Args.t) (vd : list EvalBatch) (cd : string) (ph ph' : phase TS) :
  steps args vd cd ph ph' -> cn_ok ph -> cn_ok ph'.
Proof.
  induction 1 as [|x y z Hxy _ IH]; [trivial|]. intros Hx. apply IH.
  inversion Hxy as [s s' E|s s' E|s e s' E]; subst; simpl in *; [| |trivial];
    pose proof (iteration_cn args vd cd s s' _ E) as Hc; simpl in Hc; [|exact Hc].
  destruct Hc as [-> | [Hn Hle]]; lia.
Qed.
End Counter.

(** ** The loop never closes the sampler *)

Section NoClose.
Context {P Smp : Type} `{RecModel P} `{BatchSource Smp}.
Abbreviation TS := (TrainState P Smp).

(** [st'] extends the output of [st] with no [SamplerClosed]. *)
Definition no_close (st st' : TS) : Prop :=
  exists ext, out st' = out st ++ ext /\ count_closed ext = 0%nat.

#[export] Instance no_close_PreOrder : PreOrder no_close.
Proof.
  split.
  - intros st. exists []. now rewrite app_nil_r.
  - intros s1 s2 s3 (e1 & E1 & C1) (e2 & E2 & C2). exists (e1 ++ e2).
    rewrite E2, E1, app_assoc. split; [reflexivity|].
    unfold count_closed in *. rewrite filter_app, length_app. lia.
Qed.

Lemma frame_no_close (st st' : TS) : frame st st' -> no_close st st'.
Proof.
  intros (_ & _ & _ & ext & Ho & Hq). exists ext. split; [exact Ho|].
  rewrite <- (app_nil_l ext), count_closed_quiet; [reflexivity | exact Hq].
Qed.

Lemma preserves_no_close {A} (c : PyM TS A) : preserves frame c -> preserves no_close c.
Proof. intros Hc s. apply frame_no_close, Hc. Qed.

Lemma emit_no_close (e : event P) : is_closed_ev e = false -> preserves no_close (emit e).
Proof. intros He st. exists [e]. split; [reflexivity|]. unfold count_closed. simpl. now rewrite He. Qed.

Ltac no_close_field := exists []; now rewrite app_nil_r.

#[local] Hint Extern 1 (preserves no_close (emit _)) => apply emit_no_close; reflexivity : pym.

Lemma decide_block_no_close (cd : string) : preserves no_close (decide_block cd).
Proof. unfold decide_block. pym_preserve; no_close_field. Qed.

#[local] Hint Resolve decide_block_no_close : pym.

Lemma eval_block_no_close (args : Args.t) (vd : list EvalBatch) (cd : string) :
  preserves no_close (eval_block args vd cd).
Proof. unfold eval_block. pym_preserve; no_close_field. Qed.

Lemma main_loop_no_close (args : Args.t) (vd : list EvalBatch) (cd : string) (fuel : nat) :
  preserves no_close (main_loop args vd cd fuel).
Proof.
  induction fuel as [|n IH]; simpl; [apply preserves_ret; typeclasses eauto|].
  apply preserves_bind; [typeclasses eauto| |intros [|]; [apply preserves_ret; typeclasses eauto|exact IH]].
  unfold iteration.
  apply preserves_bind; [typeclasses eauto|apply preserves_no_close, fetch_batch_frame|intros b].
  apply preserves_bind; [typeclasses eauto|apply preserves_no_close, train_step_frame|intros _].
  apply preserves_bind; [typeclasses eauto|apply preserves_no_close, log_block_frame|intros _].
  apply eval_block_no_close.
Qed.
End NoClose.

(** ** Theorems about the controller *)

Section ControllerTheorems.
Context {P Smp : Type} `{RecModel P} `{BatchSource Smp}.
Abbreviation TS := (TrainState P Smp).

Lemma reachable_inv_helper (args : Args.t) (vd : list EvalBatch) (cd : string)
    (p0 : P) (s0 : Smp) (ph : phase TS) :
  reachable args vd cd p0 s0 ph -> ctrl_inv (Args.lr args) (phase_state ph).
Proof. intros Hr. exact (steps_inv args vd cd _ _ _ Hr (init_inv args p0 s0)). Qed.

(** C1: Every state the controller reaches agrees with the abstract
    description of its validation history: the history starts with the
    sentinel [-1]; the learning rate is [max(lr0 / 2^k, 1e-6)] after [k]
    non-improving evaluations ([lr0] before the first); the early-stop
    counter is the length of the trailing run of non-improving
    evaluations; one checkpoint has been written per improving
    evaluation; and the sampler has not been closed. *)
Theorem reachable_ctrl_inv (args : Args.t) (vd : list EvalBatch) (cd : string)
    (p0 : P) (s0 : Smp) (ph : phase TS) :
  reachable args vd cd p0 s0 ph ->
  (exists vs, all_val_hit (phase_state ph) = Fin (-1) :: vs) /\
  lr (phase_state ph) == lr_closed (Args.lr args) (count_nonimp (all_val_hit (phase_state ph))) /\
  early_stop_cn (phase_state ph) = trailing_nonimp (all_val_hit (phase_state ph)) /\
  count_saved (out (phase_state ph)) = count_imp (all_val_hit (phase_state ph)) /\
  count_closed (out (phase_state ph)) = 0%nat.
Proof. apply reachable_inv_helper. Qed.

(** C2: The learning rate never rises above its initial value and, when
    that value is at least the floor [1e-6], never falls below the
    floor. *)
Theorem reachable_lr_bounds (args : Args.t) (vd : list EvalBatch) (cd : string)
    (p0 : P) (s0 : Smp) (ph : phase TS) :
  reachable args vd cd p0 s0 ph -> min_lr <= Args.lr args ->
  min_lr <= lr (phase_state ph) <= Args.lr args.
Proof.
  intros Hr Hm. destruct (reachable_inv_helper args vd cd p0 s0 ph Hr) as (_ & Hlr & _).
  rewrite Hlr. now apply lr_closed_bounds.
Qed.

(** C3: The controller stops as converged exactly after three consecutive
    evaluations that do not improve on their predecessor: while it runs,
    the trailing run of non-improving evaluations is shorter than three,
    and when it has converged the run is exactly three long. *)
Theorem reachable_stop_rule (args : Args.t) (vd : list EvalBatch) (cd : string)
    (p0 : P) (s0 : Smp) (ph : phase TS) :
  reachable args vd cd p0 s0 ph ->
  match ph with
  | Running st => (trailing_nonimp (all_val_hit st) < 3)%nat
  | Converged st => trailing_nonimp (all_val_hit st) = 3%nat
  | Failed _ _ => True
  end.
Proof.
  intros Hr. pose proof (steps_cn_ok args vd cd _ _ Hr ltac:(simpl; lia)) as Hc.
  destruct (reachable_inv_helper args vd cd p0 s0 ph Hr) as (_ & _ & Hcn & _).
  destruct ph; simpl in *; rewrite <- ?Hcn; assumption.
Qed.

(** C8: The executable loop implements the state machine: a RUNNING state
    reaches a phase by steps exactly when [main_loop] with some fuel
    ends in that phase. *)
Theorem main_loop_refines (args : Args.t) (vd : list EvalBatch) (cd : string)
    (st : TS) (ph : phase TS) :
  steps args vd cd (Running st) ph <->
  exists fuel, loop_phase (fst (main_loop args vd cd fuel st))
                          (snd (main_loop args vd cd fuel st)) = ph.
Proof.
  split; [apply steps_main_loop|].
  intros [fuel <-]. apply main_loop_steps.
Qed.

(** C9: The decay scenario of spec §8: after a history [-1, v1, v2, v3]
    of finite validation hits where [v1] improves on the sentinel and [v2], [v3] do not improve,
    the learning rate has been halved twice ([max(lr0/4, 1e-6)]) and the
    early-stop counter is 2. *)
Theorem reachable_decay_scenario (args : Args.t) (vd : list EvalBatch) (cd : string)
    (p0 : P) (s0 : Smp) (ph : phase TS) (v1 v2 v3 : Q) :
  reachable args vd cd p0 s0 ph ->
  all_val_hit (phase_state ph) = [Fin (-1); Fin v1; Fin v2; Fin v3] ->
  -1 < v1 -> v2 <= v1 -> v3 <= v2 ->
  (lr (phase_state ph) == Qmax (Args.lr args / 4) min_lr) /\
  early_stop_cn (phase_state ph) = 2%nat.
Proof.
  intros Hr Hh H1 H2 H3.
  destruct (reachable_inv_helper args vd cd p0 s0 ph Hr) as (_ & Hlr & Hcn & _).
  rewrite Hh in Hlr, Hcn.
  assert (F1 : Qle_bool v1 (-1) = false).
  { destruct (Qle_bool v1 (-1)) eqn:E; [apply Qle_bool_iff in E; lra | reflexivity]. }
  apply Qle_bool_iff in H2, H3.
  unfold count_nonimp, trailing_nonimp, nonimp_flags in Hlr, Hcn. cbn [pf_le] in Hlr, Hcn.
  rewrite F1, H2, H3 in Hlr, Hcn. split; [exact Hlr | exact Hcn].
Qed.

(** C10: Every way [main] ends, after the loop: on [break] it closes the
    sampler once and exits with status 0; on an [Exception] it closes
    the sampler once and exits with status 1; when the fuel runs out
    the loop is still training; and a [BaseException] that is not an
    [Exception] ([KeyboardInterrupt], or [SystemExit] from a
    collaborator) leaves without closing the sampler. *)
Theorem main_exit_paths (args : Args.t) (vd : list EvalBatch) (cd : string)
    (fuel : nat) (st st' : TS) (r : res outcome) :
  count_closed (out st) = 0%nat ->
  main args vd cd fuel st = (r, st') ->
  match fst (main_loop args vd cd fuel (snd (emit StartMsg st))) with
  | Ok Broke => r = Ok (Exited 0) /\ count_closed (out st') = 1%nat
  | Ok OutOfFuel => r = Ok StillTraining /\ count_closed (out st') = 0%nat
  | Raise e =>
      if is_Exception e then r = Ok (Exited 1) /\ count_closed (out st') = 1%nat
      else count_closed (out st') = 0%nat /\
           r = match e with SystemExit c => Ok (Exited c) | _ => Raise e end
  end.
Proof.
  intros Hz Hm.
  pose proof (main_loop_no_close args vd cd fuel (snd (emit StartMsg st))) as (ext & Ho & Hc).
  unfold main, main_body, try_except in Hm. cbn -[main_loop] in Hm.
  revert Ho Hm.
  change (snd (emit StartMsg st)) with
    (mkTrainState (lr st) (all_val_hit st) (early_stop_cn st) (step_count st)
       (train_loss_l st) (sess st) (train_sampler st) (out st ++ [StartMsg])).
  destruct (main_loop args vd cd fuel _) as [[[|]|e] st2] eqn:E;
    intros Ho Hm; cbn -[count_closed] in Ho, Hm |- *.
  all: assert (C2 : count_closed (out st2) = 0%nat)
         by (rewrite Ho; unfold count_closed in *; rewrite !filter_app, !length_app;
             simpl; lia).
  - inversion Hm; subst. split; [reflexivity|].
    cbn [out]. rewrite !count_closed_snoc. simpl. lia.
  - inversion Hm; subst. auto.
  - destruct (is_Exception e) eqn:Ee; cbn in Hm.
    + inversion Hm; subst. split; [reflexivity|].
      cbn [out]. rewrite !count_closed_snoc. simpl. lia.
    + destruct e; try discriminate; inversion Hm; subst; auto.
Qed.
End ControllerTheorems.

(** ** Where the checkpoints go *)

Section SaveTarget.
Context {P Smp : Type} `{RecModel P} `{BatchSource Smp}.
Abbreviation TS := (TrainState P Smp).
Variable cd : string.

(** A checkpoint write goes to [checkpoint_dir + '/model.ckpt']. *)
Definition saves_into (e : event P) : bool :=
  match e with
  | Saved path _ => String.eqb path (cd ++ "/model.ckpt")
  | _ => true
  end.

(** [st'] extends the output of [st] and writes checkpoints only there. *)
Definition out_saves (st st' : TS) : Prop :=
  exists ext, out st' = out st ++ ext /\ forallb saves_into ext = true.

#[export] Instance out_saves_PreOrder : PreOrder out_saves.
Proof.
  split.
  - intros st. exists []. now rewrite app_nil_r.
  - intros s1 s2 s3 (e1 & E1 & C1) (e2 & E2 & C2). exists (e1 ++ e2).
    rewrite E2, E1, app_assoc, forallb_app, C1, C2. split; reflexivity.
Qed.

Lemma emit_saves (e : event P) : saves_into e = true -> preserves out_saves (emit e).
Proof. intros He st. exists [e]. simpl. now rewrite He. Qed.

Ltac saves_field := exists []; now rewrite app_nil_r.

#[local] Hint Extern 1 (preserves out_saves (emit _)) =>
  apply emit_saves; first [reflexivity | apply String.eqb_refl] : pym.

Lemma fetch_batch_saves : preserves out_saves fetch_batch.
Proof.
  intros st. unfold fetch_batch.
  destruct (next_batch (train_sampler st)) as [[b s']|e]; simpl; [saves_field|reflexivity].
Qed.

Lemma close_sampler_saves : preserves out_saves close_sampler.
Proof. intros st. exists [SamplerClosed]. split; reflexivity. Qed.

#[local] Hint Resolve fetch_batch_saves close_sampler_saves : pym.

Lemma eval_block_saves (args : Args.t) (vd : list EvalBatch) :
  preserves out_saves (eval_block args vd cd).
Proof. unfold eval_block, decide_block. pym_preserve; saves_field. Qed.

Lemma iteration_saves (args : Args.t) (vd : list EvalBatch) :
  preserves out_saves (iteration args vd cd).
Proof.
  unfold iteration, train_step, log_block.
  pym_preserve; try saves_field. apply eval_block_saves.
Qed.

#[local] Hint Resolve iteration_saves : pym.

Lemma main_loop_saves (args : Args.t) (vd : list EvalBatch) (fuel : nat) :
  preserves out_saves (main_loop args vd cd fuel).
Proof.
  induction fuel as [|n IH]; cbn [main_loop]; [apply preserves_ret; typeclasses eauto|].
  apply preserves_bind; [typeclasses eauto|apply iteration_saves|].
  intros [|]; [apply preserves_ret; typeclasses eauto|exact IH].
Qed.

#[local] Hint Resolve main_loop_saves : pym.

Lemma main_body_saves (args : Args.t) (vd : list EvalBatch) (fuel : nat) :
  preserves out_saves (main_body args vd cd fuel).
Proof. unfold main_body. pym_preserve. Qed.

(** Every checkpoint [main] writes, on every path, goes to
    [checkpoint_dir + '/model.ckpt']. *)
Lemma main_saves (args : Args.t) (vd : list EvalBatch) (fuel : nat) :
  preserves out_saves (main args vd cd fuel).
Proof.
  intros st. pose proof (main_body_saves args vd fuel st) as Hb.
  unfold main. destruct (main_body args vd cd fuel st) as [[o|[]] st'] eqn:E; exact Hb.
Qed.
End SaveTarget.
