(* ===== verification/Termination.v ===== *)
(** * Termination of [while True] when validation stops improving

    [main_loop] runs with fuel; this file shows how much fuel is enough.
    When every evaluation returns the same hit [v] (above the [-1]
    sentinel), the first evaluation improves on the sentinel and each
    later one does not, so the counter reaches 3 at the fourth
    evaluation: the loop breaks after exactly [4 * eval_interval] passes,
    and runs out of fuel before that (C27).  More generally, from any
    state of the loop whose last recorded hit is not beaten by the hit
    [v] every later evaluation scores, the loop breaks at the pass that
    brings the counter to 3, within [(3 - k) * eval_interval] passes for
    a counter [k] (C23).  The proof abstracts the state to
    what the decision reads ([abs_of]: step counter, history, counter),
    shows that one pass of [iteration] is one step [abs_step] of that
    abstraction, and counts the abstract steps. *)

From Stdlib Require Import List String ZArith QArith Lqa Lia.
From S2P Require Import Prelude Interfaces Config Evaluate Controller ControllerSpec.
Import ListNotations.

(** What the decision reads: the step counter, the history of validation
    hits and the early-stop counter. *)
Record Abs : Type := mkAbs {
  a_step : Z;
  a_hist : list pyfloat;
  a_cn : nat
}.

Section Abstract.
Variable E : Z.
Variable v : Q.

(** The evaluation block on the abstraction, when every evaluation
    scores [v]: at an evaluation step the hit is appended, the counter
    moves as in lines 135-140, and the pass breaks when it reaches 3. *)
Definition abs_eval (a : Abs) : Abs * bool :=
  if (a_step a mod E =? 0)%Z then
    let c := if pf_le (Fin v) (last (a_hist a) (Fin 0)) then S (a_cn a) else 0%nat in
    (mkAbs (a_step a) (a_hist a ++ [Fin v]) c, Nat.eqb c 3)
  else (a, false).

(** One pass of the loop: the step counter advances, then the
    evaluation block. *)
Definition abs_step (a : Abs) : Abs * bool :=
  abs_eval (mkAbs (a_step a + 1) (a_hist a) (a_cn a)).

Fixpoint abs_loop (fuel : nat) (a : Abs) : loop_exit :=
  match fuel with
  | O => OutOfFuel
  | S f => let '(a', brk) := abs_step a in if brk then Broke else abs_loop f a'
  end.
End Abstract.

Section Termination.
Context {P Smp : Type} `{RecModel P} `{BatchSource Smp}.
Variables (args : Args.t) (vd : list EvalBatch) (cd : string) (v : Q).
Hypothesis Hnext : forall s, exists b s', next_batch s = Ok (b, s').
Hypothesis Htrain : forall p b lr d, exists p' l, train_run p b lr d = Ok (p', l).
Hypothesis Heval : forall p, exists g, evaluate vd p = Ok (Fin v, g).
Hypothesis Hlog : Args.log_interval args <> 0%Z.
Hypothesis HE : Args.eval_interval args <> 0%Z.

Definition abs_of (st : TrainState P Smp) : Abs :=
  mkAbs (step_count st) (all_val_hit st) (early_stop_cn st).

Lemma fetch_batch_abs (st : TrainState P Smp) :
  exists b st1, fetch_batch st = (Ok b, st1) /\ abs_of st1 = abs_of st /\ sess st1 = sess st /\
                lr st1 = lr st.
Proof.
  destruct (Hnext (train_sampler st)) as (b & s1 & Hn).
  exists b, (set_train_sampler s1 st). unfold fetch_batch. now rewrite Hn.
Qed.

Lemma train_step_abs (st : TrainState P Smp) (b : Batch) :
  exists st1, train_step args b st = (Ok tt, st1) /\
              abs_of st1 = mkAbs (step_count st + 1) (all_val_hit st) (early_stop_cn st).
Proof.
  destruct (Htrain (sess st) b (lr st) (Args.dropout args)) as (p1 & l & Ht).
  unfold train_step. cbn -[train_run]. rewrite Ht. eexists. split; reflexivity.
Qed.

Lemma log_block_abs (st : TrainState P Smp) :
  exists st1, log_block args st = (Ok tt, st1) /\ abs_of st1 = abs_of st.
Proof.
  unfold log_block. cbn -[py_mod py_truediv]. rewrite py_mod_ok by exact Hlog.
  cbn -[py_truediv]. destruct ((step_count st mod Args.log_interval args =? 0)%Z).
  - rewrite py_truediv_ok; [eexists; split; reflexivity|].
    change 0 with (inject_Z 0). rewrite inject_Z_injective. exact Hlog.
  - eexists. split; reflexivity.
Qed.
Lemma eval_block_abs (st : TrainState P Smp) (x : pyfloat) (h : list pyfloat) :
  all_val_hit st = x :: h ->
  exists st1, eval_block args vd cd st =
                (Ok (snd (abs_eval (Args.eval_interval args) v (abs_of st))), st1) /\
              abs_of st1 = fst (abs_eval (Args.eval_interval args) v (abs_of st)).
Proof.
  intros Hh. destruct (Heval (sess st)) as (g & He).
  unfold eval_block, abs_eval, abs_of. cbn -[py_mod evaluate decide_block pf_le].
  rewrite py_mod_ok by exact HE. cbn -[evaluate decide_block pf_le].
  destruct (step_count st mod Args.eval_interval args =? 0)%Z; [|eexists; split; reflexivity].
  rewrite He. unfold decide_block. cbn -[nth_last pf_le].
  rewrite nth_last_snoc_1, nth_last_snoc_2, Hh, last_nth_last. cbn -[Nat.eqb last pf_le].
  destruct (pf_le (Fin v) (last (x :: h) (Fin 0))); cbn -[Nat.eqb last];
    [destruct (Nat.eqb (S (early_stop_cn st)) 3)|]; eexists; split; reflexivity.
Qed.
Lemma iteration_abs (st : TrainState P Smp) (x : pyfloat) (h : list pyfloat) :
  all_val_hit st = x :: h ->
  exists st1, iteration args vd cd st =
                (Ok (snd (abs_step (Args.eval_interval args) v (abs_of st))), st1) /\
              abs_of st1 = fst (abs_step (Args.eval_interval args) v (abs_of st)).
Proof.
  intros Hh.
  destruct (fetch_batch_abs st) as (b & st1 & E1 & A1 & _).
  destruct (train_step_abs st1 b) as (st2 & E2 & A2).
  destruct (log_block_abs st2) as (st3 & E3 & A3).
  assert (A : abs_of st3 = mkAbs (step_count st + 1) (all_val_hit st) (early_stop_cn st)).
  { rewrite A3, A2. unfold abs_of in A1. now inversion A1. }
  assert (Hh3 : all_val_hit st3 = x :: h).
  { change (all_val_hit st3) with (a_hist (abs_of st3)). now rewrite A, Hh. }
  destruct (eval_block_abs st3 x h Hh3) as (st4 & E4 & A4).
  exists st4. unfold iteration.
  rewrite (bind_PyM_step _ _ _ _ _ E1), (bind_PyM_step _ _ _ _ _ E2),
    (bind_PyM_step _ _ _ _ _ E3), E4, A4, A.
  split; reflexivity.
Qed.

Lemma abs_step_hist (E : Z) (a : Abs) :
  exists t, a_hist (fst (abs_step E v a)) = a_hist a ++ t.
Proof.
  unfold abs_step, abs_eval. cbn [a_step a_hist a_cn].
  destruct ((a_step a + 1) mod E =? 0)%Z; [exists [Fin v]|exists []; now rewrite app_nil_r]; reflexivity.
Qed.

(** [main_loop] computes [abs_loop] on the abstraction of its state. *)
Lemma main_loop_abs (fuel : nat) (st : TrainState P Smp) (x : pyfloat) (h : list pyfloat) :
  all_val_hit st = x :: h ->
  fst (main_loop args vd cd fuel st) = Ok (abs_loop (Args.eval_interval args) v fuel (abs_of st)).
Proof.
  revert st h. induction fuel as [|f IH]; intros st h Hh; [reflexivity|].
  destruct (iteration_abs st x h Hh) as (st1 & E1 & A1).
  cbn [main_loop abs_loop]. rewrite (bind_PyM_step _ _ _ _ _ E1).
  destruct (abs_step (Args.eval_interval args) v (abs_of st)) as [a' brk] eqn:Ea.
  cbn [fst snd] in A1 |- *. destruct brk; [reflexivity|].
  destruct (abs_step_hist (Args.eval_interval args) (abs_of st)) as (t0 & Ht).
  rewrite Ea in Ht. cbn [fst] in Ht. rewrite <- A1 in Ht.
  rewrite <- A1. apply (IH st1 (h ++ t0)).
  change (all_val_hit st1) with (a_hist (abs_of st1)). rewrite Ht. simpl. now rewrite Hh.
Qed.
End Termination.

(** ** Counting the abstract steps *)

Section Counting.
Variable N : nat.
Variable v : Q.
Hypothesis HN : (0 < N)%nat.
Hypothesis Hv : -1 < v.

(** The abstraction after [n] passes without a break: [n / N]
    evaluations, all scoring [v]; the counter is one less than their
    number, the first having improved on the sentinel. *)
Definition abs_state (n : nat) : Abs :=
  mkAbs (Z.of_nat n) (Fin (-1) :: repeat (Fin v) (n / N)) (n / N - 1).

Lemma div_succ_cases (n : nat) :
  (S n mod N = 0 /\ S n / N = S (n / N))%nat \/ (S n mod N <> 0 /\ S n / N = n / N)%nat.
Proof.
  pose proof (Nat.div_mod_eq n N) as Hd. pose proof (Nat.mod_upper_bound n N ltac:(lia)) as Hm.
  destruct (Nat.eq_dec (S (n mod N)) N) as [Heq|Hne].
  - left. split.
    + symmetry. apply (Nat.mod_unique _ _ (S (n / N))); lia.
    + symmetry. apply (Nat.div_unique _ _ _ 0); lia.
  - right. assert (Hr : S n mod N = S (n mod N))
      by (symmetry; apply (Nat.mod_unique _ _ (n / N)); lia).
    split; [lia|]. symmetry. apply (Nat.div_unique _ _ _ (S (n mod N))); lia.
Qed.

Lemma repeat_snoc {A} (x : A) (j : nat) : repeat x j ++ [x] = repeat x (S j).
Proof. induction j as [|j IH]; simpl; [reflexivity|now rewrite IH]. Qed.

Lemma last_sentinel (j : nat) :
  pf_le (Fin v) (last (Fin (-1) :: repeat (Fin v) j) (Fin 0)) = match j with O => false | S _ => true end.
Proof.
  destruct j as [|j].
  - simpl. destruct (Qle_bool v (-1)) eqn:E; [apply Qle_bool_iff in E; lra|reflexivity].
  - rewrite <- repeat_snoc, app_comm_cons, last_last. cbn [pf_le]. apply Qle_bool_iff, Qle_refl.
Qed.

Lemma abs_step_state (n : nat) :
  abs_step (Z.of_nat N) v (abs_state n) =
    (abs_state (S n), (S n mod N =? 0)%nat && (S n / N =? 4)%nat).
Proof.
  unfold abs_step, abs_eval, abs_state. cbn [a_step a_hist a_cn].
  replace (Z.of_nat n + 1)%Z with (Z.of_nat (S n)) by lia.
  rewrite <- Nat2Z.inj_mod.
  destruct (div_succ_cases n) as [[Hm Hd]|[Hm Hd]].
  - rewrite Hm, Hd. cbn [Z.of_nat Z.eqb Nat.eqb andb]. rewrite last_sentinel.
    rewrite <- app_comm_cons, repeat_snoc.
    destruct (n / N)%nat as [|j]; cbn; rewrite ?Nat.sub_0_r; reflexivity.
  - rewrite Hd. destruct (Z.eqb_spec (Z.of_nat (S n mod N)) 0) as [Hz|Hz]; [lia|].
    destruct (Nat.eqb_spec (S n mod N) 0) as [Hz'|Hz']; [lia|]. reflexivity.
Qed.

Lemma abs_loop_state (f n : nat) :
  (n < 4 * N)%nat ->
  abs_loop (Z.of_nat N) v f (abs_state n) =
    if (4 * N - n <=? f)%nat then Broke else OutOfFuel.
Proof.
  revert n. induction f as [|f IH]; intros n Hn; cbn [abs_loop].
  - destruct (Nat.leb_spec (4 * N - n) 0); [lia|reflexivity].
  - rewrite abs_step_state.
    destruct (Nat.eq_dec (S n) (4 * N)) as [Heq|Hne].
    + rewrite Heq, Nat.Div0.mod_mul, Nat.div_mul by lia. cbn [Nat.eqb andb].
      destruct (Nat.leb_spec (4 * N - n) (S f)); [reflexivity|lia].
    + assert (Hlt : (S n / N < 4)%nat) by (apply Nat.Div0.div_lt_upper_bound; lia).
      destruct (Nat.eqb_spec (S n / N) 4) as [E|E]; [lia|].
      rewrite andb_false_r, IH by lia.
      destruct (Nat.leb_spec (4 * N - S n) f), (Nat.leb_spec (4 * N - n) (S f));
        reflexivity || lia.
Qed.
End Counting.

(** ** Counting the abstract steps from any state *)

Section CountingFrom.
Variable N : nat.
Variable v : Q.
Hypothesis HN : (0 < N)%nat.
(** The state: the step [s], the history [h] whose last entry [v] does
    not improve on, and the counter [k < 3]. *)
Variables (s k : nat) (h : list pyfloat).
Hypothesis Hh : pf_le (Fin v) (last h (Fin 0)) = true.
Hypothesis Hk : (k < 3)%nat.

(** The evaluations in the [n] passes after step [s]. *)
Definition evals (n : nat) : nat := (s + n) / N - s / N.

Definition abs_from (n : nat) : Abs :=
  mkAbs (Z.of_nat (s + n)) (h ++ repeat (Fin v) (evals n)) (k + evals n).

(** The pass that reaches the [(3 - k)]-th evaluation. *)
Definition stop_from : nat := (s / N + (3 - k)) * N - s.

Lemma last_stuck (j : nat) : pf_le (Fin v) (last (h ++ repeat (Fin v) j) (Fin 0)) = true.
Proof.
  destruct j as [|j]; [now rewrite app_nil_r|].
  rewrite <- repeat_snoc, app_assoc, last_last. cbn [pf_le]. apply Qle_bool_iff, Qle_refl.
Qed.

Lemma div_s_le (n : nat) : (s / N <= (s + n) / N)%nat.
Proof. apply Nat.Div0.div_le_mono. lia. Qed.

Lemma evals_succ (n : nat) :
  (S (s + n) mod N = 0 /\ evals (S n) = S (evals n))%nat \/
  (S (s + n) mod N <> 0 /\ evals (S n) = evals n)%nat.
Proof.
  unfold evals. replace (s + S n)%nat with (S (s + n)) by lia. pose proof (div_s_le n).
  destruct (div_succ_cases N HN (s + n)) as [[Hm Hd]|[Hm Hd]]; [left|right];
    (split; [exact Hm|]); rewrite Hd; lia.
Qed.

Lemma abs_step_from (n : nat) :
  abs_step (Z.of_nat N) v (abs_from n) =
    (abs_from (S n), (S (s + n) mod N =? 0)%nat && (k + evals (S n) =? 3)%nat).
Proof.
  unfold abs_step, abs_eval, abs_from. cbn [a_step a_hist a_cn].
  replace (Z.of_nat (s + n) + 1)%Z with (Z.of_nat (S (s + n))) by lia.
  replace (s + S n)%nat with (S (s + n)) by lia.
  rewrite <- Nat2Z.inj_mod.
  destruct (evals_succ n) as [[Hm He]|[Hm He]]; rewrite He.
  - rewrite Hm. cbn [Z.of_nat Z.eqb Nat.eqb andb]. rewrite last_stuck.
    rewrite <- app_assoc, repeat_snoc. now replace (k + S (evals n))%nat with (S (k + evals n)) by lia.
  - destruct (Z.eqb_spec (Z.of_nat (S (s + n) mod N)) 0) as [Hz|Hz]; [lia|].
    destruct (Nat.eqb_spec (S (s + n) mod N) 0) as [Hz'|Hz']; [lia|]. reflexivity.
Qed.

Lemma s_below_stop : (s < (s / N + (3 - k)) * N)%nat.
Proof.
  pose proof (Nat.div_mod_eq s N) as Hd. pose proof (Nat.mod_upper_bound s N ltac:(lia)) as Hm.
  nia.
Qed.

Lemma evals_before_stop (n : nat) : (n < stop_from)%nat -> (evals n < 3 - k)%nat.
Proof.
  unfold stop_from, evals. intros Hn. pose proof s_below_stop. pose proof (div_s_le n).
  assert ((s + n) / N < s / N + (3 - k))%nat by (apply Nat.Div0.div_lt_upper_bound; lia). lia.
Qed.

Lemma evals_at_stop : evals stop_from = (3 - k)%nat.
Proof.
  unfold evals, stop_from. pose proof s_below_stop.
  replace (s + ((s / N + (3 - k)) * N - s))%nat with ((s / N + (3 - k)) * N)%nat by lia.
  rewrite Nat.div_mul by lia. lia.
Qed.

Lemma abs_loop_from (f n : nat) :
  (n < stop_from)%nat ->
  abs_loop (Z.of_nat N) v f (abs_from n) = if (stop_from - n <=? f)%nat then Broke else OutOfFuel.
Proof.
  revert n. induction f as [|f IH]; intros n Hn; cbn [abs_loop].
  - destruct (Nat.leb_spec (stop_from - n) 0); [lia|reflexivity].
  - rewrite abs_step_from.
    destruct (Nat.eq_dec (S n) stop_from) as [Heq|Hne].
    + assert (Hb : ((S (s + n) mod N =? 0) && (k + evals (S n) =? 3))%nat = true).
      { rewrite Heq, evals_at_stop. unfold stop_from. pose proof s_below_stop.
        replace (S (s + n)) with (s + S n)%nat by lia. rewrite Heq. unfold stop_from.
        replace (s + ((s / N + (3 - k)) * N - s))%nat with ((s / N + (3 - k)) * N)%nat by lia.
        rewrite Nat.Div0.mod_mul. apply andb_true_iff. split; apply Nat.eqb_eq; lia. }
      rewrite Hb. destruct (Nat.leb_spec (stop_from - n) (S f)); [reflexivity|lia].
    + pose proof (evals_before_stop (S n) ltac:(lia)) as Hlt.
      destruct (Nat.eqb_spec (k + evals (S n)) 3) as [E|E]; [lia|].
      rewrite andb_false_r, IH by lia.
      destruct (Nat.leb_spec (stop_from - S n) f), (Nat.leb_spec (stop_from - n) (S f));
        reflexivity || lia.
Qed.
End CountingFrom.

(** ** Enough fuel *)

(** The pass at which the loop breaks when the score never changes: the
    fourth evaluation, at step [4 * eval_interval]. *)
Definition stop_pass (args : Args.t) : nat := 4 * Z.to_nat (Args.eval_interval args).

Section Terminates.
Context {P Smp : Type} `{RecModel P} `{BatchSource Smp}.

Lemma abs_of_init (args : Args.t) (p0 : P) (s0 : Smp) (N : nat) (v : Q) :
  abs_of (init_state args p0 s0) = abs_state N v 0.
Proof. unfold abs_state. rewrite Nat.Div0.div_0_l. reflexivity. Qed.

(** C27: When the sampler and the optimiser always return and every
    evaluation scores the same hit [v] above the [-1] sentinel, the loop
    started by [main] breaks after exactly [4 * eval_interval] passes:
    with that much fuel [main_loop] ends by [break], with less it is
    still running.  (The first evaluation improves on the sentinel; the
    next three do not, and the third of them reaches the counter 3.) *)
Theorem main_loop_terminates (args : Args.t) (vd : list EvalBatch) (cd : string) (v : Q)
    (p0 : P) (s0 : Smp) (fuel : nat) :
  (forall s, exists b s', next_batch s = Ok (b, s')) ->
  (forall p b lr d, exists p' l, train_run p b lr d = Ok (p', l)) ->
  (forall p, exists g, evaluate vd p = Ok (Fin v, g)) ->
  Args.log_interval args <> 0%Z -> (0 < Args.eval_interval args)%Z -> -1 < v ->
  fst (main_loop args vd cd fuel (init_state args p0 s0)) =
    Ok (if (stop_pass args <=? fuel)%nat then Broke else OutOfFuel).
Proof.
  unfold stop_pass.
  intros Hn Ht He Hl HE Hv.
  rewrite (main_loop_abs args vd cd v Hn Ht He Hl ltac:(lia) fuel (init_state args p0 s0) (Fin (-1)) []
             eq_refl).
  rewrite (abs_of_init args p0 s0 (Z.to_nat (Args.eval_interval args)) v).
  rewrite <- (Z2Nat.id (Args.eval_interval args)) at 1 by lia.
  rewrite abs_loop_state by (exact Hv || lia). now rewrite Nat.sub_0_r.
Qed.

Lemma stop_from_le (N s k : nat) : (0 < N)%nat -> (stop_from N s k <= (3 - k) * N)%nat.
Proof.
  intros HN. unfold stop_from.
  pose proof (Nat.div_mod_eq s N) as Hd. pose proof (Nat.mod_upper_bound s N ltac:(lia)). nia.
Qed.

(** C23: Once the validation hit has stalled, the loop stops.  From any
    state of the loop whose history is not empty, whose last recorded hit
    [v] is not beaten, whose counter is below 3 and whose step is [s >= 0],
    if every further evaluation scores [v] again, [main_loop] breaks at
    exactly the pass [stop_from] (the pass that brings the counter to 3),
    and that pass comes within [(3 - k) * eval_interval] passes. *)
Theorem stalled_run_stops (args : Args.t) (vd : list EvalBatch) (cd : string) (v : Q)
    (st : TrainState P Smp) (x : pyfloat) (h : list pyfloat) (fuel : nat) :
  (forall s, exists b s', next_batch s = Ok (b, s')) ->
  (forall p b lr d, exists p' l, train_run p b lr d = Ok (p', l)) ->
  (forall p, exists g, evaluate vd p = Ok (Fin v, g)) ->
  Args.log_interval args <> 0%Z -> (0 < Args.eval_interval args)%Z ->
  all_val_hit st = x :: h -> pf_le (Fin v) (last (x :: h) (Fin 0)) = true ->
  (early_stop_cn st < 3)%nat -> (0 <= step_count st)%Z ->
  let N := Z.to_nat (Args.eval_interval args) in
  let stop := stop_from N (Z.to_nat (step_count st)) (early_stop_cn st) in
  fst (main_loop args vd cd fuel st) = Ok (if (stop <=? fuel)%nat then Broke else OutOfFuel) /\
  (stop <= (3 - early_stop_cn st) * N)%nat.
Proof.
  intros Hn Ht He Hl HE Hh Hlast Hk Hs N stop.
  assert (HN : (0 < N)%nat) by (unfold N; lia).
  split; [|apply stop_from_le, HN].
  rewrite (main_loop_abs args vd cd v Hn Ht He Hl ltac:(lia) fuel st x h Hh).
  assert (Ha : abs_of st = abs_from N v (Z.to_nat (step_count st)) (early_stop_cn st) (x :: h) 0).
  { unfold abs_of, abs_from, evals. rewrite Nat.add_0_r, Nat.sub_diag, Z2Nat.id by lia.
    cbn [repeat]. now rewrite app_nil_r, Nat.add_0_r, <- Hh. }
  rewrite Ha, <- (Z2Nat.id (Args.eval_interval args)) at 1 by lia. fold N.
  rewrite (abs_loop_from N v HN) by (exact Hlast || exact Hk || (pose proof (s_below_stop N HN (Z.to_nat (step_count st)) (early_stop_cn st)); unfold stop_from; lia)).
  now rewrite Nat.sub_0_r.
Qed.
End Terminates.

(** ** A model whose validation score never changes, for the witness *)

Module Flat.
(** The parameters count the updates; every evaluation batch scores one
    hit out of two targets. *)
#[export] Instance flat_model : RecModel Z := {
  train_run p _ _ _ := Ok ((p + 1)%Z, 1);
  eval_run _ _ := Ok (1, 0, 2)
}.

#[export] Instance counter_sampler : BatchSource nat := {
  next_batch s := Ok (mkBatch [] [] [] [], S s);
  close s := s
}.

Definition flat_vd : list EvalBatch := [mkEvalBatch [1%Z] [[1%Z]] [1%Z]].
End Flat.
Import Flat.

(** With the default configuration (evaluation every 1000 steps) the
    loop breaks at pass 4000. *)
Lemma main_loop_terminates_witness :
  (forall s : nat, exists b s', next_batch s = Ok (b, s')) /\
  (forall (p : Z) b lr d, exists p' l, train_run p b lr d = Ok (p', l)) /\
  (forall p : Z, exists g, evaluate flat_vd p = Ok (Fin (1 # 2), g)) /\
  Args.log_interval default_args <> 0%Z /\ (0 < Args.eval_interval default_args)%Z /\
  -1 < 1 # 2 /\
  fst (main_loop default_args flat_vd "ckpt" 4000 (init_state default_args 0%Z 0%nat)) = Ok Broke.
Proof.
  assert (Hn : forall s : nat, exists b s', next_batch s = Ok (b, s')) by (intros s; do 2 eexists; reflexivity).
  assert (Ht : forall (p : Z) b lr d, exists p' l, train_run p b lr d = Ok (p', l))
    by (intros p b lr d; do 2 eexists; reflexivity).
  assert (He : forall p : Z, exists g, evaluate flat_vd p = Ok (Fin (1 # 2), g))
    by (intros p; eexists; reflexivity).
  assert (Hl : Args.log_interval default_args <> 0%Z) by discriminate.
  assert (HE : (0 < Args.eval_interval default_args)%Z) by reflexivity.
  assert (Hv : -1 < 1 # 2) by reflexivity.
  split; [exact Hn|]. split; [exact Ht|]. split; [exact He|].
  split; [exact Hl|]. split; [exact HE|]. split; [exact Hv|].
  exact (main_loop_terminates default_args flat_vd "ckpt" (1 # 2) 0%Z 0%nat 4000 Hn Ht He Hl HE Hv).
Defined.

(** A run resumed at step 1000 whose history already holds the hit
    [1/2] and whose counter is 0: with the default configuration the loop
    breaks at the third evaluation after it, 3000 passes later. *)
Definition stalled_state : TrainState Z nat :=
  mkTrainState (Args.lr default_args) [Fin (-1); Fin (1 # 2)] 0 1000%Z 0 0%Z 0%nat [].

Lemma stalled_run_stops_witness :
  (forall s : nat, exists b s', next_batch s = Ok (b, s')) /\
  (forall (p : Z) b lr d, exists p' l, train_run p b lr d = Ok (p', l)) /\
  (forall p : Z, exists g, evaluate flat_vd p = Ok (Fin (1 # 2), g)) /\
  Args.log_interval default_args <> 0%Z /\ (0 < Args.eval_interval default_args)%Z /\
  all_val_hit stalled_state = Fin (-1) :: [Fin (1 # 2)] /\
  pf_le (Fin (1 # 2)) (last [Fin (-1); Fin (1 # 2)] (Fin 0)) = true /\
  (early_stop_cn stalled_state < 3)%nat /\ (0 <= step_count stalled_state)%Z /\
  fst (main_loop default_args flat_vd "ckpt" 3000 stalled_state) = Ok Broke /\
  fst (main_loop default_args flat_vd "ckpt" 2999 stalled_state) = Ok OutOfFuel.
Proof.
  assert (Hn : forall s : nat, exists b s', next_batch s = Ok (b, s')) by (intros s; do 2 eexists; reflexivity).
  assert (Ht : forall (p : Z) b lr d, exists p' l, train_run p b lr d = Ok (p', l))
    by (intros p b lr d; do 2 eexists; reflexivity).
  assert (He : forall p : Z, exists g, evaluate flat_vd p = Ok (Fin (1 # 2), g))
    by (intros p; eexists; reflexivity).
  assert (Hl : Args.log_interval default_args <> 0%Z) by discriminate.
  assert (HE : (0 < Args.eval_interval default_args)%Z) by reflexivity.
  assert (Hh : all_val_hit stalled_state = Fin (-1) :: [Fin (1 # 2)]) by reflexivity.
  assert (Hv : pf_le (Fin (1 # 2)) (last [Fin (-1); Fin (1 # 2)] (Fin 0)) = true) by reflexivity.
  assert (Hk : (early_stop_cn stalled_state < 3)%nat) by (cbn; lia).
  assert (Hs : (0 <= step_count stalled_state)%Z) by (cbn; lia).
  do 9 (split; [assumption|]).
  destruct (stalled_run_stops default_args flat_vd "ckpt" (1 # 2) stalled_state _ _ 3000
              Hn Ht He Hl HE Hh Hv Hk Hs) as [A _].
  destruct (stalled_run_stops default_args flat_vd "ckpt" (1 # 2) stalled_state _ _ 2999
              Hn Ht He Hl HE Hh Hv Hk Hs) as [B _].
  assert (Hstop : stop_from (Z.to_nat (Args.eval_interval default_args))
                    (Z.to_nat (step_count stalled_state)) (early_stop_cn stalled_state) = 3000%nat)
    by (vm_compute; reflexivity).
  cbv zeta in A, B. rewrite Hstop in A, B. split; [exact A | exact B].
Defined.
