(* ===== verification/Scenarios.v ===== *)
(** * Concrete runs of the controller

    A scripted model and a trivial sampler make [main] computable:
    the parameters are a validation script (the hit the model scores
    after [n] updates) with the update counter, each training step adds
    one update with loss 1, and the evaluation batch holds one target.
    With them this file runs the controller on concrete histories: the
    witnesses of the controller theorems, the decay scenario of spec §8,
    and two behaviours the code has and the spec does not expect — the
    checkpoint is not always the best one seen ([checkpoint_not_best]),
    and a validation score that alternates keeps the loop running for
    ever (C12); the witnesses of C11 (a validation set without targets)
    and C21 (the printed mean loss). *)

From Stdlib Require Import List String ZArith QArith Qminmax Lqa Lia Relation_Operators.
From S2P Require Import Prelude Interfaces Config Evaluate Controller ControllerSpec.
Import ListNotations.

Module Scripted.
Definition params : Type := ((Z -> Q) * Z)%type.

#[export] Instance scripted_model : RecModel params := {
  train_run p b lr dropout := Ok ((fst p, (snd p + 1)%Z), 1);
  eval_run p b := Ok (fst p (snd p), 0, 1)
}.

(** The sampler state counts the batches served and records whether
    [close()] was called. *)
#[export] Instance toy_sampler : BatchSource (nat * bool) := {
  next_batch s := Ok (mkBatch [] [] [] [], (S (fst s), snd s));
  close s := (fst s, true)
}.

(** The default configuration with logging and evaluation at every
    step. *)
Definition args1 : Args.t := {|
  Args.model := "tcn"; Args.batch_size := 128; Args.seq_len := 20;
  Args.dropout := 2 # 10; Args.l2_reg := 0; Args.clip := 1; Args.epochs := 20;
  Args.lr := 1 # 1000; Args.emsize := 100; Args.neg_size := 1; Args.worker := 10;
  Args.nhid := 100; Args.levels := 3; Args.seed := 1111; Args.loss := "ns";
  Args.data := "gowalla"; Args.log_interval := 1; Args.eval_interval := 1;
  Args.ksize := 3; Args.num_blocks := 3; Args.num_heads := 2; Args.pos_fixed := 0
|}%string%Z.

Definition val1 : list EvalBatch := [mkEvalBatch [1%Z] [[1%Z]] [1%Z]].
Definition dir1 : string := "save_gowalla_tcn".
Definition s0 : nat * bool := (0%nat, false).

Definition start (script : Z -> Q) : TrainState params (nat * bool) :=
  init_state args1 (script, 0%Z) s0.

Definition run (script : Z -> Q) (fuel : nat) :=
  main_loop args1 val1 dir1 fuel (start script).

Definition run_phase (script : Z -> Q) (fuel : nat) : phase (TrainState params (nat * bool)) :=
  loop_phase (fst (run script fuel)) (snd (run script fuel)).

Lemma run_reachable (script : Z -> Q) (fuel : nat) :
  reachable args1 val1 dir1 (script, 0%Z) s0 (run_phase script fuel).
Proof. apply main_loop_steps. Qed.

(** The history of spec §8: [0.10, 0.10, 0.09]. *)
Definition spec_script (n : Z) : Q :=
  match n with 1%Z => 1 # 10 | 2%Z => 1 # 10 | 3%Z => 9 # 100 | _ => 0 end.
End Scripted.

Import Scripted.

(** After the three evaluations of spec §8 the controller is still
    running with history [-1; 0.1; 0.1; 0.09]. *)
Lemma reachable_ctrl_inv_witness :
  (exists vs, all_val_hit (phase_state (run_phase spec_script 3)) = Fin (-1) :: vs) /\
  lr (phase_state (run_phase spec_script 3)) ==
    lr_closed (Args.lr args1) (count_nonimp (all_val_hit (phase_state (run_phase spec_script 3)))) /\
  early_stop_cn (phase_state (run_phase spec_script 3)) =
    trailing_nonimp (all_val_hit (phase_state (run_phase spec_script 3))) /\
  count_saved (out (phase_state (run_phase spec_script 3))) =
    count_imp (all_val_hit (phase_state (run_phase spec_script 3))) /\
  count_closed (out (phase_state (run_phase spec_script 3))) = 0%nat.
Proof. apply (reachable_ctrl_inv args1 val1 dir1 _ s0 _ (run_reachable spec_script 3)). Defined.

Lemma reachable_lr_bounds_witness :
  min_lr <= Args.lr args1 /\
  min_lr <= lr (phase_state (run_phase spec_script 3)) <= Args.lr args1.
Proof.
  assert (Hm : min_lr <= Args.lr args1) by (apply Qle_bool_iff; reflexivity).
  split; [exact Hm|].
  apply (reachable_lr_bounds args1 val1 dir1 _ s0 _ (run_reachable spec_script 3) Hm).
Defined.

Lemma reachable_stop_rule_witness :
  match run_phase spec_script 3 with
  | Running st => (trailing_nonimp (all_val_hit st) < 3)%nat
  | Converged st => trailing_nonimp (all_val_hit st) = 3%nat
  | Failed _ _ => True
  end.
Proof. apply (reachable_stop_rule args1 val1 dir1 _ s0 _ (run_reachable spec_script 3)). Defined.

Lemma reachable_decay_scenario_witness :
  all_val_hit (phase_state (run_phase spec_script 3)) =
    [Fin (-1); Fin (1 # 10); Fin (1 # 10); Fin (9 # 100)] /\
  (lr (phase_state (run_phase spec_script 3)) == Qmax (Args.lr args1 / 4) min_lr) /\
  early_stop_cn (phase_state (run_phase spec_script 3)) = 2%nat.
Proof.
  assert (Hh : all_val_hit (phase_state (run_phase spec_script 3)) =
                 [Fin (-1); Fin (1 # 10); Fin (1 # 10); Fin (9 # 100)])
    by (vm_compute; reflexivity).
  split; [exact Hh|].
  apply (reachable_decay_scenario args1 val1 dir1 _ s0 _ (1 # 10) (1 # 10) (9 # 100)
           (run_reachable spec_script 3) Hh);
    [unfold Qlt; simpl; lia | apply Qle_bool_iff; reflexivity | apply Qle_bool_iff; reflexivity].
Defined.

(** The run of spec §8 ends at the fourth evaluation with status 0. *)
Lemma main_exit_paths_witness :
  count_closed (out (start spec_script)) = 0%nat /\
  main args1 val1 dir1 10 (start spec_script) =
    (fst (main args1 val1 dir1 10 (start spec_script)),
     snd (main args1 val1 dir1 10 (start spec_script))) /\
  match fst (main_loop args1 val1 dir1 10 (snd (emit StartMsg (start spec_script)))) with
  | Ok Broke =>
      fst (main args1 val1 dir1 10 (start spec_script)) = Ok (Exited 0) /\
      count_closed (out (snd (main args1 val1 dir1 10 (start spec_script)))) = 1%nat
  | Ok OutOfFuel =>
      fst (main args1 val1 dir1 10 (start spec_script)) = Ok StillTraining /\
      count_closed (out (snd (main args1 val1 dir1 10 (start spec_script)))) = 0%nat
  | Raise e =>
      if is_Exception e then
        fst (main args1 val1 dir1 10 (start spec_script)) = Ok (Exited 1) /\
        count_closed (out (snd (main args1 val1 dir1 10 (start spec_script)))) = 1%nat
      else count_closed (out (snd (main args1 val1 dir1 10 (start spec_script)))) = 0%nat /\
           fst (main args1 val1 dir1 10 (start spec_script)) =
             match e with SystemExit c => Ok (Exited c) | _ => Raise e end
  end.
Proof.
  assert (H0 : count_closed (out (start spec_script)) = 0%nat) by reflexivity.
  assert (Hm : main args1 val1 dir1 10 (start spec_script) =
               (fst (main args1 val1 dir1 10 (start spec_script)),
                snd (main args1 val1 dir1 10 (start spec_script)))) by apply surjective_pairing.
  split; [exact H0|]. split; [exact Hm|].
  exact (main_exit_paths args1 val1 dir1 10 _ _ _ H0 Hm).
Defined.

(** A validation history that peaks at the first evaluation. *)
Definition drop_script (n : Z) : Q :=
  match n with 1%Z => 1 # 2 | 2%Z => 3 # 10 | 3%Z => 2 # 5 | _ => 0 end.

(** The checkpoint is not the best model seen.  Line 135 compares each
    validation hit with the previous one only, so after the hits
    [0.5, 0.3, 0.4] the controller, still running, has overwritten the
    checkpoint of the best model (0.5, after one update) with the model
    after three updates, whose hit is 0.4. *)
Lemma checkpoint_not_best :
  reachable args1 val1 dir1 (drop_script, 0%Z) s0 (run_phase drop_script 3) /\
  all_val_hit (phase_state (run_phase drop_script 3)) =
    [Fin (-1); Fin (1 # 2); Fin (3 # 10); Fin (2 # 5)] /\
  exists path p, checkpoint_file (out (phase_state (run_phase drop_script 3))) = Some (path, p) /\
    snd p = 3%Z /\ drop_script (snd p) < drop_script 1.
Proof.
  split; [apply run_reachable|]. split; [vm_compute; reflexivity|].
  exists (dir1 ++ "/model.ckpt")%string, (drop_script, 3%Z).
  split; [vm_compute; reflexivity|]. split; [reflexivity|]. unfold Qlt; simpl; lia.
Qed.

(** A validation score that alternates between 0.5 (odd update counts)
    and 0.25 (even ones). *)
Definition flip_script (n : Z) : Q := if Z.odd n then 1 # 2 else 1 # 4.
Definition lastv (n : Z) : pyfloat := if (n =? 0)%Z then Fin (-1) else Fin (flip_script n).
Definition cnv (n : Z) : nat := if (n =? 0)%Z then 0%nat else if Z.odd n then 0%nat else 1%nat.
(** The states of the alternating run: the last recorded hit and the
    counter are determined by the parity of the step. *)
Definition flip_inv (st : TrainState params (nat * bool)) : Prop :=
  (0 <= step_count st)%Z /\ sess st = (flip_script, step_count st) /\
  early_stop_cn st = cnv (step_count st) /\
  exists h, all_val_hit st = h ++ [lastv (step_count st)].
Lemma lastv_succ (n : Z) : (0 <= n)%Z ->
  lastv (n + 1) = Fin (if negb (Z.odd n) then 1 # 2 else 1 # 4).
Proof.
  intros Hn. unfold lastv, flip_script.
  rewrite (proj2 (Z.eqb_neq (n + 1) 0)) by lia. rewrite Z.odd_add. reflexivity.
Qed.

Lemma cnv_succ (n : Z) : (0 <= n)%Z ->
  cnv (n + 1) = if negb (Z.odd n) then 0%nat else 1%nat.
Proof.
  intros Hn. unfold cnv.
  rewrite (proj2 (Z.eqb_neq (n + 1) 0)) by lia. rewrite Z.odd_add. reflexivity.
Qed.

Lemma flip_iter st : flip_inv st ->
  exists st', iteration args1 val1 dir1 st = (Ok false, st') /\ flip_inv st'.
Proof.
  destruct st as [lr0 hist cn n loss p smp o]. intros (Hn & Hp & Hc & h & Hh). cbn in *. subst.
  unfold iteration. cbn -[Z.modulo flip_script lastv cnv nth_last].
  replace ((n + 1) mod 1)%Z with 0%Z by (symmetry; apply Z.mod_1_r).
  cbn -[Z.modulo flip_script lastv cnv nth_last].
  replace ((n + 1) mod 1)%Z with 0%Z by (symmetry; apply Z.mod_1_r).
  cbn -[flip_script lastv cnv nth_last].
  rewrite nth_last_snoc_1, nth_last_snoc_2, nth_last_snoc_1.
  pose proof (lastv_succ n Hn) as L1. pose proof (cnv_succ n Hn) as C1.
  unfold lastv at 1, cnv at 1, flip_script at 1.
  destruct (Z.eqb_spec n 0) as [->|Hn0]; [|destruct (Z.odd n) eqn:Eo;
    rewrite ?Z.odd_add, ?Eo; unfold flip_script; rewrite ?Z.odd_add, ?Eo]; cbn -[lastv cnv];
    (eexists; split; [reflexivity|]); unfold flip_inv; cbn -[lastv cnv];
    rewrite ?L1, ?C1, ?Eo; cbn;
    (split; [lia|]); (split; [reflexivity|]); (split; [reflexivity|]);
    eexists; reflexivity.
Qed.

(** C12: The controller need not stop.  With a validation hit alternating
    between 0.5 and 0.25, every other evaluation improves on its
    predecessor and resets the early-stop counter, which therefore never
    reaches 3: for every fuel bound the loop is still running (spec §9
    leaves this behaviour open). *)
Theorem flip_flop_never_stops (fuel : nat) :
  fst (run flip_script fuel) = Ok OutOfFuel.
Proof.
  unfold run. assert (H : flip_inv (start flip_script)).
  { split; [unfold start; simpl; lia|]. split; [reflexivity|]. split; [reflexivity|]. exists []; reflexivity. }
  revert H. generalize (start flip_script). induction fuel as [|f IH]; intros st Hi; [reflexivity|].
  destruct (flip_iter st Hi) as (st' & E & Hi'). simpl. rewrite E. apply IH, Hi'.
Qed.

(** The scripted model's loss is always 1: the first training line of
    the run of spec §8 prints the loss 1. *)
Lemma printed_loss_in_range_witness :
  (forall (p : params) b r d p' l, train_run p b r d = Ok (p', l) -> 1 <= l <= 1) /\
  (0 < Args.log_interval args1)%Z /\
  In (LogTrain 1 (1 # 1000) 1) (out (snd (main args1 val1 dir1 6 (start spec_script)))) /\
  1 <= 1 <= 1.
Proof.
  assert (Hl : forall (p : params) b r d p' l, train_run p b r d = Ok (p', l) -> 1 <= l <= 1).
  { intros p b r d p' l E. cbn in E. injection E as _ <-. split; apply Qle_refl. }
  assert (HL : (0 < Args.log_interval args1)%Z) by reflexivity.
  assert (Hin : In (LogTrain 1 (1 # 1000) 1) (out (snd (main args1 val1 dir1 6 (start spec_script))))).
  { apply (nth_error_In _ 1). vm_compute. reflexivity. }
  split; [exact Hl|]. split; [exact HL|]. split; [exact Hin|].
  exact (printed_loss_in_range args1 val1 dir1 6 (spec_script, 0%Z) s0 1 1 Hl HL _ _ _ Hin).
Defined.

(** [args1] with [--log_interval 0]. *)
Definition args_log0 : Args.t := {|
  Args.model := "tcn"; Args.batch_size := 128; Args.seq_len := 20;
  Args.dropout := 2 # 10; Args.l2_reg := 0; Args.clip := 1; Args.epochs := 20;
  Args.lr := 1 # 1000; Args.emsize := 100; Args.neg_size := 1; Args.worker := 10;
  Args.nhid := 100; Args.levels := 3; Args.seed := 1111; Args.loss := "ns";
  Args.data := "gowalla"; Args.log_interval := 0; Args.eval_interval := 1;
  Args.ksize := 3; Args.num_blocks := 3; Args.num_heads := 2; Args.pos_fixed := 0
|}%string%Z.

Lemma zero_log_interval_exit_witness :
  Args.log_interval args_log0 = 0%Z /\
  fst (main args_log0 val1 dir1 5 (start spec_script)) = Ok (Exited 1) /\
  exists pre, out (snd (main args_log0 val1 dir1 5 (start spec_script))) =
              pre ++ [ErrorMsg ZeroDivisionError; SamplerClosed].
Proof.
  split; [reflexivity|].
  apply (zero_log_interval_exit args_log0 val1 dir1 4 (start spec_script)
           (mkBatch [] [] [] []) (1%nat, false) (spec_script, 1%Z) 1); reflexivity.
Defined.

(** ** Validation batches without a scored target *)

Import ToyRanker.

(** The toy ranker on one batch of padding: every evaluation gives
    [nan]; after 30 passes the loop is still running and has written a
    checkpoint at each of the 30 evaluations. *)
Lemma no_target_never_stops_witness :
  [batch_pad] <> [] /\
  (forall p : list Z, qsum (map (targets_of p) (all_rows [batch_pad])) == 0) /\
  fst (main_loop args1 [batch_pad] dir1 30 (init_state args1 toy_p s0)) <> Ok Broke /\
  fst (main_loop args1 [batch_pad] dir1 30 (init_state args1 toy_p s0)) = Ok OutOfFuel /\
  count_saved (out (snd (main_loop args1 [batch_pad] dir1 30 (init_state args1 toy_p s0)))) = 30%nat.
Proof.
  assert (Hv : [batch_pad] <> []) by discriminate.
  assert (Hn : forall p : list Z, qsum (map (targets_of p) (all_rows [batch_pad])) == 0)
    by (intros p; reflexivity).
  split; [exact Hv|]. split; [exact Hn|].
  split; [exact (proj2 (no_target_never_stops args1 [batch_pad] dir1 Hv Hn) 30%nat
                   (init_state args1 toy_p s0))|].
  split; vm_compute; reflexivity.
Defined.
