(* ===== verification/Logging.v ===== *)
(** * Logging and timing: [time.time()], ms/batch and the printed lines

    [main] reads the wall clock four times (train.py lines 105, 119, 124
    and 146): [start_time] is set before the loop, every [log_interval]
    steps the time since [start_time] divided by [log_interval] is
    printed as ms/batch and [start_time] is read again, and after every
    evaluation that does not stop the loop [start_time] is read again.
    This file adds that clock to the controller of Controller.v:
    - [Clock] holds the number of [time.time()] calls made, [start_time]
      and the ms/batch values printed so far; [now st k] is what the
      [k]-th call returns in state [st] (a parameter: the wall clock is
      outside the program);
    - the timed controller runs on [TS * Clock]: the untimed blocks run
      on the first component ([on_ts]), the timed [log_block_t],
      [eval_block_t], [main_loop_t], [main_body_t] and [main_t] add the
      reads of the clock where the source has them;
    - [proj_eq] relates a timed computation to an untimed one; the lemma
      [main_timed_refines] shows that the timed [main] projects onto
      [main] for every clock, so every theorem about [main] holds of the
      program with its timing;
    - with a clock ([run_clock]) that advances by [c] per training step
      and by [ce] per evaluation, every printed ms/batch lies between
      [1000 * c / log_interval] and [1000 * c] whatever the intervals
      (C36), and is exactly [1000 * c] when [eval_interval] is a
      multiple of [log_interval] (C35): the reset of line 146 keeps the
      evaluations out of the window, and when an evaluation falls inside
      a window it shortens that window while line 121 still divides by
      [log_interval], so the value printed is too small. *)

From Stdlib Require Import List String ZArith QArith Lqa Lia.
From S2P Require Import Prelude Interfaces Config Evaluate Controller Scenarios.
Import ListNotations.

(** The timing state of [main]. *)
Record Clock : Type := mkClock {
  reads : nat;
  start_time : Q;
  ms_log : list Q
}.

Section Timed.
Context {P Smp : Type} `{RecModel P} `{BatchSource Smp}.

Abbreviation TS := (TrainState P Smp).
Abbreviation TT := (TS * Clock)%type.

(** [time.time()] in seconds: the [k]-th call in state [st] returns
    [now st k]. *)
Variable now : TS -> nat -> Q.

(** ** The timed program *)

(** An untimed statement, run on the controller's state. *)
Definition on_ts {A : Type} (c : PyM TS A) : PyM TT A :=
  fun s => let (r, st') := c (fst s) in (r, (st', snd s)).

Definition clock_get : PyM TT Clock := fun s => (Ok (snd s), s).

(** [time.time()]. *)
Definition time : PyM TT Q :=
  fun s => (Ok (now (fst s) (reads (snd s))),
            (fst s, mkClock (S (reads (snd s))) (start_time (snd s)) (ms_log (snd s)))).

(** [start_time = t]. *)
Definition set_start (t : Q) : PyM TT unit :=
  fun s => (Ok tt, (fst s, mkClock (reads (snd s)) t (ms_log (snd s)))).

(** The ms/batch value of the print of lines 120-121. *)
Definition print_ms (ms : Q) : PyM TT unit :=
  fun s => (Ok tt, (fst s, mkClock (reads (snd s)) (start_time (snd s)) (ms_log (snd s) ++ [ms]))).

(** Lines 117-124 with the clock: [elapsed = time.time() - start_time]
    (119), the print with [elapsed * 1000 / args.log_interval] (120-121;
    the [%] of line 117 succeeded, so [log_interval] is not 0 and the
    division cannot raise), the reset of the loss (123) and
    [start_time = time.time()] (124). *)
Definition log_block_t (args : Args.t) : PyM TT unit :=
  st <- on_ts get ;;
  m <- lift (py_mod (step_count st) (Args.log_interval args)) ;;
  if (m =? 0)%Z then
    cur_loss <- lift (py_truediv (train_loss_l st) (inject_Z (Args.log_interval args))) ;;
    tm <- clock_get ;;
    t <- time ;;
    on_ts (emit (LogTrain (step_count st) (lr st) cur_loss)) ;;
    print_ms ((t - start_time tm) * 1000 / inject_Z (Args.log_interval args)) ;;
    on_ts (modify (set_train_loss_l 0)) ;;
    t' <- time ;;
    set_start t'
  else ret tt.

(** Lines 126-146 with the clock: the untimed evaluation block, then
    [start_time = time.time()] (146) when the block ran ([step_count] is
    a multiple of [eval_interval]; the block leaves [step_count] as it
    is) and did not break. *)
Definition eval_block_t (args : Args.t) (val_data : list EvalBatch) (checkpoint_dir : string)
    : PyM TT bool :=
  brk <- on_ts (eval_block args val_data checkpoint_dir) ;;
  st <- on_ts get ;;
  if negb brk && (step_count st mod Args.eval_interval args =? 0)%Z then
    t <- time ;; set_start t ;; ret brk
  else ret brk.

Definition iteration_t (args : Args.t) (val_data : list EvalBatch) (checkpoint_dir : string)
    : PyM TT bool :=
  cur_batch <- on_ts fetch_batch ;;
  on_ts (train_step args cur_batch) ;;
  log_block_t args ;;
  eval_block_t args val_data checkpoint_dir.

Fixpoint main_loop_t (args : Args.t) (val_data : list EvalBatch) (checkpoint_dir : string)
    (fuel : nat) : PyM TT loop_exit :=
  match fuel with
  | O => ret OutOfFuel
  | S fuel' =>
      brk <- iteration_t args val_data checkpoint_dir ;;
      if brk then ret Broke else main_loop_t args val_data checkpoint_dir fuel'
  end.

(** Lines 105-152: [start_time = time.time()] (105), then the body of
    [main_body] with the timed loop. *)
Definition main_body_t (args : Args.t) (val_data : list EvalBatch) (checkpoint_dir : string)
    (fuel : nat) : PyM TT outcome :=
  t <- time ;;
  set_start t ;;
  on_ts (emit StartMsg) ;;
  x <- try_except (main_loop_t args val_data checkpoint_dir fuel)
         (fun e => on_ts (emit (ErrorMsg e) ;; close_sampler ;; raise (SystemExit 1))) ;;
  on_ts (match x with
         | Broke => close_sampler ;; emit DoneMsg ;; ret (Exited 0)
         | OutOfFuel => ret StillTraining
         end).

Definition main_t (args : Args.t) (val_data : list EvalBatch) (checkpoint_dir : string)
    (fuel : nat) : PyM TT outcome :=
  fun s =>
    match main_body_t args val_data checkpoint_dir fuel s with
    | (Raise (SystemExit code), s') => (Ok (Exited code), s')
    | r => r
    end.

(** ** Projection onto the untimed program *)

(** [ct] behaves as [c] on the controller's state, whatever the clock. *)
Definition proj_eq {A : Type} (ct : PyM TT A) (c : PyM TS A) : Prop :=
  forall s, fst (ct s) = fst (c (fst s)) /\ fst (snd (ct s)) = snd (c (fst s)).

(** [ct] touches only the clock and returns. *)
Definition clock_only {A : Type} (ct : PyM TT A) : Prop :=
  forall s, fst (snd (ct s)) = fst s /\ exists a, fst (ct s) = Ok a.

Lemma proj_on_ts {A : Type} (c : PyM TS A) : proj_eq (on_ts c) c.
Proof. intros [st tm]. unfold on_ts. cbn. now destruct (c st). Qed.

Lemma proj_lift {A : Type} (r : res A) : proj_eq (lift r) (lift r).
Proof. now intros [st tm]. Qed.

Lemma proj_ret {A : Type} (a : A) : proj_eq (ret a) (ret a).
Proof. now intros [st tm]. Qed.

Lemma proj_bind {A B : Type} (ct : PyM TT A) (c : PyM TS A) (kt : A -> PyM TT B) (k : A -> PyM TS B) :
  proj_eq ct c -> (forall a, proj_eq (kt a) (k a)) -> proj_eq (bind ct kt) (bind c k).
Proof.
  intros Hc Hk s. cbn. specialize (Hc s).
  destruct (ct s) as [[a|e] s'], (c (fst s)) as [[a'|e'] st']; cbn in *;
    destruct Hc as [Hr Hs]; try discriminate; subst.
  - injection Hr as <-. apply Hk.
  - injection Hr as <-. auto.
Qed.

Lemma proj_bind_clock {A B : Type} (ct : PyM TT A) (kt : A -> PyM TT B) (c : PyM TS B) :
  clock_only ct -> (forall a, proj_eq (kt a) c) -> proj_eq (bind ct kt) c.
Proof.
  intros Hc Hk s. cbn. destruct (Hc s) as [Hs [a Ha]].
  destruct (ct s) as [r s']. cbn in *. subst r. rewrite <- Hs. apply Hk.
Qed.

Lemma proj_try {A : Type} (ct : PyM TT A) (c : PyM TS A) (ht : exn -> PyM TT A) (h : exn -> PyM TS A) :
  proj_eq ct c -> (forall e, proj_eq (ht e) (h e)) -> proj_eq (try_except ct ht) (try_except c h).
Proof.
  intros Hc Hh s. unfold try_except. specialize (Hc s).
  destruct (ct s) as [[a|e] s'], (c (fst s)) as [[a'|e'] st']; cbn in *;
    destruct Hc as [Hr Hs]; try discriminate; subst.
  - injection Hr as <-. auto.
  - injection Hr as <-. destruct (is_Exception e); [apply Hh|auto].
Qed.

(** Pointwise equal untimed computations have the same timed
    refinements. *)
Lemma proj_ext {A : Type} (ct : PyM TT A) (c c' : PyM TS A) :
  (forall st, c st = c' st) -> proj_eq ct c' -> proj_eq ct c.
Proof. intros He Hp s. rewrite He. apply Hp. Qed.

Lemma clock_only_get : clock_only clock_get.
Proof. intros s. split; [reflexivity|eexists; reflexivity]. Qed.

Lemma clock_only_time : clock_only time.
Proof. intros s. split; [reflexivity|eexists; reflexivity]. Qed.

Lemma clock_only_set_start (t : Q) : clock_only (set_start t).
Proof. intros s. split; [reflexivity|eexists; reflexivity]. Qed.

Lemma clock_only_print_ms (ms : Q) : clock_only (print_ms ms).
Proof. intros s. split; [reflexivity|eexists; reflexivity]. Qed.

Lemma proj_set_start (t : Q) : proj_eq (set_start t) (ret tt).
Proof. now intros [st tm]. Qed.

(** One step of a projection proof: a clock statement is skipped, an
    untimed one is matched with its counterpart. *)
Ltac proj_step :=
  first
  [ apply proj_on_ts | apply proj_lift | apply proj_ret | apply proj_set_start
  | apply proj_bind_clock;
      [first [apply clock_only_get | apply clock_only_time | apply clock_only_set_start
             | apply clock_only_print_ms] | intros ?]
  | apply proj_bind; [|intros ?] ].

(** A statement that returns [tt] followed by nothing. *)
Lemma bind_ret_tt {S : Type} (c : PyM S unit) (st : S) : c st = (x <- c ;; ret tt) st.
Proof. cbn. destruct (c st) as [[[]|e] st']; reflexivity. Qed.

Lemma log_block_proj (args : Args.t) : proj_eq (log_block_t args) (log_block args).
Proof.
  unfold log_block_t, log_block.
  repeat first [proj_step | match goal with |- proj_eq (if ?b then _ else _) _ => destruct b end].
  eapply proj_ext; [intros; apply bind_ret_tt|]. repeat proj_step.
Qed.

(** The step counter is unchanged. *)
Definition same_step (s s' : TS) : Prop := step_count s' = step_count s.

#[export] Instance same_step_PreOrder : PreOrder same_step.
Proof. split; [intros s; reflexivity|intros s1 s2 s3 H1 H2; unfold same_step in *; congruence]. Qed.

Lemma emit_same_step (e : event P) : preserves same_step (emit e).
Proof. intros st. reflexivity. Qed.

(** [eval_block] leaves [step_count] as it is. *)
Lemma eval_block_step_count (args : Args.t) (vd : list EvalBatch) (cd : string) (st : TS) :
  step_count (snd (eval_block args vd cd st)) = step_count st.
Proof.
  assert (Hp : preserves same_step (eval_block args vd cd)).
  { unfold eval_block, decide_block.
    pym_preserve; try apply emit_same_step; reflexivity. }
  exact (Hp st).
Qed.

Lemma bind_get_ret {S A : Type} (c : PyM S A) (st : S) :
  c st = (x <- c ;; _ <- get ;; ret x) st.
Proof. cbn. destruct (c st) as [[a|e] st']; reflexivity. Qed.

(** Split the goal at an [if] or a [match] on a loop exit. *)
Ltac proj_case :=
  match goal with
  | |- proj_eq (if ?b then _ else _) _ => destruct b
  | |- proj_eq (match ?x with Broke => _ | OutOfFuel => _ end) _ => destruct x
  end.

Lemma eval_block_proj (args : Args.t) (vd : list EvalBatch) (cd : string) :
  proj_eq (eval_block_t args vd cd) (eval_block args vd cd).
Proof.
  eapply proj_ext; [intros; apply bind_get_ret|]. unfold eval_block_t.
  repeat first [proj_step | proj_case].
Qed.

Lemma iteration_proj (args : Args.t) (vd : list EvalBatch) (cd : string) :
  proj_eq (iteration_t args vd cd) (iteration args vd cd).
Proof.
  unfold iteration_t, iteration.
  apply proj_bind; [apply proj_on_ts|intros b]. apply proj_bind; [apply proj_on_ts|intros _].
  apply proj_bind; [apply log_block_proj|intros _]. apply eval_block_proj.
Qed.

Lemma main_loop_proj (args : Args.t) (vd : list EvalBatch) (cd : string) (fuel : nat) :
  proj_eq (main_loop_t args vd cd fuel) (main_loop args vd cd fuel).
Proof.
  induction fuel as [|fuel IH]; cbn [main_loop_t main_loop]; [apply proj_ret|].
  apply proj_bind; [apply iteration_proj|]. intros [|]; [apply proj_ret|exact IH].
Qed.

Lemma main_body_proj (args : Args.t) (vd : list EvalBatch) (cd : string) (fuel : nat) :
  proj_eq (main_body_t args vd cd fuel) (main_body args vd cd fuel).
Proof.
  unfold main_body_t, main_body. proj_step. proj_step.
  apply proj_bind; [apply proj_on_ts|intros _].
  apply proj_bind; [|intros x; apply proj_on_ts].
  apply proj_try; [apply main_loop_proj|intros e; apply proj_on_ts].
Qed.

(** Adding the clock does not change the program: for every clock
    and every initial [start_time], the timed [main] (with the reads of
    [time.time()] of lines 105, 119, 124 and 146 and the ms/batch
    prints) returns what [main] returns and leaves the controller's
    state (its output included) as [main] leaves it.  The theorems about
    [main] hold of the program with its timing. *)
Lemma main_timed_refines (args : Args.t) (vd : list EvalBatch) (cd : string) (fuel : nat)
    (st : TS) (tm : Clock) :
  fst (main_t args vd cd fuel (st, tm)) = fst (main args vd cd fuel st) /\
  fst (snd (main_t args vd cd fuel (st, tm))) = snd (main args vd cd fuel st).
Proof.
  unfold main_t, main. destruct (main_body_proj args vd cd fuel (st, tm)) as [Hr Hs].
  cbn [fst] in Hr, Hs. destruct (main_body_t args vd cd fuel (st, tm)) as [r s'], (main_body args vd cd fuel st) as [r' st'].
  cbn in Hr, Hs |- *. subst r' st'. destruct r as [a|[]]; cbn; auto.
Qed.

(** [exit(code)] caught by [main_t] leaves the state as it is. *)
Lemma main_t_state (args : Args.t) (vd : list EvalBatch) (cd : string) (fuel : nat) (s : TT) :
  snd (main_t args vd cd fuel s) = snd (main_body_t args vd cd fuel s).
Proof.
  unfold main_t. destruct (main_body_t _ _ _ _ s) as [[a|e] s']; [|destruct e]; reflexivity.
Qed.

End Timed.

(** ** ms/batch under a clock that advances with the training steps and the evaluations *)

(** [x] is a multiple of [L]: [x - x mod L]. *)
Lemma floor_prev_multiple (n L : Z) :
  (0 < L)%Z -> (1 <= n)%Z ->
  ((n - 1) - (n - 1) mod L = if (n mod L =? 0)%Z then n - L else n - n mod L)%Z.
Proof.
  intros HL Hn. pose proof (Z.div_mod n L ltac:(lia)) as Hd. pose proof (Z.mod_pos_bound n L HL) as Hb.
  destruct (Z.eqb_spec (n mod L) 0) as [H0|H0].
  - rewrite <- (Z.mod_unique (n - 1) L (n / L - 1) (L - 1)); lia.
  - rewrite <- (Z.mod_unique (n - 1) L (n / L) (n mod L - 1)); lia.
Qed.

Lemma mod_multiple (n L E : Z) :
  (0 < L)%Z -> (E mod L = 0)%Z -> E <> 0%Z -> (n mod E = 0)%Z -> (n mod L = 0)%Z.
Proof.
  intros HL HE HE0 Hn. apply Z.mod_divide in HE; [|lia]. apply Z.mod_divide in Hn; [|lia].
  apply Z.mod_divide; [lia|]. eapply Z.divide_trans; eassumption.
Qed.

(** A window of [k] steps out of [L], [1 <= k <= L], at [c >= 0] seconds
    per step: its ms/batch value lies between [1000 * c / L] and
    [1000 * c]. *)
Lemma window_bounds (c : Q) (k L : Z) :
  (0 < L)%Z -> 0 <= c -> (1 <= k <= L)%Z ->
  1000 * c / inject_Z L <= c * inject_Z k * 1000 / inject_Z L <= 1000 * c.
Proof.
  intros HL Hc Hk.
  assert (HLq : 0 < inject_Z L) by (change 0 with (inject_Z 0); rewrite <- Zlt_Qlt; lia).
  assert (Hk1 : 1 <= inject_Z k) by (change 1 with (inject_Z 1); rewrite <- Zle_Qle; lia).
  assert (HkL : inject_Z k <= inject_Z L) by (rewrite <- Zle_Qle; lia).
  split.
  - unfold Qdiv. apply Qmult_le_compat_r; [nra|]. apply Qinv_le_0_compat. lra.
  - apply Qle_shift_div_r; [exact HLq|]. nra.
Qed.

Section RunClock.
Context {P Smp : Type} `{RecModel P} `{BatchSource Smp}.

(** Every training step takes [c] seconds and every evaluation [ce]
    seconds: the clock reads [c] times the steps taken plus [ce] times the
    values recorded in [all_val_hit] (one per evaluation, after the
    sentinel), plus [t0]. *)
Variables c ce t0 : Q.

Definition eval_time (st : TrainState P Smp) : Q := ce * inject_Z (Z.of_nat (List.length (all_val_hit st))).

Definition run_clock (st : TrainState P Smp) (_ : nat) : Q := c * inject_Z (step_count st) + eval_time st + t0.

Variable args : Args.t.
Hypothesis log_pos : (0 < Args.log_interval args)%Z.

Abbreviation L := (Args.log_interval args).
Abbreviation E := (Args.eval_interval args).
Abbreviation TT := (TrainState P Smp * Clock)%type.

(** What is shown of each printed ms/batch value.  A value printed at a
    step [n] is [c * k * 1000 / L] for the window [k = n - r] of steps
    since [start_time] was read after step [r]: [1 <= k <= L], and [k = L]
    when [eval_interval] is a multiple of [log_interval]; [ms_ok] is any
    property of the printed value that such windows give. *)
Variable ms_ok : Q -> Prop.
Hypothesis ms_ok_Qeq : forall x y, x == y -> ms_ok x -> ms_ok y.
Hypothesis ms_ok_window : forall k : Z, (1 <= k <= L)%Z -> ((E mod L = 0)%Z -> k = L) ->
  ms_ok (c * inject_Z k * 1000 / inject_Z L).

Definition good_log (s : TT) : Prop := Forall ms_ok (ms_log (snd s)).

(** [start_time] was read after step [r], at or after the last multiple
    of [log_interval] up to [n]; at that multiple when [eval_interval] is
    a multiple of [log_interval]. *)
Definition reset_at (n r : Z) : Prop :=
  (n - n mod L <= r <= n)%Z /\ ((E mod L = 0)%Z -> r = (n - n mod L)%Z).

(** At the head of the loop: [start_time] is the clock after some step
    [r] that [reset_at] allows, with the evaluations made so far. *)
Definition clock_inv (s : TT) : Prop :=
  (exists r, start_time (snd s) == c * inject_Z r + eval_time (fst s) + t0 /\
             reset_at (step_count (fst s)) r) /\
  good_log s /\ (0 <= step_count (fst s))%Z.

Lemma on_ts_state {A : Type} (k : PyM (TrainState P Smp) A) (s : TT) :
  on_ts k s = (fst (k (fst s)), (snd (k (fst s)), snd s)).
Proof. unfold on_ts. now destruct (k (fst s)). Qed.

Lemma L_nonzero : (L =? 0)%Z = false.
Proof. apply Z.eqb_neq. lia. Qed.

Lemma L_Q_nonzero : Qeq_bool (inject_Z L) 0 = false.
Proof.
  destruct (Qeq_bool _ _) eqn:Eq; [|reflexivity].
  apply Qeq_bool_eq in Eq. unfold Qeq in Eq. cbn in Eq. lia.
Qed.

(** The clock read at step [n] minus the one read at [r], times 1000 over
    [L]: the window's value. *)
Lemma window_value (st : TrainState P Smp) (r : Z) :
  (run_clock st 0 - (c * inject_Z r + eval_time st + t0)) * 1000 / inject_Z L ==
  c * inject_Z (step_count st - r) * 1000 / inject_Z L.
Proof.
  unfold run_clock. replace (step_count st - r)%Z with (step_count st + - r)%Z by lia.
  rewrite inject_Z_plus, inject_Z_opp. field.
  intros HL. unfold Qeq in HL. cbn in HL. lia.
Qed.

(** Lines 117-124 at step [n >= 1], [start_time] read after a step that
    [reset_at (n - 1)] allows: the block returns, prints a value of the
    window if it prints, and leaves [start_time] as [reset_at n] allows. *)
Lemma log_block_t_clock (s : TT) (r : Z) :
  (1 <= step_count (fst s))%Z ->
  start_time (snd s) == c * inject_Z r + eval_time (fst s) + t0 ->
  reset_at (step_count (fst s) - 1) r ->
  good_log s ->
  fst (log_block_t run_clock args s) = Ok tt /\ clock_inv (snd (log_block_t run_clock args s)).
Proof.
  destruct s as [st tm]. cbn [fst snd]. intros Hn Hs [Hr He] Hg.
  rewrite (floor_prev_multiple _ _ log_pos Hn) in Hr, He.
  unfold log_block_t. cbn. unfold py_mod, py_truediv. rewrite L_nonzero. cbn.
  destruct (Z.eqb_spec (step_count st mod L) 0) as [Hm|Hm]; cbn.
  - rewrite L_Q_nonzero. cbn. split; [reflexivity|]. unfold clock_inv, good_log; cbn.
    split; [|split; [|lia]].
    + exists (step_count st). split; [reflexivity|]. split; [lia|intros; lia].
    + apply Forall_app. split; [exact Hg|]. constructor; [|constructor].
      apply (ms_ok_Qeq (c * inject_Z (step_count st - r) * 1000 / inject_Z L)).
      * rewrite Hs. symmetry. exact (window_value st r).
      * apply ms_ok_window; [lia|]. intros HE. specialize (He HE). lia.
  - split; [reflexivity|]. unfold clock_inv, good_log; cbn.
    split; [exists r; split; [exact Hs|]|split; [exact Hg|lia]].
    split; [lia|]. intros HE. specialize (He HE). lia.
Qed.

Lemma eval_block_ok_interval (vd : list EvalBatch) (cd : string) (st : TrainState P Smp) (b : bool) :
  fst (eval_block args vd cd st) = Ok b -> Args.eval_interval args <> 0%Z.
Proof.
  intros Hb HE. unfold eval_block in Hb. cbn in Hb. unfold py_mod in Hb. rewrite HE in Hb.
  discriminate Hb.
Qed.

Definition same_hist (s s' : TrainState P Smp) : Prop := all_val_hit s' = all_val_hit s.

#[local] Instance same_hist_preorder : PreOrder same_hist.
Proof. split; [intros s; reflexivity|intros s1 s2 s3 H1 H2; unfold same_hist in *; congruence]. Qed.

Lemma decide_block_hist (cd : string) : preserves same_hist (decide_block cd : PyM (TrainState P Smp) unit).
Proof. unfold decide_block. pym_preserve; try intros ?; reflexivity. Qed.

(** [eval_block] records one value when it evaluates and leaves the
    state as it is when [step_count] is not a multiple of
    [eval_interval]. *)
Lemma eval_block_hist (vd : list EvalBatch) (cd : string) (st st' : TrainState P Smp) (b : bool) :
  eval_block args vd cd st = (Ok b, st') ->
  if (step_count st mod Args.eval_interval args =? 0)%Z
  then exists h, all_val_hit st' = all_val_hit st ++ [h] else st' = st.
Proof.
  unfold eval_block. cbn -[decide_block evaluate]. unfold py_mod.
  destruct (Args.eval_interval args =? 0)%Z; cbn -[decide_block evaluate]; [discriminate|].
  destruct (step_count st mod Args.eval_interval args =? 0)%Z; cbn -[decide_block evaluate];
    [|now injection 1 as _ <-].
  destruct (evaluate vd (sess st)) as [[vh vn]|ex]; cbn -[decide_block]; [|discriminate].
  match goal with |- context [decide_block cd ?s1] =>
    pose proof (decide_block_hist cd s1) as Hd; destruct (decide_block cd s1) as [[[]|ex] s2] end;
    cbn; [|discriminate].
  unfold same_hist in Hd. cbn in Hd.
  destruct (Nat.eqb (early_stop_cn s2) 3); injection 1 as _ <-; exists vh; exact Hd.
Qed.

(** Lines 126-146: the block keeps the invariant when the loop goes on,
    and the ms/batch printed so far on every path: an evaluation that
    does not break is followed by the reset of line 146 ([r = n]). *)
Lemma eval_block_t_clock (vd : list EvalBatch) (cd : string) (s : TT) :
  clock_inv s ->
  good_log (snd (eval_block_t run_clock args vd cd s)) /\
  (fst (eval_block_t run_clock args vd cd s) = Ok false ->
   clock_inv (snd (eval_block_t run_clock args vd cd s))).
Proof.
  destruct s as [st tm]. intros [[r [Hs Hr]] [Hg Hn]].
  pose proof (eval_block_step_count args vd cd st) as Hsc.
  pose proof (eval_block_ok_interval vd cd st) as HE.
  unfold eval_block_t. cbn [bind Monad_PyM]. rewrite on_ts_state. cbn [fst snd].
  destruct (eval_block args vd cd st) as [[b|e] st'] eqn:Eb; cbn [fst snd] in *;
    [|split; [exact Hg|discriminate]].
  specialize (HE b eq_refl). pose proof (eval_block_hist vd cd st st' b Eb) as Hh. cbn. rewrite Hsc.
  destruct (negb b && (step_count st mod Args.eval_interval args =? 0))%Z eqn:Hc; cbn;
    (split; [exact Hg|intros Hb; injection Hb as ->]);
    (split; [|split; [exact Hg|cbn [fst]; lia]]); cbn [fst snd start_time]; rewrite ?Hsc.
  - apply andb_prop in Hc as [_ Hc]. apply Z.eqb_eq in Hc.
    exists (step_count st). split; [unfold run_clock; now rewrite Hsc|].
    split; [pose proof (Z.mod_pos_bound (step_count st) L log_pos); lia|].
    intros HEL. rewrite (mod_multiple _ _ _ log_pos HEL HE Hc). lia.
  - cbn in Hc. rewrite Hc in Hh. rewrite Hh. exists r. split; [exact Hs|exact Hr].
Qed.

Lemma bind_PyM_raise {S A B : Type} (m : PyM S A) (k : A -> PyM S B) (s s1 : S) (e : exn) :
  m s = (Raise e, s1) -> bind m k s = (Raise e, s1).
Proof. intros Hc. cbn. now rewrite Hc. Qed.

Lemma fetch_batch_step (st : TrainState P Smp) :
  step_count (snd (fetch_batch st)) = step_count st /\ all_val_hit (snd (fetch_batch st)) = all_val_hit st.
Proof. unfold fetch_batch. now destruct (next_batch (train_sampler st)) as [[b s']|e]. Qed.

Lemma train_step_step (a : Args.t) (b : Batch) (st st' : TrainState P Smp) :
  train_step a b st = (Ok tt, st') ->
  step_count st' = (step_count st + 1)%Z /\ all_val_hit st' = all_val_hit st.
Proof.
  unfold train_step. cbn. destruct (train_run _ _ _ _) as [[p l]|e]; cbn; [|discriminate].
  now injection 1 as <-.
Qed.

(** One pass of the loop keeps the invariant when the loop goes on, and
    the ms/batch printed so far on every path. *)
Lemma iteration_t_clock (vd : list EvalBatch) (cd : string) (s : TT) :
  clock_inv s ->
  good_log (snd (iteration_t run_clock args vd cd s)) /\
  (fst (iteration_t run_clock args vd cd s) = Ok false ->
   clock_inv (snd (iteration_t run_clock args vd cd s))).
Proof.
  destruct s as [st tm]. intros [[r [Hs Hr]] [Hg Hn]]. cbn [fst snd] in Hs, Hr, Hn. unfold iteration_t.
  pose proof (fetch_batch_step st) as [Hf Hfh].
  destruct (fetch_batch st) as [[b|e] st1] eqn:Ef.
  2: { rewrite (bind_PyM_raise _ _ _ (st1, tm) e); [split; [exact Hg|discriminate]|].
       unfold on_ts. cbn. now rewrite Ef. }
  rewrite (bind_PyM_step _ _ _ (st1, tm) b); [|unfold on_ts; cbn; now rewrite Ef].
  cbv beta. cbn [snd] in Hf, Hfh.
  destruct (train_step args b st1) as [[[]|e] st2] eqn:Et.
  2: { rewrite (bind_PyM_raise _ _ _ (st2, tm) e); [split; [exact Hg|discriminate]|].
       unfold on_ts. cbn [fst snd]. now rewrite Et. }
  rewrite (bind_PyM_step _ _ _ (st2, tm) tt); [|unfold on_ts; cbn [fst snd]; now rewrite Et].
  cbv beta. apply train_step_step in Et as [Et Eth].
  destruct (log_block_t_clock (st2, tm) r) as [Hl Hi]; cbn [fst snd];
    [rewrite Et, Hf; lia|unfold eval_time; rewrite Eth, Hfh; exact Hs
    |rewrite Et, Hf; now replace (step_count st + 1 - 1)%Z with (step_count st) by lia|exact Hg|].
  destruct (log_block_t run_clock args (st2, tm)) as [r3 s3] eqn:El. cbn in Hl. subst r3.
  rewrite (bind_PyM_step _ _ _ s3 tt El). exact (eval_block_t_clock vd cd s3 Hi).
Qed.

Lemma main_loop_t_clock (vd : list EvalBatch) (cd : string) (fuel : nat) (s : TT) :
  clock_inv s -> good_log (snd (main_loop_t run_clock args vd cd fuel s)).
Proof.
  revert s. induction fuel as [|fuel IH]; intros s Hi; cbn [main_loop_t]; [exact (proj1 (proj2 Hi))|].
  destruct (iteration_t_clock vd cd s Hi) as [Hg Hc].
  destruct (iteration_t run_clock args vd cd s) as [[[|]|e] s1] eqn:Eit; cbn in Hg, Hc.
  - rewrite (bind_PyM_step _ _ _ s1 true Eit). exact Hg.
  - rewrite (bind_PyM_step _ _ _ s1 false Eit). exact (IH s1 (Hc eq_refl)).
  - rewrite (bind_PyM_raise _ _ _ s1 e Eit). exact Hg.
Qed.

Lemma keeps_on_ts {A : Type} (k : PyM (TrainState P Smp) A) : keeps good_log (on_ts k).
Proof. intros s Hs. unfold good_log. rewrite on_ts_state. exact Hs. Qed.

Lemma keeps_clock_inv_on_ts {A : Type} (k : PyM (TrainState P Smp) A) :
  preserves same_step k -> preserves same_hist k -> keeps clock_inv (on_ts k).
Proof.
  intros Hk Hh s Hs. specialize (Hk (fst s)). specialize (Hh (fst s)). unfold same_step, same_hist in *.
  unfold clock_inv, eval_time. rewrite on_ts_state. cbn [fst snd]. rewrite Hk, Hh. exact Hs.
Qed.

Lemma good_log_bind {A B : Type} (m : PyM TT A) (k : A -> PyM TT B) (s : TT) :
  good_log (snd (m s)) -> (forall a, keeps good_log (k a)) -> good_log (snd (bind m k s)).
Proof. intros Hm Hk. cbn. destruct (m s) as [[a|e] s']; [apply Hk|]; exact Hm. Qed.

Lemma good_log_try {A : Type} (m : PyM TT A) (h : exn -> PyM TT A) (s : TT) :
  good_log (snd (m s)) -> (forall e, keeps good_log (h e)) -> good_log (snd (try_except m h s)).
Proof.
  intros Hm Hh. unfold try_except. destruct (m s) as [[a|e] s']; [exact Hm|].
  destruct (is_Exception e); [apply Hh|]; exact Hm.
Qed.

(** From step 0, every value printed by the timed [main], on every path
    and for any number of passes, is one of a window. *)
Lemma main_t_windows (vd : list EvalBatch) (cd : string) (fuel : nat)
    (st : TrainState P Smp) (tm : Clock) :
  step_count st = 0%Z -> Forall ms_ok (ms_log tm) ->
  Forall ms_ok (ms_log (snd (snd (main_t run_clock args vd cd fuel (st, tm))))).
Proof.
  intros Hz Hg. change (good_log (snd (main_t run_clock args vd cd fuel (st, tm)))).
  rewrite main_t_state. unfold main_body_t.
  rewrite (bind_PyM_step _ _ _ (st, mkClock (S (reads tm)) (start_time tm) (ms_log tm))
             (run_clock st (reads tm))) by reflexivity. cbv beta.
  rewrite (bind_PyM_step _ _ _ (st, mkClock (S (reads tm)) (run_clock st (reads tm)) (ms_log tm))
             tt) by reflexivity. cbv beta.
  assert (Hi : clock_inv (st, mkClock (S (reads tm)) (run_clock st (reads tm)) (ms_log tm))).
  { unfold clock_inv, run_clock. cbn [fst snd start_time]. rewrite Hz.
    split; [exists 0%Z; split; [reflexivity|]|split; [exact Hg|lia]].
    unfold reset_at. rewrite Zmod_0_l. split; [lia|reflexivity]. }
  apply (keeps_clock_inv_on_ts _ (emit_same_step StartMsg) (fun st => eq_refl)) in Hi.
  destruct (on_ts (emit StartMsg) _) as [[[]|e] s3] eqn:E3; cbn [snd] in Hi.
  2: { rewrite (bind_PyM_raise _ _ _ _ _ E3). exact (proj1 (proj2 Hi)). }
  rewrite (bind_PyM_step _ _ _ _ _ E3). cbv beta.
  apply good_log_bind; [apply good_log_try|intros x; apply keeps_on_ts].
  - exact (main_loop_t_clock vd cd fuel s3 Hi).
  - intros e. apply keeps_on_ts.
Qed.

End RunClock.

(** C35: When [eval_interval] is a multiple of [log_interval], every
    training step takes [c] seconds and every evaluation [ce] seconds,
    every ms/batch value the program prints (lines 120-121), on every
    path and for any number of passes, is exactly [1000 * c]: the window
    of line 119 always spans [log_interval] steps and, thanks to the
    reset of line 146, no evaluation. *)
Theorem ms_per_batch_exact {P Smp : Type} `{RecModel P} `{BatchSource Smp} (c ce t0 : Q)
    (args : Args.t) (vd : list EvalBatch) (cd : string) (fuel : nat)
    (st : TrainState P Smp) (tm : Clock) :
  (0 < Args.log_interval args)%Z ->
  (Args.eval_interval args mod Args.log_interval args = 0)%Z ->
  step_count st = 0%Z ->
  Forall (fun ms => ms == 1000 * c) (ms_log tm) ->
  Forall (fun ms => ms == 1000 * c) (ms_log (snd (snd (main_t (run_clock c ce t0) args vd cd fuel (st, tm))))).
Proof.
  intros HL HE. apply main_t_windows; [exact HL| |].
  - intros x y Hxy Hx. now rewrite <- Hxy.
  - intros k Hk Hkl. rewrite (Hkl HE). field. intros Hc. unfold Qeq in Hc. cbn in Hc. lia.
Qed.

(** C36: Whatever [log_interval] and [eval_interval] are, with every
    training step taking [c >= 0] seconds and every evaluation [ce],
    every ms/batch value printed, on every path and for any number of
    passes, lies between [1000 * c / log_interval] and [1000 * c]: the
    window of line 119 spans between one and [log_interval] steps and
    never an evaluation (the resets of lines 124 and 146).  When an
    evaluation falls strictly inside a logging window, the reset of
    line 146 shortens the window while line 121 still divides by
    [log_interval], so the value printed is below the real [1000 * c]. *)
Theorem ms_per_batch_bounded {P Smp : Type} `{RecModel P} `{BatchSource Smp} (c ce t0 : Q)
    (args : Args.t) (vd : list EvalBatch) (cd : string) (fuel : nat)
    (st : TrainState P Smp) (tm : Clock) :
  (0 < Args.log_interval args)%Z -> 0 <= c ->
  step_count st = 0%Z ->
  Forall (fun ms => 1000 * c / inject_Z (Args.log_interval args) <= ms <= 1000 * c) (ms_log tm) ->
  Forall (fun ms => 1000 * c / inject_Z (Args.log_interval args) <= ms <= 1000 * c)
    (ms_log (snd (snd (main_t (run_clock c ce t0) args vd cd fuel (st, tm))))).
Proof.
  intros HL Hc. apply main_t_windows; [exact HL| |].
  - intros x y Hxy Hx. now rewrite <- Hxy.
  - intros k Hk _. apply window_bounds; assumption.
Qed.

(** ** Runs of the timed program on the scripted model of Scenarios.v *)
Module TimedRuns.
Import Scripted.

(** [args1] with other [log_interval] and [eval_interval]. *)
Definition with_intervals (a : Args.t) (l e : Z) : Args.t := {|
  Args.model := Args.model a; Args.batch_size := Args.batch_size a;
  Args.seq_len := Args.seq_len a; Args.dropout := Args.dropout a;
  Args.l2_reg := Args.l2_reg a; Args.clip := Args.clip a; Args.epochs := Args.epochs a;
  Args.lr := Args.lr a; Args.emsize := Args.emsize a; Args.neg_size := Args.neg_size a;
  Args.worker := Args.worker a; Args.nhid := Args.nhid a; Args.levels := Args.levels a;
  Args.seed := Args.seed a; Args.loss := Args.loss a; Args.data := Args.data a;
  Args.log_interval := l; Args.eval_interval := e; Args.ksize := Args.ksize a;
  Args.num_blocks := Args.num_blocks a; Args.num_heads := Args.num_heads a;
  Args.pos_fixed := Args.pos_fixed a
|}.

(** One millisecond per training step, the clock at 0 before the run. *)
Definition ms_clock : TrainState params (nat * bool) -> nat -> Q := run_clock (1 # 1000) 0 0.

(** One millisecond per training step and five seconds per evaluation. *)
Definition eval5_clock : TrainState params (nat * bool) -> nat -> Q := run_clock (1 # 1000) 5 0.

Definition ms_printed (clk : TrainState params (nat * bool) -> nat -> Q) (a : Args.t) (fuel : nat)
    : list Q :=
  map Qred (ms_log (snd (snd (main_t clk a val1 dir1 fuel (start spec_script, mkClock 0 0 []))))).

Lemma ms_per_batch_exact_witness :
  ms_printed eval5_clock (with_intervals args1 2 4) 10 = [1; 1; 1; 1; 1] /\
  Forall (fun ms => ms == 1000 * (1 # 1000))
    (ms_log (snd (snd (main_t eval5_clock (with_intervals args1 2 4) val1 dir1 10
                         (start spec_script, mkClock 0 0 []))))).
Proof.
  split; [vm_compute; reflexivity|].
  apply (ms_per_batch_exact (1 # 1000) 5 0 (with_intervals args1 2 4)).
  - reflexivity.
  - reflexivity.
  - reflexivity.
  - constructor.
Defined.

(** With [log_interval = 2], [eval_interval = 3], one millisecond per
    step and five seconds per evaluation, the program prints 1 ms/batch
    at step 2 and 0.5 ms/batch at step 4: the evaluation at step 3
    resets [start_time], so the second window covers one step. *)
Lemma ms_per_batch_bounded_witness :
  ms_printed eval5_clock (with_intervals args1 2 3) 4 = [1; 1 # 2] /\
  Forall (fun ms => 1000 * (1 # 1000) / inject_Z 2 <= ms <= 1000 * (1 # 1000))
    (ms_log (snd (snd (main_t eval5_clock (with_intervals args1 2 3) val1 dir1 4
                         (start spec_script, mkClock 0 0 []))))).
Proof.
  split; [vm_compute; reflexivity|].
  apply (ms_per_batch_bounded (1 # 1000) 5 0 (with_intervals args1 2 3)).
  - reflexivity.
  - discriminate.
  - reflexivity.
  - constructor.
Defined.

End TimedRuns.
