(* ===== verification/PrintFormat.v ===== *)
(** * The text of the prints: [str.format] of lines 120-121 and 130-131

    Lines 106, 120-121, 129-132, 143 and 152 print fixed texts and the
    fields [{:10d}] (an int right-aligned in ten columns), [{:02.5f}],
    [{:5.2f}], [{:5.3f}] and [{:8.5f}] (a float with a fixed number of
    decimals, right-aligned in a width, [0] asking for zeros after the
    sign).  Python formats the exact value of the float, rounding half to
    even; the development's floats are rationals, so [format_fixed]
    formats a [Q] the same way.  [render_event] gives the lines each
    event of Controller.v prints, [transcript] the text of a run of the
    timed program of Logging.v, with each ms/batch value of its [Clock]
    in its training line.

    [format_pf] prints the values of the evaluation lines, which can be
    numpy's [nan] or [inf] (Evaluate.v).  Lemmas: [int()] reads a
    [{:Nd}] field back as the integer printed, when it has at most 4300
    digits ([format_d_roundtrip]); [float()] reads a [{:w.pf}] field back
    as a value within half a unit of the last decimal of the printed
    value ([format_f_roundtrip]); the timed program prints one ms/batch
    value per training line ([train_lines_have_ms]). *)

From Stdlib Require Import List String Ascii ZArith QArith Qabs Qpower Qround Lqa Lia DecimalString DecimalZ.
From S2P Require Import Prelude Interfaces Config ArgParse Controller Scenarios Logging.
Import ListNotations.


(** ** Fields *)

(** The characters of [s] preceded by fills up to width [w] (Python's
    [>] alignment, the default for numbers). *)
Definition pad_left (f : ascii) (w : nat) (l : list ascii) : list ascii :=
  repeat f (w - List.length l) ++ l.

(** [{:wd}]: [str(z)] right-aligned in [w] columns. *)
Definition format_d (w : nat) (z : Z) : string :=
  string_of_list_ascii (pad_left " "%char w (list_ascii_of_string (py_str_int z))).

(** The integer nearest to [x], ties to the even one (the rounding of
    CPython's float formatting, which is correctly rounded). *)
Definition round_half_even (x : Q) : Z :=
  let f := Qfloor x in
  match Qcompare (x - inject_Z f) (1 # 2) with
  | Lt => f
  | Gt => (f + 1)%Z
  | Eq => if Z.even f then f else (f + 1)%Z
  end.

(** The digits of [round_half_even (|q| * 10^p)], at least [p + 1] of
    them, with the point before the last [p]. *)
Definition fixed_digits (p : nat) (q : Q) : list ascii :=
  let n := round_half_even (Qabs q * inject_Z (10 ^ Z.of_nat p)) in
  let ds := list_ascii_of_string (py_str_int n) in
  let ds' := repeat "0"%char (S p - List.length ds) ++ ds in
  let k := (List.length ds' - p)%nat in
  firstn k ds' ++ (match p with O => [] | S _ => "."%char :: skipn k ds' end).

(** The sign Python prints: [-] for a negative value. *)
Definition sign_chars (q : Q) : list ascii := if Qle_bool 0 q then [] else ["-"%char].

(** [{:w.pf}] ([zero = false]) and [{:0w.pf}] ([zero = true], the zeros
    go between the sign and the digits). *)
Definition format_f (zero : bool) (w p : nat) (q : Q) : string :=
  string_of_list_ascii
    (if zero then sign_chars q ++ pad_left "0"%char (w - List.length (sign_chars q)) (fixed_digits p q)
     else pad_left " "%char w (sign_chars q ++ fixed_digits p q)).

(** [{:w.pf}] of a float that may be [nan] or infinite (lines 130-131
    print numpy values): [nan], [inf] and [-inf], right-aligned. *)
Definition format_pf (w p : nat) (x : pyfloat) : string :=
  match x with
  | Fin q => format_f false w p q
  | NaN => string_of_list_ascii (pad_left " "%char w (list_ascii_of_string "nan"))
  | Inf false => string_of_list_ascii (pad_left " "%char w (list_ascii_of_string "inf"))
  | Inf true => string_of_list_ascii (pad_left " "%char w (list_ascii_of_string "-inf"))
  end.

(** ** Rounding *)

Lemma round_half_even_spec (x : Q) :
  inject_Z (round_half_even x) - (1 # 2) <= x <= inject_Z (round_half_even x) + (1 # 2).
Proof.
  unfold round_half_even. pose proof (Qfloor_le x) as Hl. pose proof (Qlt_floor x) as Hu.
  rewrite inject_Z_plus in Hu. change (inject_Z 1) with 1 in Hu.
  destruct (Qcompare_spec (x - inject_Z (Qfloor x)) (1 # 2)) as [He|Hlt|Hgt];
    [destruct (Z.even (Qfloor x))|..]; rewrite ?inject_Z_plus; change (inject_Z 1) with 1; split; lra.
Qed.

Lemma round_half_even_nonneg (x : Q) : 0 <= x -> (0 <= round_half_even x)%Z.
Proof.
  intros Hx. assert (Hf : (0 <= Qfloor x)%Z).
  { apply (Qfloor_resp_le 0 x) in Hx. exact Hx. }
  unfold round_half_even. destruct (_ ?= _); [destruct (Z.even _)|..]; lia.
Qed.

(** ** Digits and padding, read back by [int()] and [float()] *)

Local Open Scope char_scope.

Lemma lstrip_spaces (k : nat) (l : list ascii) : lstrip (repeat " " k ++ l) = lstrip l.
Proof. induction k as [|k IH]; [reflexivity|exact IH]. Qed.

Lemma strip_spaces (k : nat) (l : list ascii) : strip (repeat " " k ++ l) = strip l.
Proof. unfold strip. now rewrite lstrip_spaces. Qed.

Lemma digits_Z_zeros (k : nat) (l : list ascii) : digits_Z (repeat "0" k ++ l) = digits_Z l.
Proof.
  induction k as [|k IH]; [reflexivity|]. rewrite <- IH. unfold digits_Z.
  cbn [repeat app string_of_list_ascii NilEmpty.uint_of_string].
  now destruct (NilEmpty.uint_of_string _).
Qed.

(** [str(n)] for [n >= 0]: digits only, at least one, of value [n]. *)
Lemma py_str_int_digits (n : Z) : (0 <= n)%Z ->
  list_ascii_of_string (py_str_int n) <> [] /\
  forallb is_digit (list_ascii_of_string (py_str_int n)) = true /\
  digits_Z (list_ascii_of_string (py_str_int n)) = n.
Proof.
  intros Hn. assert (Hd : exists d, Z.to_int n = Decimal.Pos d)
    by (destruct n; [eexists; reflexivity|eexists; reflexivity|lia]).
  destruct Hd as [d Hd]. unfold py_str_int, NilZero.string_of_int. rewrite Hd.
  destruct (uint_string_shape d) as (c & r & Hs & Hc & Hr).
  split; [rewrite Hs; discriminate|split; [rewrite Hs; cbn; now rewrite Hc|]].
  rewrite uint_string_value, <- (DecimalZ.of_to n), Hd. reflexivity.
Qed.

Lemma split_sign_digit (c : ascii) (l : list ascii) :
  is_digit c = true -> split_sign (c :: l) = (false, c :: l).
Proof. intros Hc. by_digit Hc. Qed.

Lemma opt_run_digits (l : list ascii) : forallb is_digit l = true -> opt_run l = Some l.
Proof.
  intros Hl. destruct l as [|c l]; [reflexivity|].
  apply digit_run_aux_all; [exact Hl|left; discriminate].
Qed.

Lemma forallb_firstn_skipn {A : Type} (f : A -> bool) (k : nat) (l : list A) :
  forallb f l = true -> forallb f (firstn k l) = true /\ forallb f (skipn k l) = true.
Proof.
  intros Hl. rewrite <- (firstn_skipn k l), forallb_app in Hl. now apply andb_prop in Hl.
Qed.

Lemma forallb_zeros (k : nat) : forallb is_digit (repeat "0" k) = true.
Proof. induction k; [reflexivity|exact IHk]. Qed.

(** [fixed_digits p q]: integer digits (at least one), then, when
    [p > 0], the point and [p] digits; together they spell the rounded
    [|q| * 10^p]. *)
Lemma fixed_digits_shape (p : nat) (q : Q) :
  exists ip fp, fixed_digits p q = ip ++ match p with O => [] | S _ => "." :: fp end /\
    ip <> [] /\ forallb is_digit ip = true /\ forallb is_digit fp = true /\
    List.length fp = p /\
    digits_Z (ip ++ fp) = round_half_even (Qabs q * inject_Z (10 ^ Z.of_nat p)).
Proof.
  unfold fixed_digits.
  set (n := round_half_even _).
  assert (Hn : (0 <= n)%Z).
  { apply round_half_even_nonneg. apply Qmult_le_0_compat; [apply Qabs_nonneg|].
    change 0 with (inject_Z 0). rewrite <- Zle_Qle. apply Z.pow_nonneg. lia. }
  destruct (py_str_int_digits n Hn) as (Hne & Hd & Hv).
  set (ds := list_ascii_of_string (py_str_int n)) in *.
  set (ds' := repeat "0" (S p - List.length ds) ++ ds).
  assert (Hlen : (S p <= List.length ds')%nat).
  { unfold ds'. rewrite length_app, repeat_length. lia. }
  assert (Hd' : forallb is_digit ds' = true) by (unfold ds'; now rewrite forallb_app, forallb_zeros, Hd).
  destruct (forallb_firstn_skipn _ (List.length ds' - p) _ Hd') as [Hi Hf].
  exists (firstn (List.length ds' - p) ds'), (skipn (List.length ds' - p) ds').
  split; [destruct p; reflexivity|].
  split; [intros He; apply (f_equal (@List.length ascii)) in He; rewrite length_firstn in He; cbn [List.length] in He; lia|].
  split; [exact Hi|split; [exact Hf|split]].
  - rewrite length_skipn. lia.
  - rewrite firstn_skipn. unfold ds'. now rewrite digits_Z_zeros.
Qed.

Lemma split_at_none (f : ascii -> bool) (l : list ascii) :
  forallb (fun c => negb (f c)) l = true -> split_at f l = (l, None).
Proof.
  induction l as [|c l IH]; intros Hl; [reflexivity|].
  cbn in Hl |- *. apply andb_prop in Hl as [Hc Hl]. destruct (f c); [discriminate|].
  now rewrite (IH Hl).
Qed.

Lemma split_at_app (f : ascii -> bool) (l1 l2 : list ascii) (c : ascii) :
  forallb (fun c => negb (f c)) l1 = true -> f c = true -> split_at f (l1 ++ c :: l2) = (l1, Some l2).
Proof.
  induction l1 as [|a l1 IH]; intros Hl Hc; cbn; [now rewrite Hc|].
  cbn in Hl. apply andb_prop in Hl as [Ha Hl]. destruct (f a); [discriminate|].
  now rewrite (IH Hl Hc).
Qed.

Definition is_exp (c : ascii) : bool := Ascii.eqb c "e" || Ascii.eqb c "E".

Lemma digits_not (f : ascii -> bool) (l : list ascii) :
  (forall c, is_digit c = true -> f c = false) ->
  forallb is_digit l = true -> forallb (fun c => negb (f c)) l = true.
Proof.
  intros Hf Hl. apply forallb_forall. intros c Hc.
  now rewrite (Hf c (proj1 (forallb_forall _ _) Hl c Hc)).
Qed.

Lemma digit_not_exp (c : ascii) : is_digit c = true -> is_exp c = false.
Proof. intros Hc. by_digit Hc. Qed.

Lemma digit_not_dot (c : ascii) : is_digit c = true -> Ascii.eqb c "." = false.
Proof. intros Hc. by_digit Hc. Qed.

(** [float()]'s reading of the digits of a fixed-point field, after any
    number of leading zeros: [digits_Z (ip ++ fp) / 10^p] exactly. *)
Lemma decimal_value_fixed (z p : nat) (ip fp : list ascii) :
  ip <> [] -> forallb is_digit ip = true -> forallb is_digit fp = true -> List.length fp = p ->
  decimal_value (repeat "0" z ++ ip ++ match p with O => [] | S _ => "." :: fp end) =
  Some (inject_Z (digits_Z (ip ++ fp)) * Qpower 10 (0 - Z.of_nat p)).
Proof.
  intros Hne Hi Hf Hl.
  assert (Hzi : forallb is_digit (repeat "0" z ++ ip) = true) by now rewrite forallb_app, forallb_zeros.
  assert (Hz : repeat "0" z ++ ip <> []) by (destruct ip; [contradiction|now destruct z]).
  unfold decimal_value. rewrite app_assoc.
  destruct p as [|p].
  - apply length_zero_iff_nil in Hl as ->. rewrite app_nil_r.
    rewrite split_at_none by exact (digits_not _ _ digit_not_exp Hzi).
    rewrite split_at_none by exact (digits_not _ _ digit_not_dot Hzi).
    rewrite (opt_run_digits _ Hzi). cbn [opt_run exponent].
    match goal with |- context [if ?b then _ else _] => destruct b eqn:E end;
      [apply Nat.eqb_eq in E; destruct (repeat "0" z ++ ip); [contradiction|discriminate]|].
    now rewrite !app_nil_r, digits_Z_zeros.
  - rewrite split_at_none.
    2: { pose proof (digits_not _ _ digit_not_exp Hzi) as He1. pose proof (digits_not _ _ digit_not_exp Hf) as He2.
         unfold is_exp in He1, He2. cbv beta in He1, He2.
         rewrite forallb_app. cbn [forallb]. now rewrite He1, He2. }
    rewrite split_at_app by (exact (digits_not _ _ digit_not_dot Hzi) || reflexivity).
    rewrite (opt_run_digits _ Hzi), (opt_run_digits _ Hf). cbn [exponent].
    match goal with |- context [if ?b then _ else _] => destruct b eqn:E end;
      [apply Nat.eqb_eq in E; destruct (repeat "0" z ++ ip); [contradiction|discriminate]|].
    now rewrite Hl, <- app_assoc, digits_Z_zeros.
Qed.

Local Close Scope char_scope.

(** The printed value is within half a unit of the last decimal. *)
Lemma scaled_round_bound (q : Q) (n : Z) (d : Q) :
  1 <= d -> inject_Z n - (1 # 2) <= Qabs q * d <= inject_Z n + (1 # 2) ->
  Qabs ((if Qle_bool 0 q then inject_Z n / d else - (inject_Z n / d)) - q) <= (1 # 2) / d /\
  inject_Z n / d <= Qabs q + 1.
Proof.
  intros Hd [H1 H2]. assert (Hd0 : 0 < d) by lra.
  apply (Qle_shift_div_r _ _ (Qabs q) Hd0) in H1. apply (Qle_shift_div_l (Qabs q) _ _ Hd0) in H2.
  assert (Hv1 : (inject_Z n - (1 # 2)) / d == inject_Z n / d - (1 # 2) / d) by (field; lra).
  assert (Hv2 : (inject_Z n + (1 # 2)) / d == inject_Z n / d + (1 # 2) / d) by (field; lra).
  assert (He : (1 # 2) / d <= 1 # 2).
  { apply Qle_shift_div_r; [exact Hd0|]. lra. }
  rewrite Hv1 in H1. rewrite Hv2 in H2.
  set (v := inject_Z n / d) in *. set (e := (1 # 2) / d) in *.
  split; [|lra].
  destruct (Qle_bool 0 q) eqn:Hq.
  - apply Qle_bool_iff in Hq. rewrite Qabs_pos in H1, H2 by exact Hq.
    apply Qabs_Qle_condition. lra.
  - assert (Hn : q < 0) by (apply Qnot_le_lt; intros Hc; apply Qle_bool_iff in Hc; congruence).
    rewrite Qabs_neg in H1, H2 by lra. apply Qabs_Qle_condition. lra.
Qed.

Local Open Scope char_scope.

Lemma digit_not_space (c : ascii) : is_digit c = true -> is_space c = false.
Proof. intros Hc. by_digit Hc. Qed.

Lemma digit_not_special (c : ascii) (r : list ascii) : is_digit c = true ->
  (String.eqb (string_of_list_ascii (map lower (c :: r))) "inf" ||
   String.eqb (string_of_list_ascii (map lower (c :: r))) "infinity") = false /\
  String.eqb (string_of_list_ascii (map lower (c :: r))) "nan" = false.
Proof.
  intros Hc. apply digit_cases in Hc.
  repeat (destruct Hc as [<-|Hc]; [split; reflexivity|]). destruct Hc.
Qed.

(** [float(s)] where [s] stripped is an optional [-] and a decimal that
    starts with a digit. *)
Lemma py_float_signed (neg : bool) (c : ascii) (r : list ascii) (v : Q) (s : string) :
  is_digit c = true -> decimal_value (c :: r) = Some v -> v < float_overflow ->
  strip (list_ascii_of_string s) = (if neg then ["-"] else []) ++ c :: r ->
  py_float s = Some (VFloat (if neg then - v else v)).
Proof.
  intros Hc Hv Ho Hs. unfold py_float. rewrite Hs.
  destruct neg; cbn [app]; [cbn [split_sign]|rewrite (split_sign_digit _ _ Hc)];
    cbv beta iota zeta; destruct (digit_not_special c r Hc) as [-> ->]; rewrite Hv; cbn [option_map];
    destruct (Qle_bool float_overflow v) eqn:E; try reflexivity;
    apply Qle_bool_iff in E; apply Qle_not_lt in E; contradiction.
Qed.

(** What [float()] strips off a [format_f] field: the fill spaces. *)
Lemma format_f_stripped (zero : bool) (w p : nat) (q : Q) :
  exists z, strip (list_ascii_of_string (format_f zero w p q)) =
            sign_chars q ++ repeat "0" z ++ fixed_digits p q.
Proof.
  destruct (fixed_digits_shape p q) as (ip & fp & HF & _ & Hi & Hf & _).
  assert (Hns : forall z, Forall (fun c => is_space c = false) (sign_chars q ++ repeat "0" z ++ fixed_digits p q)).
  { intros z. rewrite HF, !Forall_app. split; [unfold sign_chars; destruct (Qle_bool 0 q); repeat constructor|].
    split; [apply forallb_digits_no_space, forallb_zeros|].
    split; [exact (forallb_digits_no_space _ Hi)|].
    destruct p; repeat constructor. exact (forallb_digits_no_space _ Hf). }
  unfold format_f. rewrite list_ascii_of_string_of_list_ascii. destruct zero.
  - eexists. unfold pad_left. now rewrite strip_id.
  - exists 0%nat. unfold pad_left. rewrite strip_spaces, strip_id; [reflexivity|exact (Hns 0%nat)].
Qed.

Lemma head_digit (z : nat) (ip t : list ascii) :
  ip <> [] -> forallb is_digit ip = true ->
  exists c r, repeat "0" z ++ ip ++ t = c :: r /\ is_digit c = true.
Proof.
  intros Hne Hi. destruct z as [|z]; [|eexists _, _; split; reflexivity].
  destruct ip as [|c ip]; [contradiction|]. cbn in Hi |- *. apply andb_prop in Hi as [Hc _].
  eexists _, _. split; [reflexivity|exact Hc].
Qed.

Lemma pow10_pos (p : nat) : 1 <= inject_Z (10 ^ Z.of_nat p).
Proof.
  change 1 with (inject_Z 1). rewrite <- Zle_Qle.
  pose proof (Z.pow_pos_nonneg 10 (Z.of_nat p)). lia.
Qed.

Lemma pow10_Qpower (p : nat) : Qpower 10 (0 - Z.of_nat p) == / inject_Z (10 ^ Z.of_nat p).
Proof.
  rewrite Zpower_Qpower by lia. rewrite Z.sub_0_l. apply Qpower_opp.
Qed.

Local Close Scope char_scope.

(** [int()] reads a [{:wd}] field (the step counts of lines 120 and 130)
    back as the integer printed, for every width, when the numeral has
    at most 4300 digits: the fill spaces are stripped and [str(z)] is
    read back. *)
Lemma format_d_roundtrip (w : nat) (z : Z) :
  py_int (format_d w z) =
  if (String.length (py_str_int (Z.abs z)) <=? int_max_str_digits)%nat then Some z else None.
Proof.
  pose proof (py_int_py_str_int z) as H. unfold py_int, format_d, pad_left in *.
  now rewrite list_ascii_of_string_of_list_ascii, strip_spaces.
Qed.

(** [float()] reads a [{:w.pf}] or [{:0w.pf}] field (lr, ms/batch,
    the loss and the validation metrics of lines 120-121 and 130-131)
    back as the printed value: the sign of [q] times [|q| * 10^p]
    rounded half to even, over [10^p], which is within half a unit of the
    last printed decimal of [q]; for every width, every precision and
    every [q] below the float overflow. *)
Lemma format_f_roundtrip (zero : bool) (w p : nat) (q : Q) :
  Qabs q + 1 < float_overflow ->
  exists v, py_float (format_f zero w p q) = Some (VFloat v) /\
    v == (if Qle_bool 0 q then 1 else -1) *
         (inject_Z (round_half_even (Qabs q * inject_Z (10 ^ Z.of_nat p))) / inject_Z (10 ^ Z.of_nat p)) /\
    Qabs (v - q) <= (1 # 2) / inject_Z (10 ^ Z.of_nat p).
Proof.
  intros Hq. destruct (fixed_digits_shape p q) as (ip & fp & HF & Hne & Hi & Hf & Hl & Hv).
  destruct (format_f_stripped zero w p q) as [z Hs]. rewrite HF in Hs.
  pose proof (decimal_value_fixed z p ip fp Hne Hi Hf Hl) as Hdv. rewrite Hv in Hdv.
  destruct (head_digit z ip (match p with O => [] | S _ => "."%char :: fp end) Hne Hi) as (c & r & Hcr & Hc).
  rewrite Hcr in Hdv, Hs.
  set (d := inject_Z (10 ^ Z.of_nat p)) in *. set (n := round_half_even (Qabs q * d)) in *.
  destruct (scaled_round_bound q n d (pow10_pos p) (round_half_even_spec _)) as [Hb Hup].
  set (v0 := inject_Z n * Qpower 10 (0 - Z.of_nat p)) in Hdv.
  assert (Hv0 : v0 == inject_Z n / d) by (unfold v0, Qdiv; now rewrite pow10_Qpower).
  exists (if negb (Qle_bool 0 q) then - v0 else v0). split.
  - apply (py_float_signed _ c r v0 _ Hc Hdv); [rewrite Hv0; lra|].
    rewrite Hs. unfold sign_chars. now destruct (Qle_bool 0 q).
  - destruct (Qle_bool 0 q); cbn [negb]; (split; [rewrite Hv0; ring|rewrite Hv0; exact Hb]).
Qed.

(** ** The printed lines *)

Section Render.
Context {P : Type}.
Local Open Scope string_scope.

(** Lines 120-121. *)
Definition train_line (step : Z) (lr ms cur_loss : Q) : string :=
  "| Totol step " ++ format_d 10 step ++ " | lr " ++ format_f true 2 5 lr ++
  " | ms/batch " ++ format_f false 5 2 ms ++ " | loss " ++ format_f false 5 3 cur_loss.

(** ['-' * 90] and ['=' * 90]. *)
Definition rule (c : ascii) : string := string_of_list_ascii (repeat c 90).

(** Lines 129-132. *)
Definition eval_lines (step : Z) (val_hit val_ndcg : pyfloat) : list string :=
  [rule "-"; "| End of step " ++ format_d 10 step ++ " | valid hit@20 " ++
             format_pf 8 5 val_hit ++ " | valid ndcg@20 " ++ format_pf 8 5 val_ndcg;
   rule "="].

(** [str(e)] (line 148): the text of an exception is not modelled. *)
Variable str_exn : exn -> string.

(** The lines an event prints; [ms] is the ms/batch value of a training
    line.  Writing a checkpoint and closing the sampler print nothing. *)
Definition event_lines (ms : Q) (e : event P) : list string :=
  match e with
  | StartMsg => ["Start training..."]
  | LogTrain step lr cur_loss => [train_line step lr ms cur_loss]
  | LogEval step val_hit val_ndcg => eval_lines step val_hit val_ndcg
  | Saved _ _ => []
  | StopMsg => ["Validation hit decreases in three consecutive epochs. Stop Training!"]
  | ErrorMsg e => [str_exn e]
  | SamplerClosed => []
  | DoneMsg => ["Done"]
  end.

Definition is_train (e : event P) : bool :=
  match e with LogTrain _ _ _ => true | _ => false end.

(** The standard output of a run: its events in order, each training line
    with the next ms/batch value of the clock; [None] when the two do not
    pair up. *)
Fixpoint transcript (evs : list (event P)) (ms : list Q) : option (list string) :=
  match evs, ms with
  | [], [] => Some []
  | [], _ :: _ => None
  | e :: evs', _ =>
      if is_train e then
        match ms with
        | m :: ms' => option_map (app (event_lines m e)) (transcript evs' ms')
        | [] => None
        end
      else option_map (app (event_lines 0 e)) (transcript evs' ms)
  end.

Definition count_train (evs : list (event P)) : nat := List.length (filter is_train evs).

Lemma transcript_some (evs : list (event P)) (ms : list Q) :
  count_train evs = List.length ms -> exists ls, transcript evs ms = Some ls.
Proof.
  unfold count_train. revert ms. induction evs as [|e evs IH]; intros ms Hc.
  - destruct ms; [now exists []|discriminate].
  - cbn in Hc |- *. destruct (is_train e).
    + destruct ms as [|m ms]; [discriminate|]. cbn in Hc.
      destruct (IH ms (eq_add_S _ _ Hc)) as [ls ->]. eexists. reflexivity.
    + destruct (IH ms Hc) as [ls ->]. eexists. reflexivity.
Qed.
End Render.

(** ** One ms/batch value per training line *)

Section Tally.
Context {P Smp : Type} `{RecModel P} `{BatchSource Smp}.
Variable now : TrainState P Smp -> nat -> Q.

Definition same_train (s s' : TrainState P Smp) : Prop := count_train (out s') = count_train (out s).

#[local] Instance same_train_preorder : PreOrder same_train.
Proof. split; [intros s; reflexivity|intros s1 s2 s3 H1 H2; unfold same_train in *; congruence]. Qed.

(** Training lines printed and ms/batch values printed grow together. *)
Definition tally (s s' : TrainState P Smp * Clock) : Prop :=
  (count_train (out (fst s')) + List.length (ms_log (snd s)) =
   count_train (out (fst s)) + List.length (ms_log (snd s')))%nat.

#[local] Instance tally_preorder : PreOrder tally.
Proof. split; [intros s; reflexivity|intros s1 s2 s3 H1 H2; unfold tally in *; lia]. Qed.

Lemma emit_same_train (e : event P) : is_train e = false -> preserves same_train (emit e).
Proof.
  intros He st. unfold same_train, count_train. cbn [out emit snd].
  now rewrite filter_app, length_app; cbn; rewrite He, Nat.add_0_r.
Qed.

Lemma on_ts_tally {A : Type} (k : PyM (TrainState P Smp) A) :
  preserves same_train k -> preserves tally (on_ts k).
Proof.
  intros Hk s. unfold tally. rewrite on_ts_state. cbn [fst snd]. rewrite (Hk (fst s)). lia.
Qed.

Lemma time_tally : preserves tally (time now).
Proof. intros s. reflexivity. Qed.

Lemma set_start_tally (t : Q) : preserves tally (set_start t).
Proof. intros s. reflexivity. Qed.

Lemma clock_get_tally : preserves tally clock_get.
Proof. intros s. reflexivity. Qed.

(** Lines 120-121 print the training line and its ms/batch together. *)
Lemma log_print_tally (step : Z) (lr cur_loss ms : Q) (k : PyM (TrainState P Smp * Clock) unit) :
  preserves tally k -> preserves tally (on_ts (emit (LogTrain step lr cur_loss)) ;; print_ms ms ;; k).
Proof.
  intros Hk s. cbn. etransitivity; [|apply Hk].
  unfold tally, count_train. cbn [fst snd ms_log out]. rewrite filter_app, !length_app. cbn. lia.
Qed.

Lemma fetch_batch_same_train : preserves same_train fetch_batch.
Proof. intros st. unfold fetch_batch. now destruct (next_batch (train_sampler st)) as [[b s']|e]. Qed.

Lemma close_sampler_same_train : preserves same_train close_sampler.
Proof. intros st. exact (emit_same_train SamplerClosed eq_refl st). Qed.
Lemma train_step_same_train (args : Args.t) (b : Batch) : preserves same_train (train_step args b).
Proof. unfold train_step. pym_preserve; reflexivity. Qed.

Lemma eval_block_same_train (args : Args.t) (vd : list EvalBatch) (cd : string) :
  preserves same_train (eval_block args vd cd).
Proof.
  unfold eval_block, decide_block. pym_preserve; try (apply emit_same_train; reflexivity); reflexivity.
Qed.

Lemma log_block_t_tally (args : Args.t) : preserves tally (log_block_t now args).
Proof.
  unfold log_block_t.
  apply preserves_bind; [typeclasses eauto|apply on_ts_tally, preserves_get; typeclasses eauto|intros st].
  apply preserves_bind; [typeclasses eauto|apply preserves_lift; typeclasses eauto|intros m].
  destruct (m =? 0)%Z; [|apply preserves_ret; typeclasses eauto].
  apply preserves_bind; [typeclasses eauto|apply preserves_lift; typeclasses eauto|intros l].
  apply preserves_bind; [typeclasses eauto|apply clock_get_tally|intros tm].
  apply preserves_bind; [typeclasses eauto|apply time_tally|intros t].
  apply log_print_tally.
  apply preserves_bind; [typeclasses eauto|apply on_ts_tally; intros st'; reflexivity|intros _].
  apply preserves_bind; [typeclasses eauto|apply time_tally|intros t']. apply set_start_tally.
Qed.

Ltac tally_block :=
  pym_preserve;
  first [ apply time_tally | apply set_start_tally
        | apply on_ts_tally; first [ apply eval_block_same_train | apply fetch_batch_same_train
                                   | apply train_step_same_train | apply close_sampler_same_train
                                   | apply preserves_get; typeclasses eauto
                                   | apply emit_same_train; reflexivity
                                   | pym_preserve; first [apply close_sampler_same_train
                                                         | apply emit_same_train; reflexivity] ]
        | idtac ].

Lemma eval_block_t_tally (args : Args.t) (vd : list EvalBatch) (cd : string) :
  preserves tally (eval_block_t now args vd cd).
Proof. unfold eval_block_t. tally_block. Qed.

Lemma iteration_t_tally (args : Args.t) (vd : list EvalBatch) (cd : string) :
  preserves tally (iteration_t now args vd cd).
Proof.
  unfold iteration_t.
  apply preserves_bind; [typeclasses eauto|apply on_ts_tally, fetch_batch_same_train|intros b].
  apply preserves_bind; [typeclasses eauto|apply on_ts_tally, train_step_same_train|intros _].
  apply preserves_bind; [typeclasses eauto|apply log_block_t_tally|intros _]. apply eval_block_t_tally.
Qed.

Lemma main_loop_t_tally (args : Args.t) (vd : list EvalBatch) (cd : string) (fuel : nat) :
  preserves tally (main_loop_t now args vd cd fuel).
Proof.
  induction fuel as [|fuel IH]; cbn [main_loop_t]; [apply preserves_ret; typeclasses eauto|].
  apply preserves_bind; [typeclasses eauto|apply iteration_t_tally|intros [|]]; [apply preserves_ret; typeclasses eauto|exact IH].
Qed.

Lemma main_body_t_tally (args : Args.t) (vd : list EvalBatch) (cd : string) (fuel : nat) :
  preserves tally (main_body_t now args vd cd fuel).
Proof.
  unfold main_body_t. pose proof (main_loop_t_tally args vd cd fuel). tally_block.
Qed.

(** Every training line [main] prints (lines 120-121) comes with
    exactly one ms/batch value, for every clock and on every path
    (normal exit, exceptions, [exit(1)], running out of passes): the
    training lines and the ms/batch values it adds are as many, so a
    run from a state where they pair up prints a transcript in which
    every training line carries its own ms/batch value. *)
Lemma train_lines_have_ms (str_exn : exn -> string) (args : Args.t) (vd : list EvalBatch)
    (cd : string) (fuel : nat) (st : TrainState P Smp) (tm : Clock) :
  count_train (out st) = List.length (ms_log tm) ->
  count_train (out (fst (snd (main_t now args vd cd fuel (st, tm))))) =
    List.length (ms_log (snd (snd (main_t now args vd cd fuel (st, tm))))) /\
  exists ls, transcript str_exn (out (fst (snd (main_t now args vd cd fuel (st, tm)))))
                                (ms_log (snd (snd (main_t now args vd cd fuel (st, tm))))) = Some ls.
Proof.
  intros Hc. pose proof (main_body_t_tally args vd cd fuel (st, tm)) as Ht.
  rewrite <- main_t_state in Ht. unfold tally in Ht. cbn [fst snd] in Ht.
  assert (Hf : count_train (out (fst (snd (main_t now args vd cd fuel (st, tm))))) =
               List.length (ms_log (snd (snd (main_t now args vd cd fuel (st, tm)))))) by lia.
  split; [exact Hf|]. now apply transcript_some.
Qed.

End Tally.

(** ** The transcript of a run *)
Module PrintRuns.
Import Scripted TimedRuns.

Definition args24 : Args.t := with_intervals args1 2 4.

Definition run24 (fuel : nat) :=
  main_t ms_clock args24 val1 dir1 fuel (start spec_script, mkClock 0 0 []).

(** The transcript of the scripted run with logging every 2 steps and
    evaluation every 4, after 4 passes. *)
Lemma transcript_run24 :
  count_train (out (start spec_script)) = List.length (ms_log (mkClock 0 0 [])) /\
  (count_train (out (fst (snd (run24 4)))) = List.length (ms_log (snd (snd (run24 4)))) /\
   exists ls, transcript (fun _ => ""%string) (out (fst (snd (run24 4)))) (ms_log (snd (snd (run24 4))))
              = Some ls) /\
  transcript (fun _ => ""%string) (out (fst (snd (run24 4)))) (ms_log (snd (snd (run24 4)))) =
  Some ["Start training...";
        "| Totol step          2 | lr 0.00100 | ms/batch  1.00 | loss 1.000";
        "| Totol step          4 | lr 0.00100 | ms/batch  1.00 | loss 1.000";
        rule "-";
        "| End of step          4 | valid hit@20  0.00000 | valid ndcg@20  0.00000";
        rule "="]%string.
Proof.
  split; [reflexivity|split].
  - apply (train_lines_have_ms ms_clock (fun _ => ""%string)). reflexivity.
  - vm_compute. reflexivity.
Defined.

End PrintRuns.
