(* ===== verification/Program.v ===== *)
(** * The module-level code and the entry point of train.py (lines 50-76, 153-157)

    Importing train.py runs its module body: parse the arguments, seed
    TensorFlow, load the data ([data_generator]), start the sampler
    workers ([Sampler(...)]), prepare the validation batches, name the
    checkpoint directory, print the configuration and build the model;
    [lr = args.lr].  Run as a script ([__name__ == '__main__']) it then
    creates the checkpoint directory if absent and calls [main()] (line
    157, the last line of the file, which has no final newline).  A
    caller that imports the module and calls [main()] gets the training
    loop, but no directory.

    [module_setup] is lines 50-76, [run_module] adds lines 153-157 for a
    given [__name__], [import_and_main] is an importer calling [main()].
    The file system [fsys] maps each existing path to a directory (with
    its write permission) or a file; [os_mkdir] is [os.mkdir] with the
    errors it raises ([FileExistsError], [FileNotFoundError] for a
    missing parent, [NotADirectoryError], [PermissionError]), and
    [mkdir_if_absent] is lines 155-156.  Theorems: run as a script it
    trains after creating the directory, or raises the [OSError] of
    [os.mkdir] when the parent is not a writable directory (C24); a
    [--data] holding ['/'] names a directory under a parent that does
    not exist, so the script raises [FileNotFoundError] before training
    (C15); imported, it creates nothing though [main] writes into the
    directory (C25); with the pool, [main] joins every worker (C26).  [data_generator]
    and the model constructor are interfaces ([DataLoader], [ModelInit]);
    the sampler is the pool of Sampler.v; [tf.set_random_seed] and the
    text of the prints are not modelled (the printed values are). *)

From Stdlib Require Import List String Ascii ZArith QArith Lia Relation_Operators DecimalString.
From S2P Require Import Prelude Interfaces Config Evaluate EvalData Sampler Controller ControllerSpec.
Import ListNotations.

(** [data_generator(args)] of utils.py (spec §4.1): the training split,
    the validation and test instances, [n_items] and [n_users], or
    [DataError]. *)
Class DataLoader : Type := {
  data_generator : Args.t -> res (UserSeqs * list EvalInstance * list EvalInstance * Z * Z)
}.

(** [NeuralSeqRecommender(args, n_items, n_users)] (line 73), with the
    parameters [sess.run(tf.global_variables_initializer())] gives them
    in [main]. *)
Class ModelInit (P : Type) : Type := {
  initial_params : Args.t -> Z -> Z -> P
}.

(** The prints of lines 69-71. *)
Inductive mod_event : Type :=
| PrintArgs (a : Args.t)
| PrintItems (n : Z)
| PrintUsers (n : Z).

(** The module globals after line 75. *)
Record Globals (P : Type) : Type := mkGlobals {
  g_args : Args.t;
  g_train_sampler : Pool;
  g_val_data : list EvalBatch;
  g_test_data : list EvalInstance;
  g_checkpoint_dir : string;
  g_model : P;
  g_lr : Q
}.
Arguments mkGlobals {P}.
Arguments g_args {P}.
Arguments g_train_sampler {P}.
Arguments g_val_data {P}.
Arguments g_test_data {P}.
Arguments g_checkpoint_dir {P}.
Arguments g_model {P}.
Arguments g_lr {P}.

(** ** The file system *)

(** What a path names: a directory, writable by the process or not, or a
    file. *)
Inductive entry : Type :=
| DirEntry (writable : bool)
| FileEntry.

(** The entries that exist, by path relative to the working directory,
    which is the entry ["."].  Paths are compared as strings (no
    normalisation of [a/./b] or [a//b]). *)
Definition fsys : Type := list (string * entry).

Fixpoint fs_lookup (fs : fsys) (p : string) : option entry :=
  match fs with
  | [] => None
  | (q, e) :: fs' => if String.eqb p q then Some e else fs_lookup fs' p
  end.

(** [os.path.exists(p)]. *)
Definition path_exists (fs : fsys) (p : string) : bool :=
  match fs_lookup fs p with Some _ => true | None => false end.

Fixpoint drop_while (f : ascii -> bool) (l : list ascii) : list ascii :=
  match l with
  | c :: l' => if f c then drop_while f l' else l
  | [] => []
  end.

Definition is_slash (c : ascii) : bool := Ascii.eqb c "/".

(** [os.path.dirname(p)] of a relative path: the part before the last
    ['/'] without its trailing ['/']s; [""] is the working directory
    ["."]. *)
Definition parent_dir (p : string) : string :=
  let head := drop_while (fun c => negb (is_slash c)) (rev (list_ascii_of_string p)) in
  match head with
  | [] => "."
  | _ => match drop_while is_slash head with
         | [] => "/"
         | h => string_of_list_ascii (rev h)
         end
  end.

(** [os.mkdir(p)]: [FileExistsError] if [p] exists; otherwise its parent
    must be an existing directory the process may write to
    ([FileNotFoundError], [NotADirectoryError], [PermissionError]). *)
Definition os_mkdir (p : string) (fs : fsys) : res fsys :=
  match fs_lookup fs p with
  | Some _ => Raise FileExistsError
  | None =>
      match fs_lookup fs (parent_dir p) with
      | None => Raise FileNotFoundError
      | Some FileEntry => Raise NotADirectoryError
      | Some (DirEntry false) => Raise PermissionError
      | Some (DirEntry true) => Ok ((p, DirEntry true) :: fs)
      end
  end.

(** Lines 155-156: [if not os.path.exists(p): os.mkdir(p)]. *)
Definition mkdir_if_absent (p : string) (fs : fsys) : res fsys :=
  if path_exists fs p then Ok fs else os_mkdir p fs.

Section Module.
Context `{DataLoader} {P : Type} `{ModelInit P}.

(** [str] of a float, and what sampler.py fixes: the workers' generator,
    their seeds, the queue size and the draws allowed per negative. *)
Variable py_str_float : Q -> string.
Variable rng : Z -> Z.
Variable worker_seed : nat -> Z.
Variable queue_size retries : nat.

(** The constructor arguments of lines 55-63. *)
Definition sampler_config (args : Args.t) (n_items : Z) : SamplerConfig :=
  mkSamplerConfig n_items (Z.to_nat (Args.batch_size args)) (Z.to_nat (Args.seq_len args))
    (Z.to_nat (Args.neg_size args)) (Z.to_nat (Args.worker args)) queue_size retries.

Definition worker_seeds (args : Args.t) : list Z :=
  map worker_seed (seq 0 (Z.to_nat (Args.worker args))).

(** Lines 50-76: the module body up to [main]. *)
Definition module_setup (args : Args.t) : res (Globals P * list mod_event) :=
  '(train_data, val_data, test_data, n_items, n_users) <- data_generator args ;;
  let train_sampler := init_pool (sampler_config args n_items) train_data rng
                         (worker_seeds args) in
  val_batches <- prepare_eval_test val_data 100 20 ;;
  let cd := checkpoint_dir py_str_float args in
  let model := initial_params args n_items n_users in
  ret (mkGlobals args train_sampler val_batches test_data cd model (Args.lr args),
       [PrintArgs args; PrintItems n_items; PrintUsers n_users]).

(** The training loop of [main()] on the module's globals: [lr =
    args.lr], the initialised session, the sampler of line 55. *)
Definition main_of_globals `{RecModel P} (g : Globals P) (fuel : nat) : res outcome * TrainState P Pool :=
  main (g_args g) (g_val_data g) (g_checkpoint_dir g) fuel
    (init_state (g_args g) (g_model g) (g_train_sampler g)).

(** The module run under the name [name]: its body, then lines 153-157:
    under [__main__], create the checkpoint directory if absent and call
    [main()] with [fuel] passes of its loop.  Returns the globals, the
    prints, the paths that exist after, and the result and final state
    of [main()] when it ran. *)
Definition run_module `{RecModel P} (name : string) (args : Args.t) (fs : fsys) (fuel : nat)
    : res (Globals P * list mod_event * fsys * option (res outcome * TrainState P Pool)) :=
  '(g, ev) <- module_setup args ;;
  if String.eqb name "__main__" then
    fs' <- mkdir_if_absent (g_checkpoint_dir g) fs ;;
    ret (g, ev, fs', Some (main_of_globals g fuel))
  else ret (g, ev, fs, None).

(** A program that imports the module under the name [name] and calls
    [main()] with [fuel] passes of the loop. *)
Definition import_and_main `{RecModel P} (name : string) (args : Args.t) (fs : fsys)
    (fuel : nat) : res (Globals P * list mod_event * fsys *
                        (res outcome * TrainState P Pool)) :=
  '(g, ev, fs', _) <- run_module name args fs fuel ;;
  ret (g, ev, fs', main_of_globals g fuel).

(** ** Lemmas *)

Lemma path_exists_cons (p : string) (e : entry) (fs : fsys) :
  path_exists ((p, e) :: fs) p = true.
Proof. unfold path_exists. cbn. now rewrite String.eqb_refl. Qed.

(** What lines 155-156 do to the file system: the directory exists
    after, because it did or because its parent is a writable directory
    in which it is created. *)
Lemma mkdir_if_absent_ok (p : string) (fs fs' : fsys) :
  mkdir_if_absent p fs = Ok fs' ->
  path_exists fs' p = true /\
  ((path_exists fs p = true /\ fs' = fs) \/
   (path_exists fs p = false /\ fs_lookup fs (parent_dir p) = Some (DirEntry true) /\
    fs' = (p, DirEntry true) :: fs)).
Proof.
  unfold mkdir_if_absent. destruct (path_exists fs p) eqn:E.
  - intros [= <-]. split; [exact E|left; split; reflexivity].
  - unfold os_mkdir. unfold path_exists in E.
    destruct (fs_lookup fs p); [discriminate|].
    destruct (fs_lookup fs (parent_dir p)) as [[[|]|]|] eqn:Ep; try discriminate.
    intros [= <-]. split; [apply path_exists_cons|right; auto].
Qed.

(** When they fail, the directory does not exist and its parent is
    missing, a file, or a directory the process may not write to. *)
Lemma mkdir_if_absent_raise (p : string) (fs : fsys) (e : exn) :
  mkdir_if_absent p fs = Raise e ->
  path_exists fs p = false /\
  match fs_lookup fs (parent_dir p) with
  | None => e = FileNotFoundError
  | Some FileEntry => e = NotADirectoryError
  | Some (DirEntry w) => w = false /\ e = PermissionError
  end.
Proof.
  unfold mkdir_if_absent. destruct (path_exists fs p) eqn:E; [discriminate|].
  unfold os_mkdir. unfold path_exists in E. destruct (fs_lookup fs p); [discriminate|].
  intros Hm. split; [reflexivity|].
  destruct (fs_lookup fs (parent_dir p)) as [[[|]|]|]; first [discriminate | injection Hm as <-; auto].
Qed.

Lemma mkdir_if_absent_idem (p : string) (fs fs' : fsys) :
  mkdir_if_absent p fs = Ok fs' -> mkdir_if_absent p fs' = Ok fs'.
Proof.
  intros Hm. destruct (mkdir_if_absent_ok p fs fs' Hm) as [He _].
  unfold mkdir_if_absent. now rewrite He.
Qed.

Lemma module_setup_ok (args : Args.t) (g : Globals P) (ev : list mod_event) :
  module_setup args = Ok (g, ev) ->
  g_args g = args /\ g_checkpoint_dir g = checkpoint_dir py_str_float args /\
  exists train_data n_items n_users,
    ev = [PrintArgs args; PrintItems n_items; PrintUsers n_users] /\
    g_train_sampler g = init_pool (sampler_config args n_items) train_data rng (worker_seeds args).
Proof.
  unfold module_setup.
  destruct (data_generator args) as [[[[[tr va] te] ni] nu]|e]; simpl; [|discriminate].
  intros Heq. inversion Heq; subst. simpl. repeat split. eauto.
Qed.

(** [main()] from the initial state writes its checkpoints only to
    [checkpoint_dir + '/model.ckpt']. *)
Lemma main_of_globals_saves `{RecModel P} (args : Args.t) (g : Globals P) (ev : list mod_event)
    (fuel : nat) :
  module_setup args = Ok (g, ev) ->
  forallb (saves_into (checkpoint_dir py_str_float args)) (out (snd (main_of_globals g fuel))) = true.
Proof.
  intros Es. destruct (module_setup_ok args g ev Es) as (_ & Hcd & _). rewrite <- Hcd.
  destruct (main_saves (g_checkpoint_dir g) (g_args g) (g_val_data g) fuel
              (init_state (g_args g) (g_model g) (g_train_sampler g))) as (ext & Ho & Hf).
  unfold main_of_globals. rewrite Ho. exact Hf.
Qed.

(** ** Running train.py *)


(** The directory creation of lines 155-156 is idempotent: running
    the script again, on the file system the first run left, gives the
    same result and creates nothing more. *)
Lemma run_module_twice `{RecModel P} (args : Args.t) (fs : fsys) (fuel : nat) (g : Globals P)
    (ev : list mod_event) (fs' : fsys) (o : option (res outcome * TrainState P Pool)) :
  run_module "__main__" args fs fuel = Ok (g, ev, fs', o) ->
  run_module "__main__" args fs' fuel = Ok (g, ev, fs', o).
Proof.
  unfold run_module. destruct (module_setup args) as [[g0 ev0]|e]; simpl; [|discriminate].
  destruct (mkdir_if_absent (g_checkpoint_dir g0) fs) as [fs1|e] eqn:Em; simpl; [|discriminate].
  intros Heq. inversion Heq; subst. now rewrite (mkdir_if_absent_idem _ _ _ Em).
Qed.

(** ** Paths with a ['/'] *)

Lemma str_app_assoc (x y z : string) : ((x ++ y) ++ z = x ++ (y ++ z))%string.
Proof. induction x as [|c x IH]; cbn; [reflexivity|now rewrite IH]. Qed.

Lemma list_ascii_app (x y : string) :
  list_ascii_of_string (x ++ y) = list_ascii_of_string x ++ list_ascii_of_string y.
Proof. induction x as [|c x IH]; cbn; [reflexivity|now rewrite IH]. Qed.

Lemma has_char_app (c : ascii) (x y : string) :
  has_char c (x ++ y) = has_char c x || has_char c y.
Proof. induction x as [|a x IH]; cbn; [reflexivity|now rewrite IH, orb_assoc]. Qed.

Lemma has_char_In (c : ascii) (s : string) (x : ascii) :
  has_char c s = false -> In x (list_ascii_of_string s) -> Ascii.eqb x c = false.
Proof.
  induction s as [|a s IH]; cbn; [contradiction|]. intros Hs [<-|Hx];
    apply orb_false_iff in Hs as [Ha Hs]; [exact Ha|exact (IH Hs Hx)].
Qed.

Lemma drop_while_all (f : ascii -> bool) (l1 l2 : list ascii) :
  (forall x, In x l1 -> f x = true) -> drop_while f (l1 ++ l2) = drop_while f l2.
Proof.
  induction l1 as [|c l1 IH]; cbn; intros Hf; [reflexivity|].
  rewrite (Hf c (or_introl eq_refl)). apply IH. intros x Hx. exact (Hf x (or_intror Hx)).
Qed.

(** The parent of [a/b], for [a] and [b] without ['/'], is [a]. *)
Lemma parent_dir_split (a b : string) :
  a <> EmptyString -> has_char "/" a = false -> has_char "/" b = false ->
  parent_dir (a ++ String "/" b) = a.
Proof.
  intros Ha Hna Hnb. unfold parent_dir. rewrite list_ascii_app. cbn [list_ascii_of_string].
  rewrite rev_app_distr. cbn [rev]. rewrite <- app_assoc.
  rewrite drop_while_all by (intros x Hx; apply in_rev in Hx;
    unfold is_slash; now rewrite (has_char_In _ _ _ Hnb Hx)).
  cbn. destruct (rev (list_ascii_of_string a)) as [|c r] eqn:Er.
  - destruct a as [|c0 a']; [contradiction|]. cbn in Er. apply app_eq_nil in Er as [_ E]. discriminate.
  - assert (Hc : is_slash c = false).
    { unfold is_slash. apply (has_char_In _ a); [exact Hna|].
      rewrite <- (rev_involutive (list_ascii_of_string a)), Er. apply in_rev. rewrite rev_involutive. simpl. now left. }
    cbn. rewrite Hc. cbn iota. change (rev r ++ [c]) with (rev (c :: r)). rewrite <- Er, rev_involutive. apply string_of_list_ascii_of_string.
Qed.

Lemma uint_no_slash (d : Decimal.uint) : has_char "/" (NilEmpty.string_of_uint d) = false.
Proof. induction d; simpl; auto. Qed.

Lemma py_str_int_no_slash (z : Z) : has_char "/" (py_str_int z) = false.
Proof.
  unfold py_str_int, NilZero.string_of_int, NilZero.string_of_uint.
  destruct (Z.to_int z) as [d|d]; destruct d; simpl; first [reflexivity | apply uint_no_slash].
Qed.

(** C15: A [--data] that names a file in a directory ([d1/d2]) makes the
    checkpoint directory [save_d1/d2_<model>_...] a path inside
    [save_d1]; unless [save_d1] exists, [os.mkdir] of line 156 raises
    [FileNotFoundError] and the script ends before [main()] (spec §3
    calls [--data] a dataset name). *)
Theorem slash_data_no_training `{RecModel P} (args : Args.t) (fs : fsys) (fuel : nat)
    (d1 d2 : string) :
  is_ok (module_setup args) = true ->
  Args.data args = (d1 ++ String "/" d2)%string ->
  has_char "/" d1 = false -> has_char "/" d2 = false -> has_char "/" (Args.model args) = false ->
  (forall q, has_char "/" (py_str_float q) = false) ->
  path_exists fs (checkpoint_dir py_str_float args) = false ->
  fs_lookup fs ("save_" ++ d1)%string = None ->
  run_module "__main__" args fs fuel = Raise FileNotFoundError.
Proof.
  intros Hok Hd Hd1 Hd2 Hm Hf Hx Hp.
  set (rest := String.concat "_" [Args.model args; py_str_float (Args.lr args);
                 py_str_float (Args.l2_reg args); py_str_int (Args.emsize args);
                 py_str_float (Args.dropout args)]%string).
  assert (Hcd : (checkpoint_dir py_str_float args = ("save_" ++ d1) ++ String "/" (d2 ++ "_" ++ rest))%string).
  { unfold checkpoint_dir, checkpoint_parts, rest. rewrite Hd. cbn [String.concat].
    now rewrite !str_app_assoc. }
  assert (Hpar : parent_dir (checkpoint_dir py_str_float args) = ("save_" ++ d1)%string).
  { rewrite Hcd. apply parent_dir_split; [discriminate|exact Hd1|].
    rewrite !has_char_app. cbn [has_char Ascii.eqb]. rewrite Hd2. unfold rest. cbn [String.concat].
    rewrite !has_char_app, Hm, !Hf, py_str_int_no_slash. reflexivity. }
  unfold run_module. destruct (module_setup args) as [[g ev]|e] eqn:Es; [|discriminate].
  destruct (module_setup_ok args g ev Es) as (_ & Hg & _).
  cbn [bind Monad_res String.eqb Ascii.eqb Bool.eqb]. rewrite Hg.
  unfold mkdir_if_absent. rewrite Hx. unfold os_mkdir. unfold path_exists in Hx.
  destruct (fs_lookup fs (checkpoint_dir py_str_float args)); [discriminate|].
  now rewrite Hpar, Hp.
Qed.

(** C25: A program that imports train.py and calls [main()] gets no
    checkpoint directory from the module (lines 155-156 run only under
    [__main__]), yet every checkpoint [main] writes, on every path, goes
    to [checkpoint_dir + '/model.ckpt'] inside it. *)
Theorem imported_main_checkpoint_path `{RecModel P} (name : string) (args : Args.t)
    (fs : fsys) (fuel : nat) (g : Globals P) (ev : list mod_event) (fs' : fsys)
    (r : res outcome) (st : TrainState P Pool) :
  name <> "__main__"%string ->
  import_and_main name args fs fuel = Ok (g, ev, fs', (r, st)) ->
  fs' = fs /\ forallb (saves_into (checkpoint_dir py_str_float args)) (out st) = true.
Proof.
  intros Hn. unfold import_and_main, run_module.
  destruct (module_setup args) as [[g0 ev0]|e] eqn:Es; simpl; [|discriminate].
  apply String.eqb_neq in Hn. rewrite Hn. simpl. intros Heq. inversion Heq; subst.
  split; [reflexivity|].
  pose proof (main_of_globals_saves args g ev fuel Es) as Hsv.
  match goal with Hm : main_of_globals _ _ = _ |- _ => rewrite Hm in Hsv end. exact Hsv.
Qed.

End Module.

(** ** The sampler's life under [main] *)

Section PoolLifecycle.
Context {P : Type} `{RecModel P}.
Abbreviation TSP := (TrainState P Pool).

(** [st'] holds a sampler the pool of [st] can reach. *)
Definition sampler_reach (st st' : TSP) : Prop :=
  pool_reachable (train_sampler st) (train_sampler st').

#[export] Instance sampler_reach_PreOrder : PreOrder sampler_reach.
Proof.
  split; [intros st; apply rt1n_refl|].
  intros s1 s2 s3 H12 H23. exact (pool_reachable_trans _ _ _ H12 H23).
Qed.

Lemma emit_sampler (e : event P) : preserves sampler_reach (emit e).
Proof. intros st. apply rt1n_refl. Qed.

Lemma fetch_batch_sampler : preserves sampler_reach fetch_batch.
Proof.
  intros st. unfold fetch_batch, sampler_reach.
  destruct (next_batch (train_sampler st)) as [[b s']|e] eqn:En; simpl; [|apply rt1n_refl].
  exact (pool_next_batch_reachable _ _ _ En).
Qed.

Lemma close_sampler_reach : preserves sampler_reach close_sampler.
Proof.
  intros st. unfold sampler_reach. simpl.
  apply rt1n_trans with (y := close_pool (train_sampler st)); [apply step_close|apply rt1n_refl].
Qed.

#[local] Hint Resolve emit_sampler fetch_batch_sampler close_sampler_reach : pym.

Ltac sampler_field := apply rt1n_refl.

Lemma iteration_sampler (args : Args.t) (vd : list EvalBatch) (cd : string) :
  preserves sampler_reach (iteration args vd cd).
Proof.
  unfold iteration, train_step, log_block, eval_block, decide_block.
  pym_preserve; sampler_field.
Qed.

#[local] Hint Resolve iteration_sampler : pym.

Lemma main_loop_sampler (args : Args.t) (vd : list EvalBatch) (cd : string) (fuel : nat) :
  preserves sampler_reach (main_loop args vd cd fuel).
Proof.
  induction fuel as [|n IH]; cbn [main_loop]; [apply preserves_ret; typeclasses eauto|].
  apply preserves_bind; [typeclasses eauto|apply iteration_sampler|].
  intros [|]; [apply preserves_ret; typeclasses eauto|exact IH].
Qed.

#[local] Hint Resolve main_loop_sampler : pym.

Lemma main_sampler (args : Args.t) (vd : list EvalBatch) (cd : string) (fuel : nat) :
  preserves sampler_reach (main args vd cd fuel).
Proof.
  intros st.
  assert (Hb : preserves sampler_reach (main_body args vd cd fuel))
    by (unfold main_body; pym_preserve).
  specialize (Hb st). unfold main.
  destruct (main_body args vd cd fuel st) as [[o|[]] st'] eqn:E; exact Hb.
Qed.
(** The sampler after [close()] on a pool reached from [Sampler(...)]. *)
Lemma closed_after_close (cfg : SamplerConfig) (data : UserSeqs) (rng : Z -> Z)
    (seeds : list Z) (s : Pool) :
  (1 <= n_items cfg)%Z -> List.length seeds = n_workers cfg ->
  pool_reachable (init_pool cfg data rng seeds) s ->
  closed (close_pool s) = true /\ rngs (close_pool s) = [] /\
  released (close_pool s) = n_workers cfg.
Proof.
  intros Hn Hl Hr.
  destruct (close_pool_inv cfg s (pool_reachable_inv_gen cfg Hn _ _
              (init_pool_inv cfg data rng seeds Hl) Hr)) as (_ & Hc & Hrs & Hrel & _).
  auto.
Qed.

(** C26: With the sampler pool of Sampler.v, [main] joins every worker
    exactly once on both of its orderly exits: after [break] and after
    an [Exception] in the loop, the sampler is closed, no worker is live
    and [n_workers] have been joined; on every path the sampler [main]
    leaves is a state the pool can reach from the one it was given. *)
Theorem main_joins_workers (cfg : SamplerConfig) (data : UserSeqs) (rng : Z -> Z)
    (seeds : list Z) (args : Args.t) (vd : list EvalBatch) (cd : string) (fuel : nat)
    (st st' : TSP) (r : res outcome) :
  (1 <= n_items cfg)%Z -> List.length seeds = n_workers cfg ->
  pool_reachable (init_pool cfg data rng seeds) (train_sampler st) ->
  main args vd cd fuel st = (r, st') ->
  sampler_reach st st' /\
  match fst (main_loop args vd cd fuel (snd (emit StartMsg st))) with
  | Ok Broke =>
      closed (train_sampler st') = true /\ rngs (train_sampler st') = [] /\
      released (train_sampler st') = n_workers cfg
  | Raise e =>
      is_Exception e = true ->
      closed (train_sampler st') = true /\ rngs (train_sampler st') = [] /\
      released (train_sampler st') = n_workers cfg
  | Ok OutOfFuel => True
  end.
Proof.
  intros Hn Hl Hr Hm.
  pose proof (main_sampler args vd cd fuel st) as Hs. rewrite Hm in Hs.
  split; [exact Hs|].
  pose proof (main_loop_sampler args vd cd fuel (snd (emit StartMsg st))) as Hl2.
  unfold main, main_body, try_except in Hm. cbn -[main_loop] in Hm.
  revert Hl2 Hm.
  change (snd (emit StartMsg st)) with
    (mkTrainState (lr st) (all_val_hit st) (early_stop_cn st) (step_count st)
       (train_loss_l st) (sess st) (train_sampler st) (out st ++ [StartMsg])).
  destruct (main_loop args vd cd fuel _) as [[[|]|e] st2] eqn:E;
    intros Hl2 Hm; unfold sampler_reach in Hl2; cbn in Hl2, Hm |- *.
  - inversion Hm; subst. cbn. exact (closed_after_close _ _ _ _ _ Hn Hl (pool_reachable_trans _ _ _ Hr Hl2)).
  - exact I.
  - intros Hex. rewrite Hex in Hm. cbn in Hm. inversion Hm; subst. cbn.
    exact (closed_after_close _ _ _ _ _ Hn Hl (pool_reachable_trans _ _ _ Hr Hl2)).
Qed.
End PoolLifecycle.

(** ** A concrete run of the module, for the witnesses

    A two-user data set, the toy ranker of Evaluate.v as the model, the
    generator of Sampler.v, logging and evaluation at every step. *)
Module Demo.
Import ToyRanker.

#[export] Instance demo_loader : DataLoader := {
  data_generator _ :=
    Ok ([(1, [1; 2; 3; 4]); (2, [5; 6; 7])]%Z, [mkEvalInstance 1 [1; 2; 3] 5]%Z, [], 8%Z, 2%Z)
}.

#[export] Instance demo_init : ModelInit (list Z) := {
  initial_params _ _ _ := [5; 9; 3]%Z
}.

Definition demo_args : Args.t := {|
  Args.model := "tcn"; Args.batch_size := 2; Args.seq_len := 3;
  Args.dropout := 2 # 10; Args.l2_reg := 0; Args.clip := 1; Args.epochs := 20;
  Args.lr := 1 # 1000; Args.emsize := 100; Args.neg_size := 1; Args.worker := 2;
  Args.nhid := 100; Args.levels := 3; Args.seed := 1111; Args.loss := "ns";
  Args.data := "demo"; Args.log_interval := 1; Args.eval_interval := 1;
  Args.ksize := 3; Args.num_blocks := 3; Args.num_heads := 2; Args.pos_fixed := 0
|}%string%Z.

Definition demo_run_module (name : string) (fs : fsys) :=
  run_module default_float_str lcg Z.of_nat 4 10 name demo_args fs 3.

(** A working directory the process may write to, and one it may not. *)
Definition demo_fs : fsys := [(".", DirEntry true)]%string.
Definition ro_fs : fsys := [(".", DirEntry false)]%string.

Definition demo_dummy : Globals (list Z) * list mod_event * fsys :=
  (mkGlobals demo_args (init_pool cfg_spec [] lcg []) [] [] EmptyString [] 0, [], []).

Definition demo_setup : res (Globals (list Z) * list mod_event) :=
  module_setup default_float_str lcg Z.of_nat 4 10 demo_args.

Definition demo_g : Globals (list Z) := fst (res_get (fst (fst demo_dummy), []) demo_setup).
Definition demo_ev : list mod_event := snd (res_get (fst (fst demo_dummy), []) demo_setup).

Definition demo_import :=
  import_and_main default_float_str lcg Z.of_nat 4 10 "train" demo_args [] 3.

Definition demo_import_result :=
  res_get (demo_dummy, (Raise ValueError, init_state demo_args [] (init_pool cfg_spec [] lcg [])))
    demo_import.
End Demo.
Import Demo ToyRanker.

Lemma demo_setup_ok : demo_setup = Ok (demo_g, demo_ev).
Proof.
  rewrite (res_get_ok (fst (fst demo_dummy), []) demo_setup) at 1 by (vm_compute; reflexivity).
  unfold demo_g, demo_ev. destruct (res_get _ demo_setup). reflexivity.
Qed.


Lemma default_float_str_no_slash (q : Q) : has_char "/" (default_float_str q) = false.
Proof.
  unfold default_float_str.
  destruct (Qeq_bool q (1 # 1000)), (Qeq_bool q (2 # 10)), (Qeq_bool q 0); reflexivity.
Qed.

(** [demo_args] with [--data ml/1m]. *)
Definition slash_args : Args.t := {|
  Args.model := "tcn"; Args.batch_size := 2; Args.seq_len := 3;
  Args.dropout := 2 # 10; Args.l2_reg := 0; Args.clip := 1; Args.epochs := 20;
  Args.lr := 1 # 1000; Args.emsize := 100; Args.neg_size := 1; Args.worker := 2;
  Args.nhid := 100; Args.levels := 3; Args.seed := 1111; Args.loss := "ns";
  Args.data := "ml/1m"; Args.log_interval := 1; Args.eval_interval := 1;
  Args.ksize := 3; Args.num_blocks := 3; Args.num_heads := 2; Args.pos_fixed := 0
|}%string%Z.

(** In a working directory without [save_ml], [--data ml/1m] ends the
    script with [FileNotFoundError]. *)
Lemma slash_data_no_training_witness :
  Args.data slash_args = ("ml" ++ String "/" "1m")%string /\
  fs_lookup demo_fs "save_ml" = None /\
  run_module default_float_str lcg Z.of_nat 4 10 "__main__" slash_args demo_fs 3 = Raise FileNotFoundError.
Proof.
  split; [reflexivity|]. split; [reflexivity|].
  apply (slash_data_no_training default_float_str lcg Z.of_nat 4 10 slash_args demo_fs 3 "ml" "1m");
    first [vm_compute; reflexivity | apply default_float_str_no_slash].
Defined.

Lemma imported_main_checkpoint_path_witness :
  "train"%string <> "__main__"%string /\
  demo_import = Ok (fst (fst (fst demo_import_result)), snd (fst (fst demo_import_result)),
                    snd (fst demo_import_result),
                    (fst (snd demo_import_result), snd (snd demo_import_result))) /\
  snd (fst demo_import_result) = [] /\
  existsb is_saved (out (snd (snd demo_import_result))) = true /\
  forallb (saves_into (checkpoint_dir default_float_str demo_args))
    (out (snd (snd demo_import_result))) = true.
Proof.
  assert (Hn : "train"%string <> "__main__"%string) by discriminate.
  assert (He : demo_import =
            Ok (fst (fst (fst demo_import_result)), snd (fst (fst demo_import_result)),
                snd (fst demo_import_result),
                (fst (snd demo_import_result), snd (snd demo_import_result)))).
  { rewrite (res_get_ok (demo_dummy, (Raise ValueError,
                          init_state demo_args [] (init_pool cfg_spec [] lcg []))) demo_import) at 1
      by (vm_compute; reflexivity).
    unfold demo_import_result. destruct (res_get _ demo_import) as [[[g ev] fs'] [r st]].
    reflexivity. }
  assert (Hs : existsb is_saved (out (snd (snd demo_import_result))) = true) by (vm_compute; reflexivity).
  destruct (imported_main_checkpoint_path _ _ _ _ _ _ _ _ _ _ _ _ _ _ Hn He) as [Hfs Hf].
  split; [exact Hn|]. split; [exact He|]. split; [exact Hfs|]. split; [exact Hs|exact Hf].
Defined.

Definition demo_pool : Pool :=
  init_pool (sampler_config 4 10 demo_args 8) [(1, [1; 2; 3; 4]); (2, [5; 6; 7])]%Z lcg
    (worker_seeds Z.of_nat demo_args).

Definition demo_val : list EvalBatch :=
  match prepare_eval_test [mkEvalInstance 1 [1; 2; 3] 5]%Z 100 20 with Ok b => b | Raise _ => [] end.

Definition demo_st : TrainState (list Z) Pool := init_state demo_args [5; 9; 3]%Z demo_pool.

(** With a validation hit that never changes, the third evaluation breaks
    the loop; the sampler is then closed with both workers joined. *)
Lemma main_joins_workers_witness :
  (1 <= n_items (sampler_config 4 10 demo_args 8))%Z /\
  List.length (worker_seeds Z.of_nat demo_args) = n_workers (sampler_config 4 10 demo_args 8) /\
  pool_reachable demo_pool (train_sampler demo_st) /\
  (main demo_args demo_val "save_demo" 3 demo_st) = (fst (main demo_args demo_val "save_demo" 3 demo_st), snd (main demo_args demo_val "save_demo" 3 demo_st)) /\
  sampler_reach demo_st (snd (main demo_args demo_val "save_demo" 3 demo_st)) /\
  match fst (main_loop demo_args demo_val "save_demo" 3 (snd (emit StartMsg demo_st))) with
  | Ok Broke =>
      closed (train_sampler (snd (main demo_args demo_val "save_demo" 3 demo_st))) = true /\ rngs (train_sampler (snd (main demo_args demo_val "save_demo" 3 demo_st))) = [] /\
      released (train_sampler (snd (main demo_args demo_val "save_demo" 3 demo_st))) = n_workers (sampler_config 4 10 demo_args 8)
  | Raise e =>
      is_Exception e = true ->
      closed (train_sampler (snd (main demo_args demo_val "save_demo" 3 demo_st))) = true /\ rngs (train_sampler (snd (main demo_args demo_val "save_demo" 3 demo_st))) = [] /\
      released (train_sampler (snd (main demo_args demo_val "save_demo" 3 demo_st))) = n_workers (sampler_config 4 10 demo_args 8)
  | Ok OutOfFuel => True
  end.
Proof.
  assert (Hn : (1 <= n_items (sampler_config 4 10 demo_args 8))%Z) by (vm_compute; discriminate).
  assert (Hl : List.length (worker_seeds Z.of_nat demo_args) =
               n_workers (sampler_config 4 10 demo_args 8)) by reflexivity.
  assert (Hr : pool_reachable demo_pool (train_sampler demo_st)) by apply rt1n_refl.
  assert (Hm : (main demo_args demo_val "save_demo" 3 demo_st) = (fst (main demo_args demo_val "save_demo" 3 demo_st), snd (main demo_args demo_val "save_demo" 3 demo_st))) by apply surjective_pairing.
  split; [exact Hn|]. split; [exact Hl|]. split; [exact Hr|]. split; [exact Hm|].
  exact (main_joins_workers _ _ _ _ _ _ _ _ _ _ _ Hn Hl Hr Hm).
Defined.
