(* ===== verification/DataIndex.v ===== *)
(** * The dataset index: [data_generator] (utils.py, spec §3, §4.1)

    train.py line 53 loads the data with [data_generator(args)], which
    returns the training split, the validation and test instances,
    [n_items] and [n_users].  utils.py is not part of the sources; its
    contract (spec §4.1, §3) is modelled here on the already parsed
    source, one [(user, items)] pair per user (reading the files is I/O):
    - the source is malformed ([DataError]) when it lists no user, a
      negative user id, an item id that is not positive (0 is the padding
      item of the windows) or a user twice;
    - a user with fewer than [min_seq_len = 3] interactions is a
      [DataError] (one training item, one validation and one test target);
    - otherwise each sequence is split leave-one-out, the split the spec
      names as its example: the training split keeps all but the last two
      items, the validation instance predicts the second-to-last item
      from them, the test instance the last item from all before it;
      [n_items] and [n_users] are the largest ids ([n_users] counts ids
      from 0).
    [index_loader] makes [load] an instance of the [DataLoader] interface
    of Program.v for a file system mapping each dataset name to its
    source.  The theorems are stated on the module body of Program.v
    with this loader: it partitions every sequence between the pool, the
    validation rows and the test instances (C33); every id lies in the
    ranges the pool and the model are built with (C34); the lemma
    [module_setup_index] shows it fails exactly on malformed or short
    sources, with [DataError], which it raises before building anything,
    and otherwise builds the pool over the training split. *)

From Stdlib Require Import List ZArith QArith Lia String Bool.
From S2P Require Import Prelude Interfaces Config Evaluate EvalData Sampler Program.
Import ListNotations.

(** The parsed source: each user with its items in chronological order. *)
Definition RawData : Type := list (Z * list Z).

(** One training item, the validation target and the test target. *)
Definition min_seq_len : nat := 3.

Fixpoint nodupb (l : list Z) : bool :=
  match l with
  | [] => true
  | x :: r => negb (existsb (Z.eqb x) r) && nodupb r
  end.

Definition well_formed (src : RawData) : bool :=
  negb (List.length src =? 0)%nat &&
  forallb (fun e => (0 <=? fst e)%Z && forallb (fun i => (0 <? i)%Z) (snd e)) src &&
  nodupb (map fst src).

Definition long_enough (src : RawData) : bool :=
  forallb (fun e => (min_seq_len <=? List.length (snd e))%nat) src.

(** Leave-one-out: all but the last two items for training. *)
Definition train_part (s : list Z) : list Z := firstn (List.length s - 2) s.

Definition val_instance (u : Z) (s : list Z) : EvalInstance :=
  mkEvalInstance u (train_part s) (nth (List.length s - 2) s pad_item).

Definition test_instance (u : Z) (s : list Z) : EvalInstance :=
  mkEvalInstance u (firstn (List.length s - 1) s) (nth (List.length s - 1) s pad_item).

Definition max_list (l : list Z) : Z := fold_left Z.max l 0%Z.

Definition n_items_of (src : RawData) : Z := max_list (flat_map snd src).

Definition n_users_of (src : RawData) : Z := (max_list (map fst src) + 1)%Z.

Definition load (src : RawData) : res (UserSeqs * list EvalInstance * list EvalInstance * Z * Z) :=
  if negb (well_formed src) then Raise (DataError "malformed source")
  else if negb (long_enough src) then Raise (DataError "sequence too short for a split")
  else Ok (map (fun e => (fst e, train_part (snd e))) src,
           map (fun e => val_instance (fst e) (snd e)) src,
           map (fun e => test_instance (fst e) (snd e)) src,
           n_items_of src, n_users_of src).

(** [data_generator(args)] reads the source of the dataset [args.data]. *)
Definition index_loader (source : string -> RawData) : DataLoader :=
  {| data_generator := fun args => load (source (Args.data args)) |}.

(** ** Lemmas *)

Lemma load_ok_inv (src : RawData) r :
  load src = Ok r ->
  well_formed src = true /\ long_enough src = true /\
  r = (map (fun e => (fst e, train_part (snd e))) src,
       map (fun e => val_instance (fst e) (snd e)) src,
       map (fun e => test_instance (fst e) (snd e)) src,
       n_items_of src, n_users_of src).
Proof.
  unfold load. destruct (well_formed src), (long_enough src); cbn; try discriminate.
  injection 1 as <-. auto.
Qed.

(** A sequence of at least two items ends with two items. *)
Lemma last_two {A : Type} (s : list A) :
  (2 <= List.length s)%nat -> exists t x y, s = t ++ [x; y].
Proof.
  intros Hl. rewrite <- (rev_involutive s) in Hl |- *. rewrite length_rev in Hl.
  destruct (rev s) as [|y [|x r]]; cbn in Hl; try lia.
  exists (rev r), x, y. cbn. now rewrite <- app_assoc.
Qed.

(** What leave-one-out takes from [t ++ [x; y]]. *)
Lemma leave_one_out (t : list Z) (x y : Z) :
  train_part (t ++ [x; y]) = t /\ nth (List.length (t ++ [x; y]) - 2) (t ++ [x; y]) pad_item = x /\
  firstn (List.length (t ++ [x; y]) - 1) (t ++ [x; y]) = t ++ [x] /\
  nth (List.length (t ++ [x; y]) - 1) (t ++ [x; y]) pad_item = y.
Proof.
  unfold train_part. rewrite length_app. cbn [List.length].
  replace (List.length t + 2 - 2)%nat with (List.length t) by lia.
  replace (List.length t + 2 - 1)%nat with (S (List.length t)) by lia.
  rewrite firstn_app, firstn_all, Nat.sub_diag, firstn_O, app_nil_r.
  rewrite app_nth2, Nat.sub_diag by lia. rewrite (app_nth2 t), Nat.sub_succ_l, Nat.sub_diag by lia.
  rewrite firstn_app, firstn_all2 by lia. replace (S (List.length t) - List.length t)%nat with 1%nat by lia.
  repeat split; reflexivity.
Qed.

Lemma long_enough_In (src : RawData) (e : Z * list Z) :
  long_enough src = true -> In e src -> (min_seq_len <= List.length (snd e))%nat.
Proof. intros H He. apply Nat.leb_le. exact (proj1 (forallb_forall _ _) H e He). Qed.

Lemma well_formed_In (src : RawData) (e : Z * list Z) :
  well_formed src = true -> In e src -> (0 <= fst e)%Z /\ Forall (fun i => 0 < i)%Z (snd e).
Proof.
  unfold well_formed. intros H He. apply andb_prop in H as [H _]. apply andb_prop in H as [_ H].
  pose proof (proj1 (forallb_forall _ _) H e He) as Hb. apply andb_prop in Hb as [Hu Hi].
  split; [now apply Z.leb_le|]. apply Forall_forall. intros i Hin.
  apply Z.ltb_lt. exact (proj1 (forallb_forall _ _) Hi i Hin).
Qed.

Lemma fold_max_ge_acc (l : list Z) (a : Z) : (a <= fold_left Z.max l a)%Z.
Proof. revert a. induction l as [|x l IH]; intros a; cbn; [lia|]. specialize (IH (Z.max a x)). lia. Qed.

Lemma max_list_ge (l : list Z) (x : Z) : In x l -> (x <= max_list l)%Z.
Proof.
  unfold max_list. generalize 0%Z. induction l as [|y l IH]; intros a Hx; cbn in *; [contradiction|].
  destruct Hx as [<-|Hx]; [|exact (IH _ Hx)].
  pose proof (fold_max_ge_acc l (Z.max a y)). lia.
Qed.

Lemma nth_error_map_pair {A B : Type} (f : A -> B) (l : list A) (i : nat) (x : A) :
  nth_error l i = Some x -> nth_error (map f l) i = Some (f x).
Proof. intros H. now rewrite nth_error_map, H. Qed.

(** ** What [load] returns *)

(** When [load] succeeds its three splits partition every user's
    sequence, in the order of the source. *)
Lemma load_partition (src : RawData) (tr : UserSeqs) (va te : list EvalInstance) (ni nu : Z) :
  load src = Ok (tr, va, te, ni, nu) ->
  List.length tr = List.length src /\ List.length va = List.length src /\
  List.length te = List.length src /\
  forall i u s, nth_error src i = Some (u, s) ->
  exists t x y, s = t ++ [x; y] /\ nth_error tr i = Some (u, t) /\
    nth_error va i = Some (mkEvalInstance u t x) /\
    nth_error te i = Some (mkEvalInstance u (t ++ [x]) y).
Proof.
  intros H. apply load_ok_inv in H as (_ & Hl & Heq). injection Heq as -> -> -> _ _.
  rewrite !length_map. repeat split; [reflexivity..|]. intros i u s Hi.
  pose proof (long_enough_In src (u, s) Hl (nth_error_In _ _ Hi)) as Hn. cbn in Hn.
  destruct (last_two s) as (t & x & y & ->); [unfold min_seq_len in Hn; lia|].
  destruct (leave_one_out t x y) as (H1 & H2 & H3 & H4).
  exists t, x, y. split; [reflexivity|].
  rewrite (nth_error_map_pair _ _ _ _ Hi), (nth_error_map_pair _ _ _ _ Hi), (nth_error_map_pair _ _ _ _ Hi).
  cbn [fst snd]. unfold val_instance, test_instance. now rewrite H1, H2, H3, H4.
Qed.

(** Every item of a split is an item of the user's sequence. *)
Lemma split_items_In (s : list Z) (i : Z) :
  (2 <= List.length s)%nat ->
  (In i (train_part s) -> In i s) /\ (In i (firstn (List.length s - 1) s) -> In i s) /\
  In (nth (List.length s - 2) s pad_item) s /\ In (nth (List.length s - 1) s pad_item) s.
Proof.
  intros Hl. unfold train_part. repeat split; try apply In_firstn_l; apply nth_In; lia.
Qed.

(** The ids of a user and its items lie in the ranges [n_users] and
    [n_items] give. *)
Definition in_ranges (ni nu : Z) (u : Z) (items : list Z) : Prop :=
  (0 <= u < nu)%Z /\ Forall (fun i => 1 <= i <= ni)%Z items.

Lemma in_ranges_incl (ni nu u : Z) (s s' : list Z) :
  in_ranges ni nu u s -> (forall i, In i s' -> In i s) -> in_ranges ni nu u s'.
Proof.
  intros [Hu Hs] Hincl. split; [exact Hu|]. apply Forall_forall. intros i Hi.
  exact (proj1 (Forall_forall _ _) Hs i (Hincl i Hi)).
Qed.

Lemma src_ranges (src : RawData) (u : Z) (s : list Z) :
  well_formed src = true -> In (u, s) src -> in_ranges (n_items_of src) (n_users_of src) u s.
Proof.
  intros Hw Hin. destruct (well_formed_In src (u, s) Hw Hin) as [Hu Hs]. cbn in Hu, Hs.
  split.
  - pose proof (max_list_ge (map fst src) u (in_map fst _ _ Hin)). unfold n_users_of. lia.
  - apply Forall_forall. intros i Hi. pose proof (proj1 (Forall_forall _ _) Hs i Hi).
    pose proof (max_list_ge (flat_map snd src) i (proj2 (in_flat_map _ _ _) (ex_intro _ (u, s) (conj Hin Hi)))).
    unfold n_items_of. cbv beta in *. lia.
Qed.

(** When [load] succeeds every id of its splits is in the ranges it
    returns. *)
Lemma load_ranges (src : RawData) (tr : UserSeqs) (va te : list EvalInstance) (ni nu : Z) :
  load src = Ok (tr, va, te, ni, nu) ->
  Forall (fun e => in_ranges ni nu (fst e) (snd e)) tr /\
  Forall (fun v => in_ranges ni nu (inst_user v) (inst_target v :: inst_hist v)) (va ++ te).
Proof.
  intros H. apply load_ok_inv in H as (Hw & Hl & Heq). injection Heq as -> -> -> -> ->.
  split; [|apply Forall_app; split]; apply Forall_map, Forall_forall; intros [u s] Hin;
    pose proof (src_ranges src u s Hw Hin) as Hr;
    pose proof (long_enough_In src (u, s) Hl Hin) as Hn; cbn [fst snd] in Hn |- *;
    unfold min_seq_len in Hn; assert (H2l : (2 <= List.length s)%nat) by lia;
    apply (in_ranges_incl _ _ _ s _ Hr); intros i Hi;
    destruct (split_items_In s i H2l) as (H1 & H2 & H3 & H4);
    [exact (H1 Hi)| |]; destruct Hi as [<-|Hi]; auto.
Qed.

(** [load] fails exactly on a malformed or short source, with
    [DataError]. *)
Lemma load_errors (src : RawData) :
  match load src with
  | Ok _ => well_formed src = true /\ long_enough src = true
  | Raise e => (exists m, e = DataError m) /\ (well_formed src = false \/ long_enough src = false)
  end.
Proof.
  unfold load. destruct (well_formed src), (long_enough src); cbn; eauto.
Qed.

(** ** The module body with the index *)

Section IndexedModule.
Context {P : Type} `{ModelInit P}.
Variable py_str_float : Q -> string.
Variable rng : Z -> Z.
Variable worker_seed : nat -> Z.
Variable queue_size retries : nat.
Variable source : string -> RawData.

Lemma module_setup_index_inv (args : Args.t) (g : Globals P) (ev : list mod_event) :
  @module_setup (index_loader source) P _ py_str_float rng worker_seed queue_size retries args
    = Ok (g, ev) ->
  exists va ni nu,
    load (source (Args.data args)) = Ok (p_data (g_train_sampler g), va, g_test_data g, ni, nu) /\
    g_val_data g = map (to_eval_batch 20) (chunk 99 va) /\ n_items (p_cfg (g_train_sampler g)) = ni /\
    ev = [PrintArgs args; PrintItems ni; PrintUsers nu].
Proof.
  unfold module_setup. cbn [data_generator index_loader].
  destruct (load (source (Args.data args))) as [[[[[tr va] te] ni] nu]|e]; [|discriminate].
  cbn. injection 1 as <- <-. exists va, ni, nu. repeat split.
Qed.

(** C33: With the index as [data_generator], the module body (lines
    50-76) partitions every user's sequence of the dataset [args.data],
    in source order: the [i]-th sequence is [t ++ [x; y]], where [t] is
    the user's sequence in the sampler pool, the [i]-th row of the
    validation batches is the window of [t] (padded to 20) with target
    [x], and the [i]-th test instance predicts [y] from [t ++ [x]]. *)
Theorem module_setup_partition (args : Args.t) (g : Globals P) (ev : list mod_event) :
  @module_setup (index_loader source) P _ py_str_float rng worker_seed queue_size retries args
    = Ok (g, ev) ->
  List.length (p_data (g_train_sampler g)) = List.length (source (Args.data args)) /\
  List.length (g_test_data g) = List.length (source (Args.data args)) /\
  forall i u s, nth_error (source (Args.data args)) i = Some (u, s) ->
  exists t x y, s = t ++ [x; y] /\ nth_error (p_data (g_train_sampler g)) i = Some (u, t) /\
    nth_error (all_rows (g_val_data g)) i = Some (pad_window 20 t, x) /\
    nth_error (g_test_data g) i = Some (mkEvalInstance u (t ++ [x]) y).
Proof.
  intros Hm. destruct (module_setup_index_inv args g ev Hm) as (va & ni & nu & Hl & Hv & _ & _).
  destruct (load_partition _ _ _ _ _ _ Hl) as (H1 & H2 & H3 & Hp).
  split; [exact H1|split; [exact H3|]]. intros i u s Hi.
  destruct (Hp i u s Hi) as (t & x & y & Hs & Ht & Hva & Hte).
  exists t, x, y. repeat split; try assumption.
  rewrite Hv, all_rows_chunks, nth_error_map, Hva. reflexivity.
Qed.

(** C34: With the index as [data_generator], every item of the sampler
    pool's sequences and of the test instances is in [[1, n_items]] for
    the [n_items] the pool draws negatives from, and every user id in
    [[0, n_users)] for the [n_users] the module prints and builds the
    model with: the ranges are consistent across the splits (spec §3). *)
Theorem module_setup_ranges (args : Args.t) (g : Globals P) (ev : list mod_event) :
  @module_setup (index_loader source) P _ py_str_float rng worker_seed queue_size retries args
    = Ok (g, ev) ->
  exists nu, In (PrintUsers nu) ev /\
  Forall (fun e => in_ranges (n_items (p_cfg (g_train_sampler g))) nu (fst e) (snd e))
    (p_data (g_train_sampler g)) /\
  Forall (fun v => in_ranges (n_items (p_cfg (g_train_sampler g))) nu (inst_user v)
                     (inst_target v :: inst_hist v)) (g_test_data g).
Proof.
  intros Hm. destruct (module_setup_index_inv args g ev Hm) as (va & ni & nu & Hl & _ & Hn & Hev).
  destruct (load_ranges _ _ _ _ _ _ Hl) as [Htr Hvt]. rewrite Hn.
  exists nu. split; [rewrite Hev; right; right; now left|]. split; [exact Htr|].
  apply Forall_app in Hvt as [_ Hte]. exact Hte.
Qed.

(** With the index as [data_generator], the module body fails
    exactly when the source of [args.data] is malformed or has a user of
    fewer than three interactions, and then with [DataError] (spec §4.1,
    §7); otherwise it returns its globals. *)
Theorem module_setup_errors (args : Args.t) :
  match @module_setup (index_loader source) P _ py_str_float rng worker_seed queue_size retries args with
  | Ok _ => well_formed (source (Args.data args)) = true /\ long_enough (source (Args.data args)) = true
  | Raise e => (exists m, e = DataError m) /\
               (well_formed (source (Args.data args)) = false \/ long_enough (source (Args.data args)) = false)
  end.
Proof.
  pose proof (load_errors (source (Args.data args))) as He.
  unfold module_setup. cbn [data_generator index_loader].
  destruct (load (source (Args.data args))) as [[[[[tr va] te] ni] nu]|e]; exact He.
Qed.

(** With [data_generator] the index over the dataset [args.data],
    the module body (lines 50-76) raises the error of [load] before
    building anything (spec §7: surfaced before training starts), and
    that error is a [DataError] raised exactly when the source is
    malformed or has a user of fewer than three interactions; when
    [load] succeeds it builds the sampler pool over the training split
    with [n_items] of the index, keeps the test split, and prints
    [n_items] and [n_users]. *)
Lemma module_setup_index (args : Args.t) :
  match load (source (Args.data args)) with
  | Raise e => @module_setup (index_loader source) P _ py_str_float rng worker_seed queue_size retries args
               = Raise e /\ (exists m, e = DataError m) /\
               (well_formed (source (Args.data args)) = false \/ long_enough (source (Args.data args)) = false)
  | Ok (tr, va, te, ni, nu) =>
      exists g, @module_setup (index_loader source) P _ py_str_float rng worker_seed queue_size retries args
                = Ok (g, [PrintArgs args; PrintItems ni; PrintUsers nu]) /\
        p_data (g_train_sampler g) = tr /\ n_items (p_cfg (g_train_sampler g)) = ni /\
        g_test_data g = te
  end.
Proof.
  pose proof (load_errors (source (Args.data args))) as He.
  unfold module_setup. cbn [data_generator index_loader].
  destruct (load (source (Args.data args))) as [[[[[tr va] te] ni] nu]|e]; [|split; [reflexivity|exact He]].
  eexists. split; [reflexivity|]. repeat split.
Qed.
End IndexedModule.

(** ** Witnesses *)

(** Two users, of three and four interactions. *)
Definition src2 : RawData := [(0, [1; 2; 3]); (1, [4; 2; 5; 6])]%Z.

(** The module body over the index when every dataset name reads
    [src2], with the demo model of Program.v. *)
Definition source2 (_ : string) : RawData := src2.

Definition setup2 : res (Globals (list Z) * list mod_event) :=
  @module_setup (index_loader source2) (list Z) Demo.demo_init default_float_str lcg Z.of_nat 4 10
    Demo.demo_args.

Definition globals2 : Globals (list Z) * list mod_event := res_get (fst Demo.demo_dummy) setup2.

Lemma module_setup_partition_witness :
  setup2 = Ok (fst globals2, snd globals2) /\
  List.length (p_data (g_train_sampler (fst globals2))) = List.length (source2 (Args.data Demo.demo_args)) /\
  List.length (g_test_data (fst globals2)) = List.length (source2 (Args.data Demo.demo_args)) /\
  forall i u s, nth_error (source2 (Args.data Demo.demo_args)) i = Some (u, s) ->
  exists t x y, s = t ++ [x; y] /\ nth_error (p_data (g_train_sampler (fst globals2))) i = Some (u, t) /\
    nth_error (all_rows (g_val_data (fst globals2))) i = Some (pad_window 20 t, x) /\
    nth_error (g_test_data (fst globals2)) i = Some (mkEvalInstance u (t ++ [x]) y).
Proof.
  assert (H : setup2 = Ok (fst globals2, snd globals2))
    by (rewrite <- surjective_pairing; apply res_get_ok; vm_compute; reflexivity).
  split; [exact H|].
  exact (module_setup_partition default_float_str lcg Z.of_nat 4 10 source2 Demo.demo_args _ _ H).
Defined.

Lemma module_setup_ranges_witness :
  setup2 = Ok (fst globals2, snd globals2) /\
  exists nu, In (PrintUsers nu) (snd globals2) /\
  Forall (fun e => in_ranges (n_items (p_cfg (g_train_sampler (fst globals2)))) nu (fst e) (snd e))
    (p_data (g_train_sampler (fst globals2))) /\
  Forall (fun v => in_ranges (n_items (p_cfg (g_train_sampler (fst globals2)))) nu (inst_user v)
                     (inst_target v :: inst_hist v)) (g_test_data (fst globals2)).
Proof.
  assert (H : setup2 = Ok (fst globals2, snd globals2))
    by (rewrite <- surjective_pairing; apply res_get_ok; vm_compute; reflexivity).
  split; [exact H|].
  exact (module_setup_ranges default_float_str lcg Z.of_nat 4 10 source2 Demo.demo_args _ _ H).
Defined.
