(* ===== verification/Process.v ===== *)
(** * The process: [python train.py <argv>], and what of the configuration the loop reads

    Two compositions of the components of the other files.
    - [main] reads the configuration only through [args.dropout],
      [args.log_interval] and [args.eval_interval] (C14, Controller.v);
      its witness runs the scripted scenario under two values of
      [--epochs].
    - [run_script how argv fs fuel] is the process.  Started as a file
      ([AsFile], [python train.py]) it stops at the relative import of
      line 14 ([from .model import ...] outside a package) with an
      [ImportError], status 1.  Started as a module ([AsModule],
      [python -m <package>.train]) it runs
      [parse_args] on the command line (line 50, ArgParse.v), the
      namespace read as [Args.t] ([to_args]), the module body over the
      dataset index of DataIndex.v and the [__main__] block
      ([run_module], Program.v: the checkpoint directory, then [main()]
      with [fuel] passes of its loop) on the file system [fs].  A
      [proc_end] is how the process ends: a status ([exit_status] for an
      exception that escapes, [end_of_main] for [main()]'s result) with
      the paths that exist, still training when the passes ran out, or
      [Unrepresented] for a namespace value [Args.t] cannot hold.  Its
      outcomes (C32): status 1 at the import when started as a file; a
      usage error (status 2) or [-h] (status 0) before anything runs, a
      [DataError] (status 1) with the file system untouched, an [OSError]
      of [os.mkdir] (status 1) when the checkpoint directory is absent
      and its parent is not a writable directory, or the end of [main()]
      after the checkpoint directory was created. *)

From Stdlib Require Import List String ZArith QArith Lia.
From S2P Require Import Prelude Interfaces Config ArgParse Evaluate Sampler Controller Scenarios Program DataIndex.
Import ListNotations.

(** ** The script *)

(** The status a Python process ends with when an exception escapes:
    [code] for [SystemExit(code)], [1] for any other uncaught exception
    (after its traceback) and, for [KeyboardInterrupt], the [128 + 2] of
    a process killed by [SIGINT]. *)
Definition exit_status (e : exn) : Z :=
  match e with
  | SystemExit code => code
  | KeyboardInterrupt => 130
  | _ => 1
  end.

(** How a run of the process ends: with a status and the file system
    then, still training when the passes given to [main] ran out, or
    outside the model (a namespace value [Args.t] does not represent). *)
Inductive proc_end : Type :=
| Ended (code : Z) (fs : fsys)
| Running (fs : fsys)
| Unrepresented.

(** How the file is started.  [python train.py] runs it as a top-level
    script, where the relative imports of lines 14-16 raise [ImportError]
    ("attempted relative import with no known parent package");
    [python -m <package>.train] runs it as [__main__] inside its
    package, where they succeed. *)
Inductive launch : Type :=
| AsFile
| AsModule.

(** [main()]'s result as the end of the process: [exit(code)] was turned
    into [Exited code] by [main]; an exception that escapes [main] ends
    the process through [exit_status]. *)
Definition end_of_main (r : res outcome) (fs : fsys) : proc_end :=
  match r with
  | Ok (Exited code) => Ended code fs
  | Ok StillTraining => Running fs
  | Raise e => Ended (exit_status e) fs
  end.

Section Script.
Context {P : Type} `{ModelInit P} `{RecModel P}.
Variable py_str_float : Q -> string.
Variable rng : Z -> Z.
Variable worker_seed : nat -> Z.
Variable queue_size retries : nat.
(** The parsed dataset files, by name. *)
Variable source : string -> RawData.

Abbreviation setup := (@module_setup (index_loader source) P _ py_str_float rng worker_seed queue_size retries).

(** The process started by [how] with the command line [argv], the file
    system [fs] and [fuel] passes of the training loop: the imports
    (lines 7-16), [parse_args] (line 50), the module body (lines 51-76)
    over the dataset index and the [__main__] block (153-157), which
    creates the checkpoint directory and calls [main()]. *)
Definition run_script (how : launch) (argv : list string) (fs : fsys) (fuel : nat) : proc_end :=
  match how with
  | AsFile => Ended (exit_status ImportError) fs
  | AsModule =>
      match parse_args argv with
      | Raise e => Ended (exit_status e) fs
      | Ok ns =>
          match to_args ns with
          | None => Unrepresented
          | Some a =>
              match @run_module (index_loader source) P _ py_str_float rng worker_seed queue_size retries _
                      "__main__" a fs fuel with
              | Ok (_, _, fs', Some (r, _)) => end_of_main r fs'
              | Ok (_, _, fs', None) => Ended 0 fs'
              | Raise e => Ended (exit_status e) fs
              end
          end
      end
  end.

(** C32: Started as [python train.py], the process exits with status 1
    at the relative import of line 14, before anything else.  Started as
    [python -m <package>.train] it ends in one of these ways: a usage
    error of the command line (status 2) or [-h] (status 0), with nothing
    of the module run; a [DataError] (status 1) when the dataset named by
    [--data] is malformed or has a user with fewer than three
    interactions; an [OSError] of [os.mkdir] (status 1) when the
    checkpoint directory is absent and its parent is not a writable
    directory; in these cases the file system is untouched.  Otherwise
    the checkpoint directory exists and the status is the end of
    [main()] run from the initial state on the module's globals (or it
    is still training). *)
Theorem script_outcomes (how : launch) (argv : list string) (fs : fsys) (fuel : nat) :
  match run_script how argv fs fuel with
  | Unrepresented => how = AsModule /\ exists ns, parse_args argv = Ok ns /\ to_args ns = None
  | Ended code fs' =>
      (how = AsFile /\ code = 1%Z /\ fs' = fs) \/
      (how = AsModule /\ code = 2%Z /\ parse_args argv = Raise (SystemExit 2) /\ fs' = fs) \/
      (how = AsModule /\ code = 0%Z /\ parse_args argv = Raise (SystemExit 0) /\ fs' = fs) \/
      (how = AsModule /\ code = 1%Z /\ fs' = fs /\
         exists ns a m, parse_args argv = Ok ns /\ to_args ns = Some a /\
         setup a = Raise (DataError m) /\
         (well_formed (source (Args.data a)) = false \/ long_enough (source (Args.data a)) = false)) \/
      (how = AsModule /\ code = 1%Z /\ fs' = fs /\
         exists ns a g ev, parse_args argv = Ok ns /\ to_args ns = Some a /\ setup a = Ok (g, ev) /\
         path_exists fs (checkpoint_dir py_str_float a) = false /\
         fs_lookup fs (parent_dir (checkpoint_dir py_str_float a)) <> Some (DirEntry true)) \/
      (how = AsModule /\
         exists ns a g ev, parse_args argv = Ok ns /\ to_args ns = Some a /\ setup a = Ok (g, ev) /\
         mkdir_if_absent (checkpoint_dir py_str_float a) fs = Ok fs' /\
         end_of_main (fst (main_of_globals g fuel)) fs' = Ended code fs')
  | Running fs' =>
      how = AsModule /\
      exists ns a g ev, parse_args argv = Ok ns /\ to_args ns = Some a /\ setup a = Ok (g, ev) /\
         mkdir_if_absent (checkpoint_dir py_str_float a) fs = Ok fs' /\
         fst (main_of_globals g fuel) = Ok StillTraining
  end.
Proof.
  destruct how; [cbn; left; auto|]. unfold run_script. pose proof (parse_args_spec_exits argv) as Hp.
  destruct (parse_args argv) as [ns|e]; cbn in Hp.
  - destruct (to_args ns) as [a|] eqn:Ea; [|eauto].
    pose proof (load_errors (source (Args.data a))) as Hl.
    unfold run_module. destruct (setup a) as [[g ev]|e] eqn:Es.
    + cbn -[module_setup main_of_globals mkdir_if_absent checkpoint_dir].
      pose proof (module_setup_ok _ _ _ _ _ a g ev Es) as (_ & Hcd & _). rewrite Hcd.
      destruct (mkdir_if_absent (checkpoint_dir py_str_float a) fs) as [fs'|e] eqn:Em;
        cbn -[module_setup main_of_globals mkdir_if_absent checkpoint_dir].
      * destruct (main_of_globals g fuel) as [[[code|]|e] st] eqn:Em';
          cbn -[module_setup main_of_globals mkdir_if_absent checkpoint_dir];
          try (do 5 right); split; auto; exists ns, a, g, ev; rewrite Em'; auto.
      * destruct (mkdir_if_absent_raise _ _ _ Em) as [Hx Hpar]. do 4 right. left.
        split; [reflexivity|]. split; [destruct (fs_lookup _ _) as [[[|]|]|]; intuition subst; reflexivity|].
        split; [reflexivity|]. exists ns, a, g, ev. repeat split; auto.
        destruct (fs_lookup _ _) as [[[|]|]|]; intuition (subst; discriminate).
    + cbn -[module_setup main_of_globals mkdir_if_absent checkpoint_dir].
      assert (Hd : (exists m, e = DataError m) /\
                   (well_formed (source (Args.data a)) = false \/ long_enough (source (Args.data a)) = false)).
      { revert Es. unfold module_setup. cbn [data_generator index_loader].
        destruct (load (source (Args.data a))) as [[[[[tr va] te] ni] nu]|e']; cbn; [discriminate|].
        intros [= ->]. exact Hl. }
      destruct Hd as [[m ->] Hw]. do 3 right. left. split; [reflexivity|]. split; [reflexivity|].
      split; [reflexivity|]. exists ns, a, m. repeat split; auto.
  - destruct Hp as [-> | ->]; [right; left|right; right; left]; auto.
Qed.
End Script.

(** ** Runs *)
Module ProcessRuns.
Import Scripted.

Definition with_epochs (a : Args.t) (n : Z) : Args.t := {|
  Args.model := Args.model a; Args.batch_size := Args.batch_size a;
  Args.seq_len := Args.seq_len a; Args.dropout := Args.dropout a;
  Args.l2_reg := Args.l2_reg a; Args.clip := Args.clip a; Args.epochs := n;
  Args.lr := Args.lr a; Args.emsize := Args.emsize a; Args.neg_size := Args.neg_size a;
  Args.worker := Args.worker a; Args.nhid := Args.nhid a; Args.levels := Args.levels a;
  Args.seed := Args.seed a; Args.loss := Args.loss a; Args.data := Args.data a;
  Args.log_interval := Args.log_interval a; Args.eval_interval := Args.eval_interval a;
  Args.ksize := Args.ksize a; Args.num_blocks := Args.num_blocks a;
  Args.num_heads := Args.num_heads a; Args.pos_fixed := Args.pos_fixed a
|}.

Lemma main_reads_three_options_witness :
  Args.dropout args1 = Args.dropout (with_epochs args1 0) /\
  Args.log_interval args1 = Args.log_interval (with_epochs args1 0) /\
  Args.eval_interval args1 = Args.eval_interval (with_epochs args1 0) /\
  main args1 val1 dir1 6 (start spec_script) = main (with_epochs args1 0) val1 dir1 6 (start spec_script).
Proof.
  split; [reflexivity|split; [reflexivity|split; [reflexivity|]]].
  apply main_reads_three_options; reflexivity.
Defined.

(** The script on the two users of [src2] (DataIndex.v), the ranker of
    Evaluate.v and an empty file system, with 3 passes of the loop: how
    it ends. *)
Definition script_status (source : string -> RawData) (argv : list string) : proc_end :=
  @run_script (list Z) Demo.demo_init ToyRanker.toy_model default_float_str lcg Z.of_nat 4 10 source
    AsModule argv Demo.demo_fs 5.

Definition cwd_entry : string * entry := (".", DirEntry true)%string.
Definition new_dir (p : string) : string * entry := (p, DirEntry true).

(** With the default intervals the loop is still training after five
    passes; logging and evaluating at every step, the constant score of
    the ranker stops it (status 0) after the directory was created; a
    value that is not an int exits 2; [-h] exits 0 whatever follows; a
    user with one interaction exits 1 with nothing created;
    [--log_interval 0] exits 1 at the first step, after creating the
    directory; [--data ml/1m] exits 1 at [os.mkdir]; a read-only
    working directory exits 1 there too; [--lr inf] leaves the model;
    [python train.py] exits 1 at the import. *)
Lemma script_runs :
  (script_status source2 ["--data"; "demo"; "--worker"; "2"] =
     Running [new_dir "save_demo_tcn_0.001_0.0_100_0.2"; cwd_entry] /\
   script_status source2 ["--data"; "demo"; "--worker"; "2"; "--log_interval"; "1"; "--eval_interval"; "1"] =
     Ended 0 [new_dir "save_demo_tcn_0.001_0.0_100_0.2"; cwd_entry] /\
   script_status source2 ["--batch_size"; "x"] = Ended 2 [cwd_entry] /\
   script_status source2 ["-h"; "--bogus"] = Ended 0 [cwd_entry] /\
   script_status (fun _ => [(0, [1])]%Z) ["--data"; "bad"] = Ended 1 [cwd_entry] /\
   script_status source2 ["--log_interval"; "0"] =
     Ended 1 [new_dir "save_gowalla_tcn_0.001_0.0_100_0.2"; cwd_entry] /\
   script_status (fun _ => source2 "demo") ["--data"; "ml/1m"] = Ended 1 [cwd_entry] /\
   @run_script (list Z) Demo.demo_init ToyRanker.toy_model default_float_str lcg Z.of_nat 4 10 source2
     AsModule [] Demo.ro_fs 5 = Ended 1 Demo.ro_fs /\
   script_status source2 ["--lr"; "inf"] = Unrepresented /\
   @run_script (list Z) Demo.demo_init ToyRanker.toy_model default_float_str lcg Z.of_nat 4 10 source2
     AsFile [] Demo.demo_fs 5 = Ended 1 Demo.demo_fs)%string.
Proof. vm_compute. repeat split. Qed.
End ProcessRuns.
